(* ===== verification/_CoqProject ===== *)
-Q . S2P
Prelude.v
GoStrings.v
GoTime.v
Netip.v
Json.v
JsonText.v
Float64.v
GoDuration.v
Sha256.v
GoUrl.v
UrlLemmas.v
UrlFragments.v
Approval.v
ApprovalProps.v
Database.v
Tables.v
Store.v
Writes.v
Refinement.v
Migrate.v
Invariant.v
Reading.v
StoreProps.v
ObserveProps.v
QueryProps.v
AdminProps.v
OpenProps.v
Dsn.v
ControlPlane.v
SyncRun.v
NoPanic.v
SyncProps.v
PolicyProps.v
EndpointProps.v
LoopProps.v
RateLimit.v
FloatFacts.v
RateFacts.v
RateProps.v
Semaphore.v
Proxy.v
ProxyProps.v
Lifecycle.v
SdNotify.v
