(* ===== verification/Prelude.v ===== *)
(** * gatekit: a verification library of its store, its synchroniser and its servers

    gatekit is a Go library shared by network gates (SSH, TLS) that admit or
    refuse clients by the fingerprint of their handshake.  Its parts under src/:

    - approval/scope.go: a set of client CIDRs that may restrict an approval;
    - store/: the SQLite store of observed fingerprints and operator verdicts
      (store.go), its limits and pages (limits.go), atomic policy batches
      (decisions.go), the migration of pre-gatekit databases (legacy.go), the
      texts of times (time.go) and error-joining helpers (cleanup.go);
    - controlplane/: a client that pushes the store's pages to a hub and applies
      the decisions it pulls;
    - ratelimit/: a token bucket per client; semaphore/: a bound on concurrent
      connections; proxy/: routes, accept loops and draining; lifecycle/: signals
      and binary upgrades; sdnotify/: the message to systemd.

    The gate's hot path calls Allow, then Observe and Get; operators call SetStatus,
    UpsertStatus, SetLabel, Delete and ResolveFingerprint; the control plane calls
    LastFingerprint, ListPage and ApplyDecisions; Open runs the migrations once;
    Serve takes a slot of the semaphore for every connection it hands on.

    ** Files

    Shared:
    - Prelude.v: Go errors and results (a panic is a result of its own), endless
      sequences, 64-bit integers, list and sorting lemmas, the hint database [gate].
    - GoStrings.v, GoTime.v, Netip.v, GoDuration.v, GoUrl.v, UrlLemmas.v, UrlFragments.v,
      Sha256.v, Float64.v, FloatFacts.v, JsonText.v: the parts of Go's standard library the
      code uses (strings, strconv, net.SplitHostPort; RFC 3339 times;
      net/netip; time.ParseDuration; net/url; crypto/sha256; float64 as IEEE 754
      binary64 with the rounding lemmas its users need; the text of JSON strings and
      objects), as executable functions.  GoTime.v also holds store/time.go.
    - Json.v: encoding/json as an interface, the class [JSONCodec] with the laws
      [JSONLaws]; [PlainJSON] is a concrete codec that satisfies them, with which
      the examples are evaluated.

    The store:
    - Approval.v, ApprovalProps.v: approval/scope.go.
    - Database.v: the tables as finite maps ([DB]), and the monad [M] the methods
      run in.  A [World] is the committed database, the writer's open transaction,
      the clock and a script of faults: each call that leaves the process consumes
      one entry and may fail.  [reads], [runs], [implements] and [atomic] relate a
      program to a pure function on the database under every script.
    - Tables.v: each SQL statement of the source as a function on [DB].
    - Store.v, Writes.v, Migrate.v: the methods, in the shape of the Go code:
      reading; writing; schema, migrations and Open.  Dsn.v: the data source names.
    - Refinement.v: what each method does as a pure function, and the proof that
      it does it (all of it on success, none of it on error).
    - Invariant.v: the methods as one type of calls, relations every call follows,
      and well-formedness of the database ([wf]).
    - Reading.v: the lemmas on grouped sweeps, pages and LIKE patterns.
    - StoreProps.v, ObserveProps.v, QueryProps.v, AdminProps.v, OpenProps.v: the
      properties.

    The control plane:
    - ControlPlane.v: controlplane.go and its cleanup.go.  A Syncer's methods run in
      a monad [SyncM] over a [SyncWorld]: the Syncer, the store's [World], what
      other goroutines commit before each of its store calls ([sw_others], without
      end), the outcomes of all requests to come ([sw_net]) and the log of those
      made, the checks of the context, and the trusted ranges in force.
    - SyncRun.v: what each method does, proved against the store through
      [implements] and [atomic] of Database.v; the loop over the pages ends.
    - NoPanic.v: no step of a push or a pull panics.
    - SyncProps.v, PolicyProps.v, EndpointProps.v, LoopProps.v: the properties of
      pushing, of pulling, of configuration and endpoints, and of the loop of Run.

    The connection side:
    - RateLimit.v: ratelimit.go.  RateFacts.v: one client's bucket in isolation and
      its arithmetic.  RateProps.v: the properties.
    - Semaphore.v: semaphore.go.  Proxy.v: proxy.go; the server is a state with a
      phase per goroutine and a function [server_step] for every event another
      goroutine can observe, so a list of events is an interleaving and [reachable]
      the states of all interleavings.  ProxyProps.v: the properties.
    - Lifecycle.v: lifecycle.go in the same style, with its property.
    - SdNotify.v: sdnotify.go and its cleanup.go.

    ** Correspondence

    A Go method [Store.F] is the definition [F] ([List_] and [Delete_fp] avoid a
    clash of names, [PolicyDecision] is store.Decision).  A row of fingerprints is
    an [FpRow]; times, metadata and scopes are kept as the texts the columns hold,
    so the text order the ORDER BY clauses use, and a row that does not decode,
    are in the model.  A nil Go map is [None], and so is a nil pointer to a limiter
    or a semaphore.  Deferred calls are combinators around the body
    ([closeWithError], [rollbackTransaction], [close_legacy_rows],
    [cp_closeWithError]) or, for a goroutine of the server, its last phases.  The
    constructors named New are [approval_New], [controlplane_New], [ratelimit_New],
    [semaphore_New] and [lifecycle_New].

    ** What is shown

    - Transactions: ApplyDecisions, Observe, PruneToLimit and ResetFingerprints
      are all or nothing under any faults; Open and ReconcileFingerprintMethod,
      which are several transactions, can be interrupted without losing a verdict
      and are completed by the next run.
    - Verdicts: no method but ApplyDecisions broadens a scoped approval; a verdict
      set before the first sighting survives it; approved rows are never evicted.
    - The invariant [wf] holds in every reachable database, and on it reading is
      total: Get, List and ListPage agree.
    - Observe returns the row and the history it wrote, bounded by 128 values.
    - Scopes and times survive storage; a scope admits exactly its ranges.
    - Synchronising: a push uploads exactly what changed and records as
      acknowledged only what an accepted batch contained; a pull applies a policy
      with its cursor or not at all; a restart resumes at the same cursor, a cleared
      store starts over; a gate
      without support for scopes never stores one; requests stay on the configured
      host and are read back exactly; every cycle ends, and only the context ends the
      loop.
    - Limiting: the limiter is one independent bucket per client; sweeping changes
      no answer; a burst is exactly [burst] calls; memory and tokens are bounded.
    - Serving: never more handlers than slots, no connection lost; when Drain
      answers true everything has finished, and a drain always comes to its end.
    - Signals: each has its effect once, whatever Close interleaves with.
    - Divergences, as theorems about the modelled code: eviction order inside one
      second, case-insensitive prefixes, a panic on null metadata, fragments in the
      hub's URL, escaped slashes in its path, keys of addresses with a zone, ports
      that are not checked, and a terminating signal lost in the full channel.

    ** Bounds and assumptions

    Recursion is structural except for: number printing, whose fuel is the number
    of bits plus one, enough because each step divides by ten; ParseDuration, whose
    fuel is the length of its text, enough because every part consumes a byte
    ([duration_parts_fuel]); and the loop over pages, which other goroutines can
    prolong: [push_pages_terminates] shows that, if up to the bound LastFingerprint
    gave they add fingerprints of a finite set only, one turn for each of those and
    one more are enough, and more fuel changes nothing.  (Without that premise the
    loop need not end: texts of any length fit below a bound.  It holds when the
    length of fingerprints is bounded, [short_fingerprints_orderly].)  Running out
    of fuel is an error of the kind of a panic, which no later step swallows, so no
    statement about a result can profit from it.

    SQLite is third-party code: a statement takes effect as written or reports an
    error and changes nothing; a transaction is visible as a whole once COMMIT
    succeeds and not at all otherwise; unordered queries return rows in any order
    ([RowOrder]).  A fault is an error return; a process crash between two calls is
    the same as a fault in every later call.  Store methods run one after another:
    the writer is a single connection, and interleaved readers see committed
    databases only.  Integer columns are unbounded here (SQLite stores 64 bits; a
    count grows by one per observation).

    The network is an endless sequence of outcomes; a reply carries the result of decoding its
    JSON body.  A mutex makes the methods it guards single steps.  Products and sums
    of float64 are rounded separately, as Go does on amd64.  A WaitGroup is its
    counter, a channel its content; a select picks any ready case.

    ** Not modelled

    What SQLite makes of the DSN and of the pools' sizes; the log output of the
    store and the control plane; the mutex around a push, which only keeps two pushes
    apart; TLS itself; tableflip, to which Manager.Listen, Ready and Wait forward;
    handlers that panic, and a second Drain of one server. *)

From stdpp Require Export base tactics option list gmap strings sorting.
From stdpp Require Import pretty.
From Stdlib Require Export ZArith Lia.

#[export] Set Warnings "-clear-no-such-hyp".
#[global] Open Scope Z_scope.

Declare Scope gate_scope.
Delimit Scope gate_scope with gate.

(** ** Go errors and results *)

(** Values of Go's [error] interface the packages build: a message with the
    arguments it formats, a [%w] wrapping, an [errors.Join] of two errors, the
    two sentinel values of database/sql, and whatever a driver or the network
    reports.  A run-time panic is an outcome of its own. *)
Inductive GoError :=
  | ErrText (msg : string) (args : list string)
  | ErrWrap (context : string) (inner : GoError)
  | ErrJoin (first second : GoError)
  | ErrNoRows
  | ErrTxDone
  | ErrDriver (msg : string)
  | ErrPanic (msg : string).

(** A Go call that returns [(A, error)]. *)
Inductive result (A : Type) :=
  | Ok (a : A)
  | Err (e : GoError).
Arguments Ok {A} a.
Arguments Err {A} e.

#[global] Instance result_ret : MRet result := fun A a => Ok a.
#[global] Instance result_bind : MBind result := fun A B f m =>
  match m with
  | Ok a => f a
  | Err e => Err e
  end.

Definition is_ok {A} (r : result A) : bool :=
  match r with
  | Ok _ => true
  | Err _ => false
  end.

(** ** Endless sequences

    What the surroundings of a program do step by step, without end: the first
    element is the next one due. *)
Definition stream (A : Type) : Type := nat -> A.

Definition s_tail {A} (s : stream A) : stream A := fun n => s (S n).

(** The first elements given, the others all alike. *)
Definition s_list {A} (l : list A) (rest : A) : stream A := fun n => nth n l rest.

Fixpoint s_drop {A} (k : nat) (s : stream A) : stream A :=
  match k with
  | O => s
  | S k => s_drop k (s_tail s)
  end.

Lemma s_drop_lookup {A} k (s : stream A) n : s_drop k s n = s (k + n)%nat.
Proof. revert s. induction k as [|k IH]; intros s; [done|]. apply IH. Qed.

Lemma s_drop_add {A} j k (s : stream A) : s_drop (j + k) s = s_drop k (s_drop j s).
Proof. revert s. induction j as [|j IH]; intros s; [done|]. apply IH. Qed.

(** [errors.Join] of two operands: nil operands are dropped, and joining nothing
    is nil. *)
Definition errors_Join (e1 e2 : option GoError) : option GoError :=
  match e1, e2 with
  | Some a, Some b => Some (ErrJoin a b)
  | Some a, None => Some a
  | None, _ => e2
  end.

(** ** Machine integers *)

Definition int64_max : Z := 9223372036854775807.
Definition int64_min : Z := -9223372036854775808.

(** Two's complement wrap-around of a 64-bit signed integer. *)
Definition wrap64 (z : Z) : Z :=
  (z + 9223372036854775808) mod 18446744073709551616 - 9223372036854775808.

(** Saturation, as [time.Time.Sub] does. *)
Definition sat64 (z : Z) : Z := Z.max int64_min (Z.min int64_max z).

Lemma wrap64_id z : int64_min <= z <= int64_max -> wrap64 z = z.
Proof.
  unfold wrap64, int64_min, int64_max; intros H.
  rewrite Z.mod_small; lia.
Qed.

Lemma wrap64_range z : int64_min <= wrap64 z <= int64_max.
Proof.
  unfold wrap64, int64_min, int64_max.
  pose proof (Z.mod_pos_bound (z + 9223372036854775808) 18446744073709551616).
  lia.
Qed.

Lemma sat64_id z : int64_min <= z <= int64_max -> sat64 z = z.
Proof. unfold sat64; lia. Qed.

Lemma sat64_range z : int64_min <= sat64 z <= int64_max.
Proof. unfold sat64, int64_min, int64_max; lia. Qed.

(** Linear arithmetic with [/] and [mod] by constants. *)
Ltac zlia := Z.to_euclidean_division_equations; lia.

(** A finite range of integers, for checks by computation. *)
Definition zrange (n : nat) : list Z := map Z.of_nat (List.seq 0 n).

Lemma zrange_forall (n : nat) (f : Z -> bool) (z : Z) :
  forallb f (zrange n) = true -> 0 <= z < Z.of_nat n -> f z = true.
Proof.
  intros H Hz. rewrite forallb_forall in H. apply H. unfold zrange.
  apply in_map_iff. exists (Z.to_nat z). split; [lia|]. apply in_seq. lia.
Qed.

(** ** Case analysis on results *)

(** Destruct the innermost match or if a hypothesis is stuck on. *)
Ltac split_match H :=
  match type of H with
  | context [match ?x with _ => _ end] =>
      lazymatch x with
      | context [match _ with _ => _ end] => fail
      | _ => destruct x eqn:?; simplify_eq/=
      end
  end.

Ltac split_matches H := repeat split_match H.

(** The same for the goal. *)
Ltac split_goal :=
  match goal with
  | |- context [match ?x with _ => _ end] =>
      lazymatch x with
      | context [match _ with _ => _ end] => fail
      | _ => destruct x eqn:?; simplify_eq/=
      end
  end.

(** ** Lists *)

Lemma length_filter_le {A} (P : A -> Prop) `{!forall x, Decision (P x)} (l : list A) :
  (length (filter P l) <= length l)%nat.
Proof. induction l; [done|]. rewrite filter_cons. case_decide; simpl; lia. Qed.

Lemma length_filter_split {A} (P : A -> Prop) `{!forall x, Decision (P x)} (l : list A) :
  (length (filter P l) + length (filter (fun x => ~ P x) l) = length l)%nat.
Proof.
  induction l as [|x l IH]; [done|]. rewrite !filter_cons.
  destruct (decide (P x)), (decide (~ P x)); simpl; try lia; tauto.
Qed.

Lemma list_filter_iff_elem {A} (P Q : A -> Prop) `{!forall x, Decision (P x)}
    `{!forall x, Decision (Q x)} (l : list A) :
  (forall x, x ∈ l -> P x <-> Q x) -> filter P l = filter Q l.
Proof.
  induction l as [|x l IH]; intros Hpq; [done|].
  rewrite !filter_cons, IH by (intros y Hy; apply Hpq; by right).
  destruct (Hpq x ltac:(by left)). by destruct (decide (P x)), (decide (Q x)); tauto.
Qed.

(** The sublist [take n l] followed by [drop n l] when both are needed. *)
Lemma elem_of_take_drop {A} (n : nat) (l : list A) x :
  x ∈ l <-> x ∈ take n l \/ x ∈ drop n l.
Proof. rewrite <- (take_drop n l) at 1. by rewrite elem_of_app. Qed.

(** A duplicate-free list has no common element between a prefix and the rest. *)
Lemma NoDup_take_drop {A} (n : nat) (l : list A) x :
  NoDup l -> x ∈ take n l -> x ∈ drop n l -> False.
Proof.
  rewrite <- (take_drop n l) at 1.
  intros (_ & H & _)%NoDup_app Ht Hd. by apply (H x).
Qed.

(** In a sorted list, everything kept by [take] is below everything dropped. *)
Lemma StronglySorted_take_drop {A} (R : A -> A -> Prop) (n : nat) (l : list A) x y :
  StronglySorted R l -> x ∈ take n l -> y ∈ drop n l -> R x y.
Proof.
  rewrite <- (take_drop n l) at 1. intros Hs Hx Hy.
  by apply (StronglySorted_app_1_elem_of R (take n l) (drop n l)).
Qed.

(** Two strictly sorted lists with the same elements are equal. *)
Lemma ssorted_ext {A} (R : A -> A -> Prop) `{!StrictOrder R} (l1 l2 : list A) :
  StronglySorted R l1 -> StronglySorted R l2 -> (forall x, x ∈ l1 <-> x ∈ l2) -> l1 = l2.
Proof.
  assert (AntiSymm (=) R).
  { intros x y H1 H2. destruct (irreflexivity R x). by transitivity y. }
  assert (forall l, StronglySorted R l -> NoDup l) as Hnd.
  { induction 1 as [|x l _ IH Hall]; constructor; [|done]. intros Hin.
    rewrite Forall_forall in Hall. by destruct (irreflexivity R x); apply Hall. }
  intros H1 H2 Heq. apply (StronglySorted_unique R); [done..|].
  apply NoDup_Permutation; auto.
Qed.

Lemma ssorted_NoDup {A} (R : A -> A -> Prop) `{!StrictOrder R} (l : list A) :
  StronglySorted R l -> NoDup l.
Proof.
  induction 1 as [|x l _ IH Hall]; constructor; [|done]. intros Hin.
  rewrite Forall_forall in Hall. by destruct (irreflexivity R x); apply Hall.
Qed.

Lemma ssorted_take {A} (R : A -> A -> Prop) (n : nat) (l : list A) :
  StronglySorted R l -> StronglySorted R (take n l).
Proof. rewrite <- (take_drop n l) at 1. apply StronglySorted_app_1_l. Qed.

Lemma ssorted_drop {A} (R : A -> A -> Prop) (n : nat) (l : list A) :
  StronglySorted R l -> StronglySorted R (drop n l).
Proof. rewrite <- (take_drop n l) at 1. apply StronglySorted_app_1_r. Qed.

Lemma ssorted_sublist {A} (R : A -> A -> Prop) (l1 l2 : list A) :
  sublist l1 l2 -> StronglySorted R l2 -> StronglySorted R l1.
Proof.
  induction 1 as [|x l1 l2 Hl IH|x l1 l2 Hl IH]; intros Hs; [done|..]; inversion Hs as [|? ? Hs' Hx]; subst; auto.
  constructor; [auto|]. rewrite Forall_forall in *. intros y Hy. apply Hx.
  eapply elem_of_submseteq; [exact Hy|by apply sublist_submseteq].
Qed.

Lemma ssorted_filter {A} (R : A -> A -> Prop) (P : A -> Prop) `{!forall x, Decision (P x)}
    (l : list A) :
  StronglySorted R l -> StronglySorted R (filter P l).
Proof.
  induction 1 as [|x l Hs IH Hall]; [constructor|]. rewrite filter_cons.
  case_decide; [|done]. constructor; [done|].
  rewrite Forall_forall in *. intros y [_ Hy]%list_elem_of_filter. auto.
Qed.

(** ** Sorting by a strict total order *)

(** [ORDER BY] with a total key: any two distinct elements are ordered. *)
Class StrictTotal {A} (lt : A -> A -> Prop) := {
  strict_total_order :: StrictOrder lt;
  strict_total_tri x y : lt x y \/ x = y \/ lt y x
}.

Section sort_by.
Context {A} (lt : A -> A -> Prop) `{!StrictTotal lt} `{!RelDecision lt}.

Definition not_above (x y : A) : Prop := ~ lt y x.

#[local] Instance not_above_dec : RelDecision not_above.
Proof. intros x y. unfold not_above. apply _. Defined.

Definition sort_by (l : list A) : list A := merge_sort not_above l.

Lemma not_above_le x y : not_above x y <-> lt x y \/ x = y.
Proof.
  unfold not_above. split.
  - intros H. destruct (strict_total_tri x y) as [?|[?|?]]; tauto.
  - intros [H| ->] H'; [|by apply (irreflexivity lt) in H'].
    apply (irreflexivity lt x). by transitivity y.
Qed.

#[local] Instance not_above_total : Total not_above.
Proof. intros x y. rewrite !not_above_le. destruct (strict_total_tri x y); naive_solver. Qed.

#[local] Instance not_above_trans : Transitive not_above.
Proof.
  intros x y z. rewrite !not_above_le. intros [H1| ->]; [|done].
  intros [H2| ->]; [|by left]. left. by transitivity y.
Qed.

Lemma sort_by_perm l : sort_by l ≡ₚ l.
Proof. apply merge_sort_Permutation. Qed.

Lemma elem_of_sort_by l x : x ∈ sort_by l <-> x ∈ l.
Proof. by rewrite sort_by_perm. Qed.

Lemma length_sort_by l : List.length (sort_by l) = List.length l.
Proof. by rewrite sort_by_perm. Qed.

Lemma sort_by_sorted l : NoDup l -> StronglySorted lt (sort_by l).
Proof.
  intros Hnd. assert (NoDup (sort_by l)) as Hnd' by (by rewrite sort_by_perm).
  pose proof (StronglySorted_merge_sort not_above l) as Hs. fold (sort_by l) in Hs.
  induction Hs as [|x l' Hs IH Hall]; constructor; apply NoDup_cons in Hnd' as [Hni Hnd'];
    [by apply IH|].
  rewrite Forall_forall in *. intros y Hy. specialize (Hall y Hy).
  apply not_above_le in Hall as [?| ->]; done.
Qed.

(** Any strictly sorted list with the same elements is the sort. *)
Lemma sort_by_unique l l' :
  NoDup l -> StronglySorted lt l' -> (forall x, x ∈ l' <-> x ∈ l) -> sort_by l = l'.
Proof.
  intros Hnd Hs Heq. apply (ssorted_ext lt); [by apply sort_by_sorted|done|].
  intros x. by rewrite elem_of_sort_by, Heq.
Qed.
End sort_by.

#[export] Instance Zlt_strict_total : StrictTotal Z.lt.
Proof. split; [split|]; [intros x; red; lia|intros x y z; lia|intros; lia]. Qed.

(** ** Hint database of the development *)

Create HintDb gate.
#[export] Hint Resolve wrap64_range sat64_range : gate.
