(* ===== verification/GoStrings.v ===== *)
(** Go strings as byte strings: the parts of the packages strings, strconv and
    net (host:port splitting) that the gatekit sources call, together with the
    byte order that Go's [<] and SQLite's BINARY collation share. *)

From S2P Require Import Prelude.
From Stdlib Require Import Ascii String.
From stdpp Require Import strings.
#[local] Open Scope stdpp_scope.
#[local] Open Scope Z_scope.

(** [len(s)], in bytes. *)
Definition str_len (s : string) : Z := Z.of_nat (String.length s).

Definition byte_of (c : ascii) : Z := Z.of_N (N_of_ascii c).

(** ** The byte order *)

(** [a < b] on Go strings; SQLite compares TEXT the same way (memcmp). *)
Definition str_lt (a b : string) : Prop := String.compare a b = Lt.
Definition str_ltb (a b : string) : bool := String.ltb a b.

#[export] Instance str_lt_dec : RelDecision str_lt.
Proof. intros a b. unfold str_lt. apply _. Defined.

Lemma str_ltb_lt a b : str_ltb a b = true <-> str_lt a b.
Proof. unfold str_ltb, str_lt, String.ltb. by destruct (String.compare a b). Qed.

Lemma str_compare_refl a : String.compare a a = Eq.
Proof.
  induction a as [|c a IH]; simpl; [done|].
  unfold Ascii.compare. by rewrite N.compare_refl.
Qed.

Lemma str_le_lt a b : String.le a b <-> str_lt a b \/ a = b.
Proof.
  unfold String.le, String.leb, str_lt. split.
  - destruct (String.compare a b) eqn:E; [right|left|]; try done.
    by apply String.compare_eq_iff.
  - intros [-> | ->]; [done|]. by rewrite str_compare_refl.
Qed.

Lemma str_lt_le a b : str_lt a b -> String.le a b.
Proof. rewrite str_le_lt; auto. Qed.

Lemma str_lt_irrefl a : ~ str_lt a a.
Proof. unfold str_lt. by rewrite str_compare_refl. Qed.

Lemma str_not_lt a b : ~ str_lt a b <-> String.le b a.
Proof.
  rewrite str_le_lt. unfold str_lt. rewrite (String.compare_antisym b a).
  destruct (String.compare a b) eqn:E; simpl; split; auto; try done.
  - intros _. right. symmetry. by apply String.compare_eq_iff.
  - intros [?| ->]; [done|]. by rewrite str_compare_refl in E.
Qed.

Lemma str_lt_trans a b c : str_lt a b -> str_lt b c -> str_lt a c.
Proof.
  intros H1 H2. destruct (decide (str_lt a c)) as [?|H]; [done|].
  apply str_not_lt in H. assert (a = b) as ->.
  { apply (anti_symm String.le); [by apply str_lt_le|]. etrans; [|done]. by apply str_lt_le. }
  by apply str_lt_irrefl in H1.
Qed.

#[export] Instance str_lt_strict : StrictOrder str_lt.
Proof. split; [intros a; apply str_lt_irrefl | intros a b c; apply str_lt_trans]. Qed.

#[export] Instance str_lt_total : StrictTotal str_lt.
Proof.
  split; [apply _|]. intros a b. destruct (decide (str_lt a b)) as [?|H%str_not_lt]; [auto|].
  apply str_le_lt in H as [?| ->]; auto.
Qed.

Lemma str_le_lt_trans a b c : String.le a b -> str_lt b c -> str_lt a c.
Proof. rewrite str_le_lt. intros [?| ->]; [by apply str_lt_trans|done]. Qed.

Lemma str_lt_le_trans a b c : str_lt a b -> String.le b c -> str_lt a c.
Proof. rewrite str_le_lt. intros ? [?| ->]; [by eapply str_lt_trans|done]. Qed.

(** The empty string is below every other one. *)
Lemma str_lt_empty a : a <> "" -> str_lt "" a.
Proof. by destruct a. Qed.

(** Comparison of strings that start with the same number of bytes. *)
Lemma str_compare_app a b x y :
  String.length a = String.length b ->
  String.compare (a +:+ x) (b +:+ y) =
    match String.compare a b with Eq => String.compare x y | c => c end.
Proof.
  revert b. induction a as [|c a IH]; intros [|d b]; simpl; try done; intros [= H].
  destruct (Ascii.compare c d); auto.
Qed.

(** ** Appending *)

Lemma app_nil_l s : "" +:+ s = s.
Proof. done. Qed.
Lemma app_nil_r s : s +:+ "" = s.
Proof. induction s as [|c s IH]; [done|]. simpl. unfold String.append; fold String.append. by rewrite IH. Qed.
Lemma app_cons c s t : String c s +:+ t = String c (s +:+ t).
Proof. done. Qed.
Lemma app_assoc s t u : (s +:+ t) +:+ u = s +:+ (t +:+ u).
Proof. induction s as [|c s IH]; [done|]. by rewrite !app_cons, IH. Qed.
Lemma length_app s t : String.length (s +:+ t) = (String.length s + String.length t)%nat.
Proof. induction s as [|c s IH]; [done|]. rewrite app_cons. simpl. by rewrite IH. Qed.

(** ** Searching and cutting *)

(** [bytealg.IndexByteString(s, c) >= 0] *)
Fixpoint has_byte (c : ascii) (s : string) : bool :=
  match s with
  | EmptyString => false
  | String a r => if decide (a = c) then true else has_byte c r
  end.

(** [strings.Cut] at a one-byte separator: around its first occurrence. *)
Fixpoint cut_byte (c : ascii) (s : string) : option (string * string) :=
  match s with
  | EmptyString => None
  | String a r =>
      if decide (a = c) then Some ("", r)
      else match cut_byte c r with
           | Some (x, y) => Some (String a x, y)
           | None => None
           end
  end.

(** Around the last occurrence of the byte, as with [LastIndexByteString]. *)
Fixpoint last_cut_byte (c : ascii) (s : string) : option (string * string) :=
  match s with
  | EmptyString => None
  | String a r =>
      match last_cut_byte c r with
      | Some (x, y) => Some (String a x, y)
      | None => if decide (a = c) then Some ("", r) else None
      end
  end.

Lemma has_byte_app c s t : has_byte c (s +:+ t) = has_byte c s || has_byte c t.
Proof.
  induction s as [|a s IH]; [done|]. rewrite app_cons; simpl. by case_decide.
Qed.

Lemma cut_byte_None c s : cut_byte c s = None <-> has_byte c s = false.
Proof.
  induction s as [|a s IH]; simpl; [done|]. case_decide; [done|].
  rewrite <- IH. by destruct (cut_byte c s) as [[??]|].
Qed.

Lemma cut_byte_Some c s x y :
  cut_byte c s = Some (x, y) <-> s = x +:+ String c y /\ has_byte c x = false.
Proof.
  revert x y. induction s as [|a s IH]; intros x y; simpl.
  { split; [done|]. intros [H _]. by destruct x. }
  case_decide as Ha.
  - subst. split.
    + by intros [= <- <-].
    + destruct x as [|b x]; rewrite ?app_nil_l, ?app_cons; simpl.
      * by intros [[= ->] _].
      * intros [[= -> ->] H]. by rewrite decide_True in H.
  - destruct (cut_byte c s) as [[x' y']|] eqn:E.
    + destruct (proj1 (IH x' y')) as [-> Hx']; [done|]. split.
      * intros [= <- <-]. simpl. by rewrite decide_False.
      * destruct x as [|b x]; rewrite ?app_nil_l, ?app_cons.
        { by intros [[= ->] _]. }
        simpl. intros [[= -> Heq] Hx]. rewrite decide_False in Hx by done.
        assert (Some (x', y') = Some (x, y)) as [= -> ->]; [|done].
        by apply IH.
    + split; [done|]. destruct x as [|b x]; rewrite ?app_nil_l, ?app_cons.
      { by intros [[= ->] _]. }
      simpl. intros [[= -> ->] Hx]. rewrite decide_False in Hx by done.
      assert (None = Some (x, y)) by (by apply IH). done.
Qed.

Lemma last_cut_byte_None c s : last_cut_byte c s = None <-> has_byte c s = false.
Proof.
  induction s as [|a s IH]; simpl; [done|].
  case_decide; rewrite <- ?IH; by destruct (last_cut_byte c s) as [[??]|].
Qed.

Lemma last_cut_byte_app c x y :
  has_byte c y = false -> last_cut_byte c (x +:+ String c y) = Some (x, y).
Proof.
  intros Hy. induction x as [|a x IH]; rewrite ?app_nil_l, ?app_cons; simpl.
  - apply last_cut_byte_None in Hy as ->. by rewrite decide_True.
  - by rewrite IH.
Qed.

(** [strings.Join(parts, sep)] *)
Fixpoint str_join (sep : string) (parts : list string) : string :=
  match parts with
  | [] => ""
  | [p] => p
  | p :: rest => p +:+ sep +:+ str_join sep rest
  end.

(** ** strings.TrimSpace *)

Definition is_ascii_space (a : ascii) : bool :=
  let n := byte_of a in (n =? 32) || ((9 <=? n) && (n <=? 13)).

(** U+0085 and U+00A0 in UTF-8. *)
Definition is_space2 (a b : ascii) : bool :=
  (byte_of a =? 194) && ((byte_of b =? 133) || (byte_of b =? 160)).

(** The other white space runes of unicode.IsSpace: U+1680, U+2000..U+200A,
    U+2028, U+2029, U+202F, U+205F and U+3000. *)
Definition is_space3 (a b c : ascii) : bool :=
  let x := byte_of a in let y := byte_of b in let z := byte_of c in
  ((x =? 225) && (y =? 154) && (z =? 128)) ||
  ((x =? 226) && (y =? 128) &&
     (((128 <=? z) && (z <=? 138)) || (z =? 168) || (z =? 169) || (z =? 175))) ||
  ((x =? 226) && (y =? 129) && (z =? 159)) ||
  ((x =? 227) && (y =? 128) && (z =? 128)).

Fixpoint trim_left (s : string) : string :=
  match s with
  | EmptyString => ""
  | String a r1 =>
      if is_ascii_space a then trim_left r1
      else match r1 with
           | EmptyString => s
           | String b r2 =>
               if is_space2 a b then trim_left r2
               else match r2 with
                    | EmptyString => s
                    | String c r3 => if is_space3 a b c then trim_left r3 else s
                    end
           end
  end.

(** The same from the end, on the reversed bytes. *)
Fixpoint trim_left_rev (s : string) : string :=
  match s with
  | EmptyString => ""
  | String c r1 =>
      if is_ascii_space c then trim_left_rev r1
      else match r1 with
           | EmptyString => s
           | String b r2 =>
               if is_space2 b c then trim_left_rev r2
               else match r2 with
                    | EmptyString => s
                    | String a r3 => if is_space3 a b c then trim_left_rev r3 else s
                    end
           end
  end.

Definition trim_right (s : string) : string := String.rev (trim_left_rev (String.rev s)).

Definition TrimSpace (s : string) : string := trim_right (trim_left s).

Lemma rev_app_app s t u : String.rev_app (s +:+ t) u = String.rev_app t (String.rev_app s u).
Proof. revert u. induction s as [|a s IH]; intros u; [done|]. rewrite app_cons. simpl. apply IH. Qed.

Lemma rev_app_acc s u : String.rev_app s u = String.rev s +:+ u.
Proof.
  unfold String.rev. revert u. induction s as [|a s IH]; intros u; [done|]. simpl.
  rewrite IH, (IH (String a "")), app_assoc. done.
Qed.

Lemma rev_snoc s c : String.rev (s +:+ String c "") = String c (String.rev s).
Proof. unfold String.rev. by rewrite rev_app_app. Qed.

Lemma rev_rev s : String.rev (String.rev s) = s.
Proof.
  induction s as [|a s IH]; [done|]. unfold String.rev at 2. simpl.
  rewrite rev_app_acc, rev_snoc, IH. done.
Qed.

(** Text between braces has no white space around it. *)
Lemma TrimSpace_braces s :
  TrimSpace (String "{" (s +:+ "}")) = String "{" (s +:+ "}").
Proof.
  unfold TrimSpace.
  assert (trim_left (String "{" (s +:+ "}")) = String "{" (s +:+ "}")) as ->.
  { destruct s as [|b [|c s]]; reflexivity. }
  unfold trim_right. rewrite <- app_cons, rev_snoc.
  set (r := String.rev (String "{" s)).
  assert (trim_left_rev (String "}" r) = String "}" r) as ->.
  { clearbody r. destruct r as [|b [|a r]]; [done|..]; simpl; unfold is_space2, is_space3;
      change (byte_of "}") with 125; rewrite !andb_false_r; done. }
  subst r. rewrite <- rev_snoc. apply rev_rev.
Qed.

(** ** Decimal digits: strconv.Itoa and strconv.Atoi *)

Definition digit_char (d : Z) : ascii := ascii_of_N (Z.to_N (48 + d)).

Definition digit_val (c : ascii) : option Z :=
  let n := byte_of c in if (48 <=? n) && (n <=? 57) then Some (n - 48) else None.

Lemma digit_val_char d : 0 <= d <= 9 -> digit_val (digit_char d) = Some d.
Proof.
  intros H. assert (d = 0 \/ d = 1 \/ d = 2 \/ d = 3 \/ d = 4 \/ d = 5 \/ d = 6 \/ d = 7
    \/ d = 8 \/ d = 9) as Hd by lia.
  by repeat destruct Hd as [-> | Hd]; subst.
Qed.

Lemma digit_val_range c d : digit_val c = Some d -> 0 <= d <= 9.
Proof. unfold digit_val. case_match eqn:E; [|done]. intros [= <-]. lia. Qed.

(** Digits of a non-negative number, most significant first, prepended to
    [acc]; one unit of fuel per digit. *)
Fixpoint dec_digits (fuel : nat) (n : Z) (acc : string) : string :=
  match fuel with
  | O => acc
  | S f =>
      if n <? 10 then String (digit_char n) acc
      else dec_digits f (n / 10) (String (digit_char (n mod 10)) acc)
  end.

Definition dec_fuel (n : Z) : nat := S (Z.to_nat (Z.log2 n)).

Definition Itoa (n : Z) : string :=
  if n <? 0 then "-" +:+ dec_digits (dec_fuel (- n)) (- n) "" else dec_digits (dec_fuel n) n "".

(** The digit loop of strconv.ParseUint (base 10): [None] is a syntax error; an
    overflow stops the loop with the maximal value. *)
Fixpoint scan_uint (acc : Z) (s : string) : option Z :=
  match s with
  | EmptyString => Some acc
  | String c r =>
      match digit_val c with
      | None => None
      | Some d =>
          if 18446744073709551615 <? acc * 10 + d then Some 18446744073709551615
          else scan_uint (acc * 10 + d) r
      end
  end.

Definition err_syntax : GoError := ErrText "invalid syntax" [].
Definition err_range : GoError := ErrText "value out of range" [].

(** strconv.Atoi: the value is meaningful on a range error too (the nearest
    representable int), and 0 on a syntax error. *)
Definition Atoi (s : string) : Z * option GoError :=
  let '(neg, digits) :=
    match s with
    | String c r => if decide (c = "-"%char) then (true, r)
                    else if decide (c = "+"%char) then (false, r) else (false, s)
    | EmptyString => (false, s)
    end in
  match digits with
  | EmptyString => (0, Some err_syntax)
  | _ =>
      match scan_uint 0 digits with
      | None => (0, Some err_syntax)
      | Some un =>
          if (negb neg && (9223372036854775808 <=? un))%bool then (int64_max, Some err_range)
          else if (neg && (9223372036854775808 <? un))%bool then (int64_min, Some err_range)
          else (if neg then - un else un, None)
      end
  end.

(** Horner's scheme over a string of digits, without a bound. *)
Fixpoint dec_value (acc : Z) (s : string) : option Z :=
  match s with
  | EmptyString => Some acc
  | String c r =>
      match digit_val c with
      | None => None
      | Some d => dec_value (acc * 10 + d) r
      end
  end.

Lemma dec_value_mono acc s v : dec_value acc s = Some v -> 0 <= acc -> acc <= v.
Proof.
  revert acc. induction s as [|c s IH]; intros acc; simpl; [by intros [= ->]|].
  case_match eqn:E; [|done]. apply digit_val_range in E.
  intros H ?. apply IH in H; lia.
Qed.

Lemma scan_uint_value acc s v :
  dec_value acc s = Some v -> 0 <= acc -> v <= 18446744073709551615 ->
  scan_uint acc s = Some v.
Proof.
  revert acc. induction s as [|c s IH]; intros acc; simpl; [done|].
  case_match eqn:E; [|done]. apply digit_val_range in E. intros H ? ?.
  assert (acc * 10 + z <= v) by (eapply dec_value_mono; [done|lia]).
  destruct (_ <? _) eqn:Hb; [lia|]. apply IH; [done|lia|done].
Qed.

(** With enough fuel [dec_digits] writes [n]: reading it back continues with
    [n] as accumulated value. *)
Lemma dec_value_digits fuel n s :
  0 <= n < 10 ^ Z.of_nat fuel ->
  dec_value 0 (dec_digits fuel n s) = dec_value n s.
Proof.
  revert n s. induction fuel as [|f IH]; intros n s H; simpl.
  { replace n with 0 by (simpl in H; lia). done. }
  rewrite Nat2Z.inj_succ, Z.pow_succ_r in H by lia.
  destruct (n <? 10) eqn:E; simpl.
  - rewrite digit_val_char by lia. f_equal.
  - rewrite IH by (split; [zlia|apply Z.div_lt_upper_bound; lia]).
    simpl. rewrite digit_val_char by zlia. f_equal. zlia.
Qed.

Lemma dec_fuel_enough n : 0 <= n -> n < 10 ^ Z.of_nat (dec_fuel n).
Proof.
  intros Hn. unfold dec_fuel. destruct (decide (n = 0)) as [->|]; [done|].
  rewrite Nat2Z.inj_succ, Z2Nat.id by apply Z.log2_nonneg.
  pose proof (Z.log2_spec n ltac:(lia)) as [_ H].
  eapply Z.lt_le_trans; [done|]. apply Z.pow_le_mono_l; lia.
Qed.

Lemma dec_digits_cons fuel n s :
  0 <= n -> (0 < fuel)%nat ->
  exists c r d, dec_digits fuel n s = String c r /\ digit_val c = Some d.
Proof.
  revert n s. induction fuel as [|f IH]; intros n s Hn Hf; [lia|]. simpl.
  destruct (n <? 10) eqn:E; [eexists _, _, _; split; [done|]; apply digit_val_char; lia|].
  destruct f as [|f]; [simpl; eexists _, _, _; split; [done|]; apply digit_val_char; zlia|].
  apply IH; zlia.
Qed.

(** [strconv.Atoi(strconv.Itoa(n)) == n] over the whole int range. *)
Lemma Atoi_Itoa n : int64_min <= n <= int64_max -> Atoi (Itoa n) = (n, None).
Proof.
  unfold int64_min, int64_max, Itoa, Atoi; intros Hn.
  remember (Z.abs n) as m eqn:Hm.
  assert (scan_uint 0 (dec_digits (dec_fuel m) m "") = Some m) as Hscan.
  { apply scan_uint_value; [|lia|lia].
    rewrite dec_value_digits; [done|]. split; [lia|]. apply dec_fuel_enough. lia. }
  destruct (dec_digits_cons (dec_fuel m) m "") as (c & r & d & Hc & Hd);
    [lia|unfold dec_fuel; lia|].
  destruct (n <? 0) eqn:E.
  - replace (- n) with m by lia. rewrite Hc in *. rewrite app_cons, app_nil_l.
    rewrite decide_True by done. cbv beta iota. rewrite Hscan. simpl.
    destruct (_ <? m) eqn:?; [lia|]. f_equal; lia.
  - assert (n = m) as -> by lia. rewrite Hc in *.
    rewrite !decide_False; [|by intros ->..]. cbv beta iota. rewrite Hscan. simpl.
    destruct (_ <=? m) eqn:?; [lia|]. f_equal; lia.
Qed.

(** ** net.SplitHostPort *)

Definition drop_head (s : string) : string :=
  match s with
  | EmptyString => ""
  | String _ r => r
  end.

(** The port starts after the last colon; a host in brackets may hold colons,
    an unbracketed one may not, and no other bracket may occur. *)
Definition SplitHostPort (hostport : string) : result (string * string) :=
  let bad why := Err (ErrText why [hostport]) in
  match last_cut_byte ":"%char hostport with
  | None => bad "missing port in address"
  | Some (before, port) =>
      match hostport with
      | String "["%char inside =>
          match cut_byte "]"%char inside with
          | None => bad "missing ']' in address"
          | Some (host, after) =>
              match after with
              | EmptyString => bad "missing port in address"
              | String c _ =>
                  if decide (after = String ":" port) then
                    if has_byte "["%char inside then bad "unexpected '[' in address"
                    else if has_byte "]"%char after then bad "unexpected ']' in address"
                    else Ok (host, port)
                  else if decide (c = ":"%char) then bad "too many colons in address"
                  else bad "missing port in address"
              end
          end
      | _ =>
          if has_byte ":"%char before then bad "too many colons in address"
          else if has_byte "["%char hostport then bad "unexpected '[' in address"
          else if has_byte "]"%char hostport then bad "unexpected ']' in address"
          else Ok (before, port)
      end
  end.

Example SplitHostPort_v6 : SplitHostPort "[::1]:22" = Ok ("::1", "22").
Proof. reflexivity. Qed.
Example SplitHostPort_plain : SplitHostPort ":443" = Ok ("", "443").
Proof. reflexivity. Qed.
Example TrimSpace_both : TrimSpace "  a b	 " = "a b".
Proof. reflexivity. Qed.
Example Atoi_overflow : Atoi "99999999999999999999" = (int64_max, Some err_range).
Proof. reflexivity. Qed.
