(* ===== verification/GoTime.v ===== *)
(** Timestamps (store/time.go): an instant is the number of nanoseconds since
    the Unix epoch, as Go's [time.Time] in UTC.  [encodeTime] writes the RFC 3339
    text with nanoseconds the store keeps in its columns, [decodeTime] reads it
    back.  The second half compares the order of the texts, which is the order
    SQLite's ORDER BY uses, with the order of the instants. *)

From S2P Require Import Prelude GoStrings.
From Stdlib Require Import Ascii String.
From stdpp Require Import strings.
#[local] Open Scope stdpp_scope.
#[local] Open Scope Z_scope.

(** ** The calendar *)

Definition is_leap (y : Z) : bool :=
  (y mod 4 =? 0) && (negb (y mod 100 =? 0) || (y mod 400 =? 0)).

Definition leap_day (leap : bool) : Z := if leap then 1 else 0.

(** Days from 0001-01-01 to January 1st of year [y]. *)
Definition days_before_year (y : Z) : Z :=
  let p := y - 1 in 365 * p + p / 4 - p / 100 + p / 400.

Definition month_starts : list Z := [0; 31; 59; 90; 120; 151; 181; 212; 243; 273; 304; 334].

Definition days_before_month (leap : bool) (m : Z) : Z :=
  nth (Z.to_nat (m - 1)) month_starts 0 + (if 2 <? m then leap_day leap else 0).

Definition days_in_month (leap : bool) (m : Z) : Z :=
  nth (Z.to_nat (m - 1)) [31; 28; 31; 30; 31; 30; 31; 31; 30; 31; 30; 31] 0
  + (if m =? 2 then leap_day leap else 0).

Definition days_of_civil (y m d : Z) : Z :=
  days_before_year y + days_before_month (is_leap y) m + (d - 1).

(** Year and day of the year (from 0) of a day counted from 0001-01-01, by
    cycles of 400, 100, 4 and 1 years. *)
Definition year_of_days (n : Z) : Z * Z :=
  let r := n mod 146097 in
  let c := Z.min 3 (r / 36524) in
  let r2 := r - 36524 * c in
  let r3 := r2 mod 1461 in
  let k := Z.min 3 (r3 / 365) in
  (400 * (n / 146097) + 100 * c + 4 * (r2 / 1461) + k + 1, r3 - 365 * k).

(** The month a day of the year falls in: as many months have started. *)
Definition month_of_doy (leap : bool) (doy : Z) : Z :=
  Z.of_nat (List.length (List.filter (fun m => days_before_month leap m <=? doy)
    [1; 2; 3; 4; 5; 6; 7; 8; 9; 10; 11; 12])).

Definition civil_of_days (n : Z) : Z * Z * Z :=
  let '(y, doy) := year_of_days n in
  let m := month_of_doy (is_leap y) doy in
  (y, m, doy - days_before_month (is_leap y) m + 1).

Lemma year_of_days_spec n :
  let '(y, doy) := year_of_days n in
  days_before_year y + doy = n /\ 0 <= doy < 365 + leap_day (is_leap y).
Proof.
  unfold year_of_days, days_before_year, leap_day, is_leap.
  set (a := n / 146097). set (r := n mod 146097).
  assert (n = 146097 * a + r /\ 0 <= r < 146097) as [Hn Hr] by (subst a r; zlia).
  set (c := Z.min 3 (r / 36524)).
  assert (0 <= c <= 3 /\ 0 <= r - 36524 * c <= 36524 /\ (c < 3 -> r - 36524 * c < 36524))
    as (Hc & Hr2 & Hr2') by (subst c; zlia).
  set (r2 := r - 36524 * c) in *.
  set (q := r2 / 1461). set (r3 := r2 mod 1461).
  assert (r2 = 1461 * q + r3 /\ 0 <= r3 < 1461) as [Hq Hr3] by (subst q r3; zlia).
  set (k := Z.min 3 (r3 / 365)).
  assert (0 <= k <= 3 /\ 0 <= r3 - 365 * k <= 365 /\ (k < 3 -> r3 - 365 * k < 365))
    as (Hk & Hd & Hd') by (subst k; zlia).
  assert (0 <= q <= 24) as Hq24 by lia.
  replace (400 * a + 100 * c + 4 * q + k + 1 - 1) with (400 * a + 100 * c + 4 * q + k) by lia.
  set (p := 400 * a + 100 * c + 4 * q + k).
  assert (p / 4 = 100 * a + 25 * c + q) as -> by (subst p; zlia).
  assert (p / 100 = 4 * a + c) as -> by (subst p; zlia).
  assert (p / 400 = a) as -> by (subst p; zlia).
  split; [subst p; lia|].
  split; [lia|].
  destruct (decide (k < 3)); [case_match; lia|].
  destruct (decide (r3 - 365 * k < 365)); [case_match; lia|].
  assert (k = 3) as -> by lia. assert (r3 = 1460) as H3 by lia.
  assert ((p + 1) mod 4 = 0) as -> by (subst p; zlia).
  destruct (decide (q = 24)) as [Hq'|Hq'].
  - assert (c = 3) by lia. assert ((p + 1) mod 400 = 0) as -> by (subst p; zlia).
    rewrite orb_true_r. simpl. lia.
  - assert ((p + 1) mod 100 <> 0) as H100 by (subst p; zlia).
    apply Z.eqb_neq in H100 as ->. simpl. lia.
Qed.

Lemma month_of_doy_spec leap doy :
  0 <= doy < 365 + leap_day leap ->
  let m := month_of_doy leap doy in
  1 <= m <= 12 /\ 1 <= doy - days_before_month leap m + 1 <= days_in_month leap m.
Proof.
  intros H. simpl.
  pose (check := fun doy => let m := month_of_doy leap doy in
    (1 <=? m) && (m <=? 12) && (days_before_month leap m <=? doy) &&
    (doy - days_before_month leap m + 1 <=? days_in_month leap m)).
  enough (check doy = true) as Hc by (unfold check in Hc; lia).
  apply (zrange_forall (Z.to_nat (365 + leap_day leap))); [|destruct leap; simpl in *; lia].
  subst check. clear H. destruct leap; vm_compute; reflexivity.
Qed.

Lemma civil_of_days_spec n :
  let '(y, m, d) := civil_of_days n in
  days_of_civil y m d = n /\ 1 <= m <= 12 /\ 1 <= d <= days_in_month (is_leap y) m.
Proof.
  unfold civil_of_days, days_of_civil. pose proof (year_of_days_spec n) as H.
  destruct (year_of_days n) as [y doy]. destruct H as [H1 H2].
  pose proof (month_of_doy_spec (is_leap y) doy H2) as [Hm Hd]. split; [lia|done].
Qed.

(** The calendar is increasing: an earlier year, month or day is an earlier
    day number. *)
Lemma days_before_year_mono y1 y2 :
  y1 < y2 -> days_before_year y1 + 365 + leap_day (is_leap y1) <= days_before_year y2.
Proof.
  intros H.
  assert (days_before_year (y1 + 1) = days_before_year y1 + 365 + leap_day (is_leap y1)) as <-.
  { unfold days_before_year, leap_day, is_leap. replace (y1 + 1 - 1) with y1 by lia.
    destruct (y1 mod 4 =? 0) eqn:E4; destruct (y1 mod 100 =? 0) eqn:E100;
      destruct (y1 mod 400 =? 0) eqn:E400; simpl; zlia. }
  unfold days_before_year. zlia.
Qed.

Lemma days_of_civil_year y m d :
  1 <= m <= 12 -> 1 <= d <= days_in_month (is_leap y) m ->
  days_before_year y <= days_of_civil y m d < days_before_year y + 365 + leap_day (is_leap y).
Proof.
  intros Hm Hd. unfold days_of_civil. generalize dependent (is_leap y); intros leap Hd.
  assert (((0 <=? days_before_month leap m) &&
    (days_before_month leap m + days_in_month leap m <=? 365 + leap_day leap))%bool = true);
    [|lia].
  assert (m = 1 \/ m = 2 \/ m = 3 \/ m = 4 \/ m = 5 \/ m = 6 \/ m = 7 \/ m = 8 \/ m = 9
    \/ m = 10 \/ m = 11 \/ m = 12) as Hm' by lia.
  destruct leap; repeat destruct Hm' as [-> | Hm']; subst; reflexivity.
Qed.

Lemma days_before_month_mono leap m1 m2 :
  1 <= m1 -> m1 < m2 -> m2 <= 12 ->
  days_before_month leap m1 + days_in_month leap m1 <= days_before_month leap m2.
Proof.
  intros H1 H12 H2.
  assert (forallb (fun m1 => forallb (fun m2 => (negb (m1 <? m2) || (days_before_month leap (m1 + 1)
    + days_in_month leap (m1 + 1) <=? days_before_month leap (m2 + 1))))%bool (zrange 12))
    (zrange 12) = true) as H by (by destruct leap; vm_compute).
  apply (zrange_forall 12 _ (m1 - 1)) in H; [|lia].
  apply (zrange_forall 12 _ (m2 - 1)) in H; [|lia].
  replace (m1 - 1 + 1) with m1 in H by lia. replace (m2 - 1 + 1) with m2 in H by lia. lia.
Qed.

(** ** RFC 3339 texts *)

(** A [time.Time]: nanoseconds since 1970-01-01T00:00:00Z. *)
Definition instant := Z.

Definition ns_per_sec : Z := 1000000000.

(** Days from 0001-01-01 to the epoch. *)
Definition epoch_days : Z := 719162.

(** The zero [time.Time], January 1st of year 1. *)
Definition zero_instant : instant := - (epoch_days * 86400 * ns_per_sec).

Definition IsZero (t : instant) : bool := t =? zero_instant.

Definition pad2 (n : Z) (s : string) : string :=
  String (digit_char (n / 10)) (String (digit_char (n mod 10)) s).

Definition pad4 (n : Z) (s : string) : string := pad2 (n / 100) (pad2 (n mod 100) s).

(** The year, at least four digits wide. *)
Definition year_text (y : Z) (s : string) : string :=
  if y <? 0 then
    String "-" (if - y <=? 9999 then pad4 (- y) s else Itoa (- y) +:+ s)
  else if y <=? 9999 then pad4 y s
  else Itoa y +:+ s.

(** Nine digits of the fraction, without the trailing zeros. *)
Definition frac_digits (ns : Z) : list Z :=
  [ns / 100000000; ns / 10000000 mod 10; ns / 1000000 mod 10; ns / 100000 mod 10;
   ns / 10000 mod 10; ns / 1000 mod 10; ns / 100 mod 10; ns / 10 mod 10; ns mod 10].

Fixpoint trim_zeros (l : list Z) : list Z :=
  match l with
  | [] => []
  | d :: r => match trim_zeros r with
              | [] => if d =? 0 then [] else [d]
              | t => d :: t
              end
  end.

Fixpoint digits_text (l : list Z) (s : string) : string :=
  match l with
  | [] => s
  | d :: r => String (digit_char d) (digits_text r s)
  end.

Definition frac_text (ns : Z) (s : string) : string :=
  match trim_zeros (frac_digits ns) with
  | [] => s
  | l => String "." (digits_text l s)
  end.

(** The first 19 bytes: date and time of day to the second. *)
Definition second_text (sec : Z) (s : string) : string :=
  let '(y, m, d) := civil_of_days (sec / 86400 + epoch_days) in
  let tod := sec mod 86400 in
  year_text y (String "-" (pad2 m (String "-" (pad2 d (String "T"
    (pad2 (tod / 3600) (String ":" (pad2 (tod / 60 mod 60) (String ":"
      (pad2 (tod mod 60) s)))))))))).

(** store.encodeTime: [t.UTC().Format(time.RFC3339Nano)] *)
Definition encodeTime (t : instant) : string :=
  second_text (t / ns_per_sec) (frac_text (t mod ns_per_sec) "Z").

(** Readers of the parts. *)
Definition read2 (s : string) : option (Z * string) :=
  match s with
  | String a (String b r) =>
      match digit_val a, digit_val b with
      | Some x, Some y => Some (10 * x + y, r)
      | _, _ => None
      end
  | _ => None
  end.

Definition read_char (c : ascii) (s : string) : option string :=
  match s with
  | String a r => if decide (a = c) then Some r else None
  | EmptyString => None
  end.

(** One or two digits, as the hour is read. *)
Definition read_1or2 (s : string) : option (Z * string) :=
  match s with
  | String a r =>
      match digit_val a, r with
      | Some x, String b r' =>
          match digit_val b with
          | Some y => Some (10 * x + y, r')
          | None => Some (x, r)
          end
      | Some x, EmptyString => Some (x, r)
      | None, _ => None
      end
  | EmptyString => None
  end.

(** Digits after the decimal point, weighted; digits past the ninth count 0. *)
Fixpoint read_frac_digits (w : Z) (s : string) : Z * string :=
  match s with
  | String c r =>
      match digit_val c with
      | Some d => let '(v, rest) := read_frac_digits (w / 10) r in (d * w + v, rest)
      | None => (0, s)
      end
  | EmptyString => (0, s)
  end.

Definition read_frac (s : string) : Z * string :=
  match s with
  | String p (String c r) =>
      if decide (p = "."%char \/ p = ","%char) then
        match digit_val c with
        | Some _ => read_frac_digits 100000000 (String c r)
        | None => (0, s)
        end
      else (0, s)
  | _ => (0, s)
  end.

(** "Z" or an offset of hours and minutes, in seconds east of UTC; the range
    test allows 24 hours and 60 minutes. *)
Definition read_zone (s : string) : option Z :=
  match s with
  | String "Z"%char EmptyString => Some 0
  | String sign r =>
      '(hh, r) ← read2 r; r ← read_char ":"%char r; '(mm, r) ← read2 r;
      if ((24 <? hh) || (60 <? mm))%bool then None
      else match r with
           | EmptyString =>
               if decide (sign = "+"%char) then Some ((hh * 60 + mm) * 60)
               else if decide (sign = "-"%char) then Some (- ((hh * 60 + mm) * 60))
               else None
           | _ => None
           end
  | EmptyString => None
  end.

Definition read_rfc3339 (s : string) : option instant :=
  '(yh, s) ← read2 s; '(yl, s) ← read2 s; s ← read_char "-"%char s;
  '(m, s) ← read2 s; s ← read_char "-"%char s;
  '(d, s) ← read2 s; s ← read_char "T"%char s;
  '(hh, s) ← read_1or2 s; s ← read_char ":"%char s;
  '(mi, s) ← read2 s; s ← read_char ":"%char s;
  '(se, s) ← read2 s;
  let y := 100 * yh + yl in
  if ((1 <=? m) && (m <=? 12) && (1 <=? d) && (d <=? days_in_month (is_leap y) m) &&
      (hh <=? 23) && (mi <=? 59) && (se <=? 59))%bool then
    let '(ns, s) := read_frac s in
    off ← read_zone s;
    Some (((days_of_civil y m d - epoch_days) * 86400 + hh * 3600 + mi * 60 + se - off)
          * ns_per_sec + ns)
  else None.

(** store.decodeTime: [time.Parse(time.RFC3339Nano, s)], with the leniency the
    layout allows: an hour of one digit, a decimal comma, digits past the ninth. *)
Definition decodeTime (s : string) : result instant :=
  match read_rfc3339 s with
  | Some t => Ok t
  | None => Err (ErrText "parsing time" [s])
  end.

(** A double quote, as one byte. *)
Definition dquote : ascii := ascii_of_N 34.
Definition quoted (s : string) : string := String dquote (s +:+ String dquote "").

(** Time.MarshalJSON *)
Definition Time_MarshalJSON (t : instant) : string :=
  if IsZero t then quoted "" else quoted (encodeTime t).

(** Time.UnmarshalJSON *)
Definition Time_UnmarshalJSON (data : string) : result instant :=
  if decide (data = quoted "") then Ok zero_instant
  else if decide (data = "null") then Ok zero_instant
  else match data with
       | String q r =>
           match last_cut_byte dquote r with
           | Some (body, EmptyString) =>
               if decide (q = dquote) then decodeTime body
               else Err (ErrText "parsing time" [data])
           | _ => Err (ErrText "parsing time" [data])
           end
       | EmptyString => Err (ErrText "parsing time" [data])
       end.

Example encodeTime_zero_frac : encodeTime (1767225600 * ns_per_sec) = "2026-01-01T00:00:00Z".
Proof. reflexivity. Qed.
Example encodeTime_frac :
  encodeTime (1709210096 * ns_per_sec + 120000000) = "2024-02-29T12:34:56.12Z".
Proof. reflexivity. Qed.
Example decodeTime_offset :
  decodeTime "2026-01-01T01:00:00.5+01:00" = Ok (1767225600 * ns_per_sec + 500000000).
Proof. reflexivity. Qed.

(** ** Reading back what was written *)

(** The instants whose year has exactly four digits, 0000 to 9999. *)
Definition in_year_range (t : instant) : Prop :=
  - 62167219200 * ns_per_sec <= t < 253402300800 * ns_per_sec.

#[export] Instance in_year_range_dec t : Decision (in_year_range t).
Proof. unfold in_year_range. apply _. Defined.

Lemma read2_pad2 n s : 0 <= n <= 99 -> read2 (pad2 n s) = Some (n, s).
Proof.
  intros H. unfold read2, pad2. rewrite !digit_val_char by zlia. do 2 f_equal. zlia.
Qed.

Lemma read_1or2_pad2 n s : 0 <= n <= 99 -> read_1or2 (pad2 n s) = Some (n, s).
Proof.
  intros H. unfold read_1or2, pad2. rewrite !digit_val_char by zlia. do 2 f_equal. zlia.
Qed.

Lemma read_char_same c s : read_char c (String c s) = Some s.
Proof. simpl. by rewrite decide_True. Qed.

(** The weighted value of fraction digits. *)
Fixpoint frac_value (w : Z) (l : list Z) : Z :=
  match l with
  | [] => 0
  | d :: r => d * w + frac_value (w / 10) r
  end.

Lemma frac_value_trim w l : frac_value w (trim_zeros l) = frac_value w l.
Proof.
  revert w. induction l as [|d l IH]; intros w; simpl; [done|].
  rewrite <- (IH (w / 10)). destruct (trim_zeros l) as [|e t]; [|done].
  destruct (d =? 0) eqn:E; simpl; lia.
Qed.

Lemma trim_zeros_incl l d : d ∈ trim_zeros l -> d ∈ l.
Proof.
  induction l as [|e l IH]; simpl; [done|].
  destruct (trim_zeros l) as [|x t].
  - destruct (e =? 0); [by intros ?%not_elem_of_nil|]. set_solver.
  - set_solver.
Qed.

Lemma frac_value_digits ns :
  0 <= ns < 1000000000 -> frac_value 100000000 (frac_digits ns) = ns.
Proof.
  intros H. unfold frac_digits. simpl.
  change (100000000 / 10) with 10000000. change (10000000 / 10) with 1000000.
  change (1000000 / 10) with 100000. change (100000 / 10) with 10000.
  change (10000 / 10) with 1000. change (1000 / 10) with 100.
  change (100 / 10) with 10. change (10 / 10) with 1. zlia.
Qed.

Lemma frac_digits_range ns d : 0 <= ns < 1000000000 -> d ∈ frac_digits ns -> 0 <= d <= 9.
Proof.
  intros H. unfold frac_digits. rewrite !elem_of_cons, elem_of_nil. intros Hd.
  repeat destruct Hd as [-> | Hd]; try done; zlia.
Qed.

(** A reader of digits stops at a byte that is no digit. *)
Definition no_digit (s : string) : Prop :=
  match s with
  | String c _ => digit_val c = None
  | EmptyString => True
  end.

Lemma read_frac_digits_text w l s :
  (forall d, d ∈ l -> 0 <= d <= 9) -> no_digit s ->
  read_frac_digits w (digits_text l s) = (frac_value w l, s).
Proof.
  revert w. induction l as [|d l IH]; intros w Hl Hs; simpl.
  - destruct s as [|c s]; simpl in *; [done|]. by rewrite Hs.
  - rewrite digit_val_char by (apply Hl; set_solver).
    rewrite IH; [done|set_solver|done].
Qed.

Lemma read_frac_text ns s :
  0 <= ns < 1000000000 -> no_digit s ->
  (forall r, s <> String "." r) -> (forall r, s <> String "," r) ->
  read_frac (frac_text ns s) = (ns, s).
Proof.
  intros H Hs Hdot Hcomma. unfold frac_text.
  destruct (trim_zeros (frac_digits ns)) as [|d t] eqn:E.
  - assert (ns = 0) as ->.
    { rewrite <- (frac_value_digits ns), <- frac_value_trim, E by done. done. }
    destruct s as [|c [|c' s]]; [done..|]. unfold read_frac.
    rewrite decide_False; [done|]. intros [-> | ->]; naive_solver.
  - unfold read_frac. cbn [digits_text]. rewrite decide_True by auto.
    assert (forall e, e ∈ d :: t -> 0 <= e <= 9) as Hd.
    { intros e He. rewrite <- E in He. apply trim_zeros_incl in He.
      by eapply frac_digits_range. }
    rewrite digit_val_char by (apply Hd; set_solver).
    pose proof (read_frac_digits_text 100000000 (d :: t) s Hd Hs) as Hr.
    rewrite <- E in Hr at 2. rewrite frac_value_trim, frac_value_digits in Hr by done.
    exact Hr.
Qed.

Lemma year_text_read y s :
  0 <= y <= 9999 ->
  exists r, read2 (year_text y s) = Some (y / 100, r) /\ read2 r = Some (y mod 100, s).
Proof.
  intros H. unfold year_text, pad4.
  destruct (y <? 0) eqn:?; [lia|]. destruct (y <=? 9999) eqn:?; [|lia].
  eexists. split; apply read2_pad2; zlia.
Qed.

Lemma days_in_month_le leap m : 1 <= m <= 12 -> days_in_month leap m <= 31.
Proof.
  intros Hm. assert (m = 1 \/ m = 2 \/ m = 3 \/ m = 4 \/ m = 5 \/ m = 6 \/ m = 7 \/ m = 8
    \/ m = 9 \/ m = 10 \/ m = 11 \/ m = 12) as Hm' by lia.
  destruct leap; repeat destruct Hm' as [-> | Hm']; subst; done.
Qed.

(** The civil date of an instant in range. *)
Lemma civil_in_range t :
  in_year_range t ->
  let '(y, m, d) := civil_of_days (t / ns_per_sec / 86400 + epoch_days) in
  0 <= y <= 9999 /\ 1 <= m <= 12 /\ 1 <= d <= 31 /\ d <= days_in_month (is_leap y) m /\
  days_of_civil y m d = t / ns_per_sec / 86400 + epoch_days.
Proof.
  unfold in_year_range, ns_per_sec, epoch_days. intros H.
  set (n := t / 1000000000 / 86400 + 719162).
  assert (-366 <= n < 3652059) as Hn by (subst n; zlia).
  pose proof (civil_of_days_spec n) as Hc.
  destruct (civil_of_days n) as [[y m] d]. destruct Hc as (Hd & Hm & Hdm).
  pose proof (days_in_month_le (is_leap y) m Hm).
  pose proof (days_of_civil_year y m d Hm Hdm) as Hy.
  assert (0 <= y <= 9999); [|repeat split; lia].
  assert (days_before_year 0 = -366 /\ days_before_year 10000 = 3652059) as [Hy0 Hy1] by done.
  split.
  - destruct (decide (y < 0)); [|lia]. pose proof (days_before_year_mono y 0). lia.
  - destruct (decide (10000 <= y)) as [Hy'|]; [|lia].
    assert (days_before_year 10000 <= days_before_year y); [|lia].
    destruct (decide (y = 10000)) as [-> |]; [lia|].
    pose proof (days_before_year_mono 10000 y ltac:(lia)).
    unfold leap_day in *. destruct (is_leap 10000); lia.
Qed.

Lemma read_encodeTime t : in_year_range t -> read_rfc3339 (encodeTime t) = Some t.
Proof.
  intros Ht. pose proof (civil_in_range t Ht) as Hc.
  unfold encodeTime, second_text. set (sec := t / ns_per_sec) in *.
  destruct (civil_of_days (sec / 86400 + epoch_days)) as [[y m] d].
  destruct Hc as (Hy & Hm & Hd & Hdm & Hdays).
  unfold read_rfc3339.
  edestruct (year_text_read y) as (r & -> & Hr); [done|]. cbn [mbind option_bind].
  rewrite Hr. cbn [mbind option_bind].
  set (tod := sec mod 86400).
  assert (0 <= tod < 86400) by (subst tod; zlia).
  assert (0 <= tod / 3600 <= 23 /\ 0 <= tod / 60 mod 60 <= 59 /\ 0 <= tod mod 60 <= 59)
    as (? & ? & ?) by zlia.
  assert (0 <= t mod ns_per_sec < 1000000000) as Hns by (unfold ns_per_sec; zlia).
  repeat first [ rewrite read_char_same | rewrite read2_pad2 by lia
               | rewrite read_1or2_pad2 by lia | progress cbn [mbind option_bind] ].
  replace (100 * (y / 100) + y mod 100) with y by zlia.
  assert (((1 <=? m) && (m <=? 12) && (1 <=? d) && (d <=? days_in_month (is_leap y) m) &&
      (tod / 3600 <=? 23) && (tod / 60 mod 60 <=? 59) && (tod mod 60 <=? 59))%bool = true)
    as -> by lia.
  rewrite read_frac_text by done. cbn [read_zone mbind option_bind].
  f_equal. rewrite Hdays. subst tod sec. unfold ns_per_sec in *. zlia.
Qed.

(** The store's time columns round-trip. *)
Lemma decode_encode_time t : in_year_range t -> decodeTime (encodeTime t) = Ok t.
Proof. intros Ht. unfold decodeTime. by rewrite read_encodeTime. Qed.

(** ** The order of the texts *)

Lemma digit_compare a b s t :
  0 <= a <= 9 -> 0 <= b <= 9 ->
  String.compare (String (digit_char a) s) (String (digit_char b) t) =
    match Z.compare a b with Eq => String.compare s t | c => c end.
Proof.
  intros Ha Hb. simpl. unfold Ascii.compare, digit_char.
  rewrite !N_ascii_embedding by lia.
  assert ((Z.to_N (48 + a) ?= Z.to_N (48 + b))%N = (a ?= b)) as ->; [|done].
  rewrite (Z2N.inj_compare (48 + a) (48 + b)) by lia. apply Z.add_compare_mono_l.
Qed.

Lemma pad2_compare a b s t :
  0 <= a <= 99 -> 0 <= b <= 99 ->
  String.compare (pad2 a s) (pad2 b t) =
    match Z.compare a b with Eq => String.compare s t | c => c end.
Proof.
  intros Ha Hb. unfold pad2. rewrite !digit_compare by zlia.
  destruct (Z.compare_spec (a / 10) (b / 10)), (Z.compare_spec (a mod 10) (b mod 10)),
    (Z.compare_spec a b); try done; exfalso; zlia.
Qed.

Lemma year_text_compare a b s t :
  0 <= a <= 9999 -> 0 <= b <= 9999 ->
  String.compare (year_text a s) (year_text b t) =
    match Z.compare a b with Eq => String.compare s t | c => c end.
Proof.
  intros Ha Hb. unfold year_text, pad4.
  destruct (a <? 0) eqn:?; [lia|]. destruct (b <? 0) eqn:?; [lia|].
  destruct (a <=? 9999) eqn:?; [|lia]. destruct (b <=? 9999) eqn:?; [|lia].
  rewrite !pad2_compare by zlia.
  destruct (Z.compare_spec (a / 100) (b / 100)), (Z.compare_spec (a mod 100) (b mod 100)),
    (Z.compare_spec a b); try done; exfalso; zlia.
Qed.

Lemma char_compare c s t :
  String.compare (String c s) (String c t) = String.compare s t.
Proof. simpl. unfold Ascii.compare. by rewrite N.compare_refl. Qed.

(** A later day has a later year, month or day. *)
Lemma civil_mono y1 m1 d1 y2 m2 d2 :
  1 <= m1 <= 12 -> 1 <= d1 <= days_in_month (is_leap y1) m1 ->
  1 <= m2 <= 12 -> 1 <= d2 <= days_in_month (is_leap y2) m2 ->
  days_of_civil y1 m1 d1 < days_of_civil y2 m2 d2 ->
  y1 < y2 \/ y1 = y2 /\ (m1 < m2 \/ m1 = m2 /\ d1 < d2).
Proof.
  intros Hm1 Hd1 Hm2 Hd2 H.
  pose proof (days_of_civil_year _ _ _ Hm1 Hd1). pose proof (days_of_civil_year _ _ _ Hm2 Hd2).
  destruct (Z.lt_total y1 y2) as [?|[->|Hy]]; [by left| |].
  - right. split; [done|]. unfold days_of_civil in H.
    destruct (Z.lt_total m1 m2) as [?|[->|Hm]]; [by left|right; lia|].
    pose proof (days_before_month_mono (is_leap y2) m2 m1). lia.
  - pose proof (days_before_year_mono _ _ Hy). lia.
Qed.

(** Across different seconds the texts are ordered as the instants are. *)
Lemma encodeTime_lt t1 t2 :
  in_year_range t1 -> in_year_range t2 ->
  t1 / ns_per_sec < t2 / ns_per_sec ->
  str_lt (encodeTime t1) (encodeTime t2).
Proof.
  intros H1 H2 Hlt. unfold str_lt, encodeTime, second_text.
  pose proof (civil_in_range _ H1) as Hc1. pose proof (civil_in_range _ H2) as Hc2.
  set (s1 := t1 / ns_per_sec) in *. set (s2 := t2 / ns_per_sec) in *.
  destruct (civil_of_days (s1 / 86400 + epoch_days)) as [[y1 m1] d1].
  destruct (civil_of_days (s2 / 86400 + epoch_days)) as [[y2 m2] d2].
  destruct Hc1 as (Hy1 & Hm1 & Hd1 & Hdm1 & Hn1). destruct Hc2 as (Hy2 & Hm2 & Hd2 & Hdm2 & Hn2).
  assert (0 <= s1 mod 86400 < 86400 /\ 0 <= s2 mod 86400 < 86400) as [Ht1 Ht2] by zlia.
  rewrite year_text_compare by done.
  repeat first [rewrite char_compare | rewrite pad2_compare by zlia].
  assert (s1 / 86400 < s2 / 86400 \/ s1 / 86400 = s2 / 86400 /\ s1 mod 86400 < s2 mod 86400)
    as [Hday | [Hday Htod]] by zlia.
  - assert (days_of_civil y1 m1 d1 < days_of_civil y2 m2 d2) as Hdays by lia.
    apply civil_mono in Hdays; [|lia..].
    destruct Hdays as [Hy | [-> [Hm | [-> Hd]]]]; rewrite ?Z.compare_refl;
      [by rewrite (proj2 (Z.compare_lt_iff _ _) Hy)
      |by rewrite (proj2 (Z.compare_lt_iff _ _) Hm)
      |by rewrite (proj2 (Z.compare_lt_iff _ _) Hd)].
  - assert (y1 = y2 /\ m1 = m2 /\ d1 = d2) as (-> & -> & ->).
    { destruct (decide (y1 = y2 /\ m1 = m2 /\ d1 = d2)); [done|].
      exfalso. rewrite Hday in Hn1. rewrite <- Hn2 in Hn1.
      destruct (Z.lt_total y1 y2) as [Hy|[->|Hy]].
      - pose proof (days_before_year_mono _ _ Hy).
        pose proof (days_of_civil_year y1 m1 d1). pose proof (days_of_civil_year y2 m2 d2). lia.
      - unfold days_of_civil in Hn1.
        pose proof (days_before_month_mono (is_leap y2) m1 m2).
        pose proof (days_before_month_mono (is_leap y2) m2 m1).
        destruct (Z.lt_total m1 m2) as [?|[->|?]]; [lia| |lia].
        assert (d1 = d2) by lia. tauto.
      - pose proof (days_before_year_mono _ _ Hy).
        pose proof (days_of_civil_year y1 m1 d1). pose proof (days_of_civil_year y2 m2 d2). lia. }
    rewrite !Z.compare_refl. set (u1 := s1 mod 86400) in *. set (u2 := s2 mod 86400) in *.
    destruct (Z.compare_spec (u1 / 3600) (u2 / 3600)) as [He| |]; [|done|zlia].
    destruct (Z.compare_spec (u1 / 60 mod 60) (u2 / 60 mod 60)) as [He'| |]; [|done|zlia].
    destruct (Z.compare_spec (u1 mod 60) (u2 mod 60)) as [He''| |]; [zlia|done|zlia].
Qed.

Lemma encodeTime_inj t1 t2 :
  in_year_range t1 -> in_year_range t2 -> encodeTime t1 = encodeTime t2 -> t1 = t2.
Proof.
  intros H1 H2 H. apply (f_equal read_rfc3339) in H.
  rewrite !read_encodeTime in H by done. congruence.
Qed.

(** The JSON form, the zero time included. *)
Lemma Time_JSON_ok t : in_year_range t -> Time_UnmarshalJSON (Time_MarshalJSON t) = Ok t.
Proof.
  intros Ht. unfold Time_MarshalJSON, IsZero. destruct (t =? zero_instant) eqn:E.
  { apply Z.eqb_eq in E as ->. unfold Time_UnmarshalJSON. by rewrite decide_True. }
  pose proof (decode_encode_time t Ht) as Hd. unfold Time_UnmarshalJSON, quoted.
  rewrite decide_False.
  2:{ intros Heq. injection Heq as Heq. destruct (encodeTime t) as [|c [|c2 r]]; [|done..].
      by vm_compute in Hd. }
  rewrite decide_False by done.
  rewrite last_cut_byte_app by done. by rewrite decide_True.
Qed.
