(* ===== verification/Netip.v ===== *)
(** The part of Go's net/netip that the packages approval and ratelimit use:
    addresses and prefixes as integers, their text forms, and the lemma that a
    prefix is read back from its text.  Everything here is standard library
    behaviour; no line of the repository is modelled in this file. *)

From S2P Require Import Prelude GoStrings.
From Stdlib Require Import Ascii String.
From stdpp Require Import strings.
#[local] Open Scope stdpp_scope.
#[local] Open Scope Z_scope.

(** ** Addresses *)

(** [netip.Addr]: the zero Addr, an IPv4 address of 32 bits, or an IPv6
    address of 128 bits with its zone. *)
Inductive Addr :=
  | AddrZero
  | Addr4 (v : Z)
  | Addr6 (v : Z) (zone : string).

#[export] Instance Addr_eq_dec : EqDecision Addr.
Proof. solve_decision. Defined.

Definition Addr_IsValid (a : Addr) : bool :=
  match a with
  | AddrZero => false
  | _ => true
  end.

Definition Addr_Zone (a : Addr) : string :=
  match a with
  | Addr6 _ z => z
  | _ => ""
  end.

(** An IPv4-mapped IPv6 address: [::ffff:a.b.c.d]. *)
Definition is_4in6 (v : Z) : bool := Z.shiftr v 32 =? 65535.

Definition Addr_Is4In6 (a : Addr) : bool :=
  match a with
  | Addr6 v _ => is_4in6 v
  | _ => false
  end.

Definition Addr_Unmap (a : Addr) : Addr :=
  match a with
  | Addr6 v _ => if is_4in6 v then Addr4 (Z.land v 4294967295) else a
  | _ => a
  end.

Definition BitLen (a : Addr) : Z :=
  match a with
  | AddrZero => 0
  | Addr4 _ => 32
  | Addr6 _ _ => 128
  end.

(** Values in range for their family. *)
Definition Addr_ok (a : Addr) : Prop :=
  match a with
  | AddrZero => True
  | Addr4 v => 0 <= v < 2 ^ 32
  | Addr6 v _ => 0 <= v < 2 ^ 128
  end.

(** ** Prefixes *)

Record Prefix := { pfx_addr : Addr; pfx_bits : Z }.

#[export] Instance Prefix_eq_dec : EqDecision Prefix.
Proof. solve_decision. Defined.

Definition Prefix_IsValid (p : Prefix) : bool :=
  Addr_IsValid (pfx_addr p) && (0 <=? pfx_bits p) && (pfx_bits p <=? BitLen (pfx_addr p)).

(** Keep the top [bits] bits of a [w]-bit value. *)
Definition mask_top (w bits v : Z) : Z := Z.shiftl (Z.shiftr v (w - bits)) (w - bits).

Definition Prefix_Masked (p : Prefix) : Prefix :=
  match pfx_addr p with
  | AddrZero => p
  | Addr4 v => {| pfx_addr := Addr4 (mask_top 32 (pfx_bits p) v); pfx_bits := pfx_bits p |}
  | Addr6 v _ => {| pfx_addr := Addr6 (mask_top 128 (pfx_bits p) v) ""; pfx_bits := pfx_bits p |}
  end.

(** [Prefix.Contains]: a zoned address, an invalid prefix or another family is
    never contained. *)
Definition Prefix_Contains (p : Prefix) (a : Addr) : bool :=
  if (negb (Prefix_IsValid p) || negb (bool_decide (Addr_Zone a = "")))%bool then false
  else match pfx_addr p, a with
       | Addr4 v, Addr4 w => Z.shiftr (Z.lxor w v) (32 - pfx_bits p) =? 0
       | Addr6 v _, Addr6 w _ => Z.shiftr (Z.lxor w v) (128 - pfx_bits p) =? 0
       | _, _ => false
       end.

(** ** Text of addresses and prefixes *)

Definition hex_char (d : Z) : ascii :=
  ascii_of_N (Z.to_N (if d <? 10 then 48 + d else 87 + d)).

Definition hex_val (c : ascii) : option Z :=
  let n := byte_of c in
  if (48 <=? n) && (n <=? 57) then Some (n - 48)
  else if (97 <=? n) && (n <=? 102) then Some (n - 87)
  else if (65 <=? n) && (n <=? 70) then Some (n - 55)
  else None.

(** An octet in decimal and a 16-bit group in hexadecimal, without leading
    zeros, in front of [s]. *)
Definition octet_text (o : Z) (s : string) : string :=
  if o <? 10 then String (digit_char o) s
  else if o <? 100 then String (digit_char (o / 10)) (String (digit_char (o mod 10)) s)
  else String (digit_char (o / 100)) (String (digit_char (o / 10 mod 10))
         (String (digit_char (o mod 10)) s)).

Definition hex_text (g : Z) (s : string) : string :=
  let d0 := String (hex_char (g mod 16)) s in
  if g <? 16 then d0
  else let d1 := String (hex_char (g / 16 mod 16)) d0 in
  if g <? 256 then d1
  else let d2 := String (hex_char (g / 256 mod 16)) d1 in
  if g <? 4096 then d2
  else String (hex_char (g / 4096 mod 16)) d2.

(** The [n] base-65536 digits of [v], most significant first. *)
Fixpoint groups_of (n : nat) (v : Z) (acc : list Z) : list Z :=
  match n with
  | O => acc
  | S m => groups_of m (v / 65536) (v mod 65536 :: acc)
  end.

Definition of_groups (gs : list Z) : Z := fold_left (fun acc g => acc * 65536 + g) gs 0.

Fixpoint zero_prefix (gs : list Z) : nat :=
  match gs with
  | g :: r => if g =? 0 then S (zero_prefix r) else O
  | [] => O
  end.

(** The first longest run of at least two zero groups: start and length. *)
Fixpoint best_run (i : nat) (gs : list Z) (start len : nat) : nat * nat :=
  match gs with
  | [] => (start, len)
  | _ :: r =>
      let l := zero_prefix gs in
      if ((2 <=? l) && (len <? l))%nat then best_run (S i) r i l
      else best_run (S i) r start len
  end.

Fixpoint join6 (gs : list Z) (s : string) : string :=
  match gs with
  | [] => s
  | [g] => hex_text g s
  | g :: r => hex_text g (String ":" (join6 r s))
  end.

Definition text6 (v : Z) (s : string) : string :=
  let gs := groups_of 8 v [] in
  let '(start, len) := best_run 0 gs 0 0 in
  match len with
  | O => join6 gs s
  | _ => join6 (take start gs) (String ":" (String ":" (join6 (drop (start + len) gs) s)))
  end.

Definition text4 (v : Z) (s : string) : string :=
  octet_text (v / 16777216 mod 256) (String "." (octet_text (v / 65536 mod 256)
    (String "." (octet_text (v / 256 mod 256) (String "." (octet_text (v mod 256) s)))))).

Definition Addr_String (a : Addr) : string :=
  match a with
  | AddrZero => "invalid IP"
  | Addr4 v => text4 v ""
  | Addr6 v z =>
      let zone := if decide (z = "") then "" else String "%" z in
      if is_4in6 v then "::ffff:" +:+ text4 (Z.land v 4294967295) zone else text6 v zone
  end.

Definition Prefix_String (p : Prefix) : string :=
  if Prefix_IsValid p then Addr_String (pfx_addr p) +:+ String "/" (Itoa (pfx_bits p))
  else "invalid Prefix".

(** ** Parsing *)

(** parseIPv4Fields: the octets read so far, the value and digit count of the
    current one. *)
Fixpoint parse4 (fields : list Z) (val : Z) (digs : nat) (s : string) : option (list Z) :=
  match s with
  | EmptyString => if (List.length fields <? 3)%nat then None else Some (fields ++ [val])
  | String c r =>
      match digit_val c with
      | Some d =>
          if ((digs =? 1)%nat && (val =? 0))%bool then None
          else if 255 <? val * 10 + d then None
          else parse4 fields (val * 10 + d) (S digs) r
      | None =>
          if decide (c = "."%char) then
            match digs, r with
            | O, _ => None
            | _, EmptyString => None
            | _, _ => if (List.length fields =? 3)%nat then None
                      else parse4 (fields ++ [val]) 0 0 r
            end
          else None
      end
  end.

Definition parseIPv4 (s : string) : option Addr :=
  match parse4 [] 0 0 s with
  | Some [a; b; c; d] => Some (Addr4 (((a * 256 + b) * 256 + c) * 256 + d))
  | _ => None
  end.

(** The hexadecimal digits at the front: how many, their value, the rest;
    more than four is an error. *)
Fixpoint scan_hex (off : nat) (acc : Z) (s : string) : option (nat * Z * string) :=
  match s with
  | EmptyString => Some (off, acc, s)
  | String c r =>
      match hex_val c with
      | Some d => if (3 <? off)%nat then None else scan_hex (S off) (acc * 16 + d) r
      | None => Some (off, acc, s)
      end
  end.

(** An embedded IPv4 address replaces the last two groups. *)
Definition parse6_dot (fields : list Z) (ell : option nat) (s : string)
    : option (list Z * option nat * string) :=
  if (negb (bool_decide (is_Some ell)) && negb (List.length fields =? 6)%nat)%bool then None
  else if (8 <? List.length fields + 2)%nat then None
  else match parse4 [] 0 0 s with
       | Some [a; b; c; d] => Some (fields ++ [a * 256 + b; c * 256 + d], ell, "")
       | _ => None
       end.

(** The loop of parseIPv6 over groups; the fuel is the number of groups still
    missing, so running out of it is the loop's own exit at 16 bytes. *)
Fixpoint parse6_loop (fuel : nat) (fields : list Z) (ell : option nat) (s : string)
    : option (list Z * option nat * string) :=
  match fuel with
  | O => Some (fields, ell, s)
  | S f =>
      match scan_hex 0 0 s with
      | None | Some (O, _, _) => None
      | Some (_, acc, String "."%char _) => parse6_dot fields ell s
      | Some (_, acc, rest) =>
          let fields := fields ++ [acc] in
          match rest with
          | EmptyString => Some (fields, ell, "")
          | String c s1 =>
              if decide (c = ":"%char) then
                match s1 with
                | EmptyString => None
                | String c2 s2 =>
                    if decide (c2 = ":"%char) then
                      match ell with
                      | Some _ => None
                      | None =>
                          match s2 with
                          | EmptyString => Some (fields, Some (List.length fields), "")
                          | _ => parse6_loop f fields (Some (List.length fields)) s2
                          end
                      end
                    else parse6_loop f fields ell s1
                end
              else None
          end
      end
  end.

(** Expansion of the ellipsis and the final length checks. *)
Definition finish6 (r : option (list Z * option nat * string)) : option Z :=
  match r with
  | Some (fields, ell, EmptyString) =>
      let n := List.length fields in
      if (n <? 8)%nat then
        match ell with
        | None => None
        | Some e => Some (of_groups (take e fields ++ replicate (8 - n) 0 ++ drop e fields))
        end
      else match ell with
           | Some _ => None
           | None => Some (of_groups fields)
           end
  | _ => None
  end.

Definition parse6_body (s : string) : option Z :=
  match s with
  | String ":"%char (String ":"%char r) =>
      match r with
      | EmptyString => Some 0
      | _ => finish6 (parse6_loop 8 [] (Some O) r)
      end
  | _ => finish6 (parse6_loop 8 [] None s)
  end.

Definition parseIPv6 (s : string) : option Addr :=
  match cut_byte "%"%char s with
  | Some (_, EmptyString) => None
  | Some (body, zone) => v ← parse6_body body; Some (Addr6 v zone)
  | None => v ← parse6_body s; Some (Addr6 v "")
  end.

(** ParseAddr looks for the first of [.], [:] and [%]. *)
Fixpoint addr_kind (s : string) : option ascii :=
  match s with
  | EmptyString => None
  | String c r =>
      if decide (c = "."%char \/ c = ":"%char \/ c = "%"%char) then Some c else addr_kind r
  end.

Definition ParseAddr (s : string) : option Addr :=
  match addr_kind s with
  | Some c => if decide (c = "."%char) then parseIPv4 s
              else if decide (c = ":"%char) then parseIPv6 s
              else None
  | None => None
  end.

(** The prefix length: no sign, no leading zero. *)
Definition parse_bits (s : string) : option Z :=
  match s with
  | String c (String _ _) =>
      if ((byte_of c <? 49) || (57 <? byte_of c))%bool then None
      else match Atoi s with
           | (n, None) => Some n
           | _ => None
           end
  | _ => match Atoi s with
         | (n, None) => Some n
         | _ => None
         end
  end.

Definition ParsePrefix (s : string) : option Prefix :=
  match last_cut_byte "/"%char s with
  | None => None
  | Some (addr, bits) =>
      ip ← ParseAddr addr;
      if decide (Addr_Zone ip <> "") then None
      else n ← parse_bits bits;
           if ((n <? 0) || (BitLen ip <? n))%bool then None
           else Some {| pfx_addr := ip; pfx_bits := n |}
  end.

Example ParsePrefix_v4 :
  ParsePrefix "192.0.2.7/24" = Some {| pfx_addr := Addr4 3221225991; pfx_bits := 24 |}.
Proof. reflexivity. Qed.
Example ParsePrefix_v6 :
  option_map Prefix_String (ParsePrefix "2001:DB8:0:0:1::/64") = Some "2001:db8:0:0:1::/64".
Proof. reflexivity. Qed.
Example ParsePrefix_bad :
  map ParsePrefix ["192.0.2.0/33"; "192.0.2.0/024"; "fe80::%eth0/64"; "1.2.3.04/8"; "::1::/8"]
    = [None; None; None; None; None].
Proof. reflexivity. Qed.
Example ParseAddr_mapped : ParseAddr "::ffff:192.0.2.1" = Some (Addr6 281473902969345 "").
Proof. reflexivity. Qed.

(** ** Masking and containment *)

Lemma mask_top_div w bits v :
  0 <= bits <= w -> mask_top w bits v = v / 2 ^ (w - bits) * 2 ^ (w - bits).
Proof. intros H. unfold mask_top. by rewrite Z.shiftl_mul_pow2, Z.shiftr_div_pow2 by lia. Qed.

Lemma mask_top_range w bits v :
  0 <= bits <= w -> 0 <= v < 2 ^ w -> 0 <= mask_top w bits v <= v.
Proof.
  intros H Hv. rewrite mask_top_div by done.
  assert (0 < 2 ^ (w - bits)) by (apply Z.pow_pos_nonneg; lia).
  pose proof (Z.mul_div_le v (2 ^ (w - bits))).
  pose proof (Z.div_pos v (2 ^ (w - bits))). nia.
Qed.

Lemma mask_top_idemp w bits v :
  0 <= bits <= w -> mask_top w bits (mask_top w bits v) = mask_top w bits v.
Proof.
  intros H. rewrite !mask_top_div by done. rewrite Z.div_mul; [done|].
  apply Z.pow_nonzero; lia.
Qed.

(** Equal top bits are equal quotients. *)
Lemma lxor_shiftr_zero a b k :
  0 <= k -> Z.shiftr (Z.lxor a b) k = 0 <-> a / 2 ^ k = b / 2 ^ k.
Proof.
  intros Hk. rewrite Z.shiftr_lxor. rewrite Z.lxor_eq_0_iff, !Z.shiftr_div_pow2 by done. done.
Qed.

Lemma shiftr_mask_top w bits v :
  0 <= bits <= w -> Z.shiftr (mask_top w bits v) (w - bits) = Z.shiftr v (w - bits).
Proof.
  intros H. unfold mask_top. rewrite Z.shiftr_shiftl_l by lia.
  replace (w - bits - (w - bits)) with 0 by lia. by rewrite Z.shiftl_0_r.
Qed.

Lemma Prefix_Masked_valid p : Prefix_IsValid (Prefix_Masked p) = Prefix_IsValid p.
Proof. destruct p as [[| |] ?]; done. Qed.

Lemma Prefix_Masked_idemp p :
  Prefix_IsValid p = true -> Prefix_Masked (Prefix_Masked p) = Prefix_Masked p.
Proof.
  destruct p as [[|v|v z] b]; unfold Prefix_IsValid; simpl; [done|..]; intros H;
    unfold Prefix_Masked; simpl; by rewrite mask_top_idemp by lia.
Qed.

(** Masking does not change the addresses a prefix contains. *)
Lemma Prefix_Masked_Contains p a :
  Prefix_IsValid p = true -> Prefix_Contains (Prefix_Masked p) a = Prefix_Contains p a.
Proof.
  intros Hv. unfold Prefix_Contains. rewrite Prefix_Masked_valid.
  destruct (_ || _)%bool; [done|].
  destruct p as [[|v|v z] b]; unfold Prefix_IsValid in Hv; simpl in *; [done|..];
    destruct a as [|w|w z']; try done; f_equal;
    by rewrite !Z.shiftr_lxor, shiftr_mask_top by lia.
Qed.

(** Containment, bit by bit: the same family and the same leading bits. *)
Lemma Prefix_Contains_spec p a :
  Prefix_Contains p a = true <->
  Prefix_IsValid p = true /\ Addr_Zone a = "" /\
  match pfx_addr p, a with
  | Addr4 v, Addr4 w => w / 2 ^ (32 - pfx_bits p) = v / 2 ^ (32 - pfx_bits p)
  | Addr6 v _, Addr6 w _ => w / 2 ^ (128 - pfx_bits p) = v / 2 ^ (128 - pfx_bits p)
  | _, _ => False
  end.
Proof.
  unfold Prefix_Contains. destruct (Prefix_IsValid p) eqn:Hv; simpl; [|naive_solver].
  destruct (bool_decide_reflect (Addr_Zone a = "")) as [Hz|Hz]; simpl; [|naive_solver].
  unfold Prefix_IsValid in Hv.
  destruct (pfx_addr p), a; simpl in *; try naive_solver;
    rewrite Z.eqb_eq, lxor_shiftr_zero by lia; naive_solver.
Qed.

(** A masked prefix is not IPv4-mapped unless the prefix already was. *)
Lemma mask_top_4in6 bits v :
  0 <= bits <= 128 -> is_4in6 v = false -> is_4in6 (mask_top 128 bits v) = false.
Proof.
  unfold is_4in6. intros Hb Hv. rewrite Z.eqb_neq in *. intros H. apply Hv.
  rewrite Z.shiftr_div_pow2 in * by lia. rewrite mask_top_div in H by done.
  set (k := 128 - bits) in *. destruct (decide (k <= 32)) as [Hk|Hk].
  - rewrite <- H. replace 32 with (k + (32 - k)) by lia. rewrite Z.pow_add_r by lia.
    rewrite <- !Z.div_div by (try apply Z.pow_nonzero; try apply Z.pow_pos_nonneg; lia).
    rewrite Z.div_mul by (apply Z.pow_nonzero; lia). done.
  - exfalso. replace k with (1 + (k - 33) + 32) in H by lia.
    rewrite (Z.pow_add_r 2 (1 + (k - 33)) 32), Z.mul_assoc, Z.div_mul, Z.pow_add_r in H by lia.
    replace (2 ^ 1) with 2 in H by done.
    set (x := _ / _) in H. set (y := 2 ^ (k - 33)) in H.
    assert (2 * (x * y) = 65535) by lia. lia.
Qed.

(** ** Reading back the text of a prefix *)

Lemma hex_val_char d : 0 <= d <= 15 -> hex_val (hex_char d) = Some d.
Proof.
  intros H. assert (d = 0 \/ d = 1 \/ d = 2 \/ d = 3 \/ d = 4 \/ d = 5 \/ d = 6 \/ d = 7
    \/ d = 8 \/ d = 9 \/ d = 10 \/ d = 11 \/ d = 12 \/ d = 13 \/ d = 14 \/ d = 15) as Hd by lia.
  by repeat destruct Hd as [-> | Hd]; subst.
Qed.

(** Bytes of digits and hexadecimal digits are none of the separators. *)
Definition separator (c : ascii) : Prop := c ∈ [","%char; "."%char; ":"%char; "%"%char; "/"%char].

Lemma hex_char_not_separator d c : 0 <= d <= 15 -> separator c -> hex_char d <> c.
Proof.
  intros H Hc Heq. pose proof (hex_val_char d H) as Hv. rewrite Heq in Hv.
  unfold separator in Hc. rewrite !elem_of_cons, elem_of_nil in Hc.
  by repeat destruct Hc as [-> | Hc].
Qed.

Lemma digit_hex_char d : 0 <= d <= 9 -> digit_char d = hex_char d.
Proof. intros H. unfold digit_char, hex_char. by destruct (Z.ltb_spec d 10); [|lia]. Qed.

Definition no_hex (s : string) : Prop :=
  match s with
  | String c _ => hex_val c = None
  | EmptyString => True
  end.

Lemma scan_hex_stop off acc s : no_hex s -> scan_hex off acc s = Some (off, acc, s).
Proof. destruct s as [|c s]; simpl; [done|]. by intros ->. Qed.

Lemma scan_hex_text g s :
  0 <= g < 65536 -> no_hex s ->
  exists n, scan_hex 0 0 (hex_text g s) = Some (S n, g, s).
Proof.
  intros Hg Hs. unfold hex_text.
  assert (forall k, hex_val (hex_char (k mod 16)) = Some (k mod 16)) as Hh
    by (intros k; apply hex_val_char; zlia).
  destruct (g <? 16) eqn:?; [|destruct (g <? 256) eqn:?; [|destruct (g <? 4096) eqn:?]];
    cbn [scan_hex]; rewrite !Hh; simpl; rewrite scan_hex_stop by done;
    eexists; do 3 f_equal; zlia.
Qed.

Lemma parse4_digit fields val digs d s :
  0 <= d <= 9 -> ~ (digs = 1%nat /\ val = 0) -> val * 10 + d <= 255 ->
  parse4 fields val digs (String (digit_char d) s) = parse4 fields (val * 10 + d) (S digs) s.
Proof.
  intros Hd H1 H2. cbn [parse4]. rewrite digit_val_char by done.
  destruct (255 <? val * 10 + d) eqn:?; [lia|].
  destruct (Nat.eqb_spec digs 1), (Z.eqb_spec val 0); simpl; tauto.
Qed.

Lemma parse4_octet fields o s :
  0 <= o <= 255 ->
  exists n, parse4 fields 0 0 (octet_text o s) = parse4 fields o (S n) s.
Proof.
  intros Ho. unfold octet_text.
  destruct (o <? 10) eqn:?; [|destruct (o <? 100) eqn:?];
    rewrite !parse4_digit by (try (intros [??]); zlia); eexists; f_equal; zlia.
Qed.

Lemma parse4_dot fields val n s :
  List.length fields <> 3%nat -> s <> "" ->
  parse4 fields val (S n) (String "." s) = parse4 (fields ++ [val]) 0 0 s.
Proof.
  intros Hl Hs. cbn [parse4]. simpl. destruct s as [|c s]; [done|].
  destruct (Nat.eqb_spec (List.length fields) 3); done.
Qed.

Lemma octet_text_ne o s : octet_text o s <> "".
Proof. unfold octet_text. by repeat case_match. Qed.

Lemma parse4_text4 v : 0 <= v < 2 ^ 32 -> parseIPv4 (text4 v "") = Some (Addr4 v).
Proof.
  intros Hv. unfold parseIPv4, text4.
  edestruct (parse4_octet [] (v / 16777216 mod 256)) as [? ->]; [zlia|].
  rewrite parse4_dot by (try apply octet_text_ne; done).
  edestruct (parse4_octet ([] ++ [v / 16777216 mod 256]) (v / 65536 mod 256)) as [? ->]; [zlia|].
  rewrite parse4_dot by (try apply octet_text_ne; done).
  edestruct (parse4_octet (([] ++ [v / 16777216 mod 256]) ++ [v / 65536 mod 256])
    (v / 256 mod 256)) as [? ->]; [zlia|].
  rewrite parse4_dot by (try apply octet_text_ne; done).
  edestruct parse4_octet as [? ->]; [zlia|]. simpl. do 2 f_equal. zlia.
Qed.

(** *** IPv6 groups *)

Definition group_ok (g : Z) : Prop := 0 <= g < 65536.

Lemma groups_of_acc n v acc : groups_of n v acc = groups_of n v [] ++ acc.
Proof.
  revert v acc. induction n as [|n IH]; intros v acc; simpl; [done|].
  rewrite IH, (IH _ [_]), <- (assoc (++)). done.
Qed.

Lemma length_groups_of n v acc : List.length (groups_of n v acc) = (n + List.length acc)%nat.
Proof. revert v acc. induction n as [|n IH]; intros v acc; simpl; [done|]. rewrite IH; simpl; lia. Qed.

Lemma groups_of_ok n v acc : Forall group_ok acc -> Forall group_ok (groups_of n v acc).
Proof.
  revert v acc. induction n as [|n IH]; intros v acc H; simpl; [done|].
  apply IH. constructor; [unfold group_ok; zlia|done].
Qed.

Lemma of_groups_groups n v : 0 <= v < 65536 ^ Z.of_nat n -> of_groups (groups_of n v []) = v.
Proof.
  revert v. induction n as [|n IH]; intros v H; [simpl in *; unfold of_groups; simpl; lia|].
  simpl groups_of. rewrite groups_of_acc. unfold of_groups in *. rewrite fold_left_app. simpl.
  rewrite Nat2Z.inj_succ, Z.pow_succ_r in H by lia.
  rewrite IH by (split; [zlia|apply Z.div_lt_upper_bound; lia]). zlia.
Qed.

Lemma zero_prefix_spec gs :
  take (zero_prefix gs) gs = replicate (zero_prefix gs) 0 /\ (zero_prefix gs <= List.length gs)%nat.
Proof.
  induction gs as [|g gs [IH1 IH2]]; simpl; [done|].
  destruct (Z.eqb_spec g 0) as [->|]; simpl; [|split; [done|lia]]. rewrite IH1. split; [done|lia].
Qed.

(** The run the printer picks really is a run of zeros, of length at least two. *)
Lemma best_run_spec gs : forall pre start len,
  (forall a b, (a, b) = (start, len) -> b <> 0%nat ->
     (2 <= b)%nat /\ (a + b <= List.length (pre ++ gs))%nat /\
     take b (drop a (pre ++ gs)) = replicate b 0) ->
  let '(start, len) := best_run (List.length pre) gs start len in
  len <> 0%nat ->
  (2 <= len)%nat /\ (start + len <= List.length (pre ++ gs))%nat /\
  take len (drop start (pre ++ gs)) = replicate len 0.
Proof.
  induction gs as [|g gs IH]; intros pre start len H; [intros Hne; by apply H|].
  cbn [best_run]. set (l := zero_prefix (g :: gs)).
  pose proof (zero_prefix_spec (g :: gs)) as [Hz Hl]. fold l in Hz, Hl.
  replace (S (List.length pre)) with (List.length (pre ++ [g])) by (rewrite List.length_app; simpl; lia).
  replace (pre ++ g :: gs) with ((pre ++ [g]) ++ gs) in * by (rewrite <- (assoc (++)); done).
  destruct ((2 <=? l) && (len <? l))%nat eqn:E; [|by apply IH].
  apply andb_prop in E as [E%Nat.leb_le _].
  apply IH. intros a b [= -> ->] _. split; [exact E|].
  rewrite <- (assoc (++)). simpl. split; [rewrite List.length_app; simpl in *; lia|].
  rewrite drop_app_length. exact Hz.
Qed.

(** A text of groups starts with a hexadecimal digit. *)
Lemma hex_text_head g s :
  exists c t, hex_text g s = String c t /\ forall x, separator x -> c <> x.
Proof.
  assert (forall d x, separator x -> hex_char (d mod 16) <> x) as H
    by (intros; apply hex_char_not_separator; [zlia|done]).
  unfold hex_text. repeat case_match; eexists _, _; (split; [done|intros x; apply H]).
Qed.

Lemma join6_head gs s :
  gs <> [] -> exists c t, join6 gs s = String c t /\ c <> ":"%char.
Proof.
  destruct gs as [|g [|g2 gs]]; intros Hne; [done|..]; cbn [join6];
    edestruct (hex_text_head g) as (c & t & -> & H); eexists _, _; (split; [done|apply H]);
    unfold separator; set_solver.
Qed.

(** Reading a run of groups that ends the text. *)
Lemma parse6_loop_end gs : forall fuel fields ell,
  gs <> [] -> Forall group_ok gs -> (List.length gs <= fuel)%nat ->
  parse6_loop fuel fields ell (join6 gs "") = Some (fields ++ gs, ell, "").
Proof.
  induction gs as [|g gs IH]; intros fuel fields ell Hne Hok Hf; [done|].
  apply Forall_cons in Hok as [Hg Hok]. destruct fuel as [|fuel]; [simpl in Hf; lia|].
  destruct gs as [|g2 gs].
  - cbn [parse6_loop join6]. edestruct (scan_hex_text g "") as [n ->]; done.
  - cbn [parse6_loop]. change (join6 (g :: g2 :: gs) "")
      with (hex_text g (String ":" (join6 (g2 :: gs) ""))).
    edestruct (scan_hex_text g (String ":" (join6 (g2 :: gs) ""))) as [n ->]; [done|done|].
    rewrite decide_True by done.
    destruct (join6_head (g2 :: gs) "") as (c & s & Hj & Hc); [done|].
    pose proof (IH fuel (fields ++ [g]) ell ltac:(done) Hok ltac:(simpl in *; lia)) as IH'.
    rewrite Hj in *. rewrite decide_False by done. rewrite IH'.
    by rewrite <- (assoc (++)).
Qed.

(** Reading a run of groups in front of the ellipsis. *)
Lemma parse6_loop_ell gs : forall fuel fields s,
  gs <> [] -> Forall group_ok gs -> (List.length gs < fuel)%nat ->
  parse6_loop fuel fields None (join6 gs (String ":" (String ":" s))) =
    match s with
    | EmptyString => Some (fields ++ gs, Some (List.length (fields ++ gs)), "")
    | _ => parse6_loop (fuel - List.length gs) (fields ++ gs) (Some (List.length (fields ++ gs))) s
    end.
Proof.
  induction gs as [|g gs IH]; intros fuel fields s Hne Hok Hf; [done|].
  apply Forall_cons in Hok as [Hg Hok]. destruct fuel as [|fuel]; [simpl in Hf; lia|].
  destruct gs as [|g2 gs].
  - cbn [parse6_loop join6].
    edestruct (scan_hex_text g (String ":" (String ":" s))) as [n ->]; [done|done|].
    rewrite !decide_True by done. destruct s; [done|].
    cbn [List.length]. by rewrite Nat.sub_succ, Nat.sub_0_r.
  - cbn [parse6_loop]. change (join6 (g :: g2 :: gs) (String ":" (String ":" s)))
      with (hex_text g (String ":" (join6 (g2 :: gs) (String ":" (String ":" s))))).
    edestruct (scan_hex_text g (String ":" (join6 (g2 :: gs) (String ":" (String ":" s)))))
      as [n ->]; [done|done|].
    rewrite decide_True by done.
    pose proof (IH fuel (fields ++ [g]) s ltac:(done) Hok ltac:(simpl in *; lia)) as IH'.
    destruct (join6_head (g2 :: gs) (String ":" (String ":" s))) as (c & t & Hj & Hc); [done|].
    rewrite Hj in *. rewrite decide_False by done. rewrite IH'.
    assert ((fields ++ [g]) ++ g2 :: gs = fields ++ g :: g2 :: gs) as ->
      by (by rewrite <- (assoc (++))).
    done.
Qed.

(** The dispatch of ParseAddr and the zone check see only separators. *)
Lemma has_byte_hex_text c g s :
  separator c -> has_byte c (hex_text g s) = has_byte c s.
Proof.
  intros Hc. unfold hex_text.
  assert (forall d, hex_char (d mod 16) <> c) as H
    by (intros d; apply hex_char_not_separator; [zlia|done]).
  repeat case_match; cbn [has_byte]; by rewrite !decide_False by apply H.
Qed.

Lemma has_byte_octet_text c o s :
  0 <= o <= 255 -> separator c -> has_byte c (octet_text o s) = has_byte c s.
Proof.
  intros Ho Hc. unfold octet_text.
  assert (forall d, 0 <= d <= 9 -> digit_char d <> c) as H
    by (intros d Hd; rewrite digit_hex_char by done; apply hex_char_not_separator; [lia|done]).
  repeat case_match; cbn [has_byte]; by rewrite !decide_False by (apply H; zlia).
Qed.

Lemma has_byte_join6 c gs s :
  separator c -> c <> ":"%char -> has_byte c (join6 gs s) = has_byte c s.
Proof.
  intros Hc Hne. induction gs as [|g [|g2 gs] IH]; [done|by apply has_byte_hex_text|].
  cbn [join6] in *. rewrite has_byte_hex_text by done. cbn [has_byte].
  by rewrite decide_False.
Qed.

Lemma has_byte_text6 c v s :
  separator c -> c <> ":"%char -> has_byte c (text6 v s) = has_byte c s.
Proof.
  intros Hc Hne. unfold text6. case_match. case_match; [by apply has_byte_join6|].
  rewrite has_byte_join6 by done. cbn [has_byte]. rewrite !decide_False by done.
  by apply has_byte_join6.
Qed.

Lemma has_byte_text4 c v s :
  separator c -> c <> "."%char -> has_byte c (text4 v s) = has_byte c s.
Proof.
  intros Hc Hne. unfold text4.
  repeat (rewrite has_byte_octet_text by (done || zlia); cbn [has_byte];
    rewrite ?decide_False by done). done.
Qed.

Lemma addr_kind_hex g s : addr_kind (hex_text g s) = addr_kind s.
Proof.
  unfold hex_text.
  assert (forall d x, separator x -> hex_char (d mod 16) <> x) as H
    by (intros; apply hex_char_not_separator; [zlia|done]).
  assert (forall d, ~ (hex_char (d mod 16) = "."%char \/ hex_char (d mod 16) = ":"%char
    \/ hex_char (d mod 16) = "%"%char)) as H'.
  { intros d. pose proof (H d). unfold separator in *. set_solver. }
  repeat case_match; cbn [addr_kind]; by rewrite !decide_False by apply H'.
Qed.

Lemma addr_kind_octet o s : 0 <= o <= 255 -> addr_kind (octet_text o s) = addr_kind s.
Proof.
  intros Ho. unfold octet_text.
  assert (forall d, 0 <= d <= 9 -> ~ (digit_char d = "."%char \/ digit_char d = ":"%char
    \/ digit_char d = "%"%char)) as H.
  { intros d Hd. rewrite digit_hex_char by done.
    assert (forall x, separator x -> hex_char d <> x) as Hx
      by (intros; apply hex_char_not_separator; [lia|done]).
    unfold separator in *. set_solver. }
  repeat case_match; cbn [addr_kind]; by rewrite !decide_False by (apply H; zlia).
Qed.

Lemma ParseAddr_text4 v : 0 <= v < 2 ^ 32 -> ParseAddr (text4 v "") = Some (Addr4 v).
Proof.
  intros Hv. unfold ParseAddr.
  assert (addr_kind (text4 v "") = Some "."%char) as ->
    by (unfold text4; rewrite addr_kind_octet by zlia; done).
  rewrite decide_True by done. by apply parse4_text4.
Qed.

Lemma parse6_body_other c t :
  c <> ":"%char -> parse6_body (String c t) = finish6 (parse6_loop 8 [] None (String c t)).
Proof. intros Hc. destruct c as [[] [] [] [] [] [] [] []]; done. Qed.

Lemma finish6_expand (A B : list Z) l :
  (List.length A + l + List.length B = 8)%nat -> (1 <= l)%nat ->
  finish6 (Some (A ++ B, Some (List.length A), "")) = Some (of_groups (A ++ replicate l 0 ++ B)).
Proof.
  intros H Hl. unfold finish6. rewrite List.length_app.
  destruct (Nat.ltb_spec (List.length A + List.length B) 8); [|lia].
  rewrite take_app_length, drop_app_length. do 5 f_equal. lia.
Qed.

(** Groups around a compressed run are read back with the run expanded. *)
Lemma parse6_body_compressed (A B : list Z) l :
  (List.length A + l + List.length B = 8)%nat -> (1 <= l)%nat ->
  Forall group_ok A -> Forall group_ok B ->
  parse6_body (join6 A (String ":" (String ":" (join6 B "")))) =
    Some (of_groups (A ++ replicate l 0 ++ B)).
Proof.
  intros Hlen Hl HA HB. rewrite <- finish6_expand by done.
  destruct (decide (A = [])) as [->|HA0].
  - destruct (decide (B = [])) as [->|HB0].
    + cbn [join6 parse6_body]. rewrite (finish6_expand [] [] l) by done.
      simpl in Hlen. rewrite app_nil_r. by replace l with 8%nat by lia.
    + cbn [join6 parse6_body]. pose proof (parse6_loop_end B 8 [] (Some 0%nat) HB0 HB) as HL.
      destruct (join6_head B "") as (c & t & Hj & _); [done|]. rewrite Hj in *.
      rewrite HL by lia. done.
  - destruct (join6_head A (String ":" (String ":" (join6 B "")))) as (c & t & Hj & Hc); [done|].
    rewrite Hj, parse6_body_other, <- Hj, parse6_loop_ell by (done || lia).
    destruct (decide (B = [])) as [->|HB0]; [simpl; by rewrite app_nil_r|].
    pose proof (parse6_loop_end B (8 - List.length A) A (Some (List.length A)) HB0 HB) as HL.
    destruct (join6_head B "") as (c' & t' & Hj' & _); [done|]. rewrite Hj' in *.
    simpl app. rewrite HL by lia. done.
Qed.

(** The text of an IPv6 address, compressed or not, is read back. *)
Lemma parse6_body_text6 v : 0 <= v < 2 ^ 128 -> parse6_body (text6 v "") = Some v.
Proof.
  intros Hv. unfold text6. set (gs := groups_of 8 v []).
  assert (List.length gs = 8%nat) as Hlen by apply length_groups_of.
  assert (Forall group_ok gs) as Hok by (by apply groups_of_ok).
  assert (of_groups gs = v) as Hgs by (by apply of_groups_groups).
  clearbody gs. pose proof (best_run_spec gs [] 0 0) as Hrun. simpl in Hrun.
  destruct (best_run 0 gs 0 0) as [start [|len]].
  - destruct (join6_head gs "") as (c & t & Hj & Hc); [by intros ->|].
    rewrite Hj, parse6_body_other, <- Hj by done.
    rewrite parse6_loop_end by (first [done | by intros Heq; rewrite Heq in Hlen | lia]).
    unfold finish6. rewrite (left_id_L [] (++)), Hlen. simpl. by rewrite Hgs.
  - destruct Hrun as (Hl2 & Hle & Hz); [by intros a b [= -> ->]|done|].
    rewrite Hlen in Hle.
    rewrite (parse6_body_compressed _ _ (S len)).
    + rewrite <- Hz, <- drop_drop, take_drop, take_drop. by rewrite Hgs.
    + rewrite length_take, length_drop. lia.
    + lia.
    + by apply Forall_take.
    + by apply Forall_drop.
Qed.

Lemma ParseAddr_text6 v : 0 <= v < 2 ^ 128 -> ParseAddr (text6 v "") = Some (Addr6 v "").
Proof.
  intros Hv. pose proof (parse6_body_text6 v Hv) as Hp. unfold ParseAddr.
  assert (addr_kind (text6 v "") = Some ":"%char) as ->.
  { clear Hp. unfold text6. assert (List.length (groups_of 8 v []) = 8%nat) as Hlen
      by apply length_groups_of.
    destruct (best_run 0 (groups_of 8 v []) 0 0) as [start [|len]].
    - destruct (groups_of 8 v []) as [|g [|g2 gs]]; [done..|]. cbn [join6].
      by rewrite addr_kind_hex.
    - destruct (take start (groups_of 8 v [])) as [|g [|g2 gs]]; [done|..]; cbn [join6];
        by rewrite addr_kind_hex. }
  rewrite decide_False, decide_True by done. unfold parseIPv6.
  assert (cut_byte "%"%char (text6 v "") = None) as ->.
  { apply cut_byte_None. rewrite has_byte_text6; [done| |done].
    unfold separator. set_solver. }
  by rewrite Hp.
Qed.

(** [ParsePrefix(p.String()) == p] for a valid prefix without a zone that is not
    IPv4-mapped. *)
Lemma ParsePrefix_String p :
  Prefix_IsValid p = true -> Addr_ok (pfx_addr p) -> Addr_Zone (pfx_addr p) = "" ->
  Addr_Is4In6 (pfx_addr p) = false ->
  ParsePrefix (Prefix_String p) = Some p.
Proof.
  intros Hv Hok Hz H46. unfold Prefix_String. rewrite Hv.
  destruct p as [a bits]. unfold Prefix_IsValid in Hv. cbn [pfx_addr pfx_bits] in *.
  assert (0 <= bits <= BitLen a) as Hb by lia.
  assert (0 <= bits <= 128) as Hb' by (destruct a; simpl in Hb; lia).
  assert (parse_bits (Itoa bits) = Some bits /\ has_byte "/"%char (Itoa bits) = false)
    as [Hbits Hslash].
  { assert (forallb (fun b => bool_decide (parse_bits (Itoa b) = Some b) &&
      negb (has_byte "/"%char (Itoa b))) (zrange 129) = true) as H by (vm_compute; reflexivity).
    apply (zrange_forall 129 _ bits) in H; [|lia].
    apply andb_prop in H as [H1%bool_decide_eq_true H2%negb_true_iff]. done. }
  assert (ParseAddr (Addr_String a) = Some a) as Ha.
  { clear Hb Hb' Hbits Hslash.
    destruct a as [|v|v z]; cbn [Addr_ok Addr_Zone Addr_Is4In6 Addr_String] in *;
      [done|by apply ParseAddr_text4|].
    subst z. rewrite H46. rewrite decide_True by done. by apply ParseAddr_text6. }
  unfold ParsePrefix. rewrite last_cut_byte_app by done. rewrite Ha.
  cbn [mbind option_bind]. rewrite decide_False by (intros ?; done). rewrite Hbits.
  cbn [mbind option_bind]. destruct (_ || _)%bool eqn:E; [lia|done].
Qed.

(** Distinct such prefixes have distinct texts. *)
Definition printable (p : Prefix) : Prop :=
  Prefix_IsValid p = true /\ Addr_ok (pfx_addr p) /\ Addr_Zone (pfx_addr p) = "" /\
  Addr_Is4In6 (pfx_addr p) = false.

Lemma Prefix_String_inj p q :
  printable p -> printable q -> Prefix_String p = Prefix_String q -> p = q.
Proof.
  intros (?&?&?&?) (?&?&?&?) Heq. apply (f_equal ParsePrefix) in Heq.
  rewrite !ParsePrefix_String in Heq by done. congruence.
Qed.

(** ** What parsing produces is in range *)

Lemma parse4_range s : forall fields val digs l,
  Forall (fun o => 0 <= o <= 255) fields -> 0 <= val <= 255 ->
  parse4 fields val digs s = Some l -> Forall (fun o => 0 <= o <= 255) l.
Proof.
  induction s as [|c s IH]; intros fields val digs l Hf Hv; cbn [parse4].
  - case_match; [done|]. intros [= <-]. apply Forall_app; auto.
  - destruct (digit_val c) eqn:Ed.
    + apply digit_val_range in Ed. case_match; [done|].
      destruct (255 <? val * 10 + z) eqn:?; [done|]. apply IH; [done|lia].
    + case_decide; [|done]. destruct digs; [done|]. destruct s; [done|].
      case_match; [done|]. apply IH; [apply Forall_app; auto|lia].
Qed.

Lemma parseIPv4_ok s a : parseIPv4 s = Some a -> Addr_ok a /\ Addr_Is4In6 a = false.
Proof.
  unfold parseIPv4. destruct (parse4 [] 0 0 s) as [l|] eqn:E; [|done].
  apply parse4_range in E; [|done|lia].
  destruct l as [|x1 [|x2 [|x3 [|x4 [|]]]]]; try done. intros [= <-].
  rewrite !Forall_cons in E. split; [|done]. cbn [Addr_ok]. lia.
Qed.

Lemma hex_val_range c d : hex_val c = Some d -> 0 <= d <= 15.
Proof. unfold hex_val. repeat case_match; intros [= <-]; lia. Qed.

Lemma scan_hex_range s : forall off acc n v rest,
  0 <= acc < 16 ^ Z.of_nat off -> (off <= 4)%nat ->
  scan_hex off acc s = Some (n, v, rest) -> 0 <= v < 65536.
Proof.
  assert (forall off acc, 0 <= acc < 16 ^ Z.of_nat off -> (off <= 4)%nat -> 0 <= acc < 65536)
    as Hb.
  { intros off acc H Ho. assert (16 ^ Z.of_nat off <= 16 ^ 4) by (apply Z.pow_le_mono_r; lia). lia. }
  induction s as [|c s IH]; intros off acc n v rest Hacc Ho; cbn [scan_hex].
  - intros [= _ <- _]. by eapply Hb.
  - destruct (hex_val c) eqn:Eh.
    + apply hex_val_range in Eh. destruct (Nat.ltb_spec 3 off); [done|].
      apply IH; [|lia]. rewrite Nat2Z.inj_succ, Z.pow_succ_r by lia. lia.
    + intros [= _ <- _]. by eapply Hb.
Qed.

Lemma parse6_dot_ok fields ell s l e r :
  Forall group_ok fields -> parse6_dot fields ell s = Some (l, e, r) ->
  Forall group_ok l /\ (List.length l <= 8)%nat.
Proof.
  intros Hok. unfold parse6_dot. case_match; [done|].
  destruct (Nat.ltb_spec 8 (List.length fields + 2)); [done|].
  destruct (parse4 [] 0 0 s) as [q|] eqn:E4; [|done].
  apply parse4_range in E4; [|done|lia].
  destruct q as [|x1 [|x2 [|x3 [|x4 [|]]]]]; try done. intros [= <- _ _].
  rewrite !Forall_cons in E4. rewrite List.length_app. split; [|simpl; lia].
  apply Forall_app; split; [done|]. unfold group_ok. repeat constructor; lia.
Qed.

Lemma parse6_loop_ok fuel : forall fields ell s l e r,
  Forall group_ok fields -> (List.length fields + fuel = 8)%nat ->
  parse6_loop fuel fields ell s = Some (l, e, r) ->
  Forall group_ok l /\ (List.length l <= 8)%nat.
Proof.
  induction fuel as [|f IH]; intros fields ell s l e r Hok Hlen; cbn [parse6_loop].
  { intros [= <- _ _]. split; [done|lia]. }
  destruct (scan_hex 0 0 s) as [[[[|off] acc] rest]|] eqn:Es; [done| |done].
  assert (group_ok acc) as Hacc by (eapply (scan_hex_range s 0 0); [|lia|exact Es]; simpl; lia).
  assert (Forall group_ok (fields ++ [acc])) as Hok' by (apply Forall_app; auto).
  assert (List.length (fields ++ [acc]) + f = 8)%nat as Hlen'
    by (rewrite List.length_app; simpl; lia).
  destruct rest as [|c s1]; [intros [= <- _ _]; split; [done|lia]|].
  destruct (decide (c = "."%char)) as [->|Hc]; [by apply parse6_dot_ok|].
  assert (forall X Y : option (list Z * option nat * string),
    match c with "."%char => X | _ => Y end = Y) as Hdot.
  { intros X Y. destruct c as [[] [] [] [] [] [] [] []]; try reflexivity. exfalso. by apply Hc. }
  rewrite Hdot. case_decide; [|done]. destruct s1 as [|c2 s2]; [done|].
  case_decide; [|by apply IH].
  destruct ell; [done|]. destruct s2; [intros [= <- _ _]; split; [done|lia]|]. by apply IH.
Qed.

Lemma of_groups_range gs :
  Forall group_ok gs -> 0 <= of_groups gs < 65536 ^ Z.of_nat (List.length gs).
Proof.
  induction gs as [|g gs IH] using rev_ind; intros H; [done|].
  apply Forall_app in H as [H Hg]. apply Forall_cons in Hg as [Hg _]. apply IH in H.
  unfold of_groups in *. rewrite fold_left_app, List.length_app. simpl.
  rewrite Nat2Z.inj_add, Z.pow_add_r by lia. unfold group_ok in Hg. lia.
Qed.

Lemma of_groups_range8 (gs : list Z) :
  List.length gs = 8%nat -> Forall group_ok gs -> 0 <= of_groups gs < 2 ^ 128.
Proof.
  intros Hl H. pose proof (of_groups_range gs H) as Hr. rewrite Hl in Hr.
  assert (65536 ^ Z.of_nat 8 = 2 ^ 128) as Heq by (vm_compute; reflexivity).
  by rewrite Heq in Hr.
Qed.

Lemma finish6_ok x v :
  (forall l e r, x = Some (l, e, r) -> Forall group_ok l /\ (List.length l <= 8)%nat) ->
  finish6 x = Some v -> 0 <= v < 2 ^ 128.
Proof.
  intros H. unfold finish6. destruct x as [[[l e] r]|]; [|done].
  destruct (H l e r eq_refl) as [Hok Hlen]. destruct r; [|done].
  destruct (Nat.ltb_spec (List.length l) 8) as [Hlt|Hge]; destruct e as [e|]; try done;
    intros [= <-].
  - apply of_groups_range8.
    + rewrite !List.length_app, length_replicate, length_take, length_drop. lia.
    + rewrite !Forall_app. split; [by apply Forall_take|].
      split; [by apply Forall_replicate|by apply Forall_drop].
  - apply of_groups_range8; [lia|done].
Qed.

Lemma parse6_body_ok s v : parse6_body s = Some v -> 0 <= v < 2 ^ 128.
Proof.
  assert (forall e s, finish6 (parse6_loop 8 [] e s) = Some v -> 0 <= v < 2 ^ 128) as H.
  { intros e s' Hf. eapply finish6_ok; [|exact Hf]. intros l e' r.
    by apply parse6_loop_ok. }
  unfold parse6_body. repeat case_match; try apply H. by intros [= <-].
Qed.

Lemma ParseAddr_ok s a : ParseAddr s = Some a -> Addr_ok a /\ Addr_IsValid a = true.
Proof.
  unfold ParseAddr. destruct (addr_kind s) as [c|]; [|done]. case_decide; [|case_decide; [|done]].
  - intros H0. pose proof (parseIPv4_ok _ _ H0) as [? _]. split; [done|].
    unfold parseIPv4 in H0. repeat case_match; by simplify_eq.
  - unfold parseIPv6.
    destruct (cut_byte "%"%char s) as [[body [|z zs]]|]; [done|..];
      intros (v & Hv & [= <-])%bind_Some; split; try done; by eapply parse6_body_ok.
Qed.

(** A parsed prefix is valid, in range and without a zone. *)
Lemma ParsePrefix_ok s p :
  ParsePrefix s = Some p ->
  Prefix_IsValid p = true /\ Addr_ok (pfx_addr p) /\ Addr_Zone (pfx_addr p) = "".
Proof.
  unfold ParsePrefix. destruct (last_cut_byte "/"%char s) as [[addr bits]|]; [|done].
  intros (ip & Hip & H)%bind_Some. destruct (ParseAddr_ok _ _ Hip) as [Hok Hvalid].
  case_decide as Hz; [done|]. apply bind_Some in H as (n & _ & H).
  destruct (_ || _)%bool eqn:E; [done|]. injection H as <-. unfold Prefix_IsValid. simpl.
  rewrite Hvalid. split; [|split; [done|]].
  - simpl. lia.
  - exact Hz.
Qed.

Lemma Prefix_Masked_printable p :
  Prefix_IsValid p = true -> Addr_ok (pfx_addr p) -> Addr_Is4In6 (pfx_addr p) = false ->
  printable (Prefix_Masked p).
Proof.
  intros Hv Hok H46. unfold printable. rewrite Prefix_Masked_valid. split; [done|].
  unfold Prefix_IsValid in Hv. unfold Prefix_Masked.
  destruct p as [[|v|v z] b]; cbn [pfx_addr pfx_bits Addr_IsValid BitLen] in *; [done|..];
    cbn [pfx_addr Addr_ok Addr_Zone Addr_Is4In6] in *.
  - pose proof (mask_top_range 32 b v). repeat split; lia.
  - pose proof (mask_top_range 128 b v).
    split; [lia|]. split; [done|]. apply mask_top_4in6; [lia|done].
Qed.
