(* ===== verification/Json.v ===== *)
(** The interface to encoding/json: what the packages store, approval and
    controlplane ask of it and the documented behaviour they rely on.  The
    components are written and proved against the class; [PlainJSON] at the end
    of the file is a concrete codec for flat objects of plain text, used to
    evaluate the models on concrete inputs. *)

From S2P Require Import Prelude GoStrings GoTime.
From Stdlib Require Import Ascii String.
From stdpp Require Import strings.
#[local] Open Scope stdpp_scope.
#[local] Open Scope Z_scope.

(** A byte encoding/json copies unescaped into a string literal: printable
    ASCII other than the quote, the backslash and the HTML-sensitive bytes. *)
Definition plain_byte (c : ascii) : bool :=
  let n := byte_of c in
  (32 <=? n) && (n <=? 126) &&
  negb ((n =? 34) || (n =? 92) || (n =? 60) || (n =? 62) || (n =? 38)).

Fixpoint plain (s : string) : bool :=
  match s with
  | EmptyString => true
  | String c r => plain_byte c && plain r
  end.

(** [Any] stands for Go values of type [any]; the operations return [None] where
    encoding/json returns an error. *)
Class JSONCodec (Any : Type) := {
  (** json.Marshal of a map[string]any *)
  Marshal_map : gmap string Any -> option string;
  (** json.Unmarshal into a map[string]any; [Some None] for the text null, which
      makes the map nil *)
  Unmarshal_map : string -> option (option (gmap string Any));
  (** json.Unmarshal into an any; [Some None] for the text null *)
  Unmarshal_any : string -> option (option Any);
  (** what a marshalled value decodes to (all numbers become float64, ...) *)
  json_norm : gmap string Any -> gmap string Any;
  (** Go's bool and string as any *)
  any_bool : bool -> Any;
  any_string : string -> Any;
  (** json.Marshal of a []string ([None] is the nil slice), which cannot fail *)
  Marshal_strings : option (list string) -> string;
  (** json.Unmarshal into a nil []string; [Some None] for the text null *)
  Unmarshal_strings : string -> option (option (list string))
}.

(** The documented behaviour the packages rely on. *)
Class JSONLaws (Any : Type) `{JSONCodec Any} := {
  Unmarshal_Marshal_map m s : Marshal_map m = Some s -> Unmarshal_map s = Some (Some (json_norm m));
  Unmarshal_braces : Unmarshal_map "{}" = Some (Some ∅);
  (** an object is written between braces *)
  Marshal_map_braces m s : Marshal_map m = Some s -> exists body, s = String "{" (body +:+ "}");
  Unmarshal_Marshal_strings l :
    Forall (fun s => plain s = true) l ->
    Unmarshal_strings (Marshal_strings (Some l)) = Some (Some l)
}.

Lemma plain_app a b : plain (a +:+ b) = plain a && plain b.
Proof. induction a as [|c a IH]; [done|]. rewrite app_cons. simpl. by rewrite IH, andb_assoc. Qed.

(** A marshalled object is not white space. *)
Lemma Marshal_map_not_blank `{JSONLaws Any} m s : Marshal_map m = Some s -> TrimSpace s <> "".
Proof. intros (body & ->)%Marshal_map_braces. by rewrite TrimSpace_braces. Qed.

(** ** A concrete codec: flat objects of plain text

    Values are booleans and strings; keys and strings are [plain].  The texts are
    the ones encoding/json writes for such values; other values are refused. *)

Inductive PlainValue := PBool (b : bool) | PText (s : string).

#[export] Instance PlainValue_eq_dec : EqDecision PlainValue.
Proof. solve_decision. Defined.

Definition quote (s : string) : string := String dquote (s +:+ String dquote "").

Definition plain_value (v : PlainValue) : bool :=
  match v with
  | PBool _ => true
  | PText s => plain s
  end.

Definition value_text (v : PlainValue) : string :=
  match v with
  | PBool true => "true"
  | PBool false => "false"
  | PText s => quote s
  end.

(** Reading a quoted text, a value, a list of members; what is left follows. *)
Definition read_quoted (s : string) : option (string * string) :=
  match s with
  | String c r => if decide (c = dquote) then cut_byte dquote r else None
  | EmptyString => None
  end.

Fixpoint strip (p s : string) : option string :=
  match p, s with
  | EmptyString, _ => Some s
  | String a p', String b s' => if decide (a = b) then strip p' s' else None
  | _, EmptyString => None
  end.

Definition read_value (s : string) : option (PlainValue * string) :=
  match strip "true" s, strip "false" s with
  | Some r, _ => Some (PBool true, r)
  | None, Some r => Some (PBool false, r)
  | None, None => '(x, r) ← read_quoted s; Some (PText x, r)
  end.

(** Items separated by commas up to a closing byte. *)
Fixpoint read_items {A} (fuel : nat) (item : string -> option (A * string)) (close : ascii)
    (s : string) : option (list A * string) :=
  match fuel with
  | O => None
  | S fuel =>
      '(x, r) ← item s;
      match r with
      | String c r' =>
          if decide (c = close) then Some ([x], r')
          else if decide (c = ","%char) then '(l, r'') ← read_items fuel item close r'; Some (x :: l, r'')
          else None
      | EmptyString => None
      end
  end.

Definition read_member (s : string) : option ((string * PlainValue) * string) :=
  '(k, r) ← read_quoted s; r ← strip ":" r; '(v, r) ← read_value r; Some ((k, v), r).

Definition member_text (kv : string * PlainValue) : string :=
  quote kv.1 +:+ String ":" (value_text kv.2).

(** The whole text between an opening and a closing byte. *)
Definition read_all {A} (open close : ascii) (item : string -> option (A * string)) (s : string)
    : option (list A) :=
  match s with
  | String o r =>
      if decide (o = open) then
        if decide (r = String close "") then Some []
        else match read_items (String.length r) item close r with
             | Some (l, EmptyString) => Some l
             | _ => None
             end
      else None
  | EmptyString => None
  end.

Definition bracket (open close : ascii) (parts : list string) : string :=
  String open (str_join "," parts +:+ String close "").

#[export] Instance PlainJSON : JSONCodec PlainValue := {|
  Marshal_map m :=
    let l := merge_sort (fun a b => String.le a.1 b.1) (map_to_list m) in
    if forallb (fun kv => plain kv.1 && plain_value kv.2) l
    then Some (bracket "{" "}" (map member_text l)) else None;
  Unmarshal_map s :=
    if decide (s = "null") then Some None
    else Some <$> (list_to_map <$> read_all "{" "}" read_member s);
  Unmarshal_any s :=
    if decide (s = "null") then Some None
    else match read_value s with
         | Some (v, EmptyString) => Some (Some v)
         | _ => None
         end;
  json_norm m := m;
  any_bool := PBool;
  any_string := PText;
  Marshal_strings l :=
    match l with
    | None => "null"
    | Some l => bracket "[" "]" (map quote l)
    end;
  Unmarshal_strings s :=
    if decide (s = "null") then Some None else Some <$> read_all "[" "]" read_quoted s
|}.

Lemma plain_no_quote s : plain s = true -> has_byte dquote s = false.
Proof.
  induction s as [|a s IH]; [done|]. cbn [plain has_byte]. intros [Ha Hs]%andb_prop.
  case_decide as Hq; [|by apply IH]. by subst a.
Qed.

Lemma read_quoted_quote s r : plain s = true -> read_quoted (quote s +:+ r) = Some (s, r).
Proof.
  intros Hs. unfold quote. rewrite app_cons. cbn [read_quoted]. rewrite decide_True by done.
  apply cut_byte_Some. rewrite GoStrings.app_assoc. split; [done|]. by apply plain_no_quote.
Qed.

Lemma read_value_text v r : plain_value v = true -> read_value (value_text v +:+ r) = Some (v, r).
Proof.
  intros Hv. destruct v as [[]|s]; [done..|]. unfold read_value. cbn [value_text].
  rewrite read_quoted_quote by done. done.
Qed.

Lemma read_member_text kv r :
  plain kv.1 && plain_value kv.2 = true -> read_member (member_text kv +:+ r) = Some (kv, r).
Proof.
  intros [Hk Hv]%andb_prop. unfold read_member, member_text.
  rewrite GoStrings.app_assoc, read_quoted_quote by done. rewrite app_cons.
  unfold mbind, option_bind. cbn [strip]. rewrite decide_True by done.
  rewrite read_value_text by done. by destruct kv.
Qed.

Lemma read_items_join {A} (item : string -> option (A * string)) (text : A -> string)
    (close : ascii) l fuel :
  close <> ","%char -> l <> [] ->
  (forall x r, x ∈ l -> item (text x +:+ r) = Some (x, r)) ->
  (List.length l <= fuel)%nat ->
  read_items fuel item close (str_join "," (map text l) +:+ String close "") = Some (l, "").
Proof.
  intros Hc. revert fuel. induction l as [|x l IH]; intros fuel Hne Hitem Hf; [done|].
  destruct fuel as [|fuel]; [simpl in Hf; lia|]. cbn [read_items].
  destruct l as [|y l].
  - cbn [map str_join]. rewrite Hitem by set_solver. simpl. by rewrite decide_True.
  - assert (str_join "," (map text (x :: y :: l)) = text x +:+ String "," (str_join "," (map text (y :: l))))
      as -> by done.
    rewrite GoStrings.app_assoc, Hitem by set_solver. rewrite app_cons.
    unfold mbind, option_bind. rewrite decide_False by congruence. rewrite decide_True by done.
    rewrite IH; [done|done|set_solver|simpl in *; lia].
Qed.

Lemma length_str_join {A} (text : A -> string) l :
  (forall x, x ∈ l -> (0 < String.length (text x))%nat) ->
  (List.length l <= String.length (str_join "," (map text l)))%nat.
Proof.
  induction l as [|x [|y l] IH]; intros Hl; [simpl; lia|..].
  - specialize (Hl x). simpl. specialize (Hl ltac:(set_solver)). lia.
  - assert (str_join "," (map text (x :: y :: l)) = text x +:+ String "," (str_join "," (map text (y :: l))))
      as -> by done.
    rewrite GoStrings.length_app. cbn [String.length]. specialize (IH ltac:(set_solver)). cbn [List.length] in *. lia.
Qed.

Lemma read_all_bracket {A} (item : string -> option (A * string)) (text : A -> string)
    (open close : ascii) l :
  close <> ","%char ->
  (forall x r, x ∈ l -> item (text x +:+ r) = Some (x, r)) ->
  (forall x, x ∈ l -> exists r, text x = String dquote r) -> close <> dquote ->
  read_all open close item (bracket open close (map text l)) = Some l.
Proof.
  intros Hc Hitem Htext Hq. unfold read_all, bracket. rewrite decide_True by done.
  destruct l as [|x l]; [cbn; by rewrite decide_True|].
  rewrite decide_False.
  - assert (List.length (x :: l) <= String.length (str_join "," (map text (x :: l)) +:+ String close ""))%nat
      as Hlen.
    { rewrite GoStrings.length_app. assert (forall y, y ∈ x :: l -> (0 < String.length (text y))%nat) as Hpos
        by (intros y Hy; destruct (Htext y Hy) as [r ->]; simpl; lia).
      pose proof (length_str_join text _ Hpos). lia. }
    by rewrite read_items_join.
  - destruct (Htext x ltac:(set_solver)) as [r Hr]. cbn [map str_join]. rewrite Hr.
    destruct (map text l); rewrite ?GoStrings.app_assoc, app_cons; congruence.
Qed.

#[export] Instance PlainJSON_laws : JSONLaws PlainValue.
Proof.
  split.
  - intros m s. cbn. set (l := merge_sort _ _). destruct (forallb _ l) eqn:Hall; [|done].
    intros [= <-]. rewrite forallb_forall in Hall. rewrite decide_False by done.
    rewrite read_all_bracket; [|done| |by eexists|done].
    + simpl. do 2 f_equal. transitivity (list_to_map (M:=gmap string PlainValue) (map_to_list m)).
      * apply list_to_map_proper; subst l; rewrite merge_sort_Permutation; [apply NoDup_fst_map_to_list|done].
      * apply list_to_map_to_list.
    + intros kv r Hkv. apply read_member_text, Hall. by apply list_elem_of_In.
  - done.
  - intros m s. cbn. destruct (forallb _ _); [|done]. intros [= <-]. by eexists.
  - intros l Hl. cbn [Unmarshal_strings Marshal_strings PlainJSON]. rewrite decide_False by done. rewrite read_all_bracket; [done|done| |by eexists|done].
    intros x r Hx. apply read_quoted_quote. rewrite Forall_forall in Hl. auto.
Qed.
