(* ===== verification/JsonText.v ===== *)
(** The texts encoding/json writes for strings, integers, slices and structs,
    byte for byte: escapes, HTML-sensitive characters and invalid UTF-8
    included. *)

From S2P Require Import Prelude GoStrings GoTime Netip Json.
From Stdlib Require Import Ascii String.
From stdpp Require Import strings.
#[local] Open Scope stdpp_scope.
#[local] Open Scope Z_scope.

Definition backslash : ascii := ascii_of_N 92.
Definition in_range (lo hi : Z) (c : ascii) : bool := (lo <=? byte_of c) && (byte_of c <=? hi).
Definition cont : ascii -> bool := in_range 128 191.

(** Well-formed UTF-8 sequences of two, three and four bytes. *)
Definition utf8_2 (a b : ascii) : bool := in_range 194 223 a && cont b.
Definition utf8_3 (a b c : ascii) : bool :=
  ((in_range 224 224 a && in_range 160 191 b) ||
   ((in_range 225 236 a || in_range 238 239 a) && cont b) ||
   (in_range 237 237 a && in_range 128 159 b)) && cont c.
Definition utf8_4 (a b c d : ascii) : bool :=
  ((in_range 240 240 a && in_range 144 191 b) || (in_range 241 243 a && cont b) ||
   (in_range 244 244 a && in_range 128 143 b)) && cont c && cont d.

(** [\u00xx] *)
Definition unicode_escape (c : ascii) (s : string) : string :=
  String backslash ("u00" +:+ String (hex_char (byte_of c / 16)) (String (hex_char (byte_of c mod 16)) s)).

Definition json_ascii (c : ascii) (s : string) : string :=
  let n := byte_of c in
  if (n =? 34) || (n =? 92) then String backslash (String c s)
  else if n =? 8 then String backslash (String "b" s)
  else if n =? 12 then String backslash (String "f" s)
  else if n =? 10 then String backslash (String "n" s)
  else if n =? 13 then String backslash (String "r" s)
  else if n =? 9 then String backslash (String "t" s)
  else if (n <? 32) || (n =? 60) || (n =? 62) || (n =? 38) then unicode_escape c s
  else String c s.

(** U+2028 and U+2029, line separators JavaScript does not take in strings. *)
Definition line_separator (a b c : ascii) : bool :=
  (byte_of a =? 226) && (byte_of b =? 128) && ((byte_of c =? 168) || (byte_of c =? 169)).

Fixpoint json_body (s : string) : string :=
  match s with
  | EmptyString => ""
  | String a r1 =>
      if byte_of a <? 128 then json_ascii a (json_body r1)
      else
        let bad := String backslash ("ufffd" +:+ json_body r1) in
        match r1 with
        | EmptyString => bad
        | String b r2 =>
            if utf8_2 a b then String a (String b (json_body r2))
            else match r2 with
                 | EmptyString => bad
                 | String c r3 =>
                     if line_separator a b c then
                       String backslash ("u202" +:+ String (hex_char (byte_of c mod 16)) (json_body r3))
                     else if utf8_3 a b c then String a (String b (String c (json_body r3)))
                     else match r3 with
                          | EmptyString => bad
                          | String d r4 =>
                              if utf8_4 a b c d
                              then String a (String b (String c (String d (json_body r4))))
                              else bad
                          end
                 end
        end
  end.

Definition json_string (s : string) : string := quote (json_body s).

Definition json_array (items : list string) : string :=
  "[" +:+ (str_join "," items +:+ "]").

(** A struct: the members that are not left out, in declaration order. *)
Definition json_object (members : list (string * option string)) : string :=
  "{" +:+ (str_join "," (omap (fun m => option_map (fun v => json_string m.1 +:+ (":" +:+ v)) m.2) members) +:+ "}").

(** [omitempty] *)
Definition omit_if (empty : bool) (text : string) : option string :=
  if empty then None else Some text.

Definition omit_string (s : string) : option string := omit_if (bool_decide (s = "")) (json_string s).
Definition omit_int (n : Z) : option string := omit_if (n =? 0) (Itoa n).
Definition omit_list {A} (item : A -> string) (l : list A) : option string :=
  omit_if (match l with [] => true | _ => false end) (json_array (map item l)).

Lemma json_body_plain s : plain s = true -> json_body s = s.
Proof.
  induction s as [|c s IH]; [done|]. cbn [plain]. intros [Hc Hs]%andb_prop.
  unfold plain_byte in Hc. cbn [json_body].
  assert ((byte_of c <? 128) = true) as -> by lia. rewrite (IH Hs). unfold json_ascii.
  repeat (match goal with |- (if ?b then _ else _) = _ => assert (b = false) as -> by lia end). done.
Qed.

Example json_escapes :
  json_string (String (ascii_of_N 10) (String backslash "<a>&")) =
  quote (String backslash "n" +:+ String backslash (String backslash "") +:+
         String backslash "u003ca" +:+ String backslash "u003e" +:+ String backslash "u0026").
Proof. vm_compute. reflexivity. Qed.
Example json_invalid : json_body (String (ascii_of_N 255) "a") = String backslash "ufffda".
Proof. vm_compute. reflexivity. Qed.
