(* ===== verification/Float64.v ===== *)
(** Go's float64: IEEE 754 binary64 with rounding to nearest even, through the
    executable specification of the Standard Library; conversions with
    integers. *)

From S2P Require Import Prelude.
From Stdlib Require Export SpecFloat.
#[local] Open Scope Z_scope.

Definition float64 : Type := spec_float.

Definition f64_of_Z (z : Z) : float64 := binary_normalize 53 1024 z 0 false.
Definition f64_add : float64 -> float64 -> float64 := SFadd 53 1024.
Definition f64_sub : float64 -> float64 -> float64 := SFsub 53 1024.
Definition f64_mul : float64 -> float64 -> float64 := SFmul 53 1024.
Definition f64_div : float64 -> float64 -> float64 := SFdiv 53 1024.
(** [a < b] and [a <= b]; both are false when an operand is not a number *)
Definition f64_ltb : float64 -> float64 -> bool := SFltb.
Definition f64_leb : float64 -> float64 -> bool := SFleb.

Definition f64_zero : float64 := f64_of_Z 0.
Definition f64_one : float64 := f64_of_Z 1.

(** Conversion to an integer, towards zero; defined for finite values. *)
Definition f64_trunc (x : float64) : option Z :=
  match x with
  | S754_zero _ => Some 0
  | S754_finite s m e =>
      let v := if 0 <=? e then Z.shiftl (Zpos m) e else Z.shiftr (Zpos m) (- e) in
      Some (if s then - v else v)
  | _ => None
  end.

(** time.Duration.Seconds *)
Definition Duration_Seconds (d : Z) : float64 :=
  f64_add (f64_of_Z (Z.quot d 1000000000))
          (f64_div (f64_of_Z (Z.rem d 1000000000)) (f64_of_Z 1000000000)).

Example f64_tenth : f64_add (f64_div (f64_of_Z 1) (f64_of_Z 10)) (f64_div (f64_of_Z 2) (f64_of_Z 10))
  = S754_finite false 5404319552844596 (-54).
Proof. vm_compute. reflexivity. Qed.
Example f64_even : f64_trunc (f64_of_Z (2 ^ 53 + 1)) = Some (2 ^ 53).
Proof. vm_compute. reflexivity. Qed.
Example seconds_half : Duration_Seconds 1500000000 = f64_div (f64_of_Z 3) (f64_of_Z 2).
Proof. vm_compute. reflexivity. Qed.
