(* ===== verification/GoDuration.v ===== *)
(** time.ParseDuration. *)

From S2P Require Import Prelude GoStrings Float64.
From Stdlib Require Import Ascii String.
From stdpp Require Import strings.
#[local] Open Scope stdpp_scope.
#[local] Open Scope Z_scope.

Definition two63 : Z := 9223372036854775808.
Definition wrap_u64 (z : Z) : Z := z mod 18446744073709551616.

(** leadingInt: [None] on overflow. *)
Fixpoint leadingInt (x : Z) (s : string) : option (Z * string) :=
  match s with
  | EmptyString => Some (x, s)
  | String c r =>
      match digit_val c with
      | None => Some (x, s)
      | Some d =>
          if two63 / 10 <? x then None
          else let y := x * 10 + d in
               if two63 <? y then None else leadingInt y r
      end
  end.

(** leadingFraction: digits past an overflow are skipped. *)
Fixpoint leadingFraction (x : Z) (scale : float64) (overflow : bool) (s : string)
    : Z * float64 * string :=
  match s with
  | EmptyString => (x, scale, s)
  | String c r =>
      match digit_val c with
      | None => (x, scale, s)
      | Some d =>
          if overflow || ((two63 - 1) / 10 <? x) then leadingFraction x scale true r
          else let y := x * 10 + d in
               if two63 <? y then leadingFraction x scale true r
               else leadingFraction y (f64_mul scale (f64_of_Z 10)) false r
      end
  end.

Definition unit_byte (c : ascii) : bool :=
  negb (bool_decide (c = "."%char) || bool_decide (is_Some (digit_val c))).

(** The bytes up to the next digit or period. *)
Fixpoint take_unit (s : string) : string * string :=
  match s with
  | EmptyString => ("", "")
  | String c r => if unit_byte c then let '(u, rest) := take_unit r in (String c u, rest) else ("", s)
  end.

(** The letter mu in its two encodings. *)
Definition micro1 : string := String (ascii_of_N 194) (String (ascii_of_N 181) "s").
Definition micro2 : string := String (ascii_of_N 206) (String (ascii_of_N 188) "s").

Definition unit_ns (u : string) : option Z :=
  if bool_decide (u = "ns") then Some 1
  else if bool_decide (u = "us") || bool_decide (u = micro1) || bool_decide (u = micro2) then Some 1000
  else if bool_decide (u = "ms") then Some 1000000
  else if bool_decide (u = "s") then Some 1000000000
  else if bool_decide (u = "m") then Some 60000000000
  else if bool_decide (u = "h") then Some 3600000000000
  else None.

(** The part after the decimal point. *)
Definition read_fraction (s : string) : Z * float64 * string :=
  match s with
  | String "." r => leadingFraction 0 f64_one false r
  | _ => (0, f64_one, s)
  end.

(** One number and its unit, in nanoseconds. *)
Definition duration_part (s : string) : option (Z * string) :=
  match s with
  | EmptyString => None
  | String c _ =>
      if unit_byte c then None
      else
        '(v, s1) ← leadingInt 0 s;
        let '(f, scale, s2) := read_fraction s1 in
        let pre := negb (String.length s1 =? String.length s)%nat in
        let post := (S (String.length s2) <? String.length s1)%nat in
        if negb pre && negb post then None
        else
          let '(u, rest) := take_unit s2 in
          unit ← (if bool_decide (u = "") then None else unit_ns u);
          if two63 / unit <? v then None
          else
            let v := v * unit in
            extra ← (if 0 <? f then f64_trunc (f64_mul (f64_of_Z f) (f64_div (f64_of_Z unit) scale))
                     else Some 0);
            let v := wrap_u64 (v + extra) in
            if two63 <? v then None else Some (v, rest)
  end.

(** The loop over the parts; each consumes at least one byte. *)
Fixpoint duration_parts (fuel : nat) (d : Z) (s : string) : option Z :=
  match s, fuel with
  | EmptyString, _ => Some d
  | _, O => None
  | _, S fuel =>
      '(v, rest) ← duration_part s;
      let d := wrap_u64 (d + v) in
      if two63 <? d then None else duration_parts fuel d rest
  end.

Definition sign_of (s : string) : bool * string :=
  match s with
  | String "-" r => (true, r)
  | String "+" r => (false, r)
  | _ => (false, s)
  end.

(** time.ParseDuration *)
Definition ParseDuration (s : string) : result Z :=
  let bad := Err (ErrText "time: invalid duration" [s]) in
  let '(neg, body) := sign_of s in
  if bool_decide (body = "0") then Ok 0
  else if bool_decide (body = "") then bad
  else match duration_parts (String.length body) 0 body with
       | None => bad
       | Some d =>
           if neg then Ok (- d)
           else if two63 - 1 <? d then bad else Ok d
       end.

Example duration_mixed : ParseDuration "1h2m3.5s" = Ok 3723500000000.
Proof. vm_compute. reflexivity. Qed.
Example duration_micro : ParseDuration ("-1.5" +:+ micro1) = Ok (-1500).
Proof. vm_compute. reflexivity. Qed.
Example duration_bad : is_ok (ParseDuration "30") = false /\ is_ok (ParseDuration ".s") = false.
Proof. vm_compute. done. Qed.
Example duration_max : ParseDuration "9223372036854775807ns" = Ok int64_max /\
  is_ok (ParseDuration "9223372036854775808ns") = false.
Proof. vm_compute. done. Qed.

(** ** The fuel suffices: each part consumes a byte *)

Lemma leadingInt_length x s v rest :
  leadingInt x s = Some (v, rest) -> (String.length rest <= String.length s)%nat.
Proof.
  revert x. induction s as [|c s IH]; intros x; cbn [leadingInt]; [by intros [= _ <-]|].
  destruct (digit_val c); [|by intros [= _ <-]]. destruct (_ <? x); [done|]. destruct (_ <? _); [done|].
  intros H%IH. simpl. lia.
Qed.

Lemma leadingFraction_length x scale o s :
  (String.length (leadingFraction x scale o s).2 <= String.length s)%nat.
Proof.
  revert x scale o. induction s as [|c s IH]; intros x scale o; cbn [leadingFraction]; [done|].
  destruct (digit_val c); [|done]. simpl.
  destruct (_ || _); [|destruct (_ <? _)]; (etransitivity; [apply IH|lia]).
Qed.

Lemma take_unit_length s u rest : take_unit s = (u, rest) -> String.length s = (String.length u + String.length rest)%nat.
Proof.
  revert u. induction s as [|c s IH]; intros u; cbn [take_unit]; [by intros [= <- <-]|].
  destruct (unit_byte c); [|by intros [= <- <-]]. destruct (take_unit s) as [u0 r0].
  intros [= <- <-]. simpl. by rewrite (IH u0).
Qed.

Lemma read_fraction_length s : (String.length (read_fraction s).2 <= String.length s)%nat.
Proof.
  unfold read_fraction. destruct s as [|[[] [] [] [] [] [] [] []] r]; try done.
  etransitivity; [apply leadingFraction_length|simpl; lia].
Qed.

Lemma duration_part_shorter s v rest :
  duration_part s = Some (v, rest) -> (String.length rest < String.length s)%nat.
Proof.
  unfold duration_part. destruct s as [|c s]; [done|]. destruct (unit_byte c); [done|].
  unfold mbind, option_bind. destruct (leadingInt 0 _) as [[n s1]|] eqn:E1; [|done].
  apply leadingInt_length in E1. pose proof (read_fraction_length s1) as E2.
  destruct (read_fraction s1) as [[f scale] s2]. simpl in E2. destruct (_ && _); [done|].
  destruct (take_unit s2) as [u r] eqn:E3. apply take_unit_length in E3.
  case_bool_decide as Hu; [done|]. destruct (unit_ns u) as [unit|]; [|done].
  destruct (_ <? n); [done|]. destruct (if 0 <? f then _ else _) as [extra|]; [|done].
  destruct (two63 <? _); [done|]. intros [= _ <-]. destruct u; [done|]. simpl in E3. lia.
Qed.

(** More fuel than the length of the text changes nothing. *)
Lemma duration_parts_fuel fuel d s :
  (String.length s <= fuel)%nat -> duration_parts fuel d s = duration_parts (String.length s) d s.
Proof.
  assert (forall n m d s, (String.length s <= n)%nat -> (String.length s <= m)%nat ->
    duration_parts n d s = duration_parts m d s) as H.
  { induction n as [|n IH]; intros m d' s' Hn Hm.
    - destruct s'; [by destruct m|simpl in Hn; lia].
    - destruct s' as [|c s']; [by destruct m|]. destruct m as [|m]; [simpl in Hm; lia|].
      cbn [duration_parts]. unfold mbind, option_bind.
      destruct (duration_part (String c s')) as [[v rest]|] eqn:E; [|done].
      apply duration_part_shorter in E. destruct (two63 <? _); [done|]. apply IH; lia. }
  intros Hf. by apply H.
Qed.
