(* ===== verification/Sha256.v ===== *)
(** SHA-256 (crypto/sha256, FIPS 180-4) on byte strings, and the %x verb for its
    digest: what controlplane compares observations by and names its cursor
    with.  32-bit words are integers below 2^32. *)

From S2P Require Import Prelude GoStrings.
From Stdlib Require Import Ascii String.
From stdpp Require Import strings.
#[local] Open Scope stdpp_scope.
#[local] Open Scope Z_scope.

Definition word_mask : Z := 4294967295.

Definition add32 (a b : Z) : Z := Z.land (a + b) word_mask.
Definition rotr (n x : Z) : Z :=
  Z.lor (Z.shiftr x n) (Z.land (Z.shiftl x (32 - n)) word_mask).

Definition ch (x y z : Z) : Z := Z.lxor (Z.land x y) (Z.land (Z.lxor x word_mask) z).
Definition maj (x y z : Z) : Z := Z.lxor (Z.lxor (Z.land x y) (Z.land x z)) (Z.land y z).
Definition big_sigma0 (x : Z) : Z := Z.lxor (Z.lxor (rotr 2 x) (rotr 13 x)) (rotr 22 x).
Definition big_sigma1 (x : Z) : Z := Z.lxor (Z.lxor (rotr 6 x) (rotr 11 x)) (rotr 25 x).
Definition small_sigma0 (x : Z) : Z := Z.lxor (Z.lxor (rotr 7 x) (rotr 18 x)) (Z.shiftr x 3).
Definition small_sigma1 (x : Z) : Z := Z.lxor (Z.lxor (rotr 17 x) (rotr 19 x)) (Z.shiftr x 10).

(** The constants: the first 32 bits of the fractional parts of the cube roots of
    the first 64 primes, and of the square roots of the first eight.  [root k x] is
    the largest integer whose [k]th power is at most [x]. *)
Definition is_prime (p : Z) : bool :=
  (2 <=? p) && forallb (fun i => negb (p mod (i + 2) =? 0)) (zrange (Z.to_nat (p - 2))).
Definition small_primes : list Z :=
  Eval vm_compute in List.filter is_prime (zrange 312).

Fixpoint root_bits (n : nat) (k x found : Z) : Z :=
  match n with
  | O => found
  | S n =>
      let next := found + Z.shiftl 1 (Z.of_nat n) in
      root_bits n k x (if next ^ k <=? x then next else found)
  end.
Definition root_fraction (k p : Z) : Z := Z.land (root_bits 40 k (Z.shiftl p (32 * k)) 0) word_mask.

Definition round_constants : list Z := Eval vm_compute in map (root_fraction 3) small_primes.
Definition initial_hash : list Z := Eval vm_compute in map (root_fraction 2) (take 8 small_primes).

(** ** Message words *)

Fixpoint bytes_of (s : string) : list Z :=
  match s with
  | EmptyString => []
  | String c r => byte_of c :: bytes_of r
  end.

(** The big-endian bytes of a number, [n] of them. *)
Definition be_bytes (n : nat) (v : Z) : list Z :=
  map (fun i => Z.land (Z.shiftr v (8 * (Z.of_nat n - 1 - i))) 255) (zrange n).

(** The 0x80 byte, zeros up to 56 modulo 64, and the length in bits. *)
Definition padding (len : Z) : list Z :=
  128 :: repeat 0 (Z.to_nat ((55 - len) mod 64)) ++ be_bytes 8 (8 * len).

Fixpoint words (bs : list Z) : list Z :=
  match bs with
  | a :: b :: c :: d :: rest => (a * 16777216 + b * 65536 + c * 256 + d) :: words rest
  | _ => []
  end.

(** The 48 derived words of the message schedule; [recent] is the sixteen last
    ones, oldest first. *)
Fixpoint schedule (n : nat) (recent : list Z) : list Z :=
  match n with
  | O => []
  | S n =>
      let at_ i := nth i recent 0 in
      let w := add32 (add32 (small_sigma1 (at_ 14%nat)) (at_ 9%nat))
                     (add32 (small_sigma0 (at_ 1%nat)) (at_ 0%nat)) in
      w :: schedule n (drop 1 recent ++ [w])
  end.

Definition round_step (h : list Z) (kw : Z * Z) : list Z :=
  match h with
  | [a; b; c; d; e; f; g; hh] =>
      let t1 := add32 (add32 hh (big_sigma1 e)) (add32 (ch e f g) (add32 kw.1 kw.2)) in
      let t2 := add32 (big_sigma0 a) (maj a b c) in
      [add32 t1 t2; a; b; c; add32 d t1; e; f; g]
  | _ => h
  end.

Definition block_step (h block : list Z) : list Z :=
  let w := block ++ schedule 48 block in
  zip_with add32 h (fold_left round_step (zip round_constants w) h).

(** The blocks of sixteen words; [fuel] bounds their number. *)
Fixpoint blocks (fuel : nat) (h ws : list Z) : list Z :=
  match fuel, ws with
  | S fuel, _ :: _ => blocks fuel (block_step h (take 16 ws)) (drop 16 ws)
  | _, _ => h
  end.

(** A digest: 32 bytes, as sha256.Sum256 returns it. *)
Definition digest : Type := list Z.

Definition Sum256 (s : string) : digest :=
  let bs := bytes_of s in
  let ws := words (bs ++ padding (Z.of_nat (length bs))) in
  flat_map (be_bytes 4) (blocks (length ws) initial_hash ws).

(** The %x verb on a byte array. *)
Definition hex_digit (d : Z) : ascii := ascii_of_N (Z.to_N (if d <? 10 then 48 + d else 87 + d)).
Fixpoint hex_bytes (bs : list Z) : string :=
  match bs with
  | [] => ""
  | b :: rest => String (hex_digit (b / 16)) (String (hex_digit (b mod 16)) (hex_bytes rest))
  end.

Example sha_empty :
  hex_bytes (Sum256 "") = "e3b0c44298fc1c149afbf4c8996fb92427ae41e4649b934ca495991b7852b855".
Proof. vm_compute. reflexivity. Qed.
Example sha_abc :
  hex_bytes (Sum256 "abc") = "ba7816bf8f01cfea414140de5dae2223b00361a396177a9cb410ff61f20015ad".
Proof. vm_compute. reflexivity. Qed.
Example sha_two_blocks :
  hex_bytes (Sum256 "abcdbcdecdefdefgefghfghighijhijkijkljklmklmnlmnomnopnopq") =
  "248d6a61d20638b8e5c026930c3e6039a33ce45964ff2167f6ecedd419db06c1".
Proof. vm_compute. reflexivity. Qed.
