(* ===== verification/GoUrl.v ===== *)
(** The part of net/url the control plane uses, as of Go 1.26: Parse,
    ParseRequestURI, IsAbs, Hostname, Query, Values.Set, Values.Encode and
    URL.String; the round trip of a query through its encoding, and what setting a
    path does to the text. *)

From S2P Require Import Prelude GoStrings GoTime Netip.
From Stdlib Require Import Ascii String.
From stdpp Require Import strings gmap sorting.
#[local] Open Scope stdpp_scope.
#[local] Open Scope Z_scope.

(** ** Escaping *)

Inductive encoding :=
  | encodePath | encodeHost | encodeZone | encodeUserPassword | encodeQueryComponent | encodeFragment.

#[export] Instance encoding_eq_dec : EqDecision encoding.
Proof. solve_decision. Defined.

Definition is_alpha (c : ascii) : bool :=
  let n := byte_of c in ((65 <=? n) && (n <=? 90)) || ((97 <=? n) && (n <=? 122)).
Definition is_digit (c : ascii) : bool := let n := byte_of c in (48 <=? n) && (n <=? 57).
Definition is_alnum (c : ascii) : bool := is_alpha c || is_digit c.

Definition host_mode (mode : encoding) : bool :=
  match mode with
  | encodeHost | encodeZone => true
  | _ => false
  end.

Definition shouldEscape (c : ascii) (mode : encoding) : bool :=
  if is_alnum c then false
  else if host_mode mode && (has_byte c "!$&'()*+,;=:[]<>" || bool_decide (c = dquote)) then false
  else if has_byte c "-_.~" then false
  else if has_byte c "$&+,/:;=?@" then
    match mode with
    | encodePath => bool_decide (c = "?"%char)
    | encodeUserPassword => has_byte c "@/?:"
    | encodeFragment => false
    | _ => true
    end
  else match mode with
       | encodeFragment => negb (has_byte c "!()*")
       | _ => true
       end.

(** Hexadecimal digits, upper case as [escape] writes them. *)
Definition upper_hex (d : Z) : ascii := ascii_of_N (Z.to_N (if d <? 10 then 48 + d else 55 + d)).

Fixpoint escape (mode : encoding) (s : string) : string :=
  match s with
  | EmptyString => ""
  | String c r =>
      if bool_decide (c = " "%char /\ mode = encodeQueryComponent)
      then String "+" (escape mode r)
      else if shouldEscape c mode
      then String "%" (String (upper_hex (byte_of c / 16)) (String (upper_hex (byte_of c mod 16)) (escape mode r)))
      else String c (escape mode r)
  end.

(** The check [unescape] makes on a percent-encoded byte [v] written [a b]. *)
Definition escape_allowed (mode : encoding) (a b v : Z) : bool :=
  match mode with
  | encodeHost => negb ((a <? 8) && negb (v =? 37))
  | encodeZone => (v =? 37) || (v =? 32) || negb (shouldEscape (ascii_of_N (Z.to_N v)) encodeHost)
  | _ => true
  end.

Fixpoint unescape (mode : encoding) (s : string) : option string :=
  match s with
  | EmptyString => Some ""
  | String c r =>
      if decide (c = "%"%char) then
        match r with
        | String x (String y r') =>
            match hex_val x, hex_val y with
            | Some a, Some b =>
                if escape_allowed mode a b (16 * a + b)
                then String (ascii_of_N (Z.to_N (16 * a + b))) <$> unescape mode r'
                else None
            | _, _ => None
            end
        | _ => None
        end
      else if decide (c = "+"%char) then
        String (if decide (mode = encodeQueryComponent) then " "%char else c) <$> unescape mode r
      else if host_mode mode && (byte_of c <? 128) && shouldEscape c mode then None
      else String c <$> unescape mode r
  end.

Definition QueryEscape : string -> string := escape encodeQueryComponent.
Definition QueryUnescape : string -> option string := unescape encodeQueryComponent.

(** ** URLs *)

Record URL := {
  u_Scheme : string;
  u_Opaque : string;
  u_User : option (string * option string);
  u_Host : string;
  u_Path : string;
  u_RawPath : string;
  u_OmitHost : bool;
  u_ForceQuery : bool;
  u_RawQuery : string;
  u_Fragment : string;
  u_RawFragment : string
}.

Definition err_url (why : string) : GoError := ErrText why [].

(** ASCII strings.ToLower *)
Definition lower_byte (c : ascii) : ascii :=
  let n := byte_of c in
  if (65 <=? n) && (n <=? 90) then ascii_of_N (Z.to_N (n + 32)) else c.
Fixpoint ToLower (s : string) : string :=
  match s with
  | EmptyString => ""
  | String c r => String (lower_byte c) (ToLower r)
  end.

(** The characters before a colon, when they are a scheme. *)
Fixpoint scheme_rest (s : string) : option (string * string) :=
  match s with
  | EmptyString => None
  | String c r =>
      if bool_decide (c = ":"%char) then Some ("", r)
      else if is_alnum c || has_byte c "+-." then
        '(x, y) ← scheme_rest r; Some (String c x, y)
      else None
  end.

Definition getScheme (rawURL : string) : result (string * string) :=
  match rawURL with
  | String c _ =>
      if bool_decide (c = ":"%char) then Err (err_url "missing protocol scheme")
      else if is_alpha c then Ok (default ("", rawURL) (scheme_rest rawURL))
      else Ok ("", rawURL)
  | EmptyString => Ok ("", rawURL)
  end.

Fixpoint all_digits (s : string) : bool :=
  match s with
  | EmptyString => true
  | String c r => is_digit c && all_digits r
  end.

Definition validOptionalPort (port : string) : bool :=
  match port with
  | EmptyString => true
  | String c r => bool_decide (c = ":"%char) && all_digits r
  end.

(** Around the first "%25", the escaped percent sign before an IPv6 zone; the
    second part starts with it. *)
Fixpoint cut_zone (s : string) : option (string * string) :=
  match s with
  | EmptyString => None
  | String c r =>
      match s with
      | String "%" (String "2" (String "5" _)) => Some ("", s)
      | _ => '(x, y) ← cut_zone r; Some (String c x, y)
      end
  end.

Definition or_err {A} (o : option A) (e : GoError) : result A :=
  match o with
  | Some a => Ok a
  | None => Err e
  end.

Definition err_escape : GoError := err_url "invalid URL escape".

(** An address in brackets: IPv6, possibly with a zone. *)
Definition parse_bracketed (inside : string) : result string :=
  match last_cut_byte "]"%char inside with
  | None => Err (err_url "missing ']' in host")
  | Some (hostname, colonPort) =>
      if negb (validOptionalPort colonPort) then Err (err_url "invalid port after host")
      else
        plainPort ← or_err (unescape encodeHost colonPort) err_escape;
        name ← match cut_zone hostname with
               | Some (hostPart, zonePart) =>
                   h ← or_err (unescape encodeHost hostPart) err_escape;
                   z ← or_err (unescape encodeZone zonePart) err_escape;
                   Ok (h +:+ z)
               | None => or_err (unescape encodeHost hostname) err_escape
               end;
        match ParseAddr name with
        | None => Err (err_url "invalid host")
        | Some (Addr4 _) => Err (err_url "invalid IP-literal")
        | Some _ => Ok (String "[" (name +:+ String "]" plainPort))
        end
  end.

(** What follows the colon at which a port would start: the first colon, except
    for the schemes that may list several hosts. *)
Definition port_part (scheme host : string) : option string :=
  let at_last := bool_decide (scheme = "postgresql") || bool_decide (scheme = "postgres") in
  (fun p => String ":" p.2) <$>
    (if at_last then last_cut_byte ":"%char host else cut_byte ":"%char host).

Definition parseHost (scheme host : string) : result string :=
  match last_cut_byte "["%char host with
  | Some (EmptyString, inside) => parse_bracketed inside
  | Some _ => Err (err_url "invalid IP-literal")
  | None =>
      match port_part scheme host with
      | Some colonPort =>
          if validOptionalPort colonPort then or_err (unescape encodeHost host) err_escape
          else Err (err_url "invalid port after host")
      | None => or_err (unescape encodeHost host) err_escape
      end
  end.

Fixpoint validUserinfo (s : string) : bool :=
  match s with
  | EmptyString => true
  | String c r => (is_alnum c || has_byte c "-._:~!$&'()*+,;=%@") && validUserinfo r
  end.

Definition parse_user (userinfo : string) : result (string * option string) :=
  if negb (validUserinfo userinfo) then Err (err_url "net/url: invalid userinfo")
  else match cut_byte ":"%char userinfo with
       | None =>
           name ← or_err (unescape encodeUserPassword userinfo) err_escape; Ok (name, None)
       | Some (name, password) =>
           name ← or_err (unescape encodeUserPassword name) err_escape;
           password ← or_err (unescape encodeUserPassword password) err_escape;
           Ok (name, Some password)
       end.

Definition parseAuthority (scheme authority : string)
    : result (option (string * option string) * string) :=
  match last_cut_byte "@"%char authority with
  | None => host ← parseHost scheme authority; Ok (None, host)
  | Some (userinfo, h) =>
      host ← parseHost scheme h; user ← parse_user userinfo; Ok (Some user, host)
  end.

(** An ASCII control byte. *)
Fixpoint stringContainsCTLByte (s : string) : bool :=
  match s with
  | EmptyString => false
  | String c r => (byte_of c <? 32) || (byte_of c =? 127) || stringContainsCTLByte r
  end.

(** setPath: the path, and the raw path when it is not the default encoding. *)
Definition setPath (p : string) : result (string * string) :=
  path ← or_err (unescape encodePath p) err_escape;
  Ok (path, if bool_decide (p = escape encodePath path) then "" else p).

(** The path that follows scheme and query, after an authority if there is one. *)
Definition finish_url (scheme query : string) (force : bool)
    (user : option (string * option string)) (host path : string) (omit : bool) : result URL :=
  pr ← setPath path;
  Ok {| u_Scheme := scheme; u_Opaque := ""; u_User := user; u_Host := host; u_Path := pr.1;
        u_RawPath := pr.2; u_OmitHost := omit; u_ForceQuery := force; u_RawQuery := query;
        u_Fragment := ""; u_RawFragment := "" |}.

Definition before_slash (s : string) : string := default s (fst <$> cut_byte "/"%char s).

Definition starts_slash (s : string) : bool :=
  match s with
  | String "/" _ => true
  | _ => false
  end.

(** [strings.HasSuffix(rest, "?") && strings.Count(rest, "?") == 1], and the cut
    at the first question mark otherwise: path, query, force. *)
Definition split_query (rest : string) : string * string * bool :=
  match cut_byte "?"%char rest with
  | Some (path, EmptyString) => (path, "", true)
  | Some (path, query) => (path, query, false)
  | None => (rest, "", false)
  end.

Definition url_parse (rawURL : string) (viaRequest : bool) : result URL :=
  if stringContainsCTLByte rawURL then Err (err_url "net/url: invalid control character in URL")
  else if bool_decide (rawURL = "") && viaRequest then Err (err_url "empty url")
  else if bool_decide (rawURL = "*") then
    Ok {| u_Scheme := ""; u_Opaque := ""; u_User := None; u_Host := ""; u_Path := "*";
          u_RawPath := ""; u_OmitHost := false; u_ForceQuery := false; u_RawQuery := "";
          u_Fragment := ""; u_RawFragment := "" |}
  else
    sr ← getScheme rawURL;
    let scheme := ToLower sr.1 in
    let '(rest, query, force) := split_query sr.2 in
    match rest with
    | String "/" (String "/" more) =>
        if negb (bool_decide (scheme = "")) ||
           (negb viaRequest && negb (starts_slash more))
        then
          let authority := before_slash more in
          let path := match cut_byte "/"%char more with Some (_, p) => String "/" p | None => "" end in
          uh ← parseAuthority scheme authority;
          finish_url scheme query force uh.1 uh.2 path false
        else finish_url scheme query force None "" rest false
    | String "/" _ =>
        finish_url scheme query force None "" rest (negb (bool_decide (scheme = "")))
    | _ =>
        if negb (bool_decide (scheme = "")) then
          Ok {| u_Scheme := scheme; u_Opaque := rest; u_User := None; u_Host := ""; u_Path := "";
                u_RawPath := ""; u_OmitHost := false; u_ForceQuery := force; u_RawQuery := query;
                u_Fragment := ""; u_RawFragment := "" |}
        else if viaRequest then Err (err_url "invalid URI for request")
        else if has_byte ":"%char (before_slash rest)
        then Err (err_url "first path segment in URL cannot contain colon")
        else finish_url scheme query force None "" rest false
    end.

Definition ParseRequestURI (rawURL : string) : result URL := url_parse rawURL true.

Definition set_fragment (f raw : string) (u : URL) : URL :=
  {| u_Scheme := u_Scheme u; u_Opaque := u_Opaque u; u_User := u_User u; u_Host := u_Host u;
     u_Path := u_Path u; u_RawPath := u_RawPath u; u_OmitHost := u_OmitHost u;
     u_ForceQuery := u_ForceQuery u; u_RawQuery := u_RawQuery u;
     u_Fragment := f; u_RawFragment := raw |}.

Definition Parse (rawURL : string) : result URL :=
  let '(u, frag) := default (rawURL, "") (cut_byte "#"%char rawURL) in
  url ← url_parse u false;
  if bool_decide (frag = "") then Ok url
  else
    f ← or_err (unescape encodeFragment frag) err_escape;
    Ok (set_fragment f (if bool_decide (frag = escape encodeFragment f) then "" else frag) url).

(** ** Texts *)

Definition IsAbs (u : URL) : bool := negb (bool_decide (u_Scheme u = "")).

Definition in_brackets (host : string) : string :=
  match host with
  | String "[" r =>
      match last_cut_byte "]"%char r with
      | Some (inside, EmptyString) => inside
      | _ => host
      end
  | _ => host
  end.

(** URL.Hostname *)
Definition Hostname (u : URL) : string :=
  in_brackets
    match last_cut_byte ":"%char (u_Host u) with
    | Some (host, port) => if all_digits port then host else u_Host u
    | None => u_Host u
    end.

Fixpoint validEncoded (mode : encoding) (s : string) : bool :=
  match s with
  | EmptyString => true
  | String c r =>
      (has_byte c "!$&'()*+,;=:@[]%" || negb (shouldEscape c mode)) && validEncoded mode r
  end.

(** EscapedPath and EscapedFragment: the raw form while it still spells the
    value. *)
Definition escaped_form (mode : encoding) (raw value : string) : string :=
  if negb (bool_decide (raw = "")) && validEncoded mode raw &&
     bool_decide (unescape mode raw = Some value)
  then raw else escape mode value.

Definition EscapedPath (u : URL) : string :=
  let text := escaped_form encodePath (u_RawPath u) (u_Path u) in
  if bool_decide (u_Path u = "*") && negb (bool_decide (text = u_RawPath u)) then "*" else text.

Definition user_text (user : string * option string) : string :=
  escape encodeUserPassword user.1 +:+
  match user.2 with
  | Some p => String ":" (escape encodeUserPassword p)
  | None => ""
  end.

Definition authority_text (u : URL) : string :=
  let present := negb (bool_decide (u_Host u = "")) || bool_decide (is_Some (u_User u)) in
  if bool_decide (u_Scheme u = "") && negb present then ""
  else if u_OmitHost u && negb present then ""
  else (if present || negb (bool_decide (u_Path u = "")) then "//" else "") +:+
       match u_User u with Some user => user_text user +:+ "@" | None => "" end +:+
       escape encodeHost (u_Host u).

(** The part before the query. *)
Definition hierarchy_text (u : URL) : string :=
  if negb (bool_decide (u_Opaque u = "")) then u_Opaque u
  else
    let authority := authority_text u in
    let path := EscapedPath u in
    let slash := if negb (bool_decide (path = "")) && negb (starts_slash path) &&
                    negb (bool_decide (u_Host u = "")) then "/" else "" in
    let dot := if bool_decide (u_Scheme u = "") && bool_decide (authority +:+ slash = "") &&
                  has_byte ":"%char (before_slash path) then "./" else "" in
    authority +:+ slash +:+ dot +:+ path.

(** URL.String *)
Definition URL_String (u : URL) : string :=
  (if bool_decide (u_Scheme u = "") then "" else u_Scheme u +:+ ":") +:+
  hierarchy_text u +:+
  (if u_ForceQuery u || negb (bool_decide (u_RawQuery u = "")) then String "?" (u_RawQuery u) else "") +:+
  (if bool_decide (u_Fragment u = "") then ""
   else String "#" (escaped_form encodeFragment (u_RawFragment u) (u_Fragment u))).

(** ** Queries *)

(** [url.Values]: the values of each key, in order. *)
Abbreviation Values := (gmap string (list string)).

(** [strings.Split(s, string(c))] *)
Fixpoint split_byte (c : ascii) (s : string) : list string :=
  match s with
  | EmptyString => [""]
  | String a r =>
      if decide (a = c) then "" :: split_byte c r
      else match split_byte c r with
           | p :: ps => String a p :: ps
           | [] => [String a ""]
           end
  end.

(** One setting [key=value]; [None] where ParseQuery drops it. *)
Definition parse_setting (part : string) : option (string * string) :=
  if has_byte ";"%char part || bool_decide (part = "") then None
  else
    let '(k, v) := default (part, "") (cut_byte "="%char part) in
    k ← QueryUnescape k; v ← QueryUnescape v; Some (k, v).

Definition add_setting (m : Values) (kv : string * string) : Values :=
  <[kv.1 := default [] (m !! kv.1) ++ [kv.2]]> m.

Definition max_query_params : nat := Z.to_nat 10000.

(** URL.Query: ParseQuery with its error dropped. *)
Definition parse_query (query : string) : Values :=
  let parts := split_byte "&"%char query in
  if (max_query_params <? length parts)%nat then ∅
  else fold_left add_setting (omap parse_setting parts) ∅.
Definition Query (u : URL) : Values := parse_query (u_RawQuery u).

(** Values.Set *)
Definition Values_Set (key value : string) (v : Values) : Values := <[key := [value]]> v.

Definition setting_text (kv : string * string) : string :=
  QueryEscape kv.1 +:+ String "=" (QueryEscape kv.2).

(** The settings in the order of Encode: by key, then as added. *)
Definition settings (v : Values) : list (string * string) :=
  flat_map (fun kvs => pair kvs.1 <$> kvs.2)
    (merge_sort (fun a b => String.le a.1 b.1) (map_to_list v)).

(** Values.Encode *)
Definition Values_Encode (v : Values) : string := str_join "&" (map setting_text (settings v)).

(** [u.Path = p] and [u.RawQuery = q] *)
Definition set_path (p : string) (u : URL) : URL :=
  {| u_Scheme := u_Scheme u; u_Opaque := u_Opaque u; u_User := u_User u; u_Host := u_Host u;
     u_Path := p; u_RawPath := u_RawPath u; u_OmitHost := u_OmitHost u;
     u_ForceQuery := u_ForceQuery u; u_RawQuery := u_RawQuery u;
     u_Fragment := u_Fragment u; u_RawFragment := u_RawFragment u |}.
Definition set_query (q : string) (u : URL) : URL :=
  {| u_Scheme := u_Scheme u; u_Opaque := u_Opaque u; u_User := u_User u; u_Host := u_Host u;
     u_Path := u_Path u; u_RawPath := u_RawPath u; u_OmitHost := u_OmitHost u;
     u_ForceQuery := u_ForceQuery u; u_RawQuery := q;
     u_Fragment := u_Fragment u; u_RawFragment := u_RawFragment u |}.

Example url_simple : (u ← Parse "HTTPS://Hub.example:8443/base/?a=1#f"; Ok (URL_String u)) =
  Ok "https://Hub.example:8443/base/?a=1#f".
Proof. vm_compute. reflexivity. Qed.
Example url_ports : is_ok (Parse "https://a:1:2/") = false /\ is_ok (Parse "https://[::1]:x/") = false.
Proof. vm_compute. done. Qed.
Example url_ctl : is_ok (ParseRequestURI (String (ascii_of_N 127) "")) = false.
Proof. vm_compute. done. Qed.
Example url_v6 : (u ← Parse "https://[fe80::1%25eth0]:443/x%20y"; Ok (Hostname u)) = Ok "fe80::1%eth0".
Proof. vm_compute. reflexivity. Qed.
Example query_text : Values_Encode (Values_Set "since" "a b&c" (parse_query "z=1&q=%41;&q=x+y&z=2")) =
  "q=x+y&since=a+b%26c&z=1&z=2".
Proof. vm_compute. reflexivity. Qed.
