(* ===== verification/UrlLemmas.v ===== *)
(** Lemmas on the URLs of GoUrl.v: a query survives its encoding, and what a
    parsed URL with a host looks like when it is written out again. *)

From S2P Require Import Prelude GoStrings GoTime Netip GoUrl.
From Stdlib Require Import Ascii String.
From stdpp Require Import strings gmap sorting.
#[local] Open Scope stdpp_scope.
#[local] Open Scope Z_scope.

(** ** Escaping *)

Ltac every_byte c := destruct c as [[] [] [] [] [] [] [] []]; reflexivity.

Lemma QueryUnescape_Escape s : QueryUnescape (QueryEscape s) = Some s.
Proof.
  unfold QueryUnescape, QueryEscape. induction s as [|c s IH]; [done|].
  assert (unescape encodeQueryComponent (escape encodeQueryComponent (String c s)) =
    String c <$> unescape encodeQueryComponent (escape encodeQueryComponent s)) as ->
    by every_byte c.
  by rewrite IH.
Qed.

(** The bytes that structure a query do not occur in an escaped one. *)
Lemma QueryEscape_clean s :
  has_byte "&" (QueryEscape s) = false /\ has_byte "=" (QueryEscape s) = false /\
  has_byte ";" (QueryEscape s) = false.
Proof.
  unfold QueryEscape. induction s as [|c s (IH1 & IH2 & IH3)]; [done|].
  assert (forall d, d ∈ ["&"%char; "="%char; ";"%char] ->
    has_byte d (escape encodeQueryComponent (String c s)) = has_byte d (escape encodeQueryComponent s)) as Hd.
  { intros d Hd. repeat (apply elem_of_cons in Hd as [->|Hd]; [every_byte c|]).
    by apply not_elem_of_nil in Hd. }
  rewrite !Hd by set_solver. done.
Qed.

(** Nor do the bytes that end an authority in an escaped host. *)
Lemma escape_host_clean s d :
  d ∈ ["/"%char; "@"%char; "?"%char; "#"%char] -> has_byte d (escape encodeHost s) = false.
Proof.
  intros Hd. induction s as [|c s IH]; [done|]. rewrite <- IH.
  repeat (apply elem_of_cons in Hd as [->|Hd]; [every_byte c|]). by apply not_elem_of_nil in Hd.
Qed.

(** ** Queries *)

Lemma split_byte_join c parts :
  parts <> [] -> Forall (fun p => has_byte c p = false) parts ->
  split_byte c (str_join (String c "") parts) = parts.
Proof.
  assert (forall p t, has_byte c p = false -> split_byte c (p +:+ String c t) = p :: split_byte c t) as Hcons.
  { induction p as [|a p IH]; intros t Hp.
    - rewrite GoStrings.app_nil_l. simpl. by rewrite decide_True.
    - rewrite app_cons. simpl in Hp |- *. case_decide; [done|]. by rewrite IH. }
  assert (forall p, has_byte c p = false -> split_byte c p = [p]) as Hone.
  { induction p as [|a p IH]; intros Hp; [done|]. simpl in Hp |- *. case_decide; [done|]. by rewrite IH. }
  induction parts as [|p [|q parts] IH]; intros Hne Hall; [done|..]; inversion Hall as [|? ? Hp Hrest]; subst.
  - by apply Hone.
  - change (str_join (String c "") (p :: q :: parts)) with
      (p +:+ (String c "" +:+ str_join (String c "") (q :: parts))).
    rewrite GoStrings.app_cons, GoStrings.app_nil_l, Hcons by done. by rewrite IH.
Qed.

Lemma setting_text_parse kv : parse_setting (setting_text kv) = Some kv.
Proof.
  destruct kv as [k v]. unfold parse_setting, setting_text. simpl.
  destruct (QueryEscape_clean k) as (_ & Hk & Hk'). destruct (QueryEscape_clean v) as (_ & _ & Hv).
  rewrite has_byte_app. simpl. rewrite Hk', Hv. simpl.
  rewrite bool_decide_false by (by destruct (QueryEscape k)).
  assert (cut_byte "=" (QueryEscape k +:+ String "=" (QueryEscape v)) = Some (QueryEscape k, QueryEscape v)) as ->
    by (by apply cut_byte_Some).
  simpl. unfold mbind, option_bind. by rewrite !QueryUnescape_Escape.
Qed.

Lemma setting_text_clean kv : has_byte "&" (setting_text kv) = false.
Proof.
  destruct (QueryEscape_clean kv.1) as (Hk & _). destruct (QueryEscape_clean kv.2) as (Hv & _).
  unfold setting_text. by rewrite has_byte_app, Hk.
Qed.

(** Adding the values of one key, then of the others. *)
Lemma fold_add_key (m : Values) k vs :
  vs <> [] -> fold_left add_setting (map (pair k) vs) m = <[k := default [] (m !! k) ++ vs]> m.
Proof.
  revert m. induction vs as [|v vs IH]; intros m Hne; [done|]. cbn [map fold_left].
  change (add_setting m (k, v)) with (<[k := default [] (m !! k) ++ [v]]> m : Values).
  destruct vs as [|v0 vs]; [done|].
  rewrite IH by done. rewrite lookup_insert_eq, insert_insert_eq. simpl. by rewrite <- (assoc_L (++)).
Qed.

Lemma fold_add_settings (l : list (string * list string)) (m : Values) :
  NoDup l.*1 -> Forall (fun kvs => kvs.2 <> []) l -> (forall k, k ∈ l.*1 -> m !! k = None) ->
  fold_left add_setting (flat_map (fun kvs => map (pair kvs.1) kvs.2) l) m = list_to_map l ∪ m.
Proof.
  revert m. induction l as [|[k vs] l IH]; intros m Hnd Hne Hm.
  { simpl. by rewrite (left_id_L ∅ (∪)). }
  cbn [flat_map]. rewrite fold_left_app. simpl in Hnd. apply NoDup_cons in Hnd as [Hk Hnd].
  apply Forall_cons in Hne as [Hvs Hne]. simpl. rewrite fold_add_key by done.
  rewrite (Hm k) by (by left). simpl. rewrite IH; [|done|done|].
  - rewrite <- insert_union_r; [by rewrite <- insert_union_l|]. by apply not_elem_of_list_to_map_1.
  - intros k' Hk'. rewrite lookup_insert_ne; [|set_solver]. apply Hm. by right.
Qed.

(** ParseQuery reads back what Encode has written. *)
Lemma parse_query_encode (v : Values) :
  (forall k vs, v !! k = Some vs -> vs <> []) -> (List.length (settings v) <= max_query_params)%nat ->
  parse_query (Values_Encode v) = v.
Proof.
  intros Hne Hlen. unfold parse_query, Values_Encode.
  set (l := merge_sort (fun a b : string * list string => String.le a.1 b.1) (map_to_list v)).
  assert (l ≡ₚ map_to_list v) as Hl by apply merge_sort_Permutation.
  assert (fold_left add_setting (settings v) ∅ = v) as Hfold.
  { unfold settings. fold l. rewrite (fold_add_settings l ∅).
    - rewrite (right_id_L ∅ (∪)). rewrite (list_to_map_proper l (map_to_list v)); [apply list_to_map_to_list| |done].
      rewrite Hl. apply NoDup_fst_map_to_list.
    - rewrite Hl. apply NoDup_fst_map_to_list.
    - apply Forall_forall. intros [k vs] Hin. rewrite Hl in Hin. apply elem_of_map_to_list in Hin. by eapply Hne.
    - intros k _. apply lookup_empty. }
  destruct (settings v) as [|kv kvs] eqn:Es.
  - simpl in *. by rewrite Hfold.
  - change "&" with (String "&" ""). rewrite split_byte_join; [|done|].
    + destruct (Nat.ltb_spec max_query_params (List.length (map setting_text (kv :: kvs)))) as [Hlt|_].
      { rewrite List.length_map in Hlt. lia. }
      rewrite <- Hfold at 1. f_equal. clear. generalize (kv :: kvs). clear. intros l.
      induction l as [|x l IH]; [done|]. cbn [map omap list_omap]. rewrite setting_text_parse. by f_equal.
    + apply Forall_forall. intros p (x & -> & _)%list_elem_of_fmap. apply setting_text_clean.
Qed.

(** The values a query holds are never an empty list. *)
Lemma parse_query_nonempty q k vs : parse_query q !! k = Some vs -> vs <> [].
Proof.
  unfold parse_query. destruct (_ <? _)%nat; [by rewrite lookup_empty|].
  assert (forall l (m : Values), (forall k vs, m !! k = Some vs -> vs <> []) ->
    forall k vs, fold_left add_setting l m !! k = Some vs -> vs <> []) as Hf.
  { induction l as [|kv l IH]; intros m Hm; [exact Hm|]. cbn [fold_left]. apply IH.
    intros k' vs'. unfold add_setting. intros [[<- <-]|[_ Hk]]%lookup_insert_Some; [|by eapply Hm]. by destruct (default [] (m !! kv.1)). }
  apply (Hf _ ∅). intros ? ?. by rewrite lookup_empty.
Qed.

(** ** Parsed URLs *)

Lemma ToLower_idem s : ToLower (ToLower s) = ToLower s.
Proof. induction s as [|c s IH]; [done|]. cbn [ToLower]. rewrite IH. f_equal. every_byte c. Qed.

(** A URL that was parsed with a host. *)
Record hosted (u : URL) : Prop := {
  ho_opaque : u_Opaque u = "";
  ho_path : u_Path u = "" \/ starts_slash (u_Path u) = true;
  ho_raw : u_RawPath u = "" \/ starts_slash (u_RawPath u) = true;
  ho_omit : u_OmitHost u = false;
  ho_scheme : ToLower (u_Scheme u) = u_Scheme u
}.

Lemma setPath_slash p path raw :
  setPath p = Ok (path, raw) -> p = "" \/ starts_slash p = true ->
  (path = "" \/ starts_slash path = true) /\ (raw = "" \/ starts_slash raw = true).
Proof.
  unfold setPath, or_err, mbind, result_bind. destruct (unescape encodePath p) as [q|] eqn:E; [|done].
  intros [= <- <-] Hp. split; [|by case_bool_decide; [left|]].
  destruct Hp as [->|Hp]; [left; by injection E as <-|]. right.
  destruct p as [|c p]; [done|]. assert (c = "/"%char) as -> by (by destruct c as [[] [] [] [] [] [] [] []]).
  cbn in E. destruct (unescape encodePath p); [|done]. by injection E as <-.
Qed.

Lemma finish_url_hosted scheme query force user host path omit u :
  finish_url (ToLower scheme) query force user host path omit = Ok u -> (u_Host u <> "" -> omit = false) ->
  path = "" \/ starts_slash path = true -> u_Host u <> "" -> hosted u.
Proof.
  unfold finish_url, mbind, result_bind. destruct (setPath path) as [[q raw]|] eqn:E; [|done].
  intros [= <-] Ho Hp Hh. apply setPath_slash in E as [Hq Hr]; [|done].
  constructor; simpl in *; auto using ToLower_idem.
Qed.

Lemma url_parse_hosted raw via u : url_parse raw via = Ok u -> u_Host u <> "" -> hosted u.
Proof.
  unfold url_parse, mbind, result_bind. destruct (stringContainsCTLByte raw); [done|].
  destruct (_ && _); [done|]. case_bool_decide; [by intros [= <-]|].
  destruct (getScheme raw) as [[s r]|]; [|done]. cbn [fst snd].
  destruct (split_query r) as [[rest query] force].
  assert (forall rest omit, finish_url (ToLower s) query force None "" rest omit = Ok u -> u_Host u = "") as Hnone.
  { intros rest' omit. unfold finish_url, mbind, result_bind. destruct (setPath rest'); [|done]. by intros [= <-]. }
  destruct rest as [|[[] [] [] [] [] [] [] []] rest];
    try (destruct (negb _); [by intros [= <-]|destruct via; [done|]; destruct (has_byte _ _); [done|]];
         intros Hf Hh; by apply Hnone in Hf).
  destruct rest as [|[[] [] [] [] [] [] [] []] more]; try (intros Hf Hh; by apply Hnone in Hf).
  destruct (_ || _); [|intros Hf Hh; by apply Hnone in Hf].
  destruct (parseAuthority _ _) as [[user host]|]; [|done]. intros Hf Hh.
  eapply finish_url_hosted; [exact Hf|done| |done].
  destruct (cut_byte "/" more) as [[x p]|]; [by right|by left].
Qed.

(** With a scheme, the two ways of parsing agree. *)
Lemma url_parse_via raw u : url_parse raw true = Ok u -> u_Scheme u <> "" -> url_parse raw false = Ok u.
Proof.
  unfold url_parse, mbind, result_bind. destruct (stringContainsCTLByte raw); [done|].
  rewrite andb_true_r, andb_false_r. case_bool_decide; [done|]. case_bool_decide; [by intros [= <-]|].
  destruct (getScheme raw) as [[s r]|]; [|done]. cbn [fst snd].
  destruct (split_query r) as [[rest query] force].
  destruct (bool_decide_reflect (ToLower s = "")) as [Hs|Hs].
  - intros Hu Hne. exfalso. apply Hne. rewrite <- Hs.
    destruct rest as [|[[] [] [] [] [] [] [] []] rest]; try done.
    destruct rest as [|[[] [] [] [] [] [] [] []] more]; simpl in Hu;
      unfold finish_url, mbind, result_bind in Hu; (destruct (setPath _); [|done]); by injection Hu as <-.
  - destruct rest as [|[[] [] [] [] [] [] [] []] rest]; try done;
      destruct rest as [|[[] [] [] [] [] [] [] []] more]; done.
Qed.
