(* ===== verification/UrlFragments.v ===== *)
(** Fragments: ParseRequestURI does not split one off, Parse does.  Where the first
    accepts a URL with scheme and host, the second sees the same of them. *)

From S2P Require Import Prelude GoStrings GoTime Netip GoUrl UrlLemmas.
From Stdlib Require Import Ascii String.
From stdpp Require Import strings gmap sorting.
#[local] Open Scope stdpp_scope.
#[local] Open Scope Z_scope.

Lemma last_cut_byte_Some c s x y : last_cut_byte c s = Some (x, y) -> s = x +:+ String c y.
Proof.
  revert x. induction s as [|a s IH]; intros x; [done|]. simpl.
  destruct (last_cut_byte c s) as [[x' y']|].
  - intros [= <- ->]. by rewrite (IH x' eq_refl).
  - case_decide; [|done]. intros [= <- ->]. by subst.
Qed.

Lemma cut_zone_Some s x y : cut_zone s = Some (x, y) -> s = x +:+ y.
Proof.
  revert x. induction s as [|c s IH]; intros x; [done|].
  assert (cut_zone (String c s) = Some ("", String c s) \/
    cut_zone (String c s) = '(x, y) ← cut_zone s; Some (String c x, y)) as [-> | ->].
  { simpl. repeat case_match; auto. }
  - by intros [= <- <-].
  - destruct (cut_zone s) as [[x' y']|]; [|done]. intros [= <- ->]. by rewrite (IH x' eq_refl).
Qed.

Lemma hex_not_hash a v : hex_val a = Some v -> a <> "#"%char.
Proof. by intros Ha ->. Qed.

Lemma unescape_no_hash mode s x :
  host_mode mode = true -> unescape mode s = Some x -> has_byte "#" s = false.
Proof.
  intros Hm. remember (String.length s) as n eqn:Hn. revert s x Hn.
  induction (lt_wf n) as [n _ IH]. intros [|c s] x -> Hu; [done|]. simpl in Hu |- *.
  assert (forall t y, (String.length t <= String.length s)%nat -> unescape mode t = Some y -> has_byte "#" t = false) as IH'
    by (intros t y Ht; eapply (IH (String.length t)); [simpl; lia|done]).
  destruct (decide (c = "%"%char)) as [->|Hc].
  - destruct s as [|a [|b s]]; [done..|]. simpl. destruct (hex_val a) as [va|] eqn:Ea; [|done].
    destruct (hex_val b) as [vb|] eqn:Eb; [|done]. destruct (escape_allowed _ _ _ _); [|done].
    apply hex_not_hash in Ea, Eb. rewrite !decide_False by done.
    destruct (unescape mode s) eqn:E; [|done]. eapply IH'; [|exact E]. simpl. lia.
  - destruct (decide (c = "#"%char)) as [->|Hh].
    { by destruct mode. }
    destruct (decide (c = "+"%char)); [|destruct (_ && _); [done|]];
      (destruct (unescape mode s) eqn:E; [|done]; by eapply IH').
Qed.

Lemma or_err_Ok {A} (o : option A) e a : or_err o e = Ok a -> o = Some a.
Proof. destruct o; [|done]. by intros [= ->]. Qed.

Lemma parse_bracketed_no_hash inside x : parse_bracketed inside = Ok x -> has_byte "#" inside = false.
Proof.
  unfold parse_bracketed. destruct (last_cut_byte _ inside) as [[hostname port]|] eqn:E; [|done].
  apply last_cut_byte_Some in E as ->. destruct (negb _); [done|]. unfold mbind, result_bind.
  destruct (or_err (unescape encodeHost port) _) eqn:Ep; [|done]. apply or_err_Ok, unescape_no_hash in Ep; [|done].
  rewrite has_byte_app. cbn [has_byte]. rewrite decide_False, Ep, orb_false_r by done.
  destruct (cut_zone hostname) as [[h z]|] eqn:Ez.
  - apply cut_zone_Some in Ez as ->. destruct (or_err (unescape encodeHost h) _) eqn:Eh; [|done].
    destruct (or_err (unescape encodeZone z) _) eqn:Ezz; [|done]. intros _.
    apply or_err_Ok, unescape_no_hash in Eh, Ezz; [|done..]. by rewrite has_byte_app, Eh, Ezz.
  - destruct (or_err (unescape encodeHost hostname) _) eqn:Eh; [|done]. intros _.
    by apply or_err_Ok, unescape_no_hash in Eh.
Qed.

Lemma parseHost_no_hash scheme host x : parseHost scheme host = Ok x -> has_byte "#" host = false.
Proof.
  unfold parseHost. destruct (last_cut_byte _ host) as [[[|? ?] inside]|] eqn:E; [|done|].
  - apply last_cut_byte_Some in E as ->. intros Hp%parse_bracketed_no_hash. exact Hp.
  - destruct (port_part scheme host); [destruct (validOptionalPort _); [|done]|];
      intros Hp; by eapply unescape_no_hash; [|by eapply or_err_Ok].
Qed.

Lemma parseAuthority_no_hash scheme a host :
  parseAuthority scheme a = Ok (None, host) -> has_byte "#" a = false.
Proof.
  unfold parseAuthority, mbind, result_bind. destruct (last_cut_byte _ a) as [[userinfo h]|].
  - destruct (parseHost _ _); [|done]. by destruct (parse_user _).
  - destruct (parseHost scheme a) eqn:E; [|done]. intros _. by eapply parseHost_no_hash.
Qed.

(** What parsing makes of an absolute URL with an authority. *)
Definition sees (raw : string) (scheme more : string) : Prop :=
  exists s r query force, getScheme raw = Ok (s, r) /\ ToLower s = scheme /\ scheme <> "" /\
    split_query r = (String "/" (String "/" more), query, force).

Lemma url_parse_sees raw via u :
  url_parse raw via = Ok u -> u_Scheme u <> "" -> u_Host u <> "" ->
  exists more, sees raw (u_Scheme u) more /\
    parseAuthority (u_Scheme u) (before_slash more) = Ok (u_User u, u_Host u).
Proof.
  unfold url_parse, mbind, result_bind. destruct (stringContainsCTLByte raw); [done|].
  destruct (_ && _); [done|]. case_bool_decide; [by intros [= <-]|].
  destruct (getScheme raw) as [[s r]|] eqn:Es; [|done]. cbn [fst snd].
  destruct (split_query r) as [[rest query] force] eqn:Eq.
  assert (forall user host path omit, finish_url (ToLower s) query force user host path omit = Ok u ->
    u_Scheme u = ToLower s /\ u_User u = user /\ u_Host u = host) as Hfin.
  { intros user host path omit. unfold finish_url, mbind, result_bind. destruct (setPath path); [|done].
    by intros [= <-]. }
  assert (forall path omit, finish_url (ToLower s) query force None "" path omit = Ok u -> u_Host u = "") as Hnone
    by (intros path omit Hf; apply Hfin in Hf; tauto).
  destruct rest as [|[[] [] [] [] [] [] [] []] rest];
    try (destruct (negb _); [by intros [= <-]|destruct via; [done|]; destruct (has_byte _ _); [done|]];
         intros Hf _ Hh; by apply Hnone in Hf).
  destruct rest as [|[[] [] [] [] [] [] [] []] more]; try (intros Hf _ Hh; by apply Hnone in Hf).
  destruct (_ || _); [|intros Hf _ Hh; by apply Hnone in Hf].
  destruct (parseAuthority _ _) as [[user host]|] eqn:Ea; [|done]. cbn [fst snd]. intros Hf Hs Hh.
  apply Hfin in Hf as (F1 & F2 & F3). exists more. rewrite F1, F2, F3 in *. split; [|done].
  by exists s, r, query, force.
Qed.

Lemma sees_url_parse raw scheme more u : sees raw scheme more -> url_parse raw false = Ok u ->
  u_Scheme u = scheme /\ parseAuthority scheme (before_slash more) = Ok (u_User u, u_Host u).
Proof.
  intros (s & r & query & force & Es & <- & Hs & Eq). unfold url_parse, mbind, result_bind.
  destruct (stringContainsCTLByte raw); [done|]. rewrite andb_false_r.
  case_bool_decide as Hstar; [subst raw; by injection Es as <- _|]. rewrite Es. cbn [fst snd]. rewrite Eq.
  rewrite bool_decide_false by done. simpl.
  destruct (parseAuthority _ _) as [[user host]|]; [|done]. unfold finish_url, mbind, result_bind.
  destruct (setPath _); [|done]. by intros [= <-].
Qed.

(** The part of a text before a number sign, or all of it. *)
Definition cut_off (p t : string) : Prop := t = p \/ exists z, t = p +:+ String "#" z.

Lemma scheme_rest_cut a z x y : has_byte "#" a = false ->
  scheme_rest (a +:+ String "#" z) = Some (x, y) ->
  exists b, scheme_rest a = Some (x, b) /\ y = b +:+ String "#" z.
Proof.
  revert x. induction a as [|c a IH]; intros x Ha; [done|]. rewrite app_cons. simpl in Ha |- *.
  destruct (decide (c = "#"%char)); [done|]. case_bool_decide.
  { intros [= <- <-]. by exists a. }
  destruct (_ || _); [|done]. destruct (scheme_rest (a +:+ _)) as [[x' y']|]; [|done].
  intros [= <- ->]. destruct (IH x' Ha eq_refl) as (b & -> & ->). by exists b.
Qed.

Lemma getScheme_cut a z s r : has_byte "#" a = false ->
  getScheme (a +:+ String "#" z) = Ok (s, r) -> s <> "" ->
  exists b, getScheme a = Ok (s, b) /\ r = b +:+ String "#" z.
Proof.
  intros Ha. destruct a as [|c a]; [by intros [= <- _]|]. rewrite app_cons. unfold getScheme.
  case_bool_decide; [done|]. destruct (is_alpha c) eqn:Ec; [|by intros [= <- _]].
  rewrite <- app_cons. destruct (scheme_rest (String c a +:+ String "#" z)) as [[x y]|] eqn:E;
    cbn [from_option id].
  - apply scheme_rest_cut in E as (b & -> & ->); [|done]. intros [= <- <-] _. by exists b.
  - by intros [= <- _].
Qed.

Lemma cut_byte_app c a b x y : cut_byte c a = Some (x, y) -> cut_byte c (a +:+ b) = Some (x, y +:+ b).
Proof.
  intros [-> Hx]%cut_byte_Some. apply cut_byte_Some. split; [|done]. by rewrite GoStrings.app_assoc, app_cons.
Qed.

Lemma split_query_cut b z p q f : split_query (b +:+ String "#" z) = (p, q, f) ->
  exists p' q' f', split_query b = (p', q', f') /\ cut_off p' p.
Proof.
  unfold split_query. destruct (cut_byte "?" b) as [[x y]|] eqn:E.
  - rewrite (cut_byte_app _ _ _ _ _ E). intros Hp. exists x. destruct y as [|c y]; simpl in Hp; injection Hp as <- _ _;
      (do 2 eexists; split; [reflexivity|by left]).
  - intros Hp. exists b, "", false. split; [done|]. right.
    destruct (cut_byte "?" (b +:+ String "#" z)) as [[x y]|] eqn:Ec; [|injection Hp as <- _ _; by eexists].
    assert (exists z', x = b +:+ String "#" z') as [z' ->].
    { clear Hp. apply cut_byte_None in E. revert x Ec. induction b as [|c b IH]; intros x.
      - simpl. destruct (cut_byte "?" z) as [[x' y']|]; [|done]. intros [= <- _]. by exists x'.
      - rewrite app_cons. simpl in E |- *. case_decide; [done|].
        destruct (cut_byte "?" (b +:+ _)) as [[x' y']|]; [|done]. intros [= <- <-].
        destruct (IH E x' eq_refl) as [z' ->]. by exists z'. }
    exists z'. by destruct y; injection Hp as <- _ _.
Qed.

Lemma before_slash_cut p t : cut_off p t ->
  before_slash t = before_slash p \/ has_byte "#" (before_slash t) = true.
Proof.
  intros [->|[z ->]]; [by left|]. unfold before_slash. destruct (cut_byte "/" p) as [[x y]|] eqn:E.
  - left. by rewrite (cut_byte_app _ _ _ _ _ E).
  - right. apply cut_byte_None in E. induction p as [|c p IH]; cbn [GoStrings.has_byte] in *.
    + simpl. by destruct (cut_byte "/" z) as [[? ?]|].
    + rewrite app_cons. simpl in E |- *. destruct (decide (c = "/"%char)); [done|].
      specialize (IH E). destruct (cut_byte "/" (p +:+ _)) as [[? ?]|]; simpl in *; by case_decide.
Qed.

(** A URL accepted with its fragment names the same host without it. *)
Lemma fragment_same_host a z via u1 u0 : has_byte "#" a = false ->
  url_parse (a +:+ String "#" z) via = Ok u1 -> u_Scheme u1 <> "" -> u_Host u1 <> "" -> u_User u1 = None ->
  url_parse a false = Ok u0 ->
  u_Scheme u0 = u_Scheme u1 /\ u_Host u0 = u_Host u1 /\ u_User u0 = None.
Proof.
  intros Ha H1 Hs Hh Hu H0. destruct (url_parse_sees _ _ _ H1 Hs Hh) as (more & Hsee & Hauth).
  destruct Hsee as (s & r & query & force & Es & El & _ & Eq).
  assert (s <> "") as Hs' by (intros ->; apply Hs; by rewrite <- El).
  destruct (getScheme_cut a z s r Ha Es Hs') as (b & Hb & ->).
  apply split_query_cut in Eq as (p' & q' & f' & Hsp & Hcut).
  assert (exists more', p' = String "/" (String "/" more') /\ cut_off more' more) as (more' & -> & Hcut').
  { destruct Hcut as [<-|[t Ht]]; [exists more; split; [done|by left]|].
    destruct p' as [|c1 [|c2 p']]; [done|by injection Ht|]. rewrite !app_cons in Ht. injection Ht as <- <- ->.
    exists p'. split; [done|right; by eexists]. }
  rewrite Hu in Hauth. pose proof (parseAuthority_no_hash _ _ _ Hauth) as Hno.
  destruct (before_slash_cut _ _ Hcut') as [Hsame|Hbad]; [|congruence]. rewrite Hsame in Hauth.
  destruct (sees_url_parse a (u_Scheme u1) more' u0) as [F1 F2]; [by exists s, b, q', f'|done|].
  rewrite F2 in Hauth. injection Hauth as ? ?. done.
Qed.
