(* ===== verification/Approval.v ===== *)
(** Package approval (approval/scope.go): client-address restrictions on
    fingerprint approvals.  A scope is a set of CIDR prefixes; a nil scope is no
    restriction at all. *)

From S2P Require Import Prelude GoStrings Netip Json.
From Stdlib Require Import Ascii String.
From stdpp Require Import strings sorting.
#[local] Open Scope stdpp_scope.
#[local] Open Scope Z_scope.

Definition Capability : string := "approval_ranges_v1".
Definition MaxRanges : Z := 128.

(** [type Scope struct{ prefixes []netip.Prefix }]; a [*Scope] is an
    [option Scope]. *)
Record Scope := { prefixes : list Prefix }.

#[export] Instance Scope_eq_dec : EqDecision Scope.
Proof. solve_decision. Defined.

(** The order sort.Slice is given: by the prefixes' texts. *)
Definition prefix_le (p q : Prefix) : Prop := String.le (Prefix_String p) (Prefix_String q).

#[export] Instance prefix_le_dec : RelDecision prefix_le.
Proof. intros p q. unfold prefix_le. apply _. Defined.

Definition err_invalid_cidr (raw : string) : GoError := ErrText "invalid approval CIDR %q" [raw].

(** The loop of New over the ranges: the set of masked prefixes, as a
    duplicate-free list. *)
Fixpoint collect_prefixes (seen : list Prefix) (ranges : list string) : result (list Prefix) :=
  match ranges with
  | [] => Ok seen
  | raw :: rest =>
      match ParsePrefix raw with
      | None => Err (err_invalid_cidr raw)
      | Some p =>
          if Addr_Is4In6 (pfx_addr p) then Err (err_invalid_cidr raw)
          else let m := Prefix_Masked p in
               collect_prefixes (if decide (m ∈ seen) then seen else seen ++ [m]) rest
      end
  end.

(** approval.New *)
Definition approval_New (ranges : list string) : result Scope :=
  if ((Z.of_nat (List.length ranges) =? 0) || (MaxRanges <? Z.of_nat (List.length ranges)))%bool
  then Err (ErrText "approval_ranges requires 1..%d CIDRs" ["128"])
  else match collect_prefixes [] ranges with
       | Err e => Err e
       | Ok seen => Ok {| prefixes := merge_sort prefix_le seen |}
       end.

(** Scope.Validate *)
Definition Scope_Validate (s : option Scope) : option GoError :=
  match s with
  | Some s =>
      if ((Z.of_nat (List.length (prefixes s)) =? 0) ||
          (MaxRanges <? Z.of_nat (List.length (prefixes s))))%bool
      then Some (ErrText "invalid empty or oversized approval scope" [])
      else None
  | None => None
  end.

(** Scope.Ranges: a nil slice for a nil scope. *)
Definition Scope_Ranges (s : option Scope) : option (list string) :=
  match s with
  | None => None
  | Some s => Some (map Prefix_String (prefixes s))
  end.

(** Scope.Allows *)
Definition Scope_Allows (s : option Scope) (addr : Addr) : bool :=
  match s with
  | None => true
  | Some s =>
      if (negb (Addr_IsValid addr) || negb (bool_decide (Addr_Zone addr = "")))%bool then false
      else let addr := Addr_Unmap addr in
           existsb (fun p => Prefix_Contains p addr) (prefixes s)
  end.

Section JSON.
Context `{JSONCodec Any}.

(** Scope.MarshalJSON *)
Definition Scope_MarshalJSON (s : option Scope) : result string :=
  match Scope_Validate s with
  | Some e => Err e
  | None => Ok (Marshal_strings (Scope_Ranges s))
  end.

(** Scope.UnmarshalJSON; a JSON null leaves the slice nil *)
Definition Scope_UnmarshalJSON (data : string) : result Scope :=
  match Unmarshal_strings data with
  | None => Err (ErrText "json: cannot unmarshal" [data])
  | Some ranges => approval_New (default [] ranges)
  end.
End JSON.

(** ** New: normalised, sorted, deduplicated *)

(** A range New accepts, and the prefix it stands for. *)
Definition accepted (raw : string) (m : Prefix) : Prop :=
  exists p, ParsePrefix raw = Some p /\ Addr_Is4In6 (pfx_addr p) = false /\ m = Prefix_Masked p.

Definition prefix_lt (p q : Prefix) : Prop := str_lt (Prefix_String p) (Prefix_String q).

Lemma accepted_printable raw m : accepted raw m -> printable m.
Proof.
  intros (p & Hp & H46 & ->). apply ParsePrefix_ok in Hp as (Hv & Hok & _).
  by apply Prefix_Masked_printable.
Qed.

Lemma accepted_fun raw m1 m2 : accepted raw m1 -> accepted raw m2 -> m1 = m2.
Proof. intros (p & Hp & _ & ->) (q & Hq & _ & ->). congruence. Qed.

Lemma collect_prefixes_ok ranges : forall seen out,
  NoDup seen -> collect_prefixes seen ranges = Ok out ->
  NoDup out /\ Forall (fun raw => exists m, accepted raw m) ranges /\
  forall m, m ∈ out <-> m ∈ seen \/ exists raw, raw ∈ ranges /\ accepted raw m.
Proof.
  induction ranges as [|raw ranges IH]; intros seen out Hnd; cbn [collect_prefixes].
  - intros [= <-]. split; [done|]. split; [done|]. intros m. split; [auto|].
    intros [?|(raw & Hin & _)]; [done|]. by apply not_elem_of_nil in Hin.
  - destruct (ParsePrefix raw) as [p|] eqn:Hp; [|done].
    destruct (Addr_Is4In6 (pfx_addr p)) eqn:H46; [done|]. intros Hc.
    assert (accepted raw (Prefix_Masked p)) as Ha by (by exists p).
    apply IH in Hc as (Hnd' & Hall & Hmem).
    + split; [done|]. split; [constructor; eauto|]. intros m. rewrite Hmem.
      assert ((exists r, r ∈ raw :: ranges /\ accepted r m) <->
        m = Prefix_Masked p \/ exists r, r ∈ ranges /\ accepted r m) as ->.
      { split.
        - intros (r & [->|Hr]%elem_of_cons & Hacc); [left; by eapply accepted_fun|right; eauto].
        - intros [->|(r & Hr & Hacc)]; [exists raw|exists r]; (split; [|done]);
            apply elem_of_cons; auto. }
      case_decide as Hin; rewrite ?elem_of_app, ?list_elem_of_singleton; [|tauto].
      split; [tauto|]. intros [?|[->|?]]; auto.
    + case_decide as Hin; [done|]. apply NoDup_app. split; [done|].
      split; [|apply NoDup_singleton]. intros x Hx ->%list_elem_of_singleton. done.
Qed.

Lemma collect_prefixes_total ranges : forall seen,
  Forall (fun raw => exists m, accepted raw m) ranges ->
  is_ok (collect_prefixes seen ranges) = true.
Proof.
  induction ranges as [|raw ranges IH]; intros seen Hall; cbn [collect_prefixes]; [done|].
  apply Forall_cons in Hall as [(m & p & -> & -> & _) Hall]. by apply IH.
Qed.

(** Sorting by text makes a duplicate-free list of printable prefixes strictly
    increasing. *)
Lemma merge_sort_prefix_lt l :
  NoDup l -> Forall printable l -> StronglySorted prefix_lt (merge_sort prefix_le l).
Proof.
  intros Hnd Hp.
  assert (Total prefix_le) by (intros p q; unfold prefix_le; apply String.le_total).
  assert (Transitive prefix_le) by (intros p q r; unfold prefix_le; apply transitivity).
  assert (StronglySorted prefix_le (merge_sort prefix_le l)) as Hs
    by (by apply StronglySorted_merge_sort).
  assert (NoDup (merge_sort prefix_le l)) as Hnd' by (by rewrite merge_sort_Permutation).
  assert (Forall printable (merge_sort prefix_le l)) as Hp' by (by rewrite merge_sort_Permutation).
  induction Hs as [|p l' Hs IH Hall]; constructor; apply NoDup_cons in Hnd' as [Hni Hnd'];
    apply Forall_cons in Hp' as [Hpp Hp']; [by apply IH|].
  rewrite Forall_forall in *. intros q Hq. specialize (Hall q Hq).
  unfold prefix_lt. apply str_le_lt in Hall as [?|Heq]; [done|].
  apply Prefix_String_inj in Heq; [by subst|done|by apply Hp'].
Qed.

#[export] Instance prefix_lt_strict : StrictOrder prefix_lt.
Proof.
  split; [intros p; apply str_lt_irrefl|intros p q r; apply str_lt_trans].
Qed.

Lemma approval_New_spec ranges s :
  approval_New ranges = Ok s <->
  1 <= Z.of_nat (List.length ranges) <= MaxRanges /\
  Forall (fun raw => exists m, accepted raw m) ranges /\
  StronglySorted prefix_lt (prefixes s) /\
  (forall m, m ∈ prefixes s <-> exists raw, raw ∈ ranges /\ accepted raw m).
Proof.
  unfold approval_New. destruct (_ || _)%bool eqn:Hlen.
  { split; [done|]. intros [? _]. lia. }
  assert (forall out, collect_prefixes [] ranges = Ok out ->
    Forall (fun raw => exists m, accepted raw m) ranges /\
    StronglySorted prefix_lt (merge_sort prefix_le out) /\
    (forall m, m ∈ merge_sort prefix_le out <-> exists raw, raw ∈ ranges /\ accepted raw m))
    as Hout.
  { intros out Hc. apply collect_prefixes_ok in Hc as (Hnd & Hall & Hmem); [|by constructor].
    split; [done|]. split.
    - apply merge_sort_prefix_lt; [done|]. rewrite Forall_forall. intros m.
      rewrite Hmem. intros [?%not_elem_of_nil|(raw & _ & Ha)]; [done|].
      by eapply accepted_printable.
    - intros m. rewrite merge_sort_Permutation, Hmem.
      split; [by intros [?%not_elem_of_nil|?]|auto]. }
  split.
  - intros Hn. split; [lia|]. destruct (collect_prefixes [] ranges) as [out|]; [|done].
    injection Hn as <-. by apply Hout.
  - intros (_ & Hall & Hsort & Hmem).
    pose proof (collect_prefixes_total ranges [] Hall) as Htot.
    destruct (collect_prefixes [] ranges) as [out|]; [|done].
    destruct (Hout out eq_refl) as (_ & Hs' & Hm'). destruct s as [ps]. simpl in *. do 2 f_equal.
    apply (ssorted_ext prefix_lt); [done..|]. intros p. rewrite Hm', Hmem. done.
Qed.

(** ** Well-formed scopes *)

(** What New establishes and JSON preserves: between one and [MaxRanges] masked
    prefixes, strictly sorted by text. *)
Definition scope_ok (s : Scope) : Prop :=
  1 <= Z.of_nat (List.length (prefixes s)) <= MaxRanges /\
  Forall (fun p => printable p /\ Prefix_Masked p = p) (prefixes s) /\
  StronglySorted prefix_lt (prefixes s).

Lemma collect_prefixes_length ranges : forall seen out,
  collect_prefixes seen ranges = Ok out ->
  (List.length out <= List.length seen + List.length ranges)%nat.
Proof.
  induction ranges as [|raw ranges IH]; intros seen out; cbn [collect_prefixes].
  - intros [= <-]. simpl. lia.
  - destruct (ParsePrefix raw); [|done]. case_match; [done|].
    intros Hc%IH. simpl. case_decide; [lia|]. rewrite List.length_app in Hc. simpl in Hc. lia.
Qed.

Lemma approval_New_ok ranges s : approval_New ranges = Ok s -> scope_ok s.
Proof.
  intros Hn. pose proof (proj1 (approval_New_spec ranges s) Hn) as (Hlen & Hall & Hsort & Hmem).
  split; [split|split; [|done]].
  - destruct ranges as [|raw ranges]; [simpl in Hlen; lia|].
    apply Forall_cons in Hall as [(m & Hm) _].
    assert (m ∈ prefixes s) as Hin by (apply Hmem; exists raw; split; [apply elem_of_cons; auto|done]).
    destruct (prefixes s); [by apply not_elem_of_nil in Hin|simpl; lia].
  - unfold approval_New in Hn. destruct (_ || _)%bool; [done|].
    destruct (collect_prefixes [] ranges) as [out|] eqn:Hc; [|done]. injection Hn as <-.
    apply collect_prefixes_length in Hc. simpl in *. rewrite merge_sort_Permutation. lia.
  - rewrite Forall_forall. intros m (raw & _ & Ha)%Hmem.
    split; [by eapply accepted_printable|].
    destruct Ha as (p & Hp & _ & ->). apply ParsePrefix_ok in Hp as (Hv & _).
    by apply Prefix_Masked_idemp.
Qed.

(** Parsing the ranges a well-formed scope prints gives the scope back. *)
Lemma approval_New_Ranges s :
  scope_ok s -> approval_New (map Prefix_String (prefixes s)) = Ok s.
Proof.
  intros (Hlen & Hall & Hsort). rewrite Forall_forall in Hall. apply approval_New_spec.
  rewrite List.length_map. split; [done|].
  assert (forall p, p ∈ prefixes s -> accepted (Prefix_String p) p) as Hacc.
  { intros p Hp. destruct (Hall p Hp) as [(Hv & Hok & Hz & H46) Hm].
    exists p. rewrite ParsePrefix_String by done. done. }
  split; [|split; [done|]].
  - rewrite Forall_forall. intros raw (p & -> & Hp)%list_elem_of_fmap. eauto.
  - intros m. split.
    + intros Hm. exists (Prefix_String m). split; [|auto].
      apply list_elem_of_fmap. eauto.
    + intros (raw & (p & -> & Hp)%list_elem_of_fmap & Ha).
      by rewrite (accepted_fun _ _ _ Ha (Hacc p Hp)).
Qed.

(** The bytes of a printable prefix need no JSON escaping. *)
Lemma plain_hex_text g s : plain (hex_text g s) = plain s.
Proof.
  assert (forall d, plain_byte (hex_char (d mod 16)) = true) as H.
  { intros d. assert (forallb (fun d => plain_byte (hex_char d)) (zrange 16) = true) as Hf
      by (vm_compute; reflexivity).
    apply (zrange_forall 16 _ (d mod 16)) in Hf; [done|zlia]. }
  unfold hex_text. repeat case_match; cbn [plain]; by rewrite !H.
Qed.

Lemma plain_octet_text o s : 0 <= o <= 255 -> plain (octet_text o s) = plain s.
Proof.
  intros Ho. assert (forall d, 0 <= d <= 9 -> plain_byte (digit_char d) = true) as H.
  { intros d Hd. assert (forallb (fun d => plain_byte (digit_char d)) (zrange 10) = true) as Hf
      by (vm_compute; reflexivity).
    apply (zrange_forall 10 _ d) in Hf; [done|lia]. }
  unfold octet_text. repeat case_match; cbn [plain]; by rewrite !H by zlia.
Qed.

Lemma plain_join6 gs s : plain (join6 gs s) = plain s.
Proof.
  induction gs as [|g [|g2 gs] IH]; [done|by apply plain_hex_text|].
  cbn [join6] in *. rewrite plain_hex_text. exact IH.
Qed.

Lemma plain_Prefix_String p : printable p -> plain (Prefix_String p) = true.
Proof.
  intros (Hv & Hok & Hz & H46). unfold Prefix_String. rewrite Hv, plain_app.
  unfold Prefix_IsValid in Hv. destruct p as [a b]. cbn [pfx_addr pfx_bits] in *.
  assert (0 <= b <= 128) as Hb
    by (destruct a; cbn [Addr_IsValid BitLen] in Hv; lia).
  assert (forallb (fun b => plain (String "/" (Itoa b))) (zrange 129) = true) as Hf
    by (vm_compute; reflexivity).
  apply (zrange_forall 129 _ b) in Hf; [|lia]. rewrite Hf, andb_true_r.
  clear Hb Hf. destruct a as [|v|v z]; cbn [Addr_String Addr_Zone Addr_Is4In6] in *; [done|..].
  - unfold text4. repeat (rewrite plain_octet_text by zlia; cbn [plain]). done.
  - subst z. rewrite H46, decide_True by done. unfold text6. case_match. case_match.
    + by rewrite plain_join6.
    + rewrite plain_join6. cbn [plain]. by rewrite plain_join6.
Qed.

Section JSON_roundtrip.
Context `{JSONLaws Any}.

Lemma Scope_JSON_ok s :
  scope_ok s ->
  exists data, Scope_MarshalJSON (Some s) = Ok data /\ Scope_UnmarshalJSON data = Ok s.
Proof.
  intros Hs. exists (Marshal_strings (Scope_Ranges (Some s))).
  pose proof (approval_New_Ranges s Hs) as Hnew. destruct Hs as (Hlen & Hall & _).
  unfold Scope_MarshalJSON, Scope_UnmarshalJSON, Scope_Validate. split.
  - destruct (_ || _)%bool eqn:E; [|done]. lia.
  - cbn [Scope_Ranges]. rewrite Unmarshal_Marshal_strings; [done|].
    rewrite Forall_fmap. eapply Forall_impl; [exact Hall|].
    intros p [Hp _]. by apply plain_Prefix_String.
Qed.
End JSON_roundtrip.

(** ** What a scope admits *)

(** Two addresses of the same family agree on their leading [bits] bits. *)
Definition same_network (bits : Z) (p a : Addr) : Prop :=
  match p, a with
  | Addr4 v, Addr4 w => w / 2 ^ (32 - bits) = v / 2 ^ (32 - bits)
  | Addr6 v _, Addr6 w _ => w / 2 ^ (128 - bits) = v / 2 ^ (128 - bits)
  | _, _ => False
  end.

Lemma Scope_Allows_elem s a :
  Scope_Allows (Some s) a = true <->
  Addr_IsValid a = true /\ Addr_Zone a = "" /\
  exists p, p ∈ prefixes s /\ Prefix_Contains p (Addr_Unmap a) = true.
Proof.
  unfold Scope_Allows. destruct (Addr_IsValid a); simpl; [|naive_solver].
  destruct (bool_decide_reflect (Addr_Zone a = "")); simpl; [|naive_solver].
  rewrite existsb_exists. setoid_rewrite list_elem_of_In. naive_solver.
Qed.

Lemma Addr_Unmap_zone a : Addr_Zone a = "" -> Addr_Zone (Addr_Unmap a) = "".
Proof.
  intros Hz. destruct a as [| |v z]; [done..|]. cbn [Addr_Unmap].
  destruct (is_4in6 v); [reflexivity|exact Hz].
Qed.

(** Sorting, masking and deduplication leave the admitted addresses alone. *)
Lemma Scope_Allows_ranges ranges s a :
  approval_New ranges = Ok s ->
  Scope_Allows (Some s) a = true <->
  Addr_IsValid a = true /\ Addr_Zone a = "" /\
  exists raw p, raw ∈ ranges /\ ParsePrefix raw = Some p /\
    same_network (pfx_bits p) (pfx_addr p) (Addr_Unmap a).
Proof.
  intros (_ & Hall & _ & Hmem)%approval_New_spec. rewrite Scope_Allows_elem.
  split; intros (Hvalid & Hzone & Hex); (split; [done|split; [done|]]).
  - destruct Hex as (m & (raw & Hr & p & Hp & H46 & ->)%Hmem & Hc). exists raw, p.
    apply ParsePrefix_ok in Hp as Hok. destruct Hok as (Hv & _).
    rewrite Prefix_Masked_Contains in Hc by done.
    apply Prefix_Contains_spec in Hc as (_ & _ & Hc). done.
  - destruct Hex as (raw & p & Hr & Hp & Hn). rewrite Forall_forall in Hall.
    destruct (Hall raw Hr) as (m & p' & Hp' & H46 & ->). rewrite Hp in Hp'. injection Hp' as <-.
    apply ParsePrefix_ok in Hp as Hok. destruct Hok as (Hv & _).
    exists (Prefix_Masked p). split; [apply Hmem; exists raw; split; [done|by exists p]|].
    rewrite Prefix_Masked_Contains by done. apply Prefix_Contains_spec. split; [done|].
    split; [by apply Addr_Unmap_zone|]. exact Hn.
Qed.
