(* ===== verification/ApprovalProps.v ===== *)
(** Properties of package approval and of store.Time. *)

From S2P Require Import Prelude GoStrings GoTime Netip Json Approval.
From Stdlib Require Import Ascii String.
From stdpp Require Import strings sorting.
#[local] Open Scope stdpp_scope.
#[local] Open Scope Z_scope.

(** Two lists of ranges that stand for the same networks. *)
Definition same_networks (r1 r2 : list string) : Prop :=
  forall m, (exists raw, raw ∈ r1 /\ accepted raw m) <-> (exists raw, raw ∈ r2 /\ accepted raw m).

(** C35: approval.New accepts exactly the lists of 1 to 128 CIDRs that all parse
    and are not IPv4-mapped, and its result is a normal form: masked prefixes,
    strictly sorted by text, the same for any two lists that stand for the same
    networks, whatever their order, repetitions and host bits. *)
Theorem New_normal_form ranges :
  (is_ok (approval_New ranges) = true <->
     1 <= Z.of_nat (List.length ranges) <= MaxRanges /\
     Forall (fun raw => exists p, ParsePrefix raw = Some p /\ Addr_Is4In6 (pfx_addr p) = false) ranges) /\
  (forall s, approval_New ranges = Ok s ->
     scope_ok s /\
     forall ranges2 s2, approval_New ranges2 = Ok s2 -> same_networks ranges ranges2 -> s2 = s).
Proof.
  split.
  - assert (forall raw, (exists m, accepted raw m) <->
      exists p, ParsePrefix raw = Some p /\ Addr_Is4In6 (pfx_addr p) = false) as Hacc.
    { intros raw. split; [intros (m & p & Hp & H46 & _); eauto|]. intros (p & Hp & H46).
      exists (Prefix_Masked p), p. done. }
    split.
    + destruct (approval_New ranges) as [s|] eqn:E; [|done]. intros _.
      apply approval_New_spec in E as (Hl & Hall & _). split; [done|].
      eapply Forall_impl; [exact Hall|]. intros raw. apply Hacc.
    + intros [Hl Hall]. unfold approval_New. destruct (_ || _) eqn:E; [lia|].
      pose proof (collect_prefixes_total ranges []) as Ht.
      destruct (collect_prefixes [] ranges); [done|]. apply Ht.
      eapply Forall_impl; [exact Hall|]. intros raw. apply Hacc.
  - intros s Hs. split; [by eapply approval_New_ok|]. intros ranges2 s2 Hs2 Hsame.
    apply approval_New_spec in Hs as (_ & _ & Hsort & Hmem).
    apply approval_New_spec in Hs2 as (_ & _ & Hsort2 & Hmem2).
    destruct s as [ps], s2 as [ps2]. simpl in *. f_equal.
    apply (ssorted_ext prefix_lt); [done..|]. intros m. rewrite Hmem, Hmem2. symmetry. apply Hsame.
Qed.

(** C36: a scope built by New admits exactly the valid, zone-free addresses that
    lie in one of the given ranges, compared on the leading bits of the same
    family; an IPv4-mapped IPv6 address counts as its IPv4 address. *)
Theorem Allows_given_ranges ranges s a :
  approval_New ranges = Ok s ->
  Scope_Allows (Some s) a = true <->
  Addr_IsValid a = true /\ Addr_Zone a = "" /\
  exists raw p, raw ∈ ranges /\ ParsePrefix raw = Some p /\
    same_network (pfx_bits p) (pfx_addr p) (Addr_Unmap a).
Proof. apply Scope_Allows_ranges. Qed.

(** C37: a scope survives JSON: marshalling a scope New built succeeds and
    unmarshalling the text gives the same scope; its printed ranges given to New
    give it back too. *)
Theorem Scope_JSON_round_trip `{JSONLaws Any} ranges s :
  approval_New ranges = Ok s ->
  (exists data, Scope_MarshalJSON (Some s) = Ok data /\ Scope_UnmarshalJSON data = Ok s) /\
  exists texts, Scope_Ranges (Some s) = Some texts /\ approval_New texts = Ok s.
Proof.
  intros Hs%approval_New_ok. split; [by apply Scope_JSON_ok|].
  eexists. split; [done|]. by apply approval_New_Ranges.
Qed.

(** The corners: a nil scope admits every address and validates; a scope
    with no prefix admits none, does not validate and is refused by MarshalJSON,
    so it cannot be stored as an unrestricted approval. *)
Theorem empty_scope_is_not_unrestricted `{JSONCodec Any} a :
  Scope_Allows None a = true /\ Scope_Validate None = None /\
  Scope_Allows (Some {| prefixes := [] |}) a = false /\
  Scope_Validate (Some {| prefixes := [] |}) <> None /\
  is_ok (Scope_MarshalJSON (Some {| prefixes := [] |})) = false.
Proof.
  split_and!; try done. unfold Scope_Allows. by destruct (_ || _).
Qed.

Lemma Allows_given_ranges_witness :
  exists s, approval_New ["10.1.2.3/8"] = Ok s /\
    (Scope_Allows (Some s) (Addr4 167772161) = true -> Addr_IsValid (Addr4 167772161) = true).
Proof.
  destruct (approval_New ["10.1.2.3/8"]) as [s|] eqn:E.
  - exists s. split; [reflexivity|]. intros Ha.
    exact (proj1 (proj1 (Allows_given_ranges ["10.1.2.3/8"] s (Addr4 167772161) E) Ha)).
  - exfalso. apply (f_equal is_ok) in E. vm_compute in E. discriminate E.
Defined.

Lemma Scope_JSON_round_trip_witness :
  exists s, approval_New ["10.1.2.3/8"; "2001:db8::/32"] = Ok s /\
    exists data, Scope_MarshalJSON (Some s) = Ok data /\ Scope_UnmarshalJSON data = Ok s.
Proof.
  destruct (approval_New ["10.1.2.3/8"; "2001:db8::/32"]) as [s|] eqn:E.
  - exists s. split; [reflexivity|].
    exact (proj1 (Scope_JSON_round_trip ["10.1.2.3/8"; "2001:db8::/32"] s E)).
  - exfalso. apply (f_equal is_ok) in E. vm_compute in E. discriminate E.
Defined.

(** C38: times survive storage: for every instant RFC 3339 can write, decodeTime
    reads back what encodeTime wrote and UnmarshalJSON what MarshalJSON wrote (a
    zero time as the empty string), different instants have different texts, and
    the texts of instants in different seconds are ordered as the instants. *)
Theorem time_text_round_trip t :
  in_year_range t ->
  decodeTime (encodeTime t) = Ok t /\ Time_UnmarshalJSON (Time_MarshalJSON t) = Ok t /\
  forall t2, in_year_range t2 ->
    (encodeTime t = encodeTime t2 -> t = t2) /\
    (t / ns_per_sec < t2 / ns_per_sec -> str_lt (encodeTime t) (encodeTime t2)).
Proof.
  intros Ht. split_and!.
  - by apply decode_encode_time.
  - by apply Time_JSON_ok.
  - intros t2 Ht2. split; [by apply encodeTime_inj|by apply encodeTime_lt].
Qed.

Lemma time_text_round_trip_witness :
  decodeTime (encodeTime 1700000000123456789) = Ok 1700000000123456789.
Proof.
  refine (proj1 (time_text_round_trip 1700000000123456789 _)). split; vm_compute; [discriminate|reflexivity].
Defined.
