(* ===== verification/Database.v ===== *)
(** The database under package store: the tables store.go creates, and the
    monad in which the store's methods run.

    A [World] holds the committed database (what the reader pool and the next
    transaction see), the writer's open transaction if there is one, a script
    of outcomes for the calls that leave the process (each may fail), and the
    clock.  SQLite itself is third-party code: the model relies on its
    documented behaviour only, namely that a statement either takes effect as
    written or reports an error and changes nothing, that a transaction becomes
    visible as a whole when its COMMIT succeeds and not at all otherwise, and
    that rows come back in an unspecified order ([RowOrder]) where a query does
    not order them. *)

From S2P Require Import Prelude GoStrings GoTime.
From Stdlib Require Import Ascii String.
From stdpp Require Import strings gmap sorting.
#[local] Open Scope stdpp_scope.
#[local] Open Scope Z_scope.

(** ** Tables *)

(** A row of the table fingerprints, keyed by its column fp.  Times, the metadata
    bag and the approval ranges are kept as the TEXT the store writes; columns of
    a pre-gatekit schema are kept by name ([None] is SQL NULL). *)
Record FpRow := {
  fr_status : string;
  fr_label : string;
  fr_first_seen : string;
  fr_last_seen : string;
  fr_count : Z;
  fr_meta : string;
  fr_approval_ranges : option string;
  fr_legacy : gmap string (option string)
}.

(** The tables fingerprints (with its columns), fingerprint_ips,
    fingerprint_ports, fingerprint_sightings, blocked_range_alerts and meta.  A
    table that does not exist yet is an empty one.  [db_defaults] gives the
    DEFAULT of every pre-gatekit column, which an insert that does not name the
    column stores. *)
Record DB := {
  db_columns : list string;
  db_defaults : gmap string (option string);
  db_fps : gmap string FpRow;
  db_ips : gset (string * string);
  db_ports : gset (string * Z);
  db_sightings : gmap (string * string * Z) string;
  db_alerts : gmap (string * string) (string * string);
  db_meta : gmap string string
}.

Definition empty_db : DB :=
  {| db_columns := []; db_defaults := ∅; db_fps := ∅; db_ips := ∅; db_ports := ∅; db_sightings := ∅;
     db_alerts := ∅; db_meta := ∅ |}.

Definition set_columns (f : list string -> list string) (d : DB) : DB :=
  {| db_columns := f (db_columns d); db_defaults := db_defaults d; db_fps := db_fps d; db_ips := db_ips d;
     db_ports := db_ports d; db_sightings := db_sightings d; db_alerts := db_alerts d;
     db_meta := db_meta d |}.
Definition set_fps (f : gmap string FpRow -> gmap string FpRow) (d : DB) : DB :=
  {| db_columns := db_columns d; db_defaults := db_defaults d; db_fps := f (db_fps d); db_ips := db_ips d;
     db_ports := db_ports d; db_sightings := db_sightings d; db_alerts := db_alerts d;
     db_meta := db_meta d |}.
Definition set_ips (f : gset (string * string) -> gset (string * string)) (d : DB) : DB :=
  {| db_columns := db_columns d; db_defaults := db_defaults d; db_fps := db_fps d; db_ips := f (db_ips d);
     db_ports := db_ports d; db_sightings := db_sightings d; db_alerts := db_alerts d;
     db_meta := db_meta d |}.
Definition set_ports (f : gset (string * Z) -> gset (string * Z)) (d : DB) : DB :=
  {| db_columns := db_columns d; db_defaults := db_defaults d; db_fps := db_fps d; db_ips := db_ips d;
     db_ports := f (db_ports d); db_sightings := db_sightings d; db_alerts := db_alerts d;
     db_meta := db_meta d |}.
Definition set_sightings
    (f : gmap (string * string * Z) string -> gmap (string * string * Z) string) (d : DB) : DB :=
  {| db_columns := db_columns d; db_defaults := db_defaults d; db_fps := db_fps d; db_ips := db_ips d;
     db_ports := db_ports d; db_sightings := f (db_sightings d); db_alerts := db_alerts d;
     db_meta := db_meta d |}.
Definition set_alerts
    (f : gmap (string * string) (string * string) -> gmap (string * string) (string * string))
    (d : DB) : DB :=
  {| db_columns := db_columns d; db_defaults := db_defaults d; db_fps := db_fps d; db_ips := db_ips d;
     db_ports := db_ports d; db_sightings := db_sightings d; db_alerts := f (db_alerts d);
     db_meta := db_meta d |}.
Definition set_meta (f : gmap string string -> gmap string string) (d : DB) : DB :=
  {| db_columns := db_columns d; db_defaults := db_defaults d; db_fps := db_fps d; db_ips := db_ips d;
     db_ports := db_ports d; db_sightings := db_sightings d; db_alerts := db_alerts d;
     db_meta := f (db_meta d) |}.

(** The history tables do not touch the rows of fingerprints. *)
Lemma fps_set_ips f d : db_fps (set_ips f d) = db_fps d.
Proof. done. Qed.
Lemma fps_set_ports f d : db_fps (set_ports f d) = db_fps d.
Proof. done. Qed.
Lemma fps_set_sightings f d : db_fps (set_sightings f d) = db_fps d.
Proof. done. Qed.

(** The order in which SQLite scans the rows of fingerprints when a query leaves
    it open: any permutation. *)
Class RowOrder := {
  scan_rows : gmap string FpRow -> list (string * FpRow);
  scan_rows_perm t : scan_rows t ≡ₚ map_to_list t
}.

(** ** The monad of store methods *)

Record World := {
  committed : DB;
  working : option DB;
  script : list (option string);
  clock : instant
}.

Definition M (A : Type) : Type := World -> result A * World.

#[global] Instance M_ret : MRet M := fun A a w => (Ok a, w).
#[global] Instance M_bind : MBind M := fun A B f m w =>
  match m w with
  | (Ok a, w') => f a w'
  | (Err e, w') => (Err e, w')
  end.

Definition throw {A} (e : GoError) : M A := fun w => (Err e, w).
Definition lift {A} (r : result A) : M A := fun w => (r, w).

Definition lift_state (f : World -> World) : M unit := fun w => (Ok tt, f w).

(** [if cond { stmt }] *)
Definition when (b : bool) (m : M unit) : M unit := if b then m else mret tt.

Definition set_committed (d : DB) (w : World) : World :=
  {| committed := d; working := working w; script := script w; clock := clock w |}.
Definition set_working (t : option DB) (w : World) : World :=
  {| committed := committed w; working := t; script := script w; clock := clock w |}.
Definition set_script (s : list (option string)) (w : World) : World :=
  {| committed := committed w; working := working w; script := s; clock := clock w |}.

(** The outcome of the next call that leaves the process; an exhausted script
    means that nothing fails any more. *)
Definition poll : M unit := fun w =>
  match script w with
  | [] => (Ok tt, w)
  | None :: rest => (Ok tt, set_script rest w)
  | Some msg :: rest => (Err (ErrDriver msg), set_script rest w)
  end.

(** encodeTime(time.Now()) *)
Definition time_Now : M instant := fun w => (Ok (clock w), w).

(** Statements: in the open transaction, or committed at once. *)
Definition tx_apply {A} (f : DB -> result (A * DB)) : M A := fun w =>
  match working w with
  | None => (Err ErrTxDone, w)
  | Some d => match f d with
              | Ok (a, d') => (Ok a, set_working (Some d') w)
              | Err e => (Err e, w)
              end
  end.

Definition auto_apply {A} (f : DB -> result (A * DB)) : M A := fun w =>
  match f (committed w) with
  | Ok (a, d') => (Ok a, set_committed d' w)
  | Err e => (Err e, w)
  end.

Definition tx_exec {A} (f : DB -> result (A * DB)) : M A := poll ;; tx_apply f.
Definition db_exec {A} (f : DB -> result (A * DB)) : M A := poll ;; auto_apply f.

(** A [querier]: the open transaction or the reader pool. *)
Inductive querier := OnTx | OnReader.

Definition snapshot (q : querier) : M DB := fun w =>
  match q with
  | OnReader => (Ok (committed w), w)
  | OnTx => match working w with
            | Some d => (Ok d, w)
            | None => (Err ErrTxDone, w)
            end
  end.

(** QueryRow followed by Scan: no row is sql.ErrNoRows. *)
Definition query_row {A} (q : querier) (f : DB -> option A) : M A :=
  poll ;; d ← snapshot q; lift (match f d with Some a => Ok a | None => Err ErrNoRows end).

(** ** Transactions *)

Definition BeginTx : M unit :=
  poll ;; (lift_state (fun w => set_working (Some (committed w)) w)).

(** Tx.Commit: on an error nothing has become visible.  Either way the Tx is
    done. *)
Definition Commit : M unit := fun w =>
  match working w with
  | None => (Err ErrTxDone, w)
  | Some d =>
      match poll w with
      | (Ok _, w') => (Ok tt, set_committed d (set_working None w'))
      | (Err e, w') => (Err e, set_working None w')
      end
  end.

(** Tx.Rollback: sql.ErrTxDone once the transaction is over. *)
Definition Rollback : M unit := fun w =>
  match working w with
  | None => (Err ErrTxDone, w)
  | Some _ =>
      match poll w with
      | (Ok _, w') => (Ok tt, set_working None w')
      | (Err e, w') => (Err e, set_working None w')
      end
  end.

(** ** cleanup.go *)

(** closeError labels the failure of a cleanup function. *)
Definition closeError (context : string) (closed : result unit) : option GoError :=
  match closed with
  | Ok _ => None
  | Err e => Some (ErrWrap context e)
  end.

(** A named error result joined with another error. *)
Definition join_result {A} (r : result A) (e : option GoError) : result A :=
  match r, e with
  | Ok a, None => Ok a
  | Ok _, Some x => Err x
  | Err x, None => Err x
  | Err x, Some y => Err (ErrJoin x y)
  end.

(** closeWithError, deferred around [m]. *)
Definition closeWithError {A} (context : string) (closeFn : M unit) (m : M A) : M A := fun w =>
  let '(r, w1) := m w in
  let '(c, w2) := closeFn w1 in
  (join_result r (closeError context c), w2).

(** rollbackTransaction, deferred around [m]: sql.ErrTxDone is the expected
    outcome after a commit and is dropped. *)
Definition rollbackTransaction {A} (m : M A) : M A := fun w =>
  let '(r, w1) := m w in
  match Rollback w1 with
  | (Ok _, w2) => (r, w2)
  | (Err ErrTxDone, w2) => (r, w2)
  | (Err e, w2) => (join_result r (Some (ErrWrap "rollback transaction" e)), w2)
  end.

(** A query whose rows are read to the end: the query, rows.Err and the deferred
    rows.Close may each fail. *)
Definition query_rows {R A} (q : querier) (context : string) (f : DB -> list R)
    (scan : list R -> result A) : M A :=
  poll ;; d ← snapshot q;
  closeWithError context poll (a ← lift (scan (f d)); poll ;; mret a).

(** The body of a write method: begin, run with the rollback deferred. *)
Definition in_tx {A} (body : M A) : M A := BeginTx ;; rollbackTransaction body.

(** ** Pure counterparts

    A method is related to a pure function on the database.  Faults may turn any
    outcome into an error; they never change what a successful outcome is. *)

(** A state-passing function of the time and the database. *)
Definition Step (A : Type) : Type := instant -> DB -> result (A * DB).

(** The result of a run without faults. *)
Definition agrees {A} (r : result A) (o : result (A * DB)) : Prop :=
  match o with
  | Ok (a, _) => r = Ok a
  | Err e => r = Err e
  end.

(** A read of the database [d] the querier sees. *)
Definition sees (q : querier) (w : World) : option DB :=
  match q with
  | OnReader => Some (committed w)
  | OnTx => working w
  end.

Definition reads {A} (q : querier) (m : M A) (f : DB -> result A) : Prop :=
  forall w d r w', sees q w = Some d -> m w = (r, w') ->
    committed w' = committed w /\ working w' = working w /\ clock w' = clock w /\
    (is_ok r = true -> r = f d) /\ (script w = [] -> script w' = [] /\ r = f d).

(** A part of a transaction. *)
Definition runs {A} (m : M A) (F : Step A) : Prop :=
  forall w d r w', working w = Some d -> m w = (r, w') ->
    committed w' = committed w /\ clock w' = clock w /\ is_Some (working w') /\
    (forall a, r = Ok a -> exists d', F (clock w) d = Ok (a, d') /\ working w' = Some d') /\
    (script w = [] -> script w' = [] /\ agrees r (F (clock w) d)).

(** A whole method: on success it has done [F]; on an error the database is the
    old one ([atomic]), or at worst the one [F] gives ([implements]). *)
Definition implements {A} (m : M A) (F : Step A) : Prop :=
  forall w r w', working w = None -> m w = (r, w') ->
    working w' = None /\ clock w' = clock w /\
    (forall a, r = Ok a -> F (clock w) (committed w) = Ok (a, committed w')) /\
    (is_ok r = false -> committed w' = committed w \/
       exists a, F (clock w) (committed w) = Ok (a, committed w')) /\
    (script w = [] -> script w' = [] /\ agrees r (F (clock w) (committed w))).

Definition atomic {A} (m : M A) (F : Step A) : Prop :=
  implements m F /\
  forall w r w', working w = None -> m w = (r, w') -> is_ok r = false -> committed w' = committed w.

Definition step_ret {A} (a : A) : Step A := fun _ d => Ok (a, d).
Definition step_bind {A B} (F : Step A) (G : A -> Step B) : Step B := fun t d =>
  match F t d with
  | Ok (a, d') => G a t d'
  | Err e => Err e
  end.
Definition step_read {A} (f : DB -> result A) : Step A := fun _ d =>
  match f d with
  | Ok a => Ok (a, d)
  | Err e => Err e
  end.
Definition step_when (b : bool) (F : Step unit) : Step unit := if b then F else step_ret tt.

Lemma poll_spec w r w' :
  poll w = (r, w') ->
  committed w' = committed w /\ working w' = working w /\ clock w' = clock w /\
  (script w = [] -> script w' = [] /\ r = Ok tt).
Proof.
  unfold poll. destruct (script w) as [|[msg|] rest] eqn:E; intros [= <- <-]; simpl;
    (split_and!; [done..|]); rewrite ?E; done.
Qed.

Lemma reads_ret {A} q (a : A) : reads q (mret a) (fun _ => Ok a).
Proof. by intros w d r w' _ [= <- <-]. Qed.

Lemma reads_lift {A} q (r : result A) : reads q (lift r) (fun _ => r).
Proof. by intros w d r' w' _ [= <- <-]. Qed.

Lemma reads_poll q : reads q poll (fun _ => Ok tt).
Proof.
  intros w d r w' _ Hp. pose proof (poll_spec _ _ _ Hp) as (? & ? & ? & ?).
  split_and!; [done..| |done]. by destruct r as [[]|].
Qed.

Lemma reads_snapshot q : reads q (snapshot q) (fun d => Ok d).
Proof.
  intros w d r w' Hs. unfold snapshot, sees in *. destruct q.
  - rewrite Hs. by intros [= <- <-].
  - injection Hs as <-. by intros [= <- <-].
Qed.

Lemma sees_same q w w' :
  committed w' = committed w -> working w' = working w -> sees q w' = sees q w.
Proof. intros Hc Hw. destruct q; cbn [sees]; congruence. Qed.

Lemma reads_bind {A B} q (m : M A) (k : A -> M B) f g :
  reads q m f -> (forall a, reads q (k a) (g a)) ->
  reads q (m ≫= k) (fun d => a ← f d; g a d).
Proof.
  intros Hm Hk w d r w' Hs H. unfold mbind, M_bind, result_bind in *.
  destruct (m w) as [[a|e] w1] eqn:E.
  - destruct (Hm _ _ _ _ Hs E) as (H1 & H2 & H3 & H4 & H5). rewrite <- (H4 eq_refl).
    rewrite <- (sees_same q w w1) in Hs by done.
    destruct (Hk a _ _ _ _ Hs H) as (H6 & H7 & H8 & H9 & H10).
    split_and!; [congruence..|done|]. intros [Hs1 _]%H5. auto.
  - injection H as <- <-. destruct (Hm _ _ _ _ Hs E) as (H1 & H2 & H3 & H4 & H5).
    split_and!; [done..|]. intros Hq. destruct (H5 Hq) as [? <-]. done.
Qed.

Lemma reads_ext {A} q (m : M A) f g :
  reads q m f -> (forall d, f d = g d) -> reads q m g.
Proof. intros Hm He w d r w' Hs H. rewrite <- He. by apply Hm. Qed.

Lemma reads_close {A} q context (m : M A) f :
  reads q m f -> reads q (closeWithError context poll m) f.
Proof.
  intros Hm w d r w' Hs H. unfold closeWithError in H.
  destruct (m w) as [r1 w1] eqn:E1, (poll w1) as [c w2] eqn:E2. injection H as <- <-.
  destruct (Hm _ _ _ _ Hs E1) as (H1 & H2 & H3 & H4 & H5).
  pose proof (poll_spec _ _ _ E2) as (H6 & H7 & H8 & H9).
  split_and!; [congruence..| |].
  - destruct r1, c; intros H'; try discriminate H'; by apply H4.
  - intros Hq. destruct (H5 Hq) as [Hq1 <-]. destruct (H9 Hq1) as [Hq2 ->].
    split; [done|]. by destruct r1.
Qed.

Lemma reads_query_rows {R A} q context (f : DB -> list R) (scan : list R -> result A) :
  reads q (query_rows q context f scan) (fun d => scan (f d)).
Proof.
  unfold query_rows.
  apply (reads_bind q poll _ (fun _ => Ok tt) (fun _ d => scan (f d))); [apply reads_poll|].
  intros _. apply (reads_bind q (snapshot q) _ (fun d => Ok d) (fun d0 _ => scan (f d0)));
    [apply reads_snapshot|]. intros d0. apply reads_close.
  apply (reads_ext q _ (fun _ => a ← scan (f d0); Ok a)).
  - apply (reads_bind q _ _ (fun _ => scan (f d0)) (fun a _ => Ok a)); [apply reads_lift|].
    intros a. apply (reads_bind q poll _ (fun _ => Ok tt) (fun _ _ => Ok a));
      [apply reads_poll|intros _; apply reads_ret].
  - intros _. by destruct (scan (f d0)).
Qed.

Definition or_no_rows {A} (o : option A) : result A :=
  match o with Some a => Ok a | None => Err ErrNoRows end.

Lemma reads_query_row {A} q (f : DB -> option A) :
  reads q (query_row q f) (fun d => or_no_rows (f d)).
Proof.
  unfold query_row.
  apply (reads_bind q poll _ (fun _ => Ok tt) (fun _ d => or_no_rows (f d))); [apply reads_poll|].
  intros _. apply (reads_bind q (snapshot q) _ (fun d => Ok d) (fun d0 _ => or_no_rows (f d0)));
    [apply reads_snapshot|]. intros d0. apply reads_lift.
Qed.

(** Handling the absence of a row; a fault is never taken for it. *)
Definition on_no_rows {A B} (r : result A) (some : A -> B) (none : result B) : result B :=
  match r with
  | Ok a => Ok (some a)
  | Err ErrNoRows => none
  | Err e => Err e
  end.

#[export] Hint Resolve reads_ret reads_lift reads_poll reads_snapshot reads_bind reads_close
  reads_query_rows reads_query_row : gate.

(** Parts of transactions. *)

Lemma runs_ret {A} (a : A) : runs (mret a) (step_ret a).
Proof. intros w d r w' Hw [= <- <-]. split_and!; try done. intros b [= <-]. by exists d. Qed.

Lemma runs_lift {A} (r : result A) : runs (lift r) (step_read (fun _ => r)).
Proof.
  intros w d r' w' Hw [= <- <-]. unfold step_read. split_and!; try done.
  - intros a ->. by exists d.
  - by destruct r.
Qed.

Lemma runs_time : runs time_Now (fun t d => Ok (t, d)).
Proof. intros w d r w' Hw [= <- <-]. split_and!; try done. intros a [= <-]. by exists d. Qed.

Lemma runs_bind {A B} (m : M A) (k : A -> M B) F G :
  runs m F -> (forall a, runs (k a) (G a)) -> runs (m ≫= k) (step_bind F G).
Proof.
  intros Hm Hk w d r w' Hw H. unfold mbind, M_bind in H. unfold step_bind.
  destruct (m w) as [[a|e] w1] eqn:E; destruct (Hm _ _ _ _ Hw E) as (H1 & H2 & H3 & H4 & H5).
  - destruct (H4 a eq_refl) as (d1 & -> & Hw1).
    destruct (Hk a _ _ _ _ Hw1 H) as (H6 & H7 & H8 & H9 & H10). rewrite <- H2.
    split_and!; [congruence..|done|done|]. intros [Hs1 _]%H5. auto.
  - injection H as <- <-. split_and!; [done..|]. intros Hq. destruct (H5 Hq) as [? Ha].
    split; [done|]. destruct (F (clock w) d) as [[a d']|e']; simpl in *; congruence.
Qed.

Lemma runs_when b (m : M unit) F : runs m F -> runs (when b m) (step_when b F).
Proof. destruct b; [done|]. intros _. apply runs_ret. Qed.

Lemma runs_reads {A} (m : M A) f : reads OnTx m f -> runs m (step_read f).
Proof.
  intros Hm w d r w' Hw H. destruct (Hm w d r w' Hw H) as (H1 & H2 & H3 & H4 & H5).
  unfold step_read. split_and!; [done..|by rewrite H2, Hw; eauto| |].
  - intros a ->. rewrite <- (H4 eq_refl). exists d. by rewrite H2.
  - intros Hq. destruct (H5 Hq) as [? <-]. split; [done|]. by destruct r.
Qed.

Lemma runs_exec {A} (f : DB -> result (A * DB)) : runs (tx_exec f) (fun _ => f).
Proof.
  intros w d r w' Hw H. unfold tx_exec, mbind, M_bind in H.
  destruct (poll w) as [rp w1] eqn:E. pose proof (poll_spec _ _ _ E) as (H1 & H2 & H3 & H4).
  destruct rp as [[]|e].
  - unfold tx_apply in H. rewrite H2, Hw in H. destruct (f d) as [[a d']|e] eqn:Ef;
      injection H as <- <-; simpl;
      (split_and!; [congruence..|by rewrite ?H2, ?Hw; eauto| |]).
    + intros b [= <-]. by exists d'.
    + by intros [? _]%H4.
    + done.
    + by intros [? _]%H4.
  - injection H as <- <-. split_and!; [congruence..|by rewrite H2, Hw; eauto|done|].
    by intros [_ ?]%H4.
Qed.

Lemma runs_ext {A} (m : M A) F G : runs m F -> (forall t d, F t d = G t d) -> runs m G.
Proof. intros Hm He w d r w' Hw H. rewrite <- He. by apply Hm. Qed.

#[export] Hint Resolve runs_ret runs_lift runs_time runs_when runs_reads runs_exec : gate.

(** ** Whole methods *)

(** Rolling back an open transaction after an error leaves the error, or joins
    another to it. *)
Lemma rollback_open {A} (m : M A) e w w1 d1 r w' :
  m w = (Err e, w1) -> working w1 = Some d1 -> rollbackTransaction m w = (r, w') ->
  working w' = None /\ clock w' = clock w1 /\ committed w' = committed w1 /\
  is_ok r = false /\ (script w1 = [] -> script w' = [] /\ r = Err e).
Proof.
  intros Hm Hw H. unfold rollbackTransaction in H. rewrite Hm in H. unfold Rollback in H.
  rewrite Hw in H. destruct (poll w1) as [rq w2] eqn:Eq.
  pose proof (poll_spec _ _ _ Eq) as (Q1 & Q2 & Q3 & Q4).
  assert (exists r0, (r0, set_working None w2) = (r, w') /\ is_ok r0 = false /\
            (rq = Ok tt -> r0 = Err e)) as (r0 & [= <- <-] & Hr0 & Hok).
  { destruct rq as [[]|[]]; rewrite <- H; eexists; (split; [reflexivity|]); done. }
  simpl. split_and!; [done|congruence..|done|]. intros [? ->]%Q4. auto.
Qed.

(** After a commit the deferred rollback finds the transaction done. *)
Lemma rollback_done {A} (m : M A) r1 w w1 r w' :
  m w = (r1, w1) -> working w1 = None -> rollbackTransaction m w = (r, w') -> r = r1 /\ w' = w1.
Proof.
  intros Hm Hw H. unfold rollbackTransaction, Rollback in H. rewrite Hm, Hw in H.
  by injection H as <- <-.
Qed.

Lemma Commit_open w d r w' :
  working w = Some d -> Commit w = (r, w') ->
  working w' = None /\ clock w' = clock w /\
  (r = Ok tt -> committed w' = d) /\ (is_ok r = false -> committed w' = committed w) /\
  (script w = [] -> script w' = [] /\ r = Ok tt).
Proof.
  intros Hw H. unfold Commit in H. rewrite Hw in H. destruct (poll w) as [rq w2] eqn:Eq.
  pose proof (poll_spec _ _ _ Eq) as (Q1 & Q2 & Q3 & Q4).
  destruct rq as [[]|e]; injection H as <- <-; simpl;
    (split_and!; [done|congruence|done|done|]); by intros [? ?]%Q4.
Qed.

(** A transaction body that does its work and commits last, from a begun
    transaction. *)
Lemma tx_body_spec {A B} (work : M A) (f : A -> B) F w d r w' :
  runs work F -> working w = Some d -> d = committed w ->
  rollbackTransaction (a ← work; Commit ;; mret (f a)) w = (r, w') ->
  working w' = None /\ clock w' = clock w /\
  (forall b, r = Ok b -> exists a, b = f a /\ F (clock w) d = Ok (a, committed w')) /\
  (is_ok r = false -> committed w' = committed w) /\
  (script w = [] -> script w' = [] /\
     match F (clock w) d with Ok (a, _) => r = Ok (f a) | Err e => r = Err e end).
Proof.
  intros Hruns Hw -> H. destruct (work w) as [ra w1] eqn:Ew.
  destruct (Hruns w _ ra w1 Hw Ew) as (W1 & W2 & [d1 W3] & W4 & W5). destruct ra as [a|e].
  - destruct (W4 a eq_refl) as (d & HF & Hd). rewrite W3 in Hd. injection Hd as ->. rewrite HF.
    destruct (Commit w1) as [rc w2] eqn:Ec.
    destruct (Commit_open _ _ _ _ W3 Ec) as (C1 & C2 & C3 & C4 & C5).
    assert ((a ← work; Commit ;; mret (f a)) w = (_ ← rc; Ok (f a), w2)) as Hbody.
    { unfold mbind at 1, M_bind. rewrite Ew. unfold mbind at 1, M_bind. rewrite Ec. by destruct rc as [[]|]. }
    destruct (rollback_done _ _ _ _ _ _ Hbody C1 H) as [-> ->]. destruct rc as [[]|e]; simpl.
    + split_and!; [done|congruence| |done|].
      * intros b [= <-]. exists a. rewrite C3 by done. done.
      * intros [Hs _]%W5. by destruct (C5 Hs).
    + split_and!; [done|congruence|done|rewrite C4; done|].
      intros [Hs _]%W5. by destruct (C5 Hs).
  - assert ((a ← work; Commit ;; mret (f a)) w = (Err e, w1)) as Hbody
      by (unfold mbind at 1, M_bind; by rewrite Ew).
    destruct (rollback_open _ _ _ _ _ _ _ Hbody W3 H) as (R1 & R2 & R3 & R4 & R5).
    split_and!; [done|congruence|by intros b ->|congruence|].
    intros [Hs Ha]%W5. destruct (R5 Hs) as [? ->]. split; [done|].
    destruct (F (clock w) (committed w)) as [[]|]; simpl in Ha; congruence.
Qed.

(** A transaction that does its work and commits last. *)
Lemma in_tx_spec {A B} (work : M A) (f : A -> B) F :
  runs work F ->
  atomic (in_tx (a ← work; Commit ;; mret (f a)))
    (step_bind F (fun a => step_ret (f a))).
Proof.
  intros Hruns.
  assert (forall w r w', working w = None -> in_tx (a ← work; Commit ;; mret (f a)) w = (r, w') ->
    working w' = None /\ clock w' = clock w /\
    (forall b, r = Ok b -> exists a, b = f a /\ F (clock w) (committed w) = Ok (a, committed w')) /\
    (is_ok r = false -> committed w' = committed w) /\
    (script w = [] -> script w' = [] /\
       match F (clock w) (committed w) with Ok (a, _) => r = Ok (f a) | Err e => r = Err e end))
    as Htx.
  { intros w r w' Hw H. unfold in_tx, BeginTx in H. unfold mbind, M_bind, lift_state in H.
    destruct (poll w) as [rp w0] eqn:Ep. pose proof (poll_spec _ _ _ Ep) as (P1 & P2 & P3 & P4).
    destruct rp as [[]|e].
    - apply (tx_body_spec work f F _ (committed w0)) in H as (T1 & T2 & T3 & T4 & T5); [|done..].
      simpl in *. rewrite P3, P1 in *. split_and!; [done..|]. intros [? _]%P4. auto.
    - injection H as <- <-. split_and!; [congruence|done|done|done|]. by intros [_ ?]%P4. }
  split; intros w r w' Hw H; destruct (Htx w r w' Hw H) as (H1 & H2 & H3 & H4 & H5); [|done].
  unfold step_bind, step_ret. split_and!; [done..| |auto|].
  - intros b Hb. by destruct (H3 b Hb) as (a & -> & ->).
  - intros Hq. destruct (H5 Hq) as [? Ha]. split; [done|].
    by destruct (F (clock w) (committed w)) as [[]|].
Qed.

(** A method that only reads. *)
Lemma implements_reads {A} (m : M A) f : reads OnReader m f -> atomic m (step_read f).
Proof.
  intros Hm. split; intros w r w' Hw H;
    destruct (Hm w (committed w) r w' eq_refl H) as (H1 & H2 & H3 & H4 & H5); [|by intros _].
  unfold step_read. split_and!; [congruence|done| |by left|].
  - intros a ->. by rewrite <- (H4 eq_refl), H1.
  - intros Hq. destruct (H5 Hq) as [? <-]. split; [done|]. by destruct r.
Qed.

(** A check before the transaction. *)
Lemma atomic_throw {A} e : atomic (throw (A:=A) e) (fun _ _ => Err e).
Proof. split; intros w r w' Hw [= <- <-]; [|done]. split_and!; try done. by left. Qed.

Lemma atomic_lift_bind {A B} (x : result A) (k : A -> M B) (F : A -> Step B) :
  (forall a, x = Ok a -> atomic (k a) (F a)) ->
  atomic (a ← lift x; k a) (fun t d => match x with Ok a => F a t d | Err e => Err e end).
Proof. destruct x as [a|e]; [by intros H; apply H|]. intros _. apply atomic_throw. Qed.

(** A statement committed at once, and the handling of its result, which may
    fail after the fact. *)
Lemma implements_exec {A B} (f : DB -> result (A * DB)) (k : A -> result B) :
  (forall d a d', f d = Ok (a, d') -> is_ok (k a) = false -> d' = d) ->
  implements (a ← db_exec f; poll ;; lift (k a))
    (step_bind (fun _ => f) (fun a => step_read (fun _ => k a))).
Proof.
  intros Hk w r w' Hw H. unfold db_exec, mbind, M_bind in H. unfold step_bind, step_read.
  destruct (poll w) as [rp w1] eqn:E. pose proof (poll_spec _ _ _ E) as (H1 & H2 & H3 & H4).
  destruct rp as [[]|e].
  2:{ injection H as <- <-. split_and!; [congruence..|done|by left|]. by intros [_ ?]%H4. }
  unfold auto_apply in H. rewrite H1 in H. destruct (f (committed w)) as [[a d']|e] eqn:Ef.
  2:{ injection H as <- <-. split_and!; [congruence..|done|by left|]. by intros [? _]%H4. }
  destruct (poll (set_committed d' w1)) as [rq w2] eqn:E2.
  pose proof (poll_spec _ _ _ E2) as (Q1 & Q2 & Q3 & Q4). simpl in *.
  assert (committed w2 = committed w \/ exists b, k a = Ok b) as Hc.
  { specialize (Hk _ _ _ Ef). destruct (k a); [by right; eexists|left]. rewrite Q1. by apply Hk. }
  destruct rq as [[]|e]; [unfold lift in H|]; injection H as <- <-.
  - split_and!; [congruence..| | |].
    + intros b ->. by rewrite Q1.
    + destruct Hc as [?|[b ->]]; [by left|done].
    + intros [Hq _]%H4. split; [by apply Q4|]. by destruct (k a).
  - split_and!; [congruence..|done| |].
    + destruct Hc as [?|[b ->]]; [by left|right]. exists b. by rewrite Q1.
    + intros [Hq _]%H4. by destruct (Q4 Hq).
Qed.

(** A statement committed at once whose outcome is returned as it is. *)
Lemma atomic_exec {A} (f : DB -> result (A * DB)) : atomic (db_exec f) (fun _ => f).
Proof.
  assert (forall w r w', working w = None -> db_exec f w = (r, w') ->
    working w' = None /\ clock w' = clock w /\
    (forall a, r = Ok a -> f (committed w) = Ok (a, committed w')) /\
    (is_ok r = false -> committed w' = committed w) /\
    (script w = [] -> script w' = [] /\ agrees r (f (committed w)))) as He.
  { intros w r w' Hw H. unfold db_exec, mbind, M_bind in H.
    destruct (poll w) as [rp w1] eqn:E. pose proof (poll_spec _ _ _ E) as (H1 & H2 & H3 & H4).
    destruct rp as [[]|e].
    2:{ injection H as <- <-. split_and!; [congruence..|done|done|]. by intros [_ ?]%H4. }
    unfold auto_apply in H. rewrite H1 in H. destruct (f (committed w)) as [[a d']|e] eqn:Ef;
      injection H as <- <-; simpl; (split_and!; [congruence..| |done|by intros [? _]%H4]);
      [by intros b [= <-]|done]. }
  split; intros w r w' Hw H; destruct (He w r w' Hw H) as (H1 & H2 & H3 & H4 & H5); [|done].
  split_and!; auto.
Qed.

(** ** Transactions whose body goes on after the commit

    [tx_outcome F w d r w']: from a transaction open on [d], the body has ended
    with [r], either with an error and the transaction still open, or with the
    transaction over. *)
Definition tx_outcome {A} (F : Step A) (w : World) (d : DB) (r : result A) (w' : World) : Prop :=
  clock w' = clock w /\
  ((is_ok r = false /\ is_Some (working w') /\ committed w' = committed w) \/
   (working w' = None /\ (forall a, r = Ok a -> F (clock w) d = Ok (a, committed w')) /\
    (is_ok r = false -> committed w' = committed w \/
       exists a, F (clock w) d = Ok (a, committed w')))) /\
  (script w = [] -> script w' = [] /\ agrees r (F (clock w) d)).

Lemma tx_outcome_commit {A} (work : M A) F w d r w' :
  runs work F -> working w = Some d -> (a ← work; Commit ;; mret a) w = (r, w') ->
  tx_outcome F w d r w'.
Proof.
  intros Hruns Hw H. unfold mbind at 1, M_bind in H. destruct (work w) as [ra w1] eqn:E1.
  destruct (Hruns w d ra w1 Hw E1) as (W1 & W2 & [d1 W3] & W4 & W5). destruct ra as [a|e].
  - destruct (W4 a eq_refl) as (d' & HF & Hd). rewrite W3 in Hd. injection Hd as ->.
    unfold mbind at 1, M_bind in H. destruct (Commit w1) as [rk w2] eqn:E2.
    destruct (Commit_open _ _ _ _ W3 E2) as (K1 & K2 & K3 & K4 & K5).
    destruct rk as [[]|e]; injection H as <- <-; unfold tx_outcome; rewrite HF.
    + specialize (K3 eq_refl). split_and!; [congruence| |intros [Hs _]%W5; by destruct (K5 Hs)].
      right. split_and!; [done|intros b [= <-]; congruence|done].
    + specialize (K4 eq_refl). split_and!; [congruence| |intros [Hs _]%W5; by destruct (K5 Hs)].
      right. split_and!; [done|done|left; congruence].
  - injection H as <- <-. split_and!; [done| |done]. left. split_and!; [done|by rewrite W3; eauto|done].
Qed.

Lemma tx_outcome_close {A} (F : Step A) context w d r1 w1 c w2 :
  tx_outcome F w d r1 w1 -> poll w1 = (c, w2) ->
  tx_outcome F w d (join_result r1 (closeError context c)) w2.
Proof.
  intros (Ht & Hcases & Hq) Hp. pose proof (poll_spec _ _ _ Hp) as (C1 & C2 & C3 & C4).
  split_and!; [congruence| |].
  - destruct Hcases as [(Hr & Hw & Hc)|(Hw & Hok & Herr)].
    + left. split_and!; [by destruct r1, c|by rewrite C2|congruence].
    + right. split_and!; [congruence| |].
      * intros a Ha. rewrite C1. apply Hok. destruct r1, c; simpl in Ha; congruence.
      * intros He. rewrite C1. destruct r1 as [a|]; [right; exists a; by apply Hok|by apply Herr].
  - intros [Hs Ha]%Hq. destruct (C4 Hs) as [? ->]. split; [done|]. by destruct r1.
Qed.

(** The deferred rollback closes the transaction. *)
Lemma tx_outcome_rollback {A} (body : M A) F w r1 w1 r w' :
  body w = (r1, w1) -> tx_outcome F w (committed w) r1 w1 -> rollbackTransaction body w = (r, w') ->
  working w' = None /\ clock w' = clock w /\
  (forall a, r = Ok a -> F (clock w) (committed w) = Ok (a, committed w')) /\
  (is_ok r = false -> committed w' = committed w \/
     exists a, F (clock w) (committed w) = Ok (a, committed w')) /\
  (script w = [] -> script w' = [] /\ agrees r (F (clock w) (committed w))).
Proof.
  intros Hb (Ht & Hcases & Hq) H. destruct Hcases as [(Hr & [d1 Hw] & Hc)|(Hw & Hok & Herr)].
  - destruct r1 as [|e]; [done|].
    destruct (rollback_open body e w w1 d1 r w' Hb Hw H) as (R1 & R2 & R3 & R4 & R5).
    split_and!; [done|congruence|by intros a ->|left; congruence|].
    intros [Hs Ha]%Hq. by destruct (R5 Hs) as [? ->].
  - by destruct (rollback_done body r1 w w1 r w' Hb Hw H) as [-> ->].
Qed.

(** A transaction that runs a prepared statement: the statement is closed after
    the commit, so an error may be reported for a committed transaction. *)
Lemma in_tx_stmt_spec {A} context (work : M A) F :
  runs work F ->
  implements (in_tx (poll ;; closeWithError context poll (a ← work; Commit ;; mret a))) F.
Proof.
  intros Hruns w r w' Hw H. unfold in_tx, BeginTx in H.
  set (body := poll ;; closeWithError context poll (a ← work; Commit ;; mret a)) in H.
  unfold mbind, M_bind, lift_state in H.
  destruct (poll w) as [rp w0] eqn:Ep. pose proof (poll_spec _ _ _ Ep) as (P1 & P2 & P3 & P4).
  destruct rp as [[]|e].
  2:{ injection H as <- <-. split_and!; [congruence|done|done|by left|]. by intros [_ ?]%P4. }
  set (wb := set_working (Some (committed w0)) w0) in *.
  assert (exists r1 w1, body wb = (r1, w1) /\ tx_outcome F wb (committed wb) r1 w1)
    as (r1 & w1 & Eb & Ho).
  { unfold body, mbind at 1, M_bind. destruct (poll wb) as [rq w2] eqn:Eq.
    pose proof (poll_spec _ _ _ Eq) as (Q1 & Q2 & Q3 & Q4). destruct rq as [[]|e].
    - unfold closeWithError. destruct ((a ← work; Commit ;; mret a) w2) as [r3 w3] eqn:E3.
      destruct (poll w3) as [rc w4] eqn:E4. eexists _, _. split; [done|].
      apply (tx_outcome_commit work F w2 (committed wb)) in E3; [|done|done].
      pose proof (tx_outcome_close F context _ _ _ _ _ _ E3 E4) as (O1 & O2 & O3).
      rewrite Q1, Q3 in *. split_and!; [done..|]. intros [Hs _]%Q4. auto.
    - eexists _, _. split; [done|]. split_and!; [done| |by intros [_ ?]%Q4].
      left. split_and!; [done|by rewrite Q2; eauto|done]. }
  destruct (tx_outcome_rollback body F wb r1 w1 r w' Eb Ho H) as (R1 & R2 & R3 & R4 & R5).
  change (clock wb) with (clock w0) in *. change (committed wb) with (committed w0) in *.
  rewrite P1, P3 in *. split_and!; [done..|]. intros [Hs _]%P4. by apply R5.
Qed.
