(* ===== verification/Tables.v ===== *)
(** The SQL statements of package store, as functions on the tables, and the
    facts about them the methods' theorems use.  Each definition is one
    statement of the source (its text is quoted in the comment); a statement
    that violates a constraint reports an error and changes nothing. *)

From S2P Require Import Prelude GoStrings GoTime Database.
From Stdlib Require Import Ascii String.
From stdpp Require Import strings gmap sorting.
#[local] Open Scope stdpp_scope.
#[local] Open Scope Z_scope.

(** ** Ordered reads *)

(** A row of fingerprint_sightings for one fingerprint: ip, port, last_seen. *)
Definition srow : Type := string * Z * string.

(** ORDER BY last_seen DESC, ip, port *)
Definition sg_lt (a b : srow) : Prop :=
  str_lt b.2 a.2 \/
  (a.2 = b.2 /\ (str_lt a.1.1 b.1.1 \/ (a.1.1 = b.1.1 /\ a.1.2 < b.1.2))).

#[export] Instance sg_lt_dec : RelDecision sg_lt.
Proof. intros a b. unfold sg_lt. apply _. Defined.

#[export] Instance sg_lt_total : StrictTotal sg_lt.
Proof.
  split; [split|].
  - intros [[i p] t]. unfold complement, sg_lt; simpl.
    intros [H|[_ [H|[_ H]]]]; [by apply str_lt_irrefl in H..|lia].
  - intros [[i1 p1] t1] [[i2 p2] t2] [[i3 p3] t3]. unfold sg_lt; simpl.
    intros [H1|[-> H1]] [H2|[-> H2]]; [left; by eapply str_lt_trans|by left..|].
    right. split; [done|]. destruct H1 as [H1|[-> H1]], H2 as [H2|[-> H2]];
      [left; by eapply str_lt_trans|by left..|right; split; [done|lia]].
  - intros [[i1 p1] t1] [[i2 p2] t2]. unfold sg_lt; simpl.
    destruct (strict_total_tri (lt := str_lt) t1 t2) as [?|[->|?]]; [auto| |auto].
    destruct (strict_total_tri (lt := str_lt) i1 i2) as [?|[->|?]]; [auto| |auto 6].
    destruct (Z.lt_total p1 p2) as [?|[->|?]]; auto 7.
Qed.

(** SELECT ip FROM fingerprint_ips WHERE fp = ? ORDER BY ip *)
Definition ips_of (fp : string) (d : DB) : list string :=
  sort_by str_lt (snd <$> filter (fun x => x.1 = fp) (elements (db_ips d))).

(** SELECT port FROM fingerprint_ports WHERE fp = ? ORDER BY port *)
Definition ports_of (fp : string) (d : DB) : list Z :=
  sort_by Z.lt (snd <$> filter (fun x => x.1 = fp) (elements (db_ports d))).

(** SELECT ip, port, last_seen FROM fingerprint_sightings WHERE fp = ?
    ORDER BY last_seen DESC, ip, port *)
Definition sightings_of (fp : string) (d : DB) : list srow :=
  sort_by sg_lt (omap (fun '((f, ip, port), ls) => if decide (f = fp) then Some (ip, port, ls) else None)
    (map_to_list (db_sightings d))).

(** SELECT fp FROM fingerprints ORDER BY fp *)
Definition fps_sorted (d : DB) : list string :=
  sort_by str_lt (map fst (map_to_list (db_fps d))).

Lemma NoDup_snd_filter {A} (fp : string) (l : list (string * A)) :
  NoDup l -> NoDup (snd <$> filter (fun x => x.1 = fp) l).
Proof.
  intros Hnd. apply NoDup_fmap_2_strong; [|by apply NoDup_filter].
  intros [f1 x1] [f2 x2] [H1 _]%list_elem_of_filter [H2 _]%list_elem_of_filter; simpl in *.
  congruence.
Qed.

Lemma ips_of_sorted fp d : StronglySorted str_lt (ips_of fp d).
Proof. apply sort_by_sorted; [apply _|]. apply NoDup_snd_filter, NoDup_elements. Qed.

Lemma elem_of_ips_of fp d ip : ip ∈ ips_of fp d <-> (fp, ip) ∈ db_ips d.
Proof.
  unfold ips_of. rewrite elem_of_sort_by, list_elem_of_fmap. split.
  - intros ([f i] & -> & [Hf Hin]%list_elem_of_filter). simpl in *. subst f.
    by apply elem_of_elements.
  - intros Hin. exists (fp, ip). split; [done|]. apply list_elem_of_filter.
    split; [done|]. by apply elem_of_elements.
Qed.

Lemma ports_of_sorted fp d : StronglySorted Z.lt (ports_of fp d).
Proof. apply sort_by_sorted; [apply _|]. apply NoDup_snd_filter, NoDup_elements. Qed.

Lemma elem_of_ports_of fp d port : port ∈ ports_of fp d <-> (fp, port) ∈ db_ports d.
Proof.
  unfold ports_of. rewrite elem_of_sort_by, list_elem_of_fmap. split.
  - intros ([f i] & -> & [Hf Hin]%list_elem_of_filter). simpl in *. subst f.
    by apply elem_of_elements.
  - intros Hin. exists (fp, port). split; [done|]. apply list_elem_of_filter.
    split; [done|]. by apply elem_of_elements.
Qed.

Lemma elem_of_sightings_of fp d ip port ls :
  (ip, port, ls) ∈ sightings_of fp d <-> db_sightings d !! (fp, ip, port) = Some ls.
Proof.
  unfold sightings_of. rewrite elem_of_sort_by, list_elem_of_omap.
  rewrite <- elem_of_map_to_list. split.
  - intros ([[[f i] p] t] & Hin & Heq). case_decide; [|done]. by simplify_eq.
  - intros Hin. exists ((fp, ip, port), ls). split; [done|]. by rewrite decide_True.
Qed.

Lemma sightings_of_sorted fp d : StronglySorted sg_lt (sightings_of fp d).
Proof.
  apply sort_by_sorted; [apply _|]. pose proof (NoDup_map_to_list (db_sightings d)) as Hnd.
  induction Hnd as [|[[[f i] p] t] l Hni Hnd IH]; [constructor|]. simpl.
  case_decide as Hf; [|done]. constructor; [|done]. subst f.
  intros ([[[f i'] p'] t'] & Hin & Heq)%list_elem_of_omap. case_decide; [|done]. by simplify_eq.
Qed.

Lemma fps_sorted_sorted d : StronglySorted str_lt (fps_sorted d).
Proof. apply sort_by_sorted; [apply _|]. apply NoDup_fst_map_to_list. Qed.

Lemma elem_of_fps_sorted d fp : fp ∈ fps_sorted d <-> is_Some (db_fps d !! fp).
Proof.
  unfold fps_sorted. rewrite elem_of_sort_by, list_elem_of_fmap. split.
  - intros ([f r] & -> & Hin). exists r. by apply elem_of_map_to_list.
  - intros [r Hr]. exists (fp, r). split; [done|]. by apply elem_of_map_to_list.
Qed.

(** ** Inserting and updating rows *)

Definition new_row (d : DB) (status label now : string) (count : Z) (meta : string)
    (ranges : option string) : FpRow :=
  {| fr_status := status; fr_label := label; fr_first_seen := now; fr_last_seen := now;
     fr_count := count; fr_meta := meta; fr_approval_ranges := ranges;
     fr_legacy := db_defaults d |}.

(** INSERT INTO fingerprints (fp, status, label, first_seen, last_seen, count, meta)
    VALUES (?, ?, '', ?, ?, 1, ?) ON CONFLICT(fp) DO UPDATE SET last_seen = excluded.last_seen,
    count = fingerprints.count + 1, meta = excluded.meta RETURNING ... *)
Definition observed_row (d : DB) (old : option FpRow) (status now meta : string) : FpRow :=
  match old with
  | None => new_row d status "" now 1 meta None
  | Some r =>
      {| fr_status := fr_status r; fr_label := fr_label r; fr_first_seen := fr_first_seen r;
         fr_last_seen := now; fr_count := fr_count r + 1; fr_meta := meta;
         fr_approval_ranges := fr_approval_ranges r; fr_legacy := fr_legacy r |}
  end.

Definition sql_upsert_observed (fp status now meta : string) (d : DB) : result (FpRow * DB) :=
  let r := observed_row d (db_fps d !! fp) status now meta in
  Ok (r, set_fps <[fp := r]> d).

Definition err_foreign_key : GoError := ErrDriver "FOREIGN KEY constraint failed".

(** INSERT OR IGNORE INTO fingerprint_ips (fp, ip) VALUES (?, ?) *)
Definition sql_insert_ip (fp ip : string) (d : DB) : result (unit * DB) :=
  match db_fps d !! fp with
  | None => Err err_foreign_key
  | Some _ => Ok (tt, set_ips (union {[(fp, ip)]}) d)
  end.

(** INSERT OR IGNORE INTO fingerprint_ports (fp, port) VALUES (?, ?) *)
Definition sql_insert_port (fp : string) (port : Z) (d : DB) : result (unit * DB) :=
  match db_fps d !! fp with
  | None => Err err_foreign_key
  | Some _ => Ok (tt, set_ports (union {[(fp, port)]}) d)
  end.

(** INSERT INTO fingerprint_sightings (fp, ip, port, last_seen) VALUES (?, ?, ?, ?)
    ON CONFLICT(fp, ip, port) DO UPDATE SET last_seen = excluded.last_seen *)
Definition sql_upsert_sighting (fp ip : string) (port : Z) (now : string) (d : DB)
    : result (unit * DB) :=
  match db_fps d !! fp with
  | None => Err err_foreign_key
  | Some _ => Ok (tt, set_sightings <[(fp, ip, port) := now]> d)
  end.

(** UPDATE fingerprints SET status = ?, approval_ranges = NULL
    WHERE fp = ? AND (approval_ranges IS NULL OR ? != 'approved') *)
Definition with_verdict (status : string) (ranges : option string) (r : FpRow) : FpRow :=
  {| fr_status := status; fr_label := fr_label r; fr_first_seen := fr_first_seen r;
     fr_last_seen := fr_last_seen r; fr_count := fr_count r; fr_meta := fr_meta r;
     fr_approval_ranges := ranges; fr_legacy := fr_legacy r |}.

Definition with_label (label : string) (r : FpRow) : FpRow :=
  {| fr_status := fr_status r; fr_label := label; fr_first_seen := fr_first_seen r;
     fr_last_seen := fr_last_seen r; fr_count := fr_count r; fr_meta := fr_meta r;
     fr_approval_ranges := fr_approval_ranges r; fr_legacy := fr_legacy r |}.

Definition with_meta (meta : string) (r : FpRow) : FpRow :=
  {| fr_status := fr_status r; fr_label := fr_label r; fr_first_seen := fr_first_seen r;
     fr_last_seen := fr_last_seen r; fr_count := fr_count r; fr_meta := meta;
     fr_approval_ranges := fr_approval_ranges r; fr_legacy := fr_legacy r |}.

(** [approval_ranges IS NULL OR status != 'approved'] *)
Definition may_overwrite (r : FpRow) (status : string) : bool :=
  bool_decide (fr_approval_ranges r = None) || negb (bool_decide (status = "approved")).

Definition sql_set_status (fp status : string) (d : DB) : result (Z * DB) :=
  match db_fps d !! fp with
  | Some r => if may_overwrite r status
              then Ok (1, set_fps <[fp := with_verdict status None r]> d)
              else Ok (0, d)
  | None => Ok (0, d)
  end.

(** INSERT INTO fingerprints (...) VALUES (?, ?, ?, ?, ?, 0, '{}') ON CONFLICT(fp) DO UPDATE
    SET status = excluded.status, label = excluded.label, approval_ranges = NULL
    WHERE fingerprints.approval_ranges IS NULL OR excluded.status != 'approved' *)
Definition sql_upsert_status (fp status label now : string) (d : DB) : result (Z * DB) :=
  match db_fps d !! fp with
  | None => Ok (1, set_fps <[fp := new_row d status label now 0 "{}" None]> d)
  | Some r => if may_overwrite r status
              then Ok (1, set_fps <[fp := with_label label (with_verdict status None r)]> d)
              else Ok (0, d)
  end.

(** UPDATE fingerprints SET label = ? WHERE fp = ? *)
Definition sql_set_label (fp label : string) (d : DB) : result (Z * DB) :=
  match db_fps d !! fp with
  | Some r => Ok (1, set_fps <[fp := with_label label r]> d)
  | None => Ok (0, d)
  end.

(** INSERT INTO fingerprints (..., approval_ranges) VALUES (?,?,?,?,?,0,'{}',?) ON CONFLICT(fp)
    DO UPDATE SET status=excluded.status, label=excluded.label,
    approval_ranges=excluded.approval_ranges *)
Definition decided_row (d : DB) (old : option FpRow) (status label now : string)
    (ranges : option string) : FpRow :=
  match old with
  | None => new_row d status label now 0 "{}" ranges
  | Some r => with_label label (with_verdict status ranges r)
  end.

Definition sql_upsert_decision (fp status label now : string) (ranges : option string) (d : DB)
    : result (unit * DB) :=
  Ok (tt, set_fps <[fp := decided_row d (db_fps d !! fp) status label now ranges]> d).

(** ** Deleting rows; the foreign keys cascade *)

(** A history row goes when its fingerprint is a row that is deleted. *)
Definition survives (victims : list string) (d : DB) (fp : string) : Prop :=
  fp ∉ victims \/ db_fps d !! fp = None.

#[export] Instance survives_dec victims d fp : Decision (survives victims d fp).
Proof.
  unfold survives. destruct (decide (fp ∉ victims)); [by left; left|].
  destruct (db_fps d !! fp) eqn:?; [by right; intros [?|?]|by left; right].
Defined.

Definition delete_fps (victims : list string) (d : DB) : DB :=
  {| db_columns := db_columns d; db_defaults := db_defaults d;
     db_fps := filter (fun kv => kv.1 ∉ victims) (db_fps d);
     db_ips := filter (fun x => survives victims d x.1) (db_ips d);
     db_ports := filter (fun x => survives victims d x.1) (db_ports d);
     db_sightings := filter (fun kv => survives victims d kv.1.1.1) (db_sightings d);
     db_alerts := db_alerts d; db_meta := db_meta d |}.

(** DELETE FROM fingerprints WHERE fp IN (victims), with RowsAffected *)
Definition sql_delete_fps (victims : list string) (d : DB) : result (Z * DB) :=
  let d' := delete_fps victims d in
  Ok (Z.of_nat (size (db_fps d)) - Z.of_nat (size (db_fps d')), d').

(** ** Trimming one fingerprint's history: LIMIT -1 OFFSET n *)

(** DELETE FROM fingerprint_sightings WHERE fp = ? AND (ip, port) IN (SELECT ip, port FROM
    fingerprint_sightings WHERE fp = ? ORDER BY last_seen DESC, ip, port LIMIT -1 OFFSET ?) *)
Definition sql_trim_sightings (fp : string) (n : nat) (d : DB) : result (unit * DB) :=
  let excess := fst <$> drop n (sightings_of fp d) in
  Ok (tt, set_sightings (filter (fun kv => ~ (kv.1.1.1 = fp /\ (kv.1.1.2, kv.1.2) ∈ excess))) d).

(** DELETE FROM fingerprint_ips WHERE fp = ? AND ip IN (... ORDER BY ip LIMIT -1 OFFSET ?) *)
Definition sql_trim_ips (fp : string) (n : nat) (d : DB) : result (unit * DB) :=
  let excess := drop n (ips_of fp d) in
  Ok (tt, set_ips (filter (fun x => ~ (x.1 = fp /\ x.2 ∈ excess))) d).

(** DELETE FROM fingerprint_ports WHERE fp = ? AND port IN (... ORDER BY port LIMIT -1 OFFSET ?) *)
Definition sql_trim_ports (fp : string) (n : nat) (d : DB) : result (unit * DB) :=
  let excess := drop n (ports_of fp d) in
  Ok (tt, set_ports (filter (fun x => ~ (x.1 = fp /\ x.2 ∈ excess))) d).

(** ** Bounding every fingerprint's history: ROW_NUMBER() OVER (PARTITION BY fp ...) > n *)

Definition sql_bound_sightings (n : nat) (d : DB) : result (unit * DB) :=
  Ok (tt, set_sightings (filter (fun kv =>
    (kv.1.1.2, kv.1.2) ∉ (fst <$> drop n (sightings_of kv.1.1.1 d)))) d).
Definition sql_bound_ips (n : nat) (d : DB) : result (unit * DB) :=
  Ok (tt, set_ips (filter (fun x => x.2 ∉ drop n (ips_of x.1 d))) d).
Definition sql_bound_ports (n : nat) (d : DB) : result (unit * DB) :=
  Ok (tt, set_ports (filter (fun x => x.2 ∉ drop n (ports_of x.1 d))) d).

(** UPDATE fingerprints SET meta = '{}' WHERE length(CAST(meta AS BLOB)) > ? *)
Definition sql_drop_oversized_meta (n : Z) (d : DB) : result (unit * DB) :=
  Ok (tt, set_fps (fmap (fun r => if n <? str_len (fr_meta r) then with_meta "{}" r else r)) d).

(** ** The tables meta and blocked_range_alerts *)

(** INSERT INTO meta (key, value) VALUES (?, ?) ON CONFLICT(key) DO UPDATE SET
    value = excluded.value *)
Definition sql_set_meta (key value : string) (d : DB) : result (unit * DB) :=
  Ok (tt, set_meta <[key := value]> d).

(** DELETE FROM meta WHERE key GLOB 'gatehub_cursor:*' *)
Definition is_cursor_key (key : string) : bool := String.prefix "gatehub_cursor:" key.

Definition sql_delete_cursors (d : DB) : result (unit * DB) :=
  Ok (tt, set_meta (filter (fun kv => is_cursor_key kv.1 = false)) d).

(** INSERT OR IGNORE INTO blocked_range_alerts (range_name, ip, fp, first_seen)
    VALUES (?, ?, ?, ?) *)
Definition sql_insert_alert (range ip fp now : string) (d : DB) : result (Z * DB) :=
  match db_alerts d !! (range, ip) with
  | Some _ => Ok (0, d)
  | None => Ok (1, set_alerts <[(range, ip) := (fp, now)]> d)
  end.

(** DELETE FROM blocked_range_alerts WHERE range_name = ? AND ip = ? *)
Definition sql_delete_alert (range ip : string) (d : DB) : result (unit * DB) :=
  Ok (tt, set_alerts (delete (range, ip)) d).

(** ** What the statements do to the ordered reads *)

(** An ordered read is determined by its rows. *)
Lemma ips_of_unique fp d l :
  StronglySorted str_lt l -> (forall ip, ip ∈ l <-> (fp, ip) ∈ db_ips d) -> ips_of fp d = l.
Proof.
  intros Hs Hl. apply (ssorted_ext str_lt); [apply ips_of_sorted|done|].
  intros ip. by rewrite elem_of_ips_of, Hl.
Qed.

Lemma ports_of_unique fp d l :
  StronglySorted Z.lt l -> (forall p, p ∈ l <-> (fp, p) ∈ db_ports d) -> ports_of fp d = l.
Proof.
  intros Hs Hl. apply (ssorted_ext Z.lt); [apply ports_of_sorted|done|].
  intros p. by rewrite elem_of_ports_of, Hl.
Qed.

Lemma sightings_of_unique fp d l :
  StronglySorted sg_lt l ->
  (forall ip port ls, (ip, port, ls) ∈ l <-> db_sightings d !! (fp, ip, port) = Some ls) ->
  sightings_of fp d = l.
Proof.
  intros Hs Hl. apply (ssorted_ext sg_lt); [apply sightings_of_sorted|done|].
  intros [[ip port] ls]. by rewrite elem_of_sightings_of, Hl.
Qed.

(** Reads only look at their own table, and only at the rows of their
    fingerprint. *)
Lemma ips_of_ext fp d d' :
  (forall ip, (fp, ip) ∈ db_ips d <-> (fp, ip) ∈ db_ips d') -> ips_of fp d = ips_of fp d'.
Proof.
  intros H. apply ips_of_unique; [apply ips_of_sorted|]. intros ip. by rewrite elem_of_ips_of, H.
Qed.

Lemma ports_of_ext fp d d' :
  (forall p, (fp, p) ∈ db_ports d <-> (fp, p) ∈ db_ports d') -> ports_of fp d = ports_of fp d'.
Proof.
  intros H. apply ports_of_unique; [apply ports_of_sorted|]. intros p. by rewrite elem_of_ports_of, H.
Qed.

Lemma sightings_of_ext fp d d' :
  (forall ip port, db_sightings d !! (fp, ip, port) = db_sightings d' !! (fp, ip, port)) ->
  sightings_of fp d = sightings_of fp d'.
Proof.
  intros H. apply sightings_of_unique; [apply sightings_of_sorted|].
  intros ip port ls. by rewrite elem_of_sightings_of, H.
Qed.

(** What remains of a sorted list when the rows past the first [n] go. *)
Lemma sorted_not_dropped {A} (R : A -> A -> Prop) `{!StrictOrder R} (n : nat) (l : list A) x :
  StronglySorted R l -> x ∈ take n l <-> x ∈ l /\ x ∉ drop n l.
Proof.
  intros Hs. split.
  - intros Hx. split; [apply (elem_of_take_drop n); auto|].
    intros Hd. by apply (NoDup_take_drop n l x (ssorted_NoDup R l Hs)).
  - intros [Hx Hd]. apply (elem_of_take_drop n) in Hx. tauto.
Qed.

Lemma ips_of_filter (P : string * string -> Prop) `{!forall x, Decision (P x)} n fp d :
  (forall ip, P (fp, ip) <-> ip ∉ drop n (ips_of fp d)) ->
  ips_of fp (set_ips (filter P) d) = take n (ips_of fp d).
Proof.
  intros HP. apply ips_of_unique; [apply ssorted_take, ips_of_sorted|]. intros ip.
  rewrite (sorted_not_dropped str_lt) by apply ips_of_sorted.
  cbn [db_ips set_ips]. rewrite elem_of_filter, HP, elem_of_ips_of. tauto.
Qed.

Lemma ports_of_filter (P : string * Z -> Prop) `{!forall x, Decision (P x)} n fp d :
  (forall p, P (fp, p) <-> p ∉ drop n (ports_of fp d)) ->
  ports_of fp (set_ports (filter P) d) = take n (ports_of fp d).
Proof.
  intros HP. apply ports_of_unique; [apply ssorted_take, ports_of_sorted|]. intros p.
  rewrite (sorted_not_dropped Z.lt) by apply ports_of_sorted.
  cbn [db_ports set_ports]. rewrite elem_of_filter, HP, elem_of_ports_of. tauto.
Qed.

(** Within one fingerprint the pair (ip, port) identifies the row. *)
Lemma sightings_of_key fp d n ip port ls :
  db_sightings d !! (fp, ip, port) = Some ls ->
  (ip, port) ∈ (fst <$> drop n (sightings_of fp d)) <->
  (ip, port, ls) ∈ drop n (sightings_of fp d).
Proof.
  intros Hr. rewrite list_elem_of_fmap. split.
  - intros ([[ip' port'] ls'] & Heq & Hin). simpl in Heq. injection Heq as <- <-.
    assert ((ip, port, ls') ∈ sightings_of fp d) as Hin'
      by (apply (elem_of_take_drop n); auto).
    apply elem_of_sightings_of in Hin'. rewrite Hr in Hin'. by injection Hin' as ->.
  - intros Hin. by exists (ip, port, ls).
Qed.

Lemma sightings_of_filter (P : (string * string * Z) * string -> Prop)
    `{!forall x, Decision (P x)} n fp d :
  (forall ip port ls, P ((fp, ip, port), ls) <->
     (ip, port) ∉ (fst <$> drop n (sightings_of fp d))) ->
  sightings_of fp (set_sightings (filter P) d) = take n (sightings_of fp d).
Proof.
  intros HP. apply sightings_of_unique; [apply ssorted_take, sightings_of_sorted|].
  intros ip port ls. rewrite (sorted_not_dropped sg_lt) by apply sightings_of_sorted.
  cbn [db_sightings set_sightings]. rewrite map_lookup_filter_Some, HP, elem_of_sightings_of.
  split; intros [H1 H2]; (split; [done|]); by rewrite sightings_of_key in *.
Qed.

(** *** Trimming *)

Section trim.
Context (fp : string) (n : nat) (d : DB).

Definition trimmed_sightings : DB :=
  set_sightings (filter (fun kv =>
    ~ (kv.1.1.1 = fp /\ (kv.1.1.2, kv.1.2) ∈ (fst <$> drop n (sightings_of fp d))))) d.
Definition trimmed_ips : DB :=
  set_ips (filter (fun x => ~ (x.1 = fp /\ x.2 ∈ drop n (ips_of fp d)))) d.
Definition trimmed_ports : DB :=
  set_ports (filter (fun x => ~ (x.1 = fp /\ x.2 ∈ drop n (ports_of fp d)))) d.

Lemma trimmed_sightings_self : sightings_of fp trimmed_sightings = take n (sightings_of fp d).
Proof. apply sightings_of_filter. intros ip port ls. simpl. tauto. Qed.

Lemma trimmed_sightings_other fp' :
  fp' <> fp -> sightings_of fp' trimmed_sightings = sightings_of fp' d.
Proof.
  intros Hne. apply sightings_of_ext. intros ip port. cbn [db_sightings set_sightings trimmed_sightings].
  apply option_eq. intros ls. rewrite map_lookup_filter_Some. simpl. naive_solver.
Qed.

Lemma trimmed_ips_self : ips_of fp trimmed_ips = take n (ips_of fp d).
Proof. apply ips_of_filter. intros ip. simpl. tauto. Qed.

Lemma trimmed_ips_other fp' : fp' <> fp -> ips_of fp' trimmed_ips = ips_of fp' d.
Proof.
  intros Hne. apply ips_of_ext. intros ip. cbn [db_ips set_ips trimmed_ips].
  rewrite elem_of_filter. simpl. naive_solver.
Qed.

Lemma trimmed_ports_self : ports_of fp trimmed_ports = take n (ports_of fp d).
Proof. apply ports_of_filter. intros p. simpl. tauto. Qed.

Lemma trimmed_ports_other fp' : fp' <> fp -> ports_of fp' trimmed_ports = ports_of fp' d.
Proof.
  intros Hne. apply ports_of_ext. intros p. cbn [db_ports set_ports trimmed_ports].
  rewrite elem_of_filter. simpl. naive_solver.
Qed.
End trim.

(** *** Bounding *)

Lemma bounded_sightings n d d' :
  sql_bound_sightings n d = Ok (tt, d') ->
  forall fp, sightings_of fp d' = take n (sightings_of fp d).
Proof. intros [= <-] fp. by apply sightings_of_filter. Qed.

Lemma bounded_ips n d d' :
  sql_bound_ips n d = Ok (tt, d') -> forall fp, ips_of fp d' = take n (ips_of fp d).
Proof. intros [= <-] fp. by apply ips_of_filter. Qed.

Lemma bounded_ports n d d' :
  sql_bound_ports n d = Ok (tt, d') -> forall fp, ports_of fp d' = take n (ports_of fp d).
Proof. intros [= <-] fp. by apply ports_of_filter. Qed.

(** *** Deleting fingerprints *)

Lemma delete_fps_lookup victims d fp :
  db_fps (delete_fps victims d) !! fp = if decide (fp ∈ victims) then None else db_fps d !! fp.
Proof.
  cbn [db_fps delete_fps]. case_decide as Hin.
  - apply map_lookup_filter_None. right. intros r _. simpl. tauto.
  - apply option_eq. intros r. rewrite map_lookup_filter_Some. simpl. tauto.
Qed.

(** The history of a deleted fingerprint goes with it; the others keep theirs. *)
Lemma delete_fps_survivor victims d fp :
  survives victims d fp ->
  ips_of fp (delete_fps victims d) = ips_of fp d /\
  ports_of fp (delete_fps victims d) = ports_of fp d /\
  sightings_of fp (delete_fps victims d) = sightings_of fp d.
Proof.
  intros Hin. split_and!.
  - apply ips_of_ext. intros ip. cbn [db_ips delete_fps]. rewrite elem_of_filter. naive_solver.
  - apply ports_of_ext. intros p. cbn [db_ports delete_fps]. rewrite elem_of_filter. naive_solver.
  - apply sightings_of_ext. intros ip port. apply option_eq. intros ls.
    cbn [db_sightings delete_fps]. rewrite map_lookup_filter_Some. naive_solver.
Qed.

Lemma delete_fps_victim victims d fp :
  ~ survives victims d fp ->
  ips_of fp (delete_fps victims d) = [] /\
  ports_of fp (delete_fps victims d) = [] /\
  sightings_of fp (delete_fps victims d) = [].
Proof.
  intros Hin. split_and!.
  - apply ips_of_unique; [constructor|]. intros ip. cbn [db_ips delete_fps].
    rewrite elem_of_filter. split; [by intros ?%not_elem_of_nil|naive_solver].
  - apply ports_of_unique; [constructor|]. intros p. cbn [db_ports delete_fps].
    rewrite elem_of_filter. split; [by intros ?%not_elem_of_nil|naive_solver].
  - apply sightings_of_unique; [constructor|]. intros ip port ls. cbn [db_sightings delete_fps].
    rewrite map_lookup_filter_Some. split; [by intros ?%not_elem_of_nil|naive_solver].
Qed.

(** Deleting rows that are not there changes nothing. *)
Lemma delete_fps_absent victims d :
  (forall fp, fp ∈ victims -> db_fps d !! fp = None) -> delete_fps victims d = d.
Proof.
  intros Habs. assert (forall fp, survives victims d fp) as Hs.
  { intros fp. destruct (decide (fp ∈ victims)); [right; auto|by left]. }
  unfold delete_fps. destruct d as [cols defs fps ips ports sgs al me]; simpl in *. f_equal.
  - apply map_filter_id. intros fp r Hr Hin. pose proof (eq_trans (eq_sym Hr) (Habs fp Hin)). done.
  - apply set_eq. intros x. rewrite elem_of_filter. naive_solver.
  - apply set_eq. intros x. rewrite elem_of_filter. naive_solver.
  - apply map_filter_id. intros k v _. apply Hs.
Qed.

(** The number of rows a DELETE affects. *)
Lemma size_delete_fps victims d :
  NoDup victims -> (forall fp, fp ∈ victims -> is_Some (db_fps d !! fp)) ->
  Z.of_nat (size (db_fps (delete_fps victims d))) =
  Z.of_nat (size (db_fps d)) - Z.of_nat (List.length victims).
Proof.
  intros Hnd Hin. cbn [db_fps delete_fps]. rewrite <- !size_dom.
  assert (dom (filter (fun kv : string * FpRow => kv.1 ∉ victims) (db_fps d)) =
    dom (db_fps d) ∖ list_to_set (C:=gset string) victims) as ->.
  { apply set_eq. intros fp. rewrite elem_of_dom, elem_of_difference, elem_of_list_to_set, elem_of_dom.
    split.
    - intros [r Hr]. apply map_lookup_filter_Some in Hr as [Hr Hv]. eauto.
    - intros [[r Hr] Hv]. exists r. by apply map_lookup_filter_Some. }
  rewrite size_difference.
  2:{ intros fp. rewrite elem_of_list_to_set, elem_of_dom. auto. }
  rewrite size_list_to_set by done.
  assert (List.length victims <= size (dom (db_fps d)))%nat as Hle.
  { rewrite <- (size_list_to_set (C:=gset string)) by done. apply subseteq_size.
    intros fp. rewrite elem_of_list_to_set, elem_of_dom. auto. }
  lia.
Qed.

(** *** Inserting history *)

Lemma inserted_ip fp ip d d' :
  sql_insert_ip fp ip d = Ok (tt, d') ->
  forall fp' ip', ip' ∈ ips_of fp' d' <-> ip' ∈ ips_of fp' d \/ (fp' = fp /\ ip' = ip).
Proof.
  unfold sql_insert_ip. destruct (db_fps d !! fp); [|done]. intros [= <-] fp' ip'.
  rewrite !elem_of_ips_of. cbn [db_ips set_ips]. rewrite elem_of_union, elem_of_singleton.
  naive_solver.
Qed.

Lemma inserted_port fp port d d' :
  sql_insert_port fp port d = Ok (tt, d') ->
  forall fp' p', p' ∈ ports_of fp' d' <-> p' ∈ ports_of fp' d \/ (fp' = fp /\ p' = port).
Proof.
  unfold sql_insert_port. destruct (db_fps d !! fp); [|done]. intros [= <-] fp' p'.
  rewrite !elem_of_ports_of. cbn [db_ports set_ports]. rewrite elem_of_union, elem_of_singleton.
  naive_solver.
Qed.
