(* ===== verification/Store.v ===== *)
(** Package store, part one: the data types of store/store.go, the decoding of a
    row (scanEntry), and the methods that read (Get, List, ListPage,
    LastFingerprint, ResolveFingerprint, GetMeta, HasBlockedRangeAlert).  All of
    them run in the monad [M] of Database.v. *)

From S2P Require Import Prelude GoStrings GoTime Netip Json Approval Database Tables.
From Stdlib Require Import Ascii String.
From stdpp Require Import strings gmap sorting.
#[local] Open Scope stdpp_scope.
#[local] Open Scope Z_scope.

(** ** Data *)

(** [type Status string] *)
Definition Status : Type := string.
Definition StatusPending : Status := "pending".
Definition StatusApproved : Status := "approved".
Definition StatusBlocked : Status := "blocked".

(** Status.Valid *)
Definition Status_Valid (s : Status) : bool :=
  bool_decide (s = StatusPending) || bool_decide (s = StatusApproved) ||
  bool_decide (s = StatusBlocked).

(** A Go map[string]any: [None] is the nil map. *)
Definition GoMap (Any : Type) : Type := option (gmap string Any).

Definition map_of {Any} (m : GoMap Any) : gmap string Any := default ∅ m.

Record Sighting := { sg_IP : string; sg_Port : Z; sg_LastSeen : instant }.

Record Entry (Any : Type) := {
  e_ApprovalRanges : option Scope;
  e_Fingerprint : string;
  e_Status : Status;
  e_Label : string;
  e_FirstSeen : instant;
  e_LastSeen : instant;
  e_Count : Z;
  e_IPs : list string;
  e_Ports : list Z;
  e_Sightings : list Sighting;
  e_Meta : GoMap Any
}.
Arguments e_ApprovalRanges {Any}. Arguments e_Fingerprint {Any}. Arguments e_Status {Any}.
Arguments e_Label {Any}. Arguments e_FirstSeen {Any}. Arguments e_LastSeen {Any}.
Arguments e_Count {Any}. Arguments e_IPs {Any}. Arguments e_Ports {Any}.
Arguments e_Sightings {Any}. Arguments e_Meta {Any}.

Record Observation (Any : Type) := {
  obs_Fingerprint : string;
  obs_IP : string;
  obs_Port : Z;
  obs_Meta : GoMap Any
}.
Arguments obs_Fingerprint {Any}. Arguments obs_IP {Any}. Arguments obs_Port {Any}.
Arguments obs_Meta {Any}.

(** The fields of a Store other than its two database handles, which are the
    [World] the methods run in. *)
Record Store := { st_path : string; st_maxFingerprints : Z }.

(** limits.go *)
Definition MaxMetadataBytes : Z := 64 * 1024.
Definition MaxObservationValues : nat := 128.

(** ** Reading a fingerprint's history *)

(** A value sql.Rows scans without fault, row by row. *)
Fixpoint scan_all {R A} (scan : R -> result A) (rows : list R) : result (list A) :=
  match rows with
  | [] => Ok []
  | r :: rest => a ← scan r; l ← scan_all scan rest; Ok (a :: l)
  end.

Definition listStringsFrom (q : querier) (f : DB -> list string) : M (list string) :=
  query_rows q "close string rows" f (scan_all (fun v => Ok v)).

Definition listIntsFrom (q : querier) (f : DB -> list Z) : M (list Z) :=
  query_rows q "close int rows" f (scan_all (fun v => Ok v)).

Definition scan_sighting (r : srow) : result Sighting :=
  parsed ← decodeTime r.2;
  Ok {| sg_IP := r.1.1; sg_Port := r.1.2; sg_LastSeen := parsed |}.

Definition listSightingsFrom (q : querier) (f : DB -> list srow) : M (list Sighting) :=
  query_rows q "close sighting rows" f (scan_all scan_sighting).

(** [out[fp] = append(out[fp], v)] *)
Definition append_key {V} (out : gmap string (list V)) (fp : string) (v : V) : gmap string (list V) :=
  <[fp := default [] (out !! fp) ++ [v]]> out.

Definition group_rows {V} (rows : list (string * V)) : gmap string (list V) :=
  fold_left (fun out '(fp, v) => append_key out fp v) rows ∅.

(** SELECT fp, ip FROM fingerprint_ips ORDER BY ip: rows with the same ip come in
    some order. *)
Definition all_ips (d : DB) : list (string * string) :=
  merge_sort (fun a b => ~ str_lt b.2 a.2) (elements (db_ips d)).

(** SELECT fp, port FROM fingerprint_ports ORDER BY port *)
Definition all_ports (d : DB) : list (string * Z) :=
  merge_sort (fun a b => ~ b.2 < a.2) (elements (db_ports d)).

(** SELECT fp, ip, port, last_seen FROM fingerprint_sightings
    ORDER BY fp, last_seen DESC, ip, port *)
Definition all_sightings (d : DB) : list (string * srow) :=
  merge_sort (fun a b => ~ (str_lt b.1 a.1 \/ (b.1 = a.1 /\ sg_lt b.2 a.2)))
    (map (fun '((f, ip, port), ls) => (f, (ip, port, ls))) (map_to_list (db_sightings d))).

Definition allStrings (q : querier) (f : DB -> list (string * string))
    : M (gmap string (list string)) :=
  query_rows q "close string rows" f
    (fun rows => out ← scan_all (fun r => Ok r) rows; Ok (group_rows out)).

(** allInts sorts every list again (sort.Ints). *)
Definition allInts (q : querier) (f : DB -> list (string * Z)) : M (gmap string (list Z)) :=
  query_rows q "close int rows" f
    (fun rows => out ← scan_all (fun r => Ok r) rows; Ok (merge_sort Z.le <$> group_rows out)).

Definition allSightings (q : querier) (f : DB -> list (string * srow))
    : M (gmap string (list Sighting)) :=
  query_rows q "close sighting rows" f
    (fun rows =>
       out ← scan_all (fun '(fp, r) => s ← scan_sighting r; Ok (fp, s)) rows;
       Ok (group_rows out)).

(** SELECT 1 FROM blocked_range_alerts WHERE range_name = ? AND ip = ? *)
Definition HasBlockedRangeAlert (rangeName ip : string) : M bool := fun w =>
  match query_row OnReader (fun d => db_alerts d !! (rangeName, ip)) w with
  | (Ok _, w') => (Ok true, w')
  | (Err ErrNoRows, w') => (Ok false, w')
  | (Err e, w') => (Err e, w')
  end.

(** GetMeta: an absent key reads as the empty string. *)
Definition GetMeta (key : string) : M string := fun w =>
  match query_row OnReader (fun d => db_meta d !! key) w with
  | (Err ErrNoRows, w') => (Ok "", w')
  | r => r
  end.

(** SELECT COALESCE(MAX(fp),'') FROM fingerprints *)
Definition max_fp (d : DB) : string := default "" (last (fps_sorted d)).

Definition LastFingerprint : M string := query_row OnReader (fun d => Some (max_fp d)).

(** ** ResolveFingerprint *)

Definition backslash : ascii := "\"%char.

(** strings.NewReplacer over the three bytes LIKE treats specially. *)
Fixpoint like_escape (s : string) : string :=
  match s with
  | EmptyString => EmptyString
  | String c r =>
      if bool_decide (c = backslash) || bool_decide (c = "%"%char) || bool_decide (c = "_"%char)
      then String backslash (String c (like_escape r))
      else String c (like_escape r)
  end.

(** The ASCII case folding of SQLite's LIKE. *)
Definition fold_byte (c : ascii) : ascii :=
  let n := byte_of c in
  if (65 <=? n) && (n <=? 90) then ascii_of_N (Z.to_N (n + 32)) else c.

(** fp LIKE pattern ESCAPE '\': an escaped byte and any other byte match
    themselves up to ASCII case, [%] matches any text, [_] any one byte (the
    patterns of this package contain no unescaped [_]). *)
Fixpoint sqlite_like (pattern : string) : string -> bool :=
  match pattern with
  | EmptyString => fun text => bool_decide (text = "")
  | String c rest =>
      let go := sqlite_like rest in
      if bool_decide (c = "%"%char) then
        (fix any (text : string) : bool :=
           go text || match text with
                      | EmptyString => false
                      | String _ text' => any text'
                      end)
      else if bool_decide (c = backslash) then
        match rest with
        | EmptyString => fun _ => false
        | String c' rest' =>
            let go' := sqlite_like rest' in
            fun text => match text with
                        | EmptyString => false
                        | String t text' => bool_decide (fold_byte c' = fold_byte t) && go' text'
                        end
        end
      else fun text =>
        match text with
        | EmptyString => false
        | String t text' =>
            (bool_decide (c = "_"%char) || bool_decide (fold_byte c = fold_byte t)) && go text'
        end
  end.

(** SELECT fp FROM fingerprints WHERE fp LIKE ? ESCAPE '\' ORDER BY fp LIMIT 2 *)
Definition like_matches (pattern : string) (d : DB) : list string :=
  take 2 (filter (fun fp => sqlite_like pattern fp = true) (fps_sorted d)).

Definition ResolveFingerprint (query : string) : M string :=
  let query := TrimSpace query in
  if bool_decide (query = "") then throw (ErrText "empty fingerprint" []) else
  fun w =>
  match query_row OnReader (fun d => (fun _ => query) <$> db_fps d !! query) w with
  | (Ok exact, w') => (Ok exact, w')
  | (Err ErrNoRows, w') =>
      (closeWithError "close fingerprint rows" poll
        (poll ;; d ← snapshot OnReader; poll ;;
         match like_matches (like_escape query +:+ "%") d with
         | [] => throw (ErrText "no fingerprint matching %q" [query])
         | [fp] => mret fp
         | _ => throw (ErrText "fingerprint prefix %q is ambiguous" [query])
         end)) w'
  | (Err e, w') => (Err e, w')
  end.

Section entries.
Context `{JSONCodec Any}.

(** scanEntry decodes a row, without its history.  A pointer to a Scope is
    decoded: the text null leaves it nil. *)
Definition scan_ranges (status : Status) (ranges : option string) : result (option Scope) :=
  match ranges with
  | None => Ok None
  | Some text =>
      match Unmarshal_strings text with
      | Some None => Err (ErrText "non-null approval_ranges must contain CIDRs" [])
      | _ =>
          match Scope_UnmarshalJSON text with
          | Err e => Err (ErrWrap "decode approval_ranges" e)
          | Ok s => if bool_decide (status = StatusApproved) then Ok (Some s)
                    else Err (ErrText "scope on non-approved entry" [])
          end
      end
  end.

Definition wrap_error {A} (context : string) (r : result A) : result A :=
  match r with
  | Ok a => Ok a
  | Err e => Err (ErrWrap context e)
  end.

Definition scan_meta (metaJSON : string) : result (GoMap Any) :=
  if bool_decide (TrimSpace metaJSON = "") then Ok None
  else match Unmarshal_map metaJSON with
       | Some m => Ok m
       | None => Err (ErrWrap "decode meta" (ErrText "json: cannot unmarshal" [metaJSON]))
       end.

Definition scanEntry (row : string * FpRow) : result (Entry Any) :=
  let '(fp, r) := row in
  ranges ← scan_ranges (fr_status r) (fr_approval_ranges r);
  first ← wrap_error "decode first_seen" (decodeTime (fr_first_seen r));
  last ← wrap_error "decode last_seen" (decodeTime (fr_last_seen r));
  meta ← scan_meta (fr_meta r);
  Ok {| e_ApprovalRanges := ranges; e_Fingerprint := fp; e_Status := fr_status r;
        e_Label := fr_label r; e_FirstSeen := first; e_LastSeen := last;
        e_Count := fr_count r; e_IPs := []; e_Ports := []; e_Sightings := [];
        e_Meta := meta |}.

(** [e.IPs = ips; e.Ports = ports; e.Sightings = sightings] *)
Definition with_history (e : Entry Any) (ips : list string) (ports : list Z)
    (sightings : list Sighting) : Entry Any :=
  {| e_ApprovalRanges := e_ApprovalRanges e; e_Fingerprint := e_Fingerprint e;
     e_Status := e_Status e; e_Label := e_Label e; e_FirstSeen := e_FirstSeen e;
     e_LastSeen := e_LastSeen e; e_Count := e_Count e; e_IPs := ips; e_Ports := ports;
     e_Sightings := sightings; e_Meta := e_Meta e |}.

(** The three queries that attach a fingerprint's history to an entry. *)
Definition read_history (q : querier) (e : Entry Any) (fp : string) : M (Entry Any) :=
  ips ← listStringsFrom q (ips_of fp);
  ports ← listIntsFrom q (ports_of fp);
  sightings ← listSightingsFrom q (sightings_of fp);
  mret (with_history e ips ports sightings).

Definition Get (fp : string) : M (Entry Any) :=
  row ← query_row OnReader (fun d => pair fp <$> db_fps d !! fp);
  e ← lift (scanEntry row);
  read_history OnReader e fp.

Context `{RowOrder}.

Definition List_ : M (gmap string (Entry Any)) :=
  poll ;; d ← snapshot OnReader;
  closeWithError "close fingerprint rows" poll
   (out ← lift (scan_all scanEntry (scan_rows (db_fps d)));
    poll ;;
    ips ← allStrings OnReader all_ips;
    ports ← allInts OnReader all_ports;
    sightings ← allSightings OnReader all_sightings;
    mret (list_to_map (map (fun e =>
      (e_Fingerprint e,
       with_history e (default [] (ips !! e_Fingerprint e)) (default [] (ports !! e_Fingerprint e))
         (default [] (sightings !! e_Fingerprint e)))) out))).

(** SELECT ... FROM fingerprints WHERE fp > ? AND fp <= ? ORDER BY fp LIMIT ? *)
Definition page_rows (after through : string) (limit : Z) (d : DB) : list (string * FpRow) :=
  take (Z.to_nat limit)
    (omap (fun fp => pair fp <$> db_fps d !! fp)
      (filter (fun fp => str_lt after fp /\ ~ str_lt through fp) (fps_sorted d))).

Fixpoint attach_histories (entries : list (Entry Any)) : M (list (Entry Any)) :=
  match entries with
  | [] => mret []
  | e :: rest =>
      e' ← read_history OnReader e (e_Fingerprint e);
      rest' ← attach_histories rest;
      mret (e' :: rest')
  end.

Definition ListPage (after through : string) (limit : Z) : M (list (Entry Any)) :=
  if (limit <? 1) || (128 <? limit)
  then throw (ErrText "page size must be between 1 and 128" [])
  else
    entries ← query_rows OnReader "close fingerprint rows" (page_rows after through limit)
                (scan_all scanEntry);
    poll ;;
    attach_histories entries.
End entries.
