(* ===== verification/Writes.v ===== *)
(** Package store, part two: the methods that write (store/store.go,
    store/limits.go, store/decisions.go), as programs of the monad [M], and the
    database function each of them implements whatever faults occur. *)

From S2P Require Import Prelude GoStrings GoTime Netip Json Approval Database Tables Store.
From Stdlib Require Import Ascii String.
From stdpp Require Import strings gmap sorting.
#[local] Open Scope stdpp_scope.
#[local] Open Scope Z_scope.

(** ** Helpers *)

Definition err_unknown_fingerprint (fp : string) : GoError := ErrText "unknown fingerprint %q" [fp].
Definition err_invalid_status (status : Status) : GoError := ErrText "invalid status %q" [status].

(** What requireAffected makes of the number of affected rows; reading it may
    fail. *)
Definition affected (fp : string) (n : Z) : result unit :=
  if n =? 0 then Err (err_unknown_fingerprint fp) else Ok tt.

Definition requireAffected (n : Z) (fp : string) : M unit := poll ;; lift (affected fp n).

(** ** Verdicts and labels *)

Definition SetStatus (fp : string) (status : Status) : M unit :=
  if negb (Status_Valid status) then throw (err_invalid_status status)
  else n ← db_exec (sql_set_status fp status); requireAffected n fp.

Definition UpsertStatus (fp : string) (status : Status) (label : string) : M unit :=
  if negb (Status_Valid status) then throw (err_invalid_status status)
  else t ← time_Now;
       n ← db_exec (sql_upsert_status fp status label (encodeTime t));
       requireAffected n fp.

Definition SetLabel (fp label : string) : M unit :=
  n ← db_exec (sql_set_label fp label); requireAffected n fp.

Definition Delete_fp (fp : string) : M unit :=
  n ← db_exec (sql_delete_fps [fp]); requireAffected n fp.

(** ** Pruning *)

Section pruning.
Context `{RowOrder}.

(** ORDER BY last_seen ASC: the text of the column. *)
Definition seen_le (a b : string * FpRow) : Prop := ~ str_lt (fr_last_seen b.2) (fr_last_seen a.2).

#[global] Instance seen_le_dec : RelDecision seen_le.
Proof. intros a b. unfold seen_le. apply _. Defined.

(** SELECT fp FROM fingerprints WHERE status != ? ORDER BY last_seen ASC LIMIT ? *)
Definition prune_victims (excess : Z) (d : DB) : list string :=
  take (Z.to_nat excess)
    (fst <$> merge_sort seen_le
      (filter (fun kv => fr_status kv.2 <> StatusApproved) (scan_rows (db_fps d)))).

(** SELECT COUNT STAR FROM fingerprints *)
Definition count_fps (d : DB) : Z := Z.of_nat (size (db_fps d)).

Definition pruneToLimit (max : Z) : M Z :=
  total ← query_row OnTx (fun d => Some (count_fps d));
  let excess := total - max in
  if excess <=? 0 then mret 0
  else deleted ← tx_exec (fun d => sql_delete_fps (prune_victims excess d) d);
       poll ;; mret deleted.

Definition PruneToLimit (max : Z) : M Z :=
  if max <=? 0 then mret 0
  else in_tx (deleted ← pruneToLimit max; Commit ;; mret deleted).
End pruning.

(** ** Resetting the keyspace *)

Definition MetaFingerprintMethod : string := "fingerprint_method".

(** DELETE FROM fingerprints *)
Definition sql_delete_all_fps (d : DB) : result (Z * DB) := sql_delete_fps (fps_sorted d) d.

Definition reset_tx : M Z :=
  count ← tx_exec sql_delete_all_fps;
  poll ;;
  tx_exec sql_delete_cursors ;;
  mret count.

Definition ResetFingerprints : M Z := in_tx (count ← reset_tx; Commit ;; mret count).

(** SetMeta *)
Definition SetMeta (key value : string) : M unit := db_exec (sql_set_meta key value).

Definition err_method_changed (stale : Z) (stored method : string) : GoError :=
  ErrText "database holds %d fingerprints computed with method %q, but %q is configured" [Itoa stale; stored; method].

Definition ReconcileFingerprintMethod (method : string) (reset : bool) : M Z :=
  stored ← GetMeta MetaFingerprintMethod;
  if bool_decide (stored = method) then mret 0
  else if bool_decide (stored = "") then SetMeta MetaFingerprintMethod method ;; mret 0
  else if negb reset then
    stale ← query_row OnReader (fun d => Some (count_fps d));
    throw (err_method_changed stale stored method)
  else
    deleted ← ResetFingerprints;
    SetMeta MetaFingerprintMethod method ;; mret deleted.

(** ** Blocked-range alerts *)

Definition RecordBlockedRangeAlert (rangeName ip fp : string) : M bool :=
  t ← time_Now;
  n ← db_exec (sql_insert_alert rangeName ip fp (encodeTime t));
  poll ;; lift (Ok (0 <? n)).

Definition ForgetBlockedRangeAlert (rangeName ip : string) : M unit :=
  db_exec (sql_delete_alert rangeName ip).

(** ** Observing and applying decisions *)

Record PolicyDecision := {
  dec_Fingerprint : string;
  dec_Status : Status;
  dec_Label : string;
  dec_ApprovalRanges : option Scope
}.

(** Decision.Validate *)
Definition Decision_Validate (d : PolicyDecision) : option GoError :=
  if bool_decide (dec_Fingerprint d = "") || negb (Status_Valid (dec_Status d))
  then Some (ErrText "invalid fingerprint decision" [])
  else if bool_decide (is_Some (dec_ApprovalRanges d)) &&
          negb (bool_decide (dec_Status d = StatusApproved))
  then Some (ErrText "approval_ranges requires approved status" [])
  else Scope_Validate (dec_ApprovalRanges d).

(** trimHistory: its three statements in order. *)
Definition trimHistory (fp : string) : M unit :=
  tx_exec (sql_trim_sightings fp MaxObservationValues) ;;
  tx_exec (sql_trim_ips fp MaxObservationValues) ;;
  tx_exec (sql_trim_ports fp MaxObservationValues).

Section writes.
Context `{JSONCodec Any} `{RowOrder}.

(** encodeMeta *)
Definition encodeMeta (meta : GoMap Any) : result string :=
  if bool_decide (map_of meta = ∅) then Ok "{}"
  else match Marshal_map (map_of meta) with
       | Some s => Ok s
       | None => Err (ErrText "json: unsupported value" [])
       end.

(** Observe between BeginTx and Commit. *)
Definition observe_tx (s : Store) (obs : Observation Any) (blockUnknown : bool)
    (metaJSON : string) : M (Entry Any) :=
  t ← time_Now;
  let now := encodeTime t in
  let status := if blockUnknown then StatusBlocked else StatusPending in
  let fp := obs_Fingerprint obs in
  row ← tx_exec (sql_upsert_observed fp status now metaJSON);
  entry ← lift (scanEntry (fp, row));
  when (negb (bool_decide (obs_IP obs = ""))) (tx_exec (sql_insert_ip fp (obs_IP obs))) ;;
  when (negb (obs_Port obs =? 0)) (tx_exec (sql_insert_port fp (obs_Port obs))) ;;
  when (negb (bool_decide (obs_IP obs = "")))
    (tx_exec (sql_upsert_sighting fp (obs_IP obs) (obs_Port obs) now)) ;;
  trimHistory fp ;;
  e ← read_history OnTx entry fp;
  when ((e_Count entry =? 1) && (0 <? st_maxFingerprints s))
    (_ ← pruneToLimit (st_maxFingerprints s); mret tt) ;;
  mret e.

Definition Observe (s : Store) (obs : Observation Any) (blockUnknown : bool) : M (Entry Any) :=
  if bool_decide (obs_Fingerprint obs = "") then throw (ErrText "empty fingerprint" [])
  else
    metaJSON ← lift (encodeMeta (obs_Meta obs));
    if MaxMetadataBytes <? str_len metaJSON
    then throw (ErrText "metadata exceeds %d bytes" [Itoa MaxMetadataBytes])
    else in_tx (e ← observe_tx s obs blockUnknown metaJSON; Commit ;; mret e).

(** The validation pass of ApplyDecisions, which also encodes the scopes. *)
Fixpoint encode_decisions (ds : list PolicyDecision) : result (list (PolicyDecision * option string)) :=
  match ds with
  | [] => Ok []
  | d :: rest =>
      match Decision_Validate d with
      | Some e => Err e
      | None =>
          scope ← match dec_ApprovalRanges d with
                  | None => Ok None
                  | Some s => b ← Scope_MarshalJSON (Some s); Ok (Some b)
                  end;
          l ← encode_decisions rest;
          Ok ((d, scope) :: l)
      end
  end.

Fixpoint apply_each (now : string) (ds : list (PolicyDecision * option string)) : M unit :=
  match ds with
  | [] => mret tt
  | (d, scope) :: rest =>
      tx_exec (sql_upsert_decision (dec_Fingerprint d) (dec_Status d) (dec_Label d) now scope) ;;
      apply_each now rest
  end.

Definition decisions_tx (ds : list (PolicyDecision * option string)) (cursorKey cursor : string)
    : M unit :=
  t ← time_Now;
  apply_each (encodeTime t) ds ;;
  when (negb (bool_decide (cursorKey = "")) && negb (bool_decide (cursor = "")))
    (tx_exec (sql_set_meta cursorKey cursor)).

Definition ApplyDecisions (decisions : list PolicyDecision) (cursorKey cursor : string) : M unit :=
  ds ← lift (encode_decisions decisions);
  in_tx (u ← decisions_tx ds cursorKey cursor; Commit ;; mret u).
End writes.
