(* ===== verification/Refinement.v ===== *)
(** Package store, part three: what every method of Store.v and Writes.v does,
    as a pure function on the database, and the proof that the method is that
    function under any script of faults: a success has done exactly the
    function's work, an error has changed nothing (or, for the statements
    committed at once, nothing beyond that work). *)

From S2P Require Import Prelude GoStrings GoTime Netip Json Approval Database Tables Store Writes.
From Stdlib Require Import Ascii String.
From stdpp Require Import strings gmap sorting.
#[local] Open Scope stdpp_scope.
#[local] Open Scope Z_scope.

Lemma scan_all_id {A} (l : list A) : scan_all (fun v => Ok v) l = Ok l.
Proof. induction l as [|a l IH]; [done|]. cbn [scan_all]. unfold mbind, result_bind. by rewrite IH. Qed.

(** Composite parts of transactions: peel the binds off. *)
Ltac runs_steps :=
  repeat first
    [ apply runs_exec | apply runs_ret | apply runs_time | apply runs_lift
    | apply runs_when | apply runs_reads; first [apply reads_poll | apply reads_query_row]
    | eapply runs_bind; [|intros ?] ].

(** ** Reads *)

Definition last_step : DB -> result string := fun d => Ok (max_fp d).

Lemma reads_LastFingerprint : reads OnReader LastFingerprint last_step.
Proof. apply (reads_ext _ _ _ last_step (reads_query_row OnReader _)). done. Qed.

Definition get_meta (key : string) : DB -> result string := fun d => Ok (default "" (db_meta d !! key)).

(** A read that goes on when there is no row; a fault is never taken for the
    absence of one. *)
Lemma reads_no_rows {A B} (f : DB -> option A) (some : A -> B) (none : M B) (g : DB -> result B)
    (m : M B) :
  reads OnReader none g ->
  (forall w, m w = match query_row OnReader f w with
                   | (Ok a, w') => (Ok (some a), w')
                   | (Err ErrNoRows, w') => none w'
                   | (Err e, w') => (Err e, w')
                   end) ->
  reads OnReader m (fun d => match f d with Some a => Ok (some a) | None => g d end).
Proof.
  intros Hn Hm w d r w' Hd H. rewrite Hm in H. clear Hm m. injection Hd as <-.
  unfold query_row, mbind, M_bind, snapshot, lift in H.
  destruct (poll w) as [rp w1] eqn:E. pose proof (poll_spec _ _ _ E) as (H1 & H2 & H3 & H4).
  destruct rp as [[]|e].
  - rewrite H1 in H. destruct (f (committed w)) as [a|].
    + injection H as <- <-. split_and!; [done..|]. by intros [? _]%H4.
    + destruct (Hn w1 (committed w) r w') as (N1 & N2 & N3 & N4 & N5); [by simpl; rewrite H1|done|].
      split_and!; [congruence..|done|]. intros [? _]%H4. auto.
  - assert (exists msg, e = ErrDriver msg) as [msg ->].
    { unfold poll in E. destruct (script w) as [|[]]; by simplify_eq; eauto. }
    injection H as <- <-. split_and!; [done..|]. by intros [_ ?]%H4.
Qed.

Lemma reads_GetMeta key : reads OnReader (GetMeta key) (get_meta key).
Proof.
  eapply reads_ext; [apply (reads_no_rows (fun d => db_meta d !! key) id (mret "") _ _ (reads_ret _ _))|].
  - intros w. unfold GetMeta. by destruct (query_row _ _ w) as [[|[]]].
  - intros d. unfold get_meta. by destruct (db_meta d !! key).
Qed.

Definition has_alert (rangeName ip : string) : DB -> result bool :=
  fun d => Ok (bool_decide (is_Some (db_alerts d !! (rangeName, ip)))).

Lemma reads_HasBlockedRangeAlert rangeName ip :
  reads OnReader (HasBlockedRangeAlert rangeName ip) (has_alert rangeName ip).
Proof.
  eapply reads_ext; [apply (reads_no_rows (fun d => db_alerts d !! (rangeName, ip)) (fun _ => true)
    (mret false) _ _ (reads_ret _ _))|].
  - intros w. unfold HasBlockedRangeAlert. by destruct (query_row _ _ w) as [[|[]]].
  - intros d. unfold has_alert. by destruct (db_alerts d !! (rangeName, ip)).
Qed.

(** The choice ResolveFingerprint makes among the stored fingerprints. *)
Definition resolve (query : string) (d : DB) : result string :=
  let query := TrimSpace query in
  if bool_decide (query = "") then Err (ErrText "empty fingerprint" [])
  else if bool_decide (is_Some (db_fps d !! query)) then Ok query
  else match like_matches (like_escape query +:+ "%") d with
       | [] => Err (ErrText "no fingerprint matching %q" [query])
       | [fp] => Ok fp
       | _ => Err (ErrText "fingerprint prefix %q is ambiguous" [query])
       end.

Lemma reads_ResolveFingerprint query : reads OnReader (ResolveFingerprint query) (resolve query).
Proof.
  unfold ResolveFingerprint, resolve. set (q := TrimSpace query). cbv zeta.
  destruct (bool_decide (q = "")); [apply (reads_lift _ (Err _))|].
  eapply reads_ext.
  - apply (reads_no_rows (fun d => (fun _ => q) <$> db_fps d !! q) id
      (closeWithError "close fingerprint rows" poll
        (poll ;; d ← snapshot OnReader; poll ;;
         match like_matches (like_escape q +:+ "%") d with
         | [] => throw (ErrText "no fingerprint matching %q" [q])
         | [fp] => mret fp
         | _ => throw (ErrText "fingerprint prefix %q is ambiguous" [q])
         end))).
    + apply reads_close. eapply reads_bind; [apply reads_poll|intros u1].
      eapply reads_bind; [apply reads_snapshot|intros d].
      eapply reads_bind; [apply reads_poll|intros u2].
      set (l := like_matches _ d).
      apply (reads_ext _ _ (fun _ => match l with
         | [] => Err (ErrText "no fingerprint matching %q" [q])
         | [fp] => Ok fp
         | _ => Err (ErrText "fingerprint prefix %q is ambiguous" [q])
         end)); [|intros d'; subst l; reflexivity].
      destruct l as [|fp [|]]; [apply (reads_lift _ (Err _))|apply reads_ret|apply (reads_lift _ (Err _))].
    + intros w. by destruct (query_row _ _ w) as [[|[]]].
  - intros d. simpl. by destruct (db_fps d !! q).
Qed.

Definition lookup_row (fp : string) (d : DB) : result (string * FpRow) :=
  or_no_rows (pair fp <$> db_fps d !! fp).

Section reading.
Context `{JSONCodec Any}.

Definition history_entry (e : Entry Any) (fp : string) (d : DB) : result (Entry Any) :=
  sg ← scan_all scan_sighting (sightings_of fp d);
  Ok (with_history e (ips_of fp d) (ports_of fp d) sg).

Lemma reads_history q e fp : reads q (read_history q e fp) (history_entry e fp).
Proof.
  unfold read_history. eapply reads_ext.
  - eapply reads_bind; [apply reads_query_rows|intros ips].
    eapply reads_bind; [apply reads_query_rows|intros ports].
    eapply reads_bind; [apply reads_query_rows|intros sg]. apply reads_ret.
  - intros d. simpl. rewrite !scan_all_id. done.
Qed.

Definition get_entry (fp : string) (d : DB) : result (Entry Any) :=
  row ← lookup_row fp d; e ← scanEntry row; history_entry e fp d.

Lemma reads_Get fp : reads OnReader (Get fp) (get_entry fp).
Proof.
  unfold Get. eapply reads_ext.
  - eapply reads_bind; [apply reads_query_row|intros row].
    eapply reads_bind; [apply reads_lift|intros e]. apply reads_history.
  - done.
Qed.

Fixpoint histories (es : list (Entry Any)) (d : DB) : result (list (Entry Any)) :=
  match es with
  | [] => Ok []
  | e :: rest => e' ← history_entry e (e_Fingerprint e) d; l ← histories rest d; Ok (e' :: l)
  end.

Lemma reads_histories es : reads OnReader (attach_histories es) (histories es).
Proof.
  induction es as [|e es IH]; [apply reads_ret|]. cbn [attach_histories histories].
  eapply reads_bind; [apply reads_history|intros e'].
  eapply reads_bind; [apply IH|intros l]. apply reads_ret.
Qed.

Definition list_page (after through : string) (limit : Z) (d : DB) : result (list (Entry Any)) :=
  if (limit <? 1) || (128 <? limit)
  then Err (ErrText "page size must be between 1 and 128" [])
  else es ← scan_all scanEntry (page_rows after through limit d); histories es d.

Lemma reads_ListPage after through limit :
  reads OnReader (ListPage after through limit) (list_page after through limit).
Proof.
  unfold ListPage, list_page. destruct (_ || _); [apply (reads_lift _ (Err _))|].
  eapply reads_ext.
  - eapply reads_bind; [apply reads_query_rows|intros es].
    eapply reads_bind; [apply reads_poll|intros u]. apply reads_histories.
  - done.
Qed.

Context `{RowOrder}.

(** The entry List builds from a decoded row and the grouped histories. *)
Definition grouped_sightings (d : DB) : result (gmap string (list Sighting)) :=
  out ← scan_all (fun '(fp, r) => s ← scan_sighting r; Ok (fp, s)) (all_sightings d);
  Ok (group_rows out).

Definition list_all (d : DB) : result (gmap string (Entry Any)) :=
  out ← scan_all scanEntry (scan_rows (db_fps d));
  sightings ← grouped_sightings d;
  Ok (list_to_map (map (fun e =>
    (e_Fingerprint e,
     with_history e (default [] (group_rows (all_ips d) !! e_Fingerprint e))
       (default [] ((merge_sort Z.le <$> group_rows (all_ports d)) !! e_Fingerprint e))
       (default [] (sightings !! e_Fingerprint e)))) out)).

Lemma reads_List : reads OnReader List_ list_all.
Proof.
  unfold List_. eapply reads_ext.
  - eapply reads_bind; [apply reads_poll|intros u1].
    eapply reads_bind; [apply reads_snapshot|intros d0]. apply reads_close.
    eapply reads_bind; [apply reads_lift|intros out].
    eapply reads_bind; [apply reads_poll|intros u2].
    eapply reads_bind; [apply reads_query_rows|intros ips].
    eapply reads_bind; [apply reads_query_rows|intros ports].
    eapply reads_bind; [apply reads_query_rows|intros sg]. apply reads_ret.
  - intros d. simpl. unfold list_all, grouped_sightings. rewrite !scan_all_id.
    unfold mbind, result_bind. destruct (scan_all scanEntry _); [|done]. by destruct (scan_all _ _).
Qed.
End reading.

(** ** Verdicts, labels, deletion *)

Lemma implements_ext {A} (m : M A) F G :
  implements m F -> (forall t d, F t d = G t d) -> implements m G.
Proof. intros Hm He w r w' Hw H. rewrite <- !He. by apply Hm. Qed.

Lemma atomic_ext {A} (m : M A) F G : atomic m F -> (forall t d, F t d = G t d) -> atomic m G.
Proof. intros [Hm Ha] He. split; [by eapply implements_ext|done]. Qed.

Lemma implements_time {A} (k : instant -> M A) F :
  (forall t, implements (k t) (F t)) -> implements (t ← time_Now; k t) (fun t d => F t t d).
Proof. intros Hk w r w' Hw H. by apply (Hk (clock w)). Qed.

Lemma atomic_implements {A} (m : M A) F : atomic m F -> implements m F.
Proof. by intros [? _]. Qed.

(** A single statement whose affected rows are required. *)
Lemma implements_affected (f : DB -> result (Z * DB)) fp :
  (forall d d', f d = Ok (0, d') -> d' = d) ->
  implements (n ← db_exec f; requireAffected n fp)
    (step_bind (fun _ => f) (fun n => step_read (fun _ => affected fp n))).
Proof.
  intros Hf. apply (implements_exec f (affected fp)). intros d n d' Hd Hn.
  unfold affected in Hn. destruct (n =? 0) eqn:?; [|done]. assert (n = 0) as -> by lia. eauto.
Qed.

Definition set_status (fp : string) (status : Status) : Step unit := fun _ d =>
  if negb (Status_Valid status) then Err (err_invalid_status status)
  else match db_fps d !! fp with
       | Some r => if may_overwrite r status
                   then Ok (tt, set_fps <[fp := with_verdict status None r]> d)
                   else Err (err_unknown_fingerprint fp)
       | None => Err (err_unknown_fingerprint fp)
       end.

Lemma SetStatus_implements fp status : implements (SetStatus fp status) (set_status fp status).
Proof.
  unfold SetStatus, set_status. destruct (negb _); [apply atomic_implements, atomic_throw|].
  eapply implements_ext; [apply implements_affected|].
  - intros d d'. unfold sql_set_status. repeat case_match; by intros [= ?].
  - intros t d. unfold step_bind, step_read, sql_set_status, affected. repeat (case_match; simplify_eq/=); done.
Qed.

Definition upsert_status (fp : string) (status : Status) (label : string) : Step unit := fun t d =>
  if negb (Status_Valid status) then Err (err_invalid_status status)
  else match db_fps d !! fp with
       | None => Ok (tt, set_fps <[fp := new_row d status label (encodeTime t) 0 "{}" None]> d)
       | Some r => if may_overwrite r status
                   then Ok (tt, set_fps <[fp := with_label label (with_verdict status None r)]> d)
                   else Err (err_unknown_fingerprint fp)
       end.

Lemma UpsertStatus_implements fp status label :
  implements (UpsertStatus fp status label) (upsert_status fp status label).
Proof.
  unfold UpsertStatus, upsert_status. destruct (negb _); [apply atomic_implements, atomic_throw|].
  eapply implements_ext; [apply implements_time; intros t; apply implements_affected|].
  - intros d d'. unfold sql_upsert_status. repeat case_match; by intros [= ?].
  - intros t d. unfold step_bind, step_read, sql_upsert_status, affected. repeat (case_match; simplify_eq/=); done.
Qed.

Definition set_label (fp label : string) : Step unit := fun _ d =>
  match db_fps d !! fp with
  | Some r => Ok (tt, set_fps <[fp := with_label label r]> d)
  | None => Err (err_unknown_fingerprint fp)
  end.

Lemma SetLabel_implements fp label : implements (SetLabel fp label) (set_label fp label).
Proof.
  unfold SetLabel. eapply implements_ext; [apply implements_affected|].
  - intros d d'. unfold sql_set_label. repeat case_match; by intros [= ?].
  - intros t d. unfold set_label, step_bind, step_read, sql_set_label.
    unfold affected. repeat (case_match; simplify_eq/=); done.
Qed.

Definition delete_one (fp : string) : Step unit := fun _ d =>
  match db_fps d !! fp with
  | Some _ => Ok (tt, delete_fps [fp] d)
  | None => Err (err_unknown_fingerprint fp)
  end.

Lemma delete_one_rows fp d :
  sql_delete_fps [fp] d =
  Ok (match db_fps d !! fp with Some _ => 1 | None => 0 end, delete_fps [fp] d).
Proof.
  unfold sql_delete_fps. do 2 f_equal. destruct (db_fps d !! fp) eqn:E.
  - rewrite size_delete_fps; [simpl; lia|by apply NoDup_singleton|].
    intros fp' ->%list_elem_of_singleton. by rewrite E.
  - rewrite delete_fps_absent; [lia|]. by intros fp' ->%list_elem_of_singleton.
Qed.

Lemma Delete_implements fp : implements (Delete_fp fp) (delete_one fp).
Proof.
  unfold Delete_fp. eapply implements_ext; [apply implements_affected|].
  - intros d d'. rewrite delete_one_rows. intros [= Hn <-]. case_match; [done|].
    apply delete_fps_absent. by intros fp' ->%list_elem_of_singleton.
  - intros t d. unfold delete_one, step_bind, step_read. rewrite delete_one_rows.
    by destruct (db_fps d !! fp).
Qed.

(** ** Meta keys and alerts *)

Lemma SetMeta_atomic key value : atomic (SetMeta key value) (fun _ => sql_set_meta key value).
Proof. apply atomic_exec. Qed.

Definition record_alert (rangeName ip fp : string) : Step bool := fun t d =>
  match db_alerts d !! (rangeName, ip) with
  | Some _ => Ok (false, d)
  | None => Ok (true, set_alerts <[(rangeName, ip) := (fp, encodeTime t)]> d)
  end.

Lemma RecordBlockedRangeAlert_implements rangeName ip fp :
  implements (RecordBlockedRangeAlert rangeName ip fp) (record_alert rangeName ip fp).
Proof.
  unfold RecordBlockedRangeAlert. eapply implements_ext.
  - apply implements_time. intros t. apply (implements_exec _ (fun n => Ok (0 <? n))). done.
  - intros t d. unfold record_alert, step_bind, step_read, sql_insert_alert. by destruct (db_alerts d !! (rangeName, ip)).
Qed.

Lemma ForgetBlockedRangeAlert_atomic rangeName ip :
  atomic (ForgetBlockedRangeAlert rangeName ip) (fun _ => sql_delete_alert rangeName ip).
Proof. apply atomic_exec. Qed.

(** ** Pruning and resetting *)

Section pruning_refinement.
Context `{RowOrder}.

Lemma seen_le_total : Total seen_le.
Proof.
  intros a b. unfold seen_le.
  destruct (decide (str_lt (fr_last_seen b.2) (fr_last_seen a.2))) as [H1|H1]; [right|by left].
  intros H2. by apply (str_lt_irrefl (fr_last_seen a.2)), (str_lt_trans _ (fr_last_seen b.2)).
Qed.

Lemma prune_candidates_spec d fp :
  fp ∈ (fst <$> merge_sort seen_le
         (filter (fun kv => fr_status kv.2 <> StatusApproved) (scan_rows (db_fps d)))) <->
  exists r, db_fps d !! fp = Some r /\ fr_status r <> StatusApproved.
Proof.
  rewrite list_elem_of_fmap. setoid_rewrite merge_sort_Permutation.
  setoid_rewrite list_elem_of_filter. setoid_rewrite scan_rows_perm. split.
  - intros ([f r] & -> & Hs & Hin). exists r. by rewrite <- elem_of_map_to_list.
  - intros (r & Hr & Hs). exists (fp, r). by rewrite elem_of_map_to_list.
Qed.

Lemma NoDup_candidates d :
  NoDup (fst <$> merge_sort seen_le
         (filter (fun kv => fr_status kv.2 <> StatusApproved) (scan_rows (db_fps d)))).
Proof.
  rewrite merge_sort_Permutation. apply NoDup_fmap_2_strong.
  - intros [f1 r1] [f2 r2] [_ H1]%list_elem_of_filter [_ H2]%list_elem_of_filter Heq.
    rewrite scan_rows_perm in H1, H2. simpl in Heq. subst f2.
    apply elem_of_map_to_list in H1, H2. congruence.
  - apply NoDup_filter. rewrite scan_rows_perm. apply NoDup_map_to_list.
Qed.

Lemma victims_in_rows excess d fp :
  fp ∈ prune_victims excess d ->
  exists r, db_fps d !! fp = Some r /\ fr_status r <> StatusApproved.
Proof.
  intros Hin. apply prune_candidates_spec. apply (elem_of_take_drop (Z.to_nat excess)). by left.
Qed.

Lemma NoDup_victims excess d : NoDup (prune_victims excess d).
Proof. unfold prune_victims. eapply sublist_NoDup; [apply NoDup_candidates|apply sublist_take]. Qed.

(** The database PruneToLimit leaves, and the number it reports. *)
Definition prune_db (max : Z) (d : DB) : DB :=
  let excess := count_fps d - max in
  if excess <=? 0 then d else delete_fps (prune_victims excess d) d.

Definition prune_count (max : Z) (d : DB) : Z :=
  let excess := count_fps d - max in
  if excess <=? 0 then 0 else Z.of_nat (List.length (prune_victims excess d)).

Definition prune (max : Z) : Step Z := fun _ d =>
  if max <=? 0 then Ok (0, d) else Ok (prune_count max d, prune_db max d).

Lemma delete_victims_rows excess d :
  sql_delete_fps (prune_victims excess d) d =
  Ok (Z.of_nat (List.length (prune_victims excess d)), delete_fps (prune_victims excess d) d).
Proof.
  unfold sql_delete_fps. do 2 f_equal. rewrite size_delete_fps; [lia|apply NoDup_victims|].
  intros fp (r & Hr & _)%victims_in_rows. eauto.
Qed.

Lemma runs_pruneToLimit max :
  runs (pruneToLimit max) (fun _ d => Ok (prune_count max d, prune_db max d)).
Proof.
  unfold pruneToLimit.
  apply (runs_ext _ (step_bind (step_read (fun d => Ok (count_fps d)))
    (fun total => if total - max <=? 0 then step_ret 0
                  else fun _ d => Ok (Z.of_nat (List.length (prune_victims (total - max) d)),
                                      delete_fps (prune_victims (total - max) d) d)))).
  - apply runs_bind; [apply runs_reads, (reads_query_row OnTx (fun d => Some (count_fps d)))|].
    intros total. cbv zeta.
    destruct (total - max <=? 0); [apply runs_ret|]. eapply runs_ext.
    + eapply runs_bind; [apply runs_exec|intros n].
      eapply runs_bind; [apply runs_reads, reads_poll|intros u]. apply runs_ret.
    + intros t d. unfold step_bind, step_read. rewrite delete_victims_rows. done.
  - intros t d. unfold step_bind, step_read, step_ret, prune_count, prune_db. by case_match.
Qed.

Lemma PruneToLimit_atomic max : atomic (PruneToLimit max) (prune max).
Proof.
  unfold PruneToLimit, prune. destruct (max <=? 0).
  - apply (implements_reads (mret 0) (fun _ => Ok 0)), reads_ret.
  - eapply atomic_ext; [apply (in_tx_spec _ id), runs_pruneToLimit|]. done.
Qed.
End pruning_refinement.

(** Every row and its history, and the cursors of meta, go. *)
Definition reset_db (d : DB) : DB :=
  set_meta (filter (fun kv => is_cursor_key kv.1 = false)) (delete_fps (fps_sorted d) d).

Definition reset : Step Z := fun _ d => Ok (count_fps d, reset_db d).

Lemma delete_all_rows d : sql_delete_all_fps d = Ok (count_fps d, delete_fps (fps_sorted d) d).
Proof.
  unfold sql_delete_all_fps, sql_delete_fps, count_fps. do 2 f_equal.
  assert (List.length (fps_sorted d) = size (db_fps d)) as Hl.
  { unfold fps_sorted. by rewrite length_sort_by, List.length_map, length_map_to_list. }
  rewrite size_delete_fps, Hl; [lia| |].
  - apply (ssorted_NoDup str_lt), fps_sorted_sorted.
  - intros fp. apply elem_of_fps_sorted.
Qed.

Lemma ResetFingerprints_atomic : atomic ResetFingerprints reset.
Proof.
  eapply atomic_ext; [apply (in_tx_spec reset_tx id)|].
  - unfold reset_tx. eapply runs_bind; [apply runs_exec|intros n].
    eapply runs_bind; [apply runs_reads, reads_poll|intros u].
    eapply runs_bind; [apply runs_exec|intros v]. apply runs_ret.
  - intros t d. unfold step_bind, step_read, step_ret. by rewrite delete_all_rows.
Qed.

(** ** Observing *)

(** The rows an observation adds to a fingerprint's history. *)
Definition record_history (fp ip : string) (port : Z) (now : string) (d : DB) : DB :=
  let d1 := if bool_decide (ip = "") then d else set_ips (union {[(fp, ip)]}) d in
  let d2 := if port =? 0 then d1 else set_ports (union {[(fp, port)]}) d1 in
  if bool_decide (ip = "") then d2 else set_sightings <[(fp, ip, port) := now]> d2.

Definition trim_db (fp : string) (d : DB) : DB :=
  trimmed_ports fp MaxObservationValues
    (trimmed_ips fp MaxObservationValues (trimmed_sightings fp MaxObservationValues d)).

(** Trimming keeps the first rows of each of the fingerprint's ordered lists and
    leaves the other fingerprints alone. *)
Lemma trim_db_self fp d :
  ips_of fp (trim_db fp d) = take MaxObservationValues (ips_of fp d) /\
  ports_of fp (trim_db fp d) = take MaxObservationValues (ports_of fp d) /\
  sightings_of fp (trim_db fp d) = take MaxObservationValues (sightings_of fp d).
Proof.
  split_and!.
  - apply (trimmed_ips_self fp MaxObservationValues (trimmed_sightings fp MaxObservationValues d)).
  - apply (trimmed_ports_self fp MaxObservationValues
      (trimmed_ips fp MaxObservationValues (trimmed_sightings fp MaxObservationValues d))).
  - apply (trimmed_sightings_self fp MaxObservationValues d).
Qed.

Lemma trim_db_other fp fp' d :
  fp' <> fp ->
  ips_of fp' (trim_db fp d) = ips_of fp' d /\ ports_of fp' (trim_db fp d) = ports_of fp' d /\
  sightings_of fp' (trim_db fp d) = sightings_of fp' d.
Proof.
  intros Hne. split_and!.
  - apply (trimmed_ips_other fp MaxObservationValues (trimmed_sightings fp MaxObservationValues d) fp' Hne).
  - apply (trimmed_ports_other fp MaxObservationValues
      (trimmed_ips fp MaxObservationValues (trimmed_sightings fp MaxObservationValues d)) fp' Hne).
  - apply (trimmed_sightings_other fp MaxObservationValues d fp' Hne).
Qed.

Lemma trim_db_sub fp d :
  (forall x, x ∈ db_ips (trim_db fp d) -> x ∈ db_ips d) /\
  (forall x, x ∈ db_ports (trim_db fp d) -> x ∈ db_ports d) /\
  (forall k ls, db_sightings (trim_db fp d) !! k = Some ls -> db_sightings d !! k = Some ls).
Proof.
  split_and!.
  - intros x. change (db_ips (trim_db fp d)) with
      (db_ips (trimmed_ips fp MaxObservationValues (trimmed_sightings fp MaxObservationValues d))).
    cbn [db_ips set_ips trimmed_ips]. by intros [_ ?]%elem_of_filter.
  - intros x. cbn [db_ports set_ports trim_db trimmed_ports]. by intros [_ ?]%elem_of_filter.
  - intros k ls. change (db_sightings (trim_db fp d)) with
      (db_sightings (trimmed_sightings fp MaxObservationValues d)).
    cbn [db_sightings set_sightings trimmed_sightings]. by intros [? _]%map_lookup_filter_Some.
Qed.

(** The rows record_history adds. *)
Lemma record_history_rows fp ip port now d :
  db_fps (record_history fp ip port now d) = db_fps d /\
  (forall x, x ∈ db_ips (record_history fp ip port now d) <->
     x ∈ db_ips d \/ (ip <> "" /\ x = (fp, ip))) /\
  (forall x, x ∈ db_ports (record_history fp ip port now d) <->
     x ∈ db_ports d \/ (port <> 0 /\ x = (fp, port))) /\
  (forall k, db_sightings (record_history fp ip port now d) !! k =
     if decide (ip <> "" /\ k = (fp, ip, port)) then Some now else db_sightings d !! k).
Proof.
  unfold record_history. destruct (decide (ip = "")) as [->|Hip], (Z.eqb_spec port 0) as [->|Hp];
    rewrite ?bool_decide_true, ?bool_decide_false by done;
    cbn [db_fps db_ips db_ports db_sightings set_ips set_ports set_sightings]; split_and!; try done;
    intros k; rewrite ?elem_of_union, ?elem_of_singleton; try (by naive_solver);
    case_decide as Hk; try (by naive_solver).
  all: try (destruct Hk as [_ ->]; by rewrite lookup_insert_eq).
  all: rewrite lookup_insert_ne; [done|]; intros <-; tauto.
Qed.

Lemma runs_trimHistory fp : runs (trimHistory fp) (fun _ d => Ok (tt, trim_db fp d)).
Proof.
  unfold trimHistory. eapply runs_ext.
  - eapply runs_bind; [apply runs_exec|intros u]. eapply runs_bind; [apply runs_exec|intros v].
    exact (runs_exec _).
  - done.
Qed.

Section observing.
Context `{JSONCodec Any} `{RowOrder}.

(** What Observe commits and returns, past its checks. *)
Definition observe_db (s : Store) (obs : Observation Any) (blockUnknown : bool)
    (metaJSON : string) : Step (Entry Any) := fun t d =>
  let now := encodeTime t in
  let fp := obs_Fingerprint obs in
  let r := observed_row d (db_fps d !! fp) (if blockUnknown then StatusBlocked else StatusPending)
             now metaJSON in
  entry ← scanEntry (fp, r);
  let d1 := trim_db fp (record_history fp (obs_IP obs) (obs_Port obs) now
                          (set_fps <[fp := r]> d)) in
  e ← history_entry entry fp d1;
  Ok (e, if (e_Count entry =? 1) && (0 <? st_maxFingerprints s)
         then prune_db (st_maxFingerprints s) d1 else d1).

Lemma runs_observe_tx s obs blockUnknown metaJSON :
  runs (observe_tx s obs blockUnknown metaJSON) (observe_db s obs blockUnknown metaJSON).
Proof.
  unfold observe_tx. cbv zeta. eapply runs_ext.
  - eapply runs_bind; [apply runs_time|intros t].
    eapply runs_bind; [apply runs_exec|intros row].
    eapply runs_bind; [apply runs_lift|intros entry].
    eapply runs_bind; [apply runs_when, runs_exec|intros u1].
    eapply runs_bind; [apply runs_when, runs_exec|intros u2].
    eapply runs_bind; [apply runs_when, runs_exec|intros u3].
    eapply runs_bind; [apply runs_trimHistory|intros u4].
    eapply runs_bind; [apply runs_reads, reads_history|intros e].
    eapply runs_bind; [apply runs_when; eapply runs_bind; [apply runs_pruneToLimit|intros n]|intros u5];
      apply runs_ret.
  - intros t d. unfold observe_db, step_bind, step_read, step_when, step_ret, sql_upsert_observed.
    cbv zeta. set (r := observed_row _ _ _ _ _).
    unfold mbind at 1, result_bind at 1. destruct (scanEntry (obs_Fingerprint obs, r)) as [entry|]; [|done].
    set (d1 := set_fps _ d).
    assert (db_fps d1 !! obs_Fingerprint obs = Some r) as Hr by apply lookup_insert_eq.
    unfold record_history, sql_insert_ip, sql_insert_port, sql_upsert_sighting.
    destruct (bool_decide (obs_IP obs = "")), (obs_Port obs =? 0); cbn [negb];
      repeat (first [rewrite fps_set_ports | rewrite fps_set_ips | rewrite Hr]; cbv beta iota);
      unfold mbind, result_bind;
      (destruct (history_entry _ _ _) as [e|]; [|done]); by destruct (_ && _).
Qed.

Definition observe (s : Store) (obs : Observation Any) (blockUnknown : bool)
    : Step (Entry Any) := fun t d =>
  if bool_decide (obs_Fingerprint obs = "") then Err (ErrText "empty fingerprint" [])
  else match encodeMeta (obs_Meta obs) with
       | Err e => Err e
       | Ok metaJSON =>
           if MaxMetadataBytes <? str_len metaJSON
           then Err (ErrText "metadata exceeds %d bytes" [Itoa MaxMetadataBytes])
           else observe_db s obs blockUnknown metaJSON t d
       end.

Lemma Observe_atomic s obs blockUnknown :
  atomic (Observe s obs blockUnknown) (observe s obs blockUnknown).
Proof.
  unfold Observe, observe. destruct (bool_decide _); [exact (atomic_throw _)|].
  eapply atomic_ext.
  - apply (atomic_lift_bind (encodeMeta (obs_Meta obs)) _
      (fun metaJSON t d => if MaxMetadataBytes <? str_len metaJSON
                       then Err (ErrText "metadata exceeds %d bytes" [Itoa MaxMetadataBytes])
                       else observe_db s obs blockUnknown metaJSON t d)).
    intros metaJSON _. destruct (MaxMetadataBytes <? str_len metaJSON); [exact (atomic_throw _)|].
    eapply atomic_ext; [apply (in_tx_spec _ id), runs_observe_tx|].
    intros t d. unfold step_bind, step_ret. by destruct (observe_db _ _ _ _ t d) as [[]|].
  - intros t d. by destruct (encodeMeta (obs_Meta obs)).
Qed.

(** ** Applying decisions *)

(** The rows after every decision of the batch, in order. *)
Fixpoint decide_db (now : string) (ds : list (PolicyDecision * option string)) (d : DB) : DB :=
  match ds with
  | [] => d
  | (dec, scope) :: rest =>
      decide_db now rest
        (set_fps <[dec_Fingerprint dec :=
           decided_row d (db_fps d !! dec_Fingerprint dec) (dec_Status dec) (dec_Label dec)
             now scope]> d)
  end.

Definition apply_decisions (decisions : list PolicyDecision) (cursorKey cursor : string) : Step unit :=
  fun t d =>
  match encode_decisions decisions with
  | Err e => Err e
  | Ok ds =>
      let d1 := decide_db (encodeTime t) ds d in
      Ok (tt, if negb (bool_decide (cursorKey = "")) && negb (bool_decide (cursor = ""))
              then set_meta <[cursorKey := cursor]> d1 else d1)
  end.

Lemma runs_apply_each now ds :
  runs (apply_each now ds) (fun _ d => Ok (tt, decide_db now ds d)).
Proof.
  induction ds as [|[dec scope] ds IH]; cbn [apply_each decide_db]; [apply runs_ret|].
  eapply runs_ext; [eapply runs_bind; [apply runs_exec|intros u; apply IH]|]. done.
Qed.

Lemma ApplyDecisions_atomic decisions cursorKey cursor :
  atomic (ApplyDecisions decisions cursorKey cursor)
    (apply_decisions decisions cursorKey cursor).
Proof.
  unfold ApplyDecisions, apply_decisions. eapply atomic_ext.
  - apply (atomic_lift_bind (encode_decisions decisions) _ (fun ds t d =>
      let d1 := decide_db (encodeTime t) ds d in
      Ok (tt, if negb (bool_decide (cursorKey = "")) && negb (bool_decide (cursor = ""))
              then set_meta <[cursorKey := cursor]> d1 else d1))).
    intros ds _. eapply atomic_ext; [apply (in_tx_spec _ id)|].
    + unfold decisions_tx. eapply runs_bind; [apply runs_time|intros t].
      eapply runs_bind; [apply runs_apply_each|intros u]. apply runs_when, runs_exec.
    + intros t d. unfold step_bind, step_when, step_ret. by destruct (_ && _).
  - intros t d. by destruct (encode_decisions decisions).
Qed.
End observing.
