(* ===== verification/Migrate.v ===== *)
(** Package store, part four: the schema and its migrations.  store.init and
    addColumnIfMissing create what is missing, migrateLegacy (store/legacy.go)
    folds the typed columns of a pre-gatekit database into the metadata bag once,
    boundExistingHistory (store/limits.go) trims what older releases left, and
    Open runs the three in that order. *)

From S2P Require Import Prelude GoStrings GoTime Netip Json Approval Database Tables Store Writes Refinement.
From Stdlib Require Import Ascii String.
From stdpp Require Import strings gmap sorting.
#[local] Open Scope stdpp_scope.
#[local] Open Scope Z_scope.

(** ** Schema *)

Definition base_columns : list string :=
  ["fp"; "status"; "label"; "first_seen"; "last_seen"; "count"; "meta"].

(** CREATE TABLE IF NOT EXISTS fingerprints (...) *)
Definition sql_create_fingerprints (d : DB) : result (unit * DB) :=
  Ok (tt, if bool_decide (db_columns d = []) then set_columns (fun _ => base_columns) d else d).

(** CREATE TABLE IF NOT EXISTS of a history table, the alerts or meta, and
    CREATE INDEX IF NOT EXISTS: a missing table is an empty one. *)
Definition sql_create_other (d : DB) : result (unit * DB) := Ok (tt, d).

Definition init_statements : list (DB -> result (unit * DB)) :=
  sql_create_fingerprints :: replicate 8 sql_create_other.

(** ALTER TABLE fingerprints ADD COLUMN ...: the rows get the column's default. *)
Definition default_column (column : string) (r : FpRow) : FpRow :=
  {| fr_status := fr_status r; fr_label := fr_label r; fr_first_seen := fr_first_seen r;
     fr_last_seen := fr_last_seen r;
     fr_count := if bool_decide (column = "count") then 0 else fr_count r;
     fr_meta := if bool_decide (column = "meta") then "{}" else fr_meta r;
     fr_approval_ranges :=
       if bool_decide (column = "approval_ranges") then None else fr_approval_ranges r;
     fr_legacy := fr_legacy r |}.

Definition sql_add_column (column : string) (d : DB) : result (unit * DB) :=
  Ok (tt, set_fps (fmap (default_column column)) (set_columns (fun c => c ++ [column]) d)).

Definition hasColumn (column : string) : M bool :=
  query_rows OnReader "close table info rows" db_columns
    (fun names => Ok (bool_decide (column ∈ names))).

Definition addColumnIfMissing (column : string) : M unit :=
  has ← hasColumn column;
  if has : bool then mret tt else db_exec (sql_add_column column).

Fixpoint each {A} (f : A -> M unit) (l : list A) : M unit :=
  match l with
  | [] => mret tt
  | x :: rest => f x ;; each f rest
  end.

Definition added_columns : list string := ["count"; "meta"; "approval_ranges"].

Definition init : M unit :=
  each (fun stmt => db_exec stmt) init_statements ;;
  each addColumnIfMissing added_columns.

(** ** Bounding an existing history *)

Definition bound_tx : M unit :=
  tx_exec (sql_drop_oversized_meta MaxMetadataBytes) ;;
  tx_exec (sql_bound_sightings MaxObservationValues) ;;
  tx_exec (sql_bound_ips MaxObservationValues) ;;
  tx_exec (sql_bound_ports MaxObservationValues).

Definition boundExistingHistory : M unit := in_tx (u ← bound_tx; Commit ;; mret u).

(** ** Legacy columns *)

(** [type Kind int] *)
Definition Kind : Type := Z.
Definition KindString : Kind := 0.
Definition KindBool : Kind := 1.
Definition KindJSON : Kind := 2.

Record LegacyColumn := { lc_Column : string; lc_MetaKey : string; lc_Kind : Kind }.

Definition metaLegacyMigrated : string := "gatekit_legacy_migrated".

(** The text SQLite gives for a column; NULL is [None]. *)
Definition column_value (fp : string) (r : FpRow) (column : string) : option string :=
  if bool_decide (column = "fp") then Some fp
  else if bool_decide (column = "status") then Some (fr_status r)
  else if bool_decide (column = "label") then Some (fr_label r)
  else if bool_decide (column = "first_seen") then Some (fr_first_seen r)
  else if bool_decide (column = "last_seen") then Some (fr_last_seen r)
  else if bool_decide (column = "count") then Some (Itoa (fr_count r))
  else if bool_decide (column = "meta") then Some (fr_meta r)
  else if bool_decide (column = "approval_ranges") then fr_approval_ranges r
  else default None (fr_legacy r !! column).

(** UPDATE fingerprints SET meta = ? WHERE fp = ? *)
Definition sql_update_meta (fp meta : string) (d : DB) : result (unit * DB) :=
  Ok (tt, set_fps (fun t => match t !! fp with
                            | Some r => <[fp := with_meta meta r]> t
                            | None => t
                            end) d).

(** [fmt.Errorf("context: %w", err)] around a call; a panic passes. *)
Definition wrap_m {A} (context : string) (m : M A) : M A := fun w =>
  match m w with
  | (Err (ErrPanic msg), w1) => (Err (ErrPanic msg), w1)
  | (r, w1) => (wrap_error context r, w1)
  end.

(** ** The directory of a path: [dir := filepath.Dir(path); dir != "" && dir != "."] *)

Fixpoint split_byte (c : ascii) (s : string) : list string :=
  match s with
  | EmptyString => [""]
  | String a r =>
      match split_byte c r with
      | x :: t => if bool_decide (a = c) then "" :: x :: t else String a x :: t
      | [] => []
      end
  end.

(** filepath.Clean over the components of an unrooted path. *)
Definition clean_step (stack : list string) (component : string) : list string :=
  if bool_decide (component = "") || bool_decide (component = ".") then stack
  else if bool_decide (component = "..") then
    match stack with
    | x :: t => if bool_decide (x = "..") then ".." :: stack else t
    | [] => [".."]
    end
  else component :: stack.

Definition has_dir (path : string) : bool :=
  match path with
  | String "/"%char _ => true
  | _ => negb (bool_decide
           (fold_left clean_step (List.removelast (split_byte "/"%char path)) [] = []))
  end.

Section legacy.
Context `{JSONCodec Any} `{RowOrder}.

Definition decodeLegacy (raw : string) (kind : Kind) : result (option Any) :=
  if kind =? KindBool then
    Ok (Some (any_bool (negb (bool_decide (raw = "")) && negb (bool_decide (raw = "0")))))
  else if kind =? KindJSON then
    if bool_decide (TrimSpace raw = "") then Ok None
    else match Unmarshal_any raw with
         | Some v => Ok v
         | None => Err (ErrWrap "decode json" (ErrText "json: cannot unmarshal" [raw]))
         end
  else if bool_decide (raw = "") then Ok None else Ok (Some (any_string raw)).

(** The loop over the columns for one row; assigning to a nil map panics. *)
Fixpoint fold_columns (fp : string) (r : FpRow) (cols : list LegacyColumn) (meta : GoMap Any)
    : result (GoMap Any) :=
  match cols with
  | [] => Ok meta
  | c :: rest =>
      match column_value fp r (lc_Column c) with
      | None => fold_columns fp r rest meta
      | Some raw =>
          if bool_decide (is_Some (map_of meta !! lc_MetaKey c)) then fold_columns fp r rest meta
          else match decodeLegacy raw (lc_Kind c) with
               | Err e => Err (ErrWrap "fingerprint %s: column %s" e)
               | Ok None => fold_columns fp r rest meta
               | Ok (Some value) =>
                   match meta with
                   | None => Err (ErrPanic "assignment to entry in nil map")
                   | Some m => fold_columns fp r rest (Some (<[lc_MetaKey c := value]> m))
                   end
               end
      end
  end.

Definition legacy_start (metaJSON : string) : result (GoMap Any) :=
  if bool_decide (TrimSpace metaJSON = "") then Ok (Some ∅)
  else match Unmarshal_map metaJSON with
       | Some m => Ok m
       | None => Err (ErrWrap "fingerprint %s: decode existing meta"
                        (ErrText "json: cannot unmarshal" [metaJSON]))
       end.

(** The update of one row: its fingerprint and its new metadata text. *)
Definition legacy_row (present : list LegacyColumn) (row : string * FpRow)
    : result (string * string) :=
  meta ← legacy_start (fr_meta row.2);
  meta' ← fold_columns row.1 row.2 present meta;
  encoded ← encodeMeta meta';
  Ok (row.1, encoded).

(** [errors.Join(err, closeError("close legacy rows", rows.Close))] on every
    error return of the loop; a panic runs no such return. *)
Definition close_legacy_rows {A} (m : M A) : M A := fun w =>
  match m w with
  | (Ok a, w1) => (Ok a, w1)
  | (Err (ErrPanic msg), w1) => (Err (ErrPanic msg), w1)
  | (Err e, w1) => let '(c, w2) := poll w1 in
                   (join_result (Err e) (closeError "close legacy rows" c), w2)
  end.

Definition read_updates (present : list LegacyColumn) : M (list (string * string)) :=
  poll ;; d ← snapshot OnReader;
  updates ← close_legacy_rows
    (u ← lift (scan_all (legacy_row present) (scan_rows (db_fps d))); poll ;; mret u);
  wrap_m "close legacy rows" poll ;; mret updates.

Fixpoint present_columns (cols : list LegacyColumn) : M (list LegacyColumn) :=
  match cols with
  | [] => mret []
  | c :: rest =>
      has ← hasColumn (lc_Column c);
      l ← present_columns rest;
      mret (if has : bool then c :: l else l)
  end.

Definition update_tx (updates : list (string * string)) : M unit :=
  each (fun '(fp, meta) => tx_exec (sql_update_meta fp meta)) updates ;;
  tx_exec (sql_set_meta metaLegacyMigrated "1").

Definition migrateLegacy (cols : list LegacyColumn) : M unit :=
  if bool_decide (List.length cols = 0%nat) then mret tt
  else
    done ← GetMeta metaLegacyMigrated;
    if bool_decide (done = "1") then mret tt
    else
      present ← present_columns cols;
      if bool_decide (List.length present = 0%nat) then SetMeta metaLegacyMigrated "1"
      else
        updates ← read_updates present;
        in_tx (poll ;;
          closeWithError "close legacy update statement" poll (u ← update_tx updates; Commit ;; mret u)).

(** ** Open *)

Record Options := { o_Path : string; o_MaxFingerprints : Z; o_Legacy : list LegacyColumn }.

(** errors.Join(err, closeError(context, closing)) on an error return. *)
Definition join_close {A} (context : string) (closing : M unit) (m : M A) : M A := fun w =>
  match m w with
  | (Ok a, w1) => (Ok a, w1)
  | (Err (ErrPanic msg), w1) => (Err (ErrPanic msg), w1)
  | (Err e, w1) => let '(c, w2) := closing w1 in (join_result (Err e) (closeError context c), w2)
  end.

(** Store.Close: the reader, then the writer; both are closed whatever the
    other reports. *)
Definition Close : M unit := fun w =>
  let '(r1, w1) := poll w in
  let '(r2, w2) := poll w1 in
  (match errors_Join (match r1 with Err e => Some e | Ok _ => None end)
                     (match r2 with Err e => Some e | Ok _ => None end) with
   | Some e => Err e
   | None => Ok tt
   end, w2).

(** Open: the parent directory is created unless it is the current one. *)
Definition Open (opts : Options) : M Store :=
  if bool_decide (o_Path opts = "") then throw (ErrText "empty database path" [])
  else
    (if has_dir (o_Path opts) then wrap_m "create database directory" poll else mret tt) ;;
    poll ;;
    join_close "close writer" poll poll ;;
    join_close "close store" Close
      (init ;;
       wrap_m "migrate legacy columns" (migrateLegacy (o_Legacy opts)) ;;
       wrap_m "bound observation history" boundExistingHistory) ;;
    mret {| st_path := o_Path opts; st_maxFingerprints := o_MaxFingerprints opts |}.
End legacy.

(** ** What the migrations do

    Open is not one transaction: [delivers] says that a success has done exactly
    the pure function's work, and that any outcome, an interruption included,
    relates the old database to the new one by [Q]. *)

Definition delivers {A} (Q : DB -> DB -> Prop) (m : M A) (F : Step A) : Prop :=
  forall w r w', working w = None -> m w = (r, w') ->
    working w' = None /\ clock w' = clock w /\
    (forall a, r = Ok a -> F (clock w) (committed w) = Ok (a, committed w')) /\
    Q (committed w) (committed w') /\
    (script w = [] -> script w' = [] /\ agrees r (F (clock w) (committed w))).

Section delivers.
Context (Q : DB -> DB -> Prop) `{!PreOrder Q}.

Lemma implements_delivers {A} (m : M A) F :
  implements m F -> (forall t d a d', F t d = Ok (a, d') -> Q d d') -> delivers Q m F.
Proof.
  intros Hm HQ w r w' Hw H. destruct (Hm w r w' Hw H) as (H1 & H2 & H3 & H4 & H5).
  split_and!; [done..| |done]. destruct r as [a|e].
  - eapply HQ, H3. done.
  - destruct (H4 eq_refl) as [->|(a & Ha)]; [done|by eapply HQ].
Qed.

Lemma reads_delivers {A} (m : M A) f : reads OnReader m f -> delivers Q m (step_read f).
Proof.
  intros Hm. apply implements_delivers; [by apply atomic_implements, implements_reads|].
  intros t d a d'. unfold step_read. by destruct (f d); intros [= _ <-].
Qed.

Lemma delivers_ret {A} (a : A) : delivers Q (mret a) (step_ret a).
Proof. apply (reads_delivers _ (fun _ => Ok a)), reads_ret. Qed.

Lemma delivers_bind {A B} (m : M A) (k : A -> M B) F G :
  delivers Q m F -> (forall a, delivers Q (k a) (G a)) -> delivers Q (m ≫= k) (step_bind F G).
Proof.
  intros Hm Hk w r w' Hw H. unfold mbind, M_bind in H. unfold step_bind.
  destruct (m w) as [[a|e] w1] eqn:E; destruct (Hm _ _ _ Hw E) as (H1 & H2 & H3 & H4 & H5).
  - destruct (Hk a _ _ _ H1 H) as (K1 & K2 & K3 & K4 & K5). rewrite (H3 a eq_refl).
    rewrite H2 in *. split_and!; [done..|by etrans|]. intros [Hs _]%H5. auto.
  - injection H as <- <-. split_and!; [done..|]. intros [Hs Ha]%H5. split; [done|].
    destruct (F (clock w) (committed w)) as [[]|]; simpl in *; congruence.
Qed.

Lemma delivers_ext {A} (m : M A) F G :
  delivers Q m F -> (forall t d, F t d = G t d) -> delivers Q m G.
Proof. intros Hm He w r w' Hw H. rewrite <- !He. by apply Hm. Qed.

(** Labelling an error, and cleaning up after one. *)
Definition step_wrap {A} (context : string) (F : Step A) : Step A := fun t d =>
  match F t d with
  | Err (ErrPanic msg) => Err (ErrPanic msg)
  | r => wrap_error context r
  end.

Lemma delivers_wrap {A} context (m : M A) F :
  delivers Q m F -> delivers Q (wrap_m context m) (step_wrap context F).
Proof.
  intros Hm w r w' Hw H. unfold wrap_m in H. destruct (m w) as [r1 w1] eqn:E.
  destruct (Hm _ _ _ Hw E) as (H1 & H2 & H3 & H4 & H5). unfold step_wrap.
  destruct r1 as [a|e].
  - injection H as <- <-. rewrite (H3 a eq_refl). split_and!; [done|done|by intros a0 [= <-]|done|].
    intros [? _]%H5. done.
  - assert ((match e with ErrPanic msg => Err (ErrPanic msg)
             | _ => wrap_error context (Err (A:=A) e) end, w1) = (r, w')) as Hr
      by (by destruct e). clear H. injection Hr as <- <-.
    split_and!; [done..|by destruct e|done|]. intros [? Ha]%H5. split; [done|].
    destruct (F (clock w) (committed w)) as [[]|e']; simpl in Ha; [done|].
    injection Ha as <-. by destruct e.
Qed.

Lemma delivers_join_close {A} context closing (m : M A) F :
  reads OnReader closing (fun _ => Ok tt) ->
  delivers Q m F -> delivers Q (join_close context closing m) F.
Proof.
  intros Hc Hm w r w' Hw H. unfold join_close in H. destruct (m w) as [r1 w1] eqn:E.
  destruct (Hm _ _ _ Hw E) as (H1 & H2 & H3 & H4 & H5). destruct r1 as [a|e].
  { injection H as <- <-. by split_and!. }
  assert ((exists msg, e = ErrPanic msg) \/
    (let '(c, w2) := closing w1 in (join_result (Err (A:=A) e) (closeError context c), w2)) = (r, w'))
    as [[msg ->]|Hr] by (destruct e; eauto).
  { injection H as <- <-. by split_and!. }
  clear H. destruct (closing w1) as [c w2] eqn:Ec. injection Hr as <- <-.
  destruct (Hc w1 (committed w1) c w2 eq_refl Ec) as (C1 & C2 & C3 & C4 & C5).
  split_and!; [congruence..|by destruct (closeError context c)|by rewrite C1|].
  intros [Hs Ha]%H5. destruct (C5 Hs) as [? ->]. split; [done|]. exact Ha.
Qed.
End delivers.

(** ** The pure migrations *)

(** The database a statement leaves; one that fails leaves it as it was. *)
Definition ok_db {A} (f : DB -> result (A * DB)) (d : DB) : DB :=
  match f d with
  | Ok (_, d') => d'
  | Err _ => d
  end.

Definition add_column_db (column : string) (d : DB) : DB :=
  if bool_decide (column ∈ db_columns d) then d else ok_db (sql_add_column column) d.

Definition init_db (d : DB) : DB :=
  add_column_db "approval_ranges" (add_column_db "meta" (add_column_db "count"
    (ok_db sql_create_fingerprints d))).

Definition bound_db (d : DB) : DB :=
  ok_db (sql_bound_ports MaxObservationValues) (ok_db (sql_bound_ips MaxObservationValues)
    (ok_db (sql_bound_sightings MaxObservationValues)
      (ok_db (sql_drop_oversized_meta MaxMetadataBytes) d))).

Lemma boundExistingHistory_atomic : atomic boundExistingHistory (fun _ d => Ok (tt, bound_db d)).
Proof.
  eapply atomic_ext; [apply (in_tx_spec bound_tx id)|].
  - unfold bound_tx. eapply runs_bind; [apply runs_exec|intros u1].
    eapply runs_bind; [apply runs_exec|intros u2]. eapply runs_bind; [apply runs_exec|intros u3].
    exact (runs_exec _).
  - done.
Qed.

Lemma addColumnIfMissing_implements column :
  implements (addColumnIfMissing column) (fun _ d => Ok (tt, add_column_db column d)).
Proof.
  intros w r w' Hw H. unfold addColumnIfMissing in H. unfold mbind at 1, M_bind in H.
  destruct (hasColumn column w) as [rh w1] eqn:E.
  destruct (reads_query_rows OnReader "close table info rows" db_columns
    (fun names => Ok (bool_decide (column ∈ names))) w (committed w) rh w1 eq_refl E)
    as (H1 & H2 & H3 & H4 & H5).
  unfold add_column_db. destruct rh as [has|e].
  2:{ injection H as <- <-. split_and!; [congruence|done|done|by left|]. by intros [_ ?]%H5. }
  specialize (H4 eq_refl). injection H4 as ->. destruct (bool_decide (column ∈ db_columns (committed w))).
  - injection H as <- <-. split_and!; [congruence|done| |done|by intros [? _]%H5].
    intros [] _. by rewrite H1.
  - destruct (atomic_exec (sql_add_column column)) as [Hi _]. rewrite Hw in H2.
    destruct (Hi w1 r w' H2 H) as (I1 & I2 & I3 & I4 & I5). rewrite H1, H3 in *.
    split_and!; [done|done| | |].
    + intros [] Ha. by rewrite <- (I3 tt Ha).
    + intros He. destruct (I4 He) as [?|[[] Ha]]; [by left|right; exists tt]. by rewrite <- Ha.
    + intros [Hs _]%H5. destruct (I5 Hs) as [? Ha]. done.
Qed.

(** Rows keep what a migration must not touch. *)
Definition verdict_of (r : FpRow) :=
  (fr_status r, fr_label r, fr_first_seen r, fr_last_seen r, fr_legacy r).

Definition keeps_rows (d d' : DB) : Prop :=
  (forall fp, verdict_of <$> db_fps d' !! fp = verdict_of <$> db_fps d !! fp) /\
  ("approval_ranges" ∈ db_columns d -> forall fp,
     (fr_approval_ranges <$> db_fps d' !! fp) = (fr_approval_ranges <$> db_fps d !! fp)) /\
  ("count" ∈ db_columns d -> forall fp,
     (fr_count <$> db_fps d' !! fp) = (fr_count <$> db_fps d !! fp)) /\
  db_columns d ⊆ db_columns d' /\ db_alerts d' = db_alerts d /\
  db_ips d' ⊆ db_ips d /\ db_ports d' ⊆ db_ports d /\ db_sightings d' ⊆ db_sightings d.

#[export] Instance keeps_rows_preorder : PreOrder keeps_rows.
Proof.
  split.
  - intros d. by split_and!.
  - intros d1 d2 d3 (A1 & A2 & A3 & A4 & A5 & A6 & A7 & A8)
      (B1 & B2 & B3 & B4 & B5 & B6 & B7 & B8).
    split_and!; [by intros fp; rewrite B1| | |set_solver|congruence|set_solver|set_solver|by etrans].
    + intros Hin fp. rewrite B2, A2 by set_solver. done.
    + intros Hin fp. rewrite B3, A3 by set_solver. done.
Qed.

(** A change of the metadata alone. *)
Lemma keeps_rows_meta d d' :
  (forall fp, (with_meta "" <$> db_fps d' !! fp) = (with_meta "" <$> db_fps d !! fp)) ->
  db_columns d' = db_columns d -> db_alerts d' = db_alerts d ->
  db_ips d' ⊆ db_ips d -> db_ports d' ⊆ db_ports d -> db_sightings d' ⊆ db_sightings d ->
  keeps_rows d d'.
Proof.
  intros Hm Hc Ha Hi Hp Hsg. assert (forall {B} (f : FpRow -> B), (forall r, f (with_meta "" r) = f r) ->
    forall fp, f <$> db_fps d' !! fp = f <$> db_fps d !! fp) as Hf.
  { intros B f Hf fp. specialize (Hm fp).
    destruct (db_fps d' !! fp), (db_fps d !! fp); simpl in *; try done.
    injection Hm as Hm. f_equal. rewrite <- (Hf f0), <- (Hf f1). unfold with_meta. congruence. }
  split_and!; [intros fp; by apply Hf|intros _ fp; by apply Hf|intros _ fp; by apply Hf| |done..].
  by rewrite Hc.
Qed.

Lemma keeps_rows_bound d : keeps_rows d (bound_db d).
Proof.
  apply keeps_rows_meta; [|done|done|..].
  - intros fp. cbn. rewrite lookup_fmap. destruct (db_fps d !! fp) as [r|]; [|done]. simpl.
    f_equal. by case_match.
  - intros x. cbn [bound_db ok_db sql_bound_ports sql_bound_ips set_ports set_ips db_ips].
    by intros [_ ?]%elem_of_filter.
  - intros x. cbn [bound_db ok_db sql_bound_ports set_ports db_ports]. by intros [_ ?]%elem_of_filter.
  - cbn [bound_db ok_db sql_bound_ports sql_bound_ips sql_bound_sightings set_ports set_ips
      set_sightings db_sightings]. apply map_filter_subseteq.
Qed.

Lemma keeps_rows_create d : keeps_rows d (ok_db sql_create_fingerprints d).
Proof.
  unfold ok_db, sql_create_fingerprints. case_bool_decide as Hc; [|reflexivity].
  split_and!; try done; try (cbn; rewrite Hc); set_solver.
Qed.

Lemma keeps_rows_add column d :
  column ∈ added_columns -> keeps_rows d (add_column_db column d).
Proof.
  intros Hin. unfold add_column_db. case_bool_decide as Hc; [reflexivity|]. unfold ok_db, sql_add_column.
  split_and!; cbn [db_fps db_columns db_alerts set_fps set_columns].
  - intros fp. rewrite lookup_fmap. by destruct (db_fps d !! fp).
  - intros Hold fp. rewrite lookup_fmap. destruct (db_fps d !! fp); [|done]. simpl.
    rewrite bool_decide_false; [done|]. by intros ->.
  - intros Hold fp. rewrite lookup_fmap. destruct (db_fps d !! fp); [|done]. simpl.
    rewrite bool_decide_false; [done|]. by intros ->.
  - set_solver.
  - done.
  - done.
  - done.
  - done.
Qed.

Lemma init_delivers : delivers keeps_rows init (fun _ d => Ok (tt, init_db d)).
Proof.
  assert (forall (f : DB -> result (unit * DB)), (forall d, exists d', f d = Ok (tt, d')) ->
    (forall d, keeps_rows d (ok_db f d)) ->
    delivers keeps_rows (db_exec f) (fun _ d => Ok (tt, ok_db f d))) as Hexec.
  { intros f Hf Hk. eapply delivers_ext; [apply implements_delivers; [apply _|apply atomic_implements, atomic_exec|]|].
    - intros t d a d' Hd. specialize (Hk d). unfold ok_db in Hk. by rewrite Hd in Hk.
    - intros t d. unfold ok_db. by destruct (Hf d) as [d' ->]. }
  unfold init, init_statements, added_columns. cbn [each replicate].
  eapply delivers_ext.
  - repeat lazymatch goal with
      | |- delivers _ (_ ≫= _) _ => eapply delivers_bind; [apply _| |intros ?u]
      | |- delivers _ (addColumnIfMissing _) _ =>
          apply implements_delivers; [apply _|apply addColumnIfMissing_implements|];
          intros t d [] d' [= <-]; apply keeps_rows_add; set_solver
      | |- delivers _ (mret tt) _ => apply (delivers_ret keeps_rows tt)
      | |- delivers _ (db_exec sql_create_fingerprints) _ =>
          apply Hexec; [by eexists|apply keeps_rows_create]
      | |- delivers _ (db_exec sql_create_other) _ => apply Hexec; [by eexists|by intros d]
      end.
  - done.
Qed.

(** The columns of the mapping the database has. *)
Definition present_of (cols : list LegacyColumn) (d : DB) : list LegacyColumn :=
  filter (fun c => lc_Column c ∈ db_columns d) cols.

Lemma reads_present cols : reads OnReader (present_columns cols) (fun d => Ok (present_of cols d)).
Proof.
  induction cols as [|c cols IH]; [exact (reads_ret OnReader [])|]. cbn [present_columns]. eapply reads_ext.
  - eapply reads_bind; [apply reads_query_rows|intros has].
    eapply reads_bind; [apply IH|intros l]. apply reads_ret.
  - intros d. unfold mbind, result_bind, present_of. rewrite filter_cons.
    case_bool_decide; case_decide; done.
Qed.

Definition apply_updates (updates : list (string * string)) (d : DB) : DB :=
  fold_left (fun d '(fp, meta) => ok_db (sql_update_meta fp meta) d) updates d.

Lemma keeps_rows_updates updates d : keeps_rows d (apply_updates updates d).
Proof.
  revert d. induction updates as [|[fp meta] updates IH]; intros d; [reflexivity|].
  etrans; [|apply IH]. apply keeps_rows_meta; [|done..]. intros fp'. cbn.
  destruct (db_fps d !! fp) as [r|] eqn:E; [|done].
  destruct (decide (fp' = fp)) as [->|Hne].
  - rewrite lookup_insert_eq, E. done.
  - by rewrite lookup_insert_ne.
Qed.

Section legacy_steps.
Context `{JSONCodec Any} `{RowOrder}.

Definition legacy_updates (present : list LegacyColumn) (d : DB) : result (list (string * string)) :=
  scan_all (legacy_row present) (scan_rows (db_fps d)).

Lemma reads_close_legacy {A} q (m : M A) f : reads q m f -> reads q (close_legacy_rows m) f.
Proof.
  intros Hm w d r w' Hs Hrun. unfold close_legacy_rows in Hrun. destruct (m w) as [r1 w1] eqn:E.
  destruct (Hm _ _ _ _ Hs E) as (H1 & H2 & H3 & H4 & H5).
  destruct r1 as [a|e]; [by injection Hrun as <- <-|].
  assert ((exists msg, e = ErrPanic msg) \/
    (let '(c, w2) := poll w1 in
     (join_result (Err (A:=A) e) (closeError "close legacy rows" c), w2)) = (r, w'))
    as [[msg ->]|Hr] by (destruct e; eauto); [by injection Hrun as <- <-|].
  clear Hrun. destruct (poll w1) as [c w2] eqn:Ec. injection Hr as <- <-.
  pose proof (poll_spec _ _ _ Ec) as (C1 & C2 & C3 & C4).
  split_and!; [congruence..|by destruct c|]. intros [Hq <-]%H5. by destruct (C4 Hq) as [? ->].
Qed.

Lemma reads_wrap_poll context : reads OnReader (wrap_m context poll) (fun _ => Ok tt).
Proof.
  intros w d r w' _ Hrun. unfold wrap_m in Hrun. destruct (poll w) as [c w1] eqn:E.
  pose proof (poll_spec _ _ _ E) as (C1 & C2 & C3 & C4).
  assert (w1 = w') as -> by (destruct c as [[]|[]]; by simplify_eq).
  split_and!; [done..| |].
  - destruct c as [[]|[]]; simplify_eq/=; done.
  - intros [? ->]%C4. simpl in Hrun. by injection Hrun as <-.
Qed.

Lemma reads_updates present : reads OnReader (read_updates present) (legacy_updates present).
Proof.
  unfold read_updates, legacy_updates. eapply reads_ext.
  - eapply reads_bind; [apply reads_poll|intros u1].
    eapply reads_bind; [apply reads_snapshot|intros d].
    eapply reads_bind; [apply reads_close_legacy|intros updates].
    + eapply reads_bind; [apply reads_lift|intros u]. eapply reads_bind; [apply reads_poll|intros u2].
      apply reads_ret.
    + eapply reads_bind; [apply reads_wrap_poll|intros u3]. apply reads_ret.
  - intros d. unfold mbind, result_bind. by destruct (scan_all _ _).
Qed.

(** migrateLegacy as a function on the database. *)
Definition migrate_db (updates : list (string * string)) (d : DB) : DB :=
  set_meta <[metaLegacyMigrated := "1"]> (apply_updates updates d).

Definition migrate (cols : list LegacyColumn) : Step unit := fun _ d =>
  if bool_decide (List.length cols = 0%nat) then Ok (tt, d)
  else if bool_decide (default "" (db_meta d !! metaLegacyMigrated) = "1") then Ok (tt, d)
  else if bool_decide (List.length (present_of cols d) = 0%nat)
  then Ok (tt, set_meta <[metaLegacyMigrated := "1"]> d)
  else match legacy_updates (present_of cols d) d with
       | Err e => Err e
       | Ok updates => Ok (tt, migrate_db updates d)
       end.

Lemma runs_update_tx updates : runs (update_tx updates) (fun _ d => Ok (tt, migrate_db updates d)).
Proof.
  unfold update_tx. eapply runs_ext; [eapply runs_bind; [|intros u; exact (runs_exec _)]|].
  - instantiate (1 := fun _ d => Ok (tt, apply_updates updates d)).
    induction updates as [|[fp meta] updates IH]; [apply runs_ret|]. cbn [each].
    eapply runs_ext; [eapply runs_bind; [apply runs_exec|intros u; apply IH]|]. done.
  - done.
Qed.

Lemma keeps_rows_set_meta f d : keeps_rows d (set_meta f d).
Proof. by apply keeps_rows_meta. Qed.

Lemma migrateLegacy_delivers cols : delivers keeps_rows (migrateLegacy cols) (migrate cols).
Proof.
  unfold migrateLegacy, migrate.
  destruct (bool_decide (List.length cols = 0%nat)); [exact (delivers_ret keeps_rows tt)|].
  eapply delivers_ext.
  - eapply delivers_bind; [apply _|eapply reads_delivers; [apply _|apply reads_GetMeta]|].
    intros done.
    instantiate (1 := fun done _ d => if bool_decide (done = "1") then Ok (tt, d)
      else if bool_decide (List.length (present_of cols d) = 0%nat)
      then Ok (tt, set_meta <[metaLegacyMigrated := "1"]> d)
      else match legacy_updates (present_of cols d) d with
           | Err e => Err e
           | Ok updates => Ok (tt, migrate_db updates d)
           end).
    cbv beta. destruct (bool_decide (done = "1")); [exact (delivers_ret keeps_rows tt)|].
    eapply delivers_ext.
    + eapply delivers_bind; [apply _|eapply reads_delivers; [apply _|apply (reads_present cols)]|].
      intros present.
      instantiate (1 := fun present _ d => if bool_decide (List.length present = 0%nat)
        then Ok (tt, set_meta <[metaLegacyMigrated := "1"]> d)
        else match legacy_updates present d with
             | Err e => Err e
             | Ok updates => Ok (tt, migrate_db updates d)
             end).
      cbv beta. destruct (bool_decide (List.length present = 0%nat)).
      * apply implements_delivers; [apply _|apply atomic_implements, SetMeta_atomic|].
        intros t d [] d' [= <-]. apply keeps_rows_set_meta.
      * eapply delivers_ext.
        -- eapply delivers_bind; [apply _|eapply reads_delivers; [apply _|apply (reads_updates present)]|].
           intros updates. apply implements_delivers; [apply _|apply in_tx_stmt_spec, runs_update_tx|].
           intros t d [] d' [= <-]. etrans; [apply (keeps_rows_updates updates)|apply keeps_rows_set_meta].
        -- intros t d. unfold step_bind, step_read. by destruct (legacy_updates present d).
    + done.
  - intros t d. unfold step_bind, step_read, get_meta. done.
Qed.

(** Open as a function on the database. *)
Definition open_db (opts : Options) : Step Store := fun t d =>
  if bool_decide (o_Path opts = "") then Err (ErrText "empty database path" [])
  else match step_wrap "migrate legacy columns" (migrate (o_Legacy opts)) t (init_db d) with
       | Err e => Err e
       | Ok (_, d') =>
           Ok ({| st_path := o_Path opts; st_maxFingerprints := o_MaxFingerprints opts |},
               bound_db d')
       end.

Lemma reads_Close : reads OnReader Close (fun _ => Ok tt).
Proof.
  intros w d r w' _ Hrun. unfold Close in Hrun. destruct (poll w) as [r1 w1] eqn:E1.
  destruct (poll w1) as [r2 w2] eqn:E2. pose proof (poll_spec _ _ _ E1) as (A1 & A2 & A3 & A4).
  pose proof (poll_spec _ _ _ E2) as (B1 & B2 & B3 & B4). injection Hrun as <- <-.
  split_and!; [congruence..| |].
  - by destruct r1 as [[]|], r2 as [[]|].
  - intros [Hs ->]%A4. by destruct (B4 Hs) as [? ->].
Qed.

Lemma Open_delivers opts : delivers keeps_rows (Open opts) (open_db opts).
Proof.
  assert (forall context, delivers keeps_rows (wrap_m context poll) (step_ret tt)) as Hwp
    by (intros c; apply (reads_delivers _ _ (fun _ => Ok tt)), reads_wrap_poll).
  assert (delivers keeps_rows poll (step_ret tt)) as Hp
    by (apply (reads_delivers _ _ (fun _ => Ok tt)), reads_poll).
  unfold Open, open_db. destruct (bool_decide (o_Path opts = "")).
  { apply implements_delivers; [apply _|exact (atomic_implements _ _ (atomic_throw _))|done]. }
  eapply delivers_ext.
  - eapply delivers_bind; [apply _| |intros u1].
    { instantiate (1 := step_ret tt). destruct (has_dir (o_Path opts)); [apply Hwp|].
      apply delivers_ret, _. }
    eapply delivers_bind; [apply _|apply Hp|intros u2].
    eapply delivers_bind; [apply _|apply delivers_join_close; [apply reads_poll|apply Hp]|intros u3].
    eapply delivers_bind; [apply _| |intros u4; apply delivers_ret, _].
    apply delivers_join_close; [apply reads_Close|].
    eapply delivers_bind; [apply _|apply init_delivers|intros u5].
    eapply delivers_bind; [apply _|apply delivers_wrap, migrateLegacy_delivers|intros u6].
    apply delivers_wrap, implements_delivers;
      [apply _|apply atomic_implements, boundExistingHistory_atomic|].
    intros t d [] d' [= <-]. apply keeps_rows_bound.
  - intros t d. unfold step_bind, step_ret.
    destruct (step_wrap _ _ t (init_db d)) as [[]|]; [|done]. done.
Qed.

(** A successful Open, from the pure function alone. *)
Lemma open_db_keeps opts t d st d' : open_db opts t d = Ok (st, d') -> keeps_rows d d'.
Proof.
  intros Ho. pose (w := {| committed := d; working := None; script := []; clock := t |}).
  destruct (Open opts w) as [r w'] eqn:E.
  destruct (Open_delivers opts w r w' eq_refl E) as (_ & _ & H3 & H4 & H5).
  destruct (H5 eq_refl) as [_ Ha]. simpl in *. rewrite Ho in *. simpl in Ha. subst r.
  specialize (H3 st eq_refl). by injection H3 as ->.
Qed.
End legacy_steps.
