(* ===== verification/Invariant.v ===== *)
(** The invariant of the store's database, and that every method preserves it
    under any script of faults; what reads return from a well-formed database. *)

From S2P Require Import Prelude GoStrings GoTime Netip Json Approval Database Tables Store Writes Refinement.
From Stdlib Require Import Ascii String.
From stdpp Require Import strings gmap sorting.
#[local] Open Scope stdpp_scope.
#[local] Open Scope Z_scope.

(** ** The methods as one type of calls *)

Inductive StoreCall (Any : Type) :=
  | CallObserve (obs : Observation Any) (blockUnknown : bool)
  | CallGet (fp : string)
  | CallList
  | CallListPage (after through : string) (limit : Z)
  | CallLastFingerprint
  | CallResolveFingerprint (query : string)
  | CallSetStatus (fp : string) (status : Status)
  | CallUpsertStatus (fp : string) (status : Status) (label : string)
  | CallSetLabel (fp label : string)
  | CallDelete (fp : string)
  | CallPruneToLimit (max : Z)
  | CallResetFingerprints
  | CallReconcileFingerprintMethod (method : string) (reset : bool)
  | CallGetMeta (key : string)
  | CallSetMeta (key value : string)
  | CallRecordBlockedRangeAlert (rangeName ip fp : string)
  | CallHasBlockedRangeAlert (rangeName ip : string)
  | CallForgetBlockedRangeAlert (rangeName ip : string)
  | CallApplyDecisions (decisions : list PolicyDecision) (cursorKey cursor : string).
Arguments CallObserve {Any}. Arguments CallGet {Any}. Arguments CallList {Any}.
Arguments CallListPage {Any}. Arguments CallLastFingerprint {Any}.
Arguments CallResolveFingerprint {Any}. Arguments CallSetStatus {Any}.
Arguments CallUpsertStatus {Any}. Arguments CallSetLabel {Any}. Arguments CallDelete {Any}.
Arguments CallPruneToLimit {Any}. Arguments CallResetFingerprints {Any}.
Arguments CallReconcileFingerprintMethod {Any}. Arguments CallGetMeta {Any}.
Arguments CallSetMeta {Any}. Arguments CallRecordBlockedRangeAlert {Any}.
Arguments CallHasBlockedRangeAlert {Any}. Arguments CallForgetBlockedRangeAlert {Any}.
Arguments CallApplyDecisions {Any}.

Definition ignore {A} (m : M A) : M unit := _ ← m; mret tt.

(** ** Relations that methods follow *)

(** Whatever the faults, no transaction stays open, and the old and the new
    database are related. *)
Definition follows {A} (R : instant -> DB -> DB -> Prop) (m : M A) : Prop :=
  forall w r w', working w = None -> m w = (r, w') ->
    working w' = None /\ clock w' = clock w /\ R (clock w) (committed w) (committed w').

Section follows.
Context (R : instant -> DB -> DB -> Prop) (Rrefl : forall t d, R t d d).

Lemma implements_follows {A} (m : M A) F :
  implements m F -> (forall t d a d', F t d = Ok (a, d') -> R t d d') -> follows R m.
Proof.
  intros Hm HF w r w' Hw H. destruct (Hm w r w' Hw H) as (H1 & H2 & H3 & H4 & _).
  split_and!; [done..|]. destruct r as [a|e].
  - eapply HF, H3; done.
  - destruct (H4 eq_refl) as [->|(a & Ha)]; [apply Rrefl|by eapply HF].
Qed.

Lemma atomic_follows {A} (m : M A) F :
  atomic m F -> (forall t d a d', F t d = Ok (a, d') -> R t d d') -> follows R m.
Proof. intros [Hm _]. by apply implements_follows. Qed.

Lemma reads_follows {A} (m : M A) f : reads OnReader m f -> follows R m.
Proof.
  intros Hm w r w' Hw H. destruct (Hm w (committed w) r w' eq_refl H) as (H1 & H2 & H3 & _).
  rewrite H1, H2. auto.
Qed.

Lemma follows_ret {A} (a : A) : follows R (mret a).
Proof. intros w r w' Hw [= <- <-]. auto. Qed.

Lemma follows_throw {A} e : follows R (throw (A:=A) e).
Proof. intros w r w' Hw [= <- <-]. auto. Qed.

Lemma follows_ignore {A} (m : M A) : follows R m -> follows R (ignore m).
Proof.
  intros Hm w r w' Hw H. unfold ignore, mbind, M_bind in H. destruct (m w) as [r1 w1] eqn:E.
  assert (w' = w1) as -> by (by destruct r1; injection H as _ <-). by eapply Hm.
Qed.

(** A read first. *)
Lemma reads_bind_follows {A B} (m : M A) f (k : A -> M B) :
  reads OnReader m f -> (forall a, follows R (k a)) -> follows R (m ≫= k).
Proof.
  intros Hm Hk w r w' Hw H. unfold mbind, M_bind in H. destruct (m w) as [[a|e] w1] eqn:E;
    destruct (Hm w (committed w) _ _ eq_refl E) as (H1 & H2 & H3 & _).
  - rewrite <- H1, <- H3. apply (Hk a w1 r w'); [congruence|done].
  - injection H as <- <-. rewrite H1, H2. auto.
Qed.

(** A write to the table meta afterwards. *)
Context (Rmeta : forall t d d' f, R t d d' -> R t d (set_meta f d')).

Lemma follows_SetMeta key value : follows R (SetMeta key value).
Proof.
  eapply atomic_follows; [apply SetMeta_atomic|]. intros t d a d' [= _ <-]. apply Rmeta, Rrefl.
Qed.

Lemma follows_then_SetMeta {A} (m : M A) key value :
  follows R m -> follows R (a ← m; SetMeta key value ;; mret a).
Proof.
  intros Hm w r w' Hw H. unfold mbind at 1, M_bind in H.
  destruct (m w) as [[a|e] w1] eqn:E; destruct (Hm w _ _ Hw E) as (H1 & H2 & H3).
  - unfold mbind at 1, M_bind in H. destruct (SetMeta key value w1) as [r2 w2] eqn:E2.
    destruct (SetMeta_atomic key value) as [Hi _].
    destruct (Hi w1 r2 w2 H1 E2) as (I1 & I2 & I3 & I4 & _).
    assert (w' = w2) as -> by (by destruct r2; injection H as _ <-).
    split_and!; [done|congruence|]. destruct r2 as [u|e].
    + specialize (I3 u eq_refl). injection I3 as _ <-. by apply Rmeta.
    + destruct (I4 eq_refl) as [->|(u & Hu)]; [done|]. injection Hu as _ <-. by apply Rmeta.
  - by injection H as <- <-.
Qed.

Lemma follows_Reconcile method reset :
  follows R ResetFingerprints -> follows R (ReconcileFingerprintMethod method reset).
Proof.
  intros Hreset. eapply reads_bind_follows; [apply reads_GetMeta|]. intros stored.
  destruct (bool_decide (stored = method)); [apply follows_ret|].
  destruct (bool_decide (stored = "")).
  { intros w r w' Hw H. apply (follows_SetMeta MetaFingerprintMethod method w (fst (SetMeta MetaFingerprintMethod method w)) w' Hw).
    unfold mbind, M_bind in H. destruct (SetMeta _ _ w) as [r2 w2].
    by destruct r2; injection H as _ <-. }
  destruct reset; simpl; [by apply follows_then_SetMeta|].
  eapply reads_bind_follows; [apply reads_query_row|]. intros n. apply follows_throw.
Qed.
End follows.

Section calls.
Context `{JSONCodec Any} `{RowOrder}.

Definition run_call (s : Store) (c : StoreCall Any) : M unit :=
  match c with
  | CallObserve obs b => ignore (Observe s obs b)
  | CallGet fp => ignore (Get fp)
  | CallList => ignore List_
  | CallListPage a t l => ignore (ListPage a t l)
  | CallLastFingerprint => ignore LastFingerprint
  | CallResolveFingerprint q => ignore (ResolveFingerprint q)
  | CallSetStatus fp st => SetStatus fp st
  | CallUpsertStatus fp st l => UpsertStatus fp st l
  | CallSetLabel fp l => SetLabel fp l
  | CallDelete fp => Delete_fp fp
  | CallPruneToLimit max => ignore (PruneToLimit max)
  | CallResetFingerprints => ignore ResetFingerprints
  | CallReconcileFingerprintMethod m r => ignore (ReconcileFingerprintMethod m r)
  | CallGetMeta k => ignore (GetMeta k)
  | CallSetMeta k v => SetMeta k v
  | CallRecordBlockedRangeAlert r ip fp => ignore (RecordBlockedRangeAlert r ip fp)
  | CallHasBlockedRangeAlert r ip => ignore (HasBlockedRangeAlert r ip)
  | CallForgetBlockedRangeAlert r ip => ForgetBlockedRangeAlert r ip
  | CallApplyDecisions ds k c => ApplyDecisions ds k c
  end.

(** What a relation must allow for every call to follow it. *)
Record allows (R : instant -> DB -> DB -> Prop) (applies : list PolicyDecision -> Prop)
    (s : Store) : Prop := {
  allows_refl t d : R t d d;
  allows_observe obs b t d e d' : observe s obs b t d = Ok (e, d') -> R t d d';
  allows_status fp st t d d' : set_status fp st t d = Ok (tt, d') -> R t d d';
  allows_upsert fp st l t d d' : upsert_status fp st l t d = Ok (tt, d') -> R t d d';
  allows_label fp l t d d' : set_label fp l t d = Ok (tt, d') -> R t d d';
  allows_delete victims t d : R t d (delete_fps victims d);
  allows_meta t d d' f : R t d d' -> R t d (set_meta f d');
  allows_alerts f t d : R t d (set_alerts f d);
  allows_apply ds k c t d d' : applies ds -> apply_decisions ds k c t d = Ok (tt, d') -> R t d d'
}.

Definition call_applies (applies : list PolicyDecision -> Prop) (c : StoreCall Any) : Prop :=
  match c with
  | CallApplyDecisions ds _ _ => applies ds
  | _ => True
  end.

Lemma allows_follows R applies s c :
  allows R applies s -> call_applies applies c -> follows R (run_call s c).
Proof.
  intros [Hrefl Hobs Hst Hups Hlab Hdel Hmeta Hal Happ] Hc.
  assert (follows R ResetFingerprints) as Hreset.
  { apply (atomic_follows R Hrefl _ _ ResetFingerprints_atomic). intros t d a d' [= _ <-].
    unfold reset_db. auto. }
  destruct c; cbn [run_call]; try (apply follows_ignore);
    try (eapply reads_follows; [done|]; first [apply reads_Get | apply reads_List | apply reads_ListPage
      | apply reads_LastFingerprint | apply reads_ResolveFingerprint | apply reads_GetMeta
      | apply reads_HasBlockedRangeAlert]).
  - eapply atomic_follows; [done|apply Observe_atomic|]. intros t d a d'. apply Hobs.
  - eapply implements_follows; [done|apply SetStatus_implements|]. intros t d [] d'. apply Hst.
  - eapply implements_follows; [done|apply UpsertStatus_implements|]. intros t d [] d'. apply Hups.
  - eapply implements_follows; [done|apply SetLabel_implements|]. intros t d [] d'. apply Hlab.
  - eapply implements_follows; [done|apply Delete_implements|]. intros t d [] d'.
    unfold delete_one. destruct (db_fps d !! fp); [|done]. intros [= <-]. auto.
  - eapply atomic_follows; [done|apply PruneToLimit_atomic|]. intros t d a d'.
    unfold prune, prune_db. case_match; intros [= _ <-]; [done|]. case_match; auto.
  - done.
  - by apply follows_Reconcile.
  - by apply follows_SetMeta.
  - eapply implements_follows; [done|apply RecordBlockedRangeAlert_implements|]. intros t d a d'.
    unfold record_alert. case_match; intros [= _ <-]; auto.
  - eapply atomic_follows; [done|apply ForgetBlockedRangeAlert_atomic|]. intros t d a d' [= _ <-]. auto.
  - eapply atomic_follows; [done|apply ApplyDecisions_atomic|]. intros t d [] d'. by apply Happ.
Qed.
End calls.

(** ** Well-formed databases *)

Section wf.
Context `{JSONLaws Any}.

(** A row every reader can decode. *)
Record row_ok (r : FpRow) : Prop := {
  row_status : Status_Valid (fr_status r) = true;
  row_meta_small : str_len (fr_meta r) <= MaxMetadataBytes;
  row_ranges : exists s, scan_ranges (fr_status r) (fr_approval_ranges r) = Ok s;
  row_first : exists t, decodeTime (fr_first_seen r) = Ok t;
  row_last : exists t, decodeTime (fr_last_seen r) = Ok t;
  row_meta : exists m, scan_meta (fr_meta r) = Ok m
}.

Record wf (d : DB) : Prop := {
  wf_rows fp r : db_fps d !! fp = Some r -> row_ok r;
  (** foreign keys *)
  wf_ips fp ip : (fp, ip) ∈ db_ips d -> is_Some (db_fps d !! fp);
  wf_ports fp port : (fp, port) ∈ db_ports d -> is_Some (db_fps d !! fp);
  wf_sightings fp ip port ls : db_sightings d !! (fp, ip, port) = Some ls ->
    is_Some (db_fps d !! fp) /\ exists t, decodeTime ls = Ok t;
  (** bounded history *)
  wf_bound fp : (List.length (ips_of fp d) <= MaxObservationValues)%nat /\
    (List.length (ports_of fp d) <= MaxObservationValues)%nat /\
    (List.length (sightings_of fp d) <= MaxObservationValues)%nat
}.

Lemma row_ok_label l r : row_ok r -> row_ok (with_label l r).
Proof. by intros []. Qed.

Lemma row_ok_verdict st r : Status_Valid st = true -> row_ok r -> row_ok (with_verdict st None r).
Proof. intros Hst []. split; try done. by eexists. Qed.

Lemma time_ok t : in_year_range t -> exists t', decodeTime (encodeTime t) = Ok t'.
Proof. intros Ht. exists t. by apply decode_encode_time. Qed.

Lemma braces_ok : exists m, scan_meta "{}" = Ok m.
Proof.
  exists (Some ∅). unfold scan_meta. rewrite bool_decide_false by (vm_compute; done).
  by rewrite Unmarshal_braces.
Qed.

Lemma encodeMeta_ok meta s : encodeMeta meta = Ok s -> exists m, scan_meta s = Ok m.
Proof.
  unfold encodeMeta. case_bool_decide; [intros [= <-]; apply braces_ok|].
  destruct (Marshal_map (map_of meta)) as [s'|] eqn:E; [|done]. intros [= <-].
  unfold scan_meta. rewrite bool_decide_false by (by eapply Marshal_map_not_blank).
  rewrite (Unmarshal_Marshal_map _ _ E). by eexists.
Qed.

(** A scope read back from the text ApplyDecisions stores. *)
Lemma scan_ranges_marshalled s :
  scope_ok s -> exists text, Scope_MarshalJSON (Some s) = Ok text /\
    scan_ranges StatusApproved (Some text) = Ok (Some s).
Proof.
  intros Hs. destruct (Scope_JSON_ok s Hs) as (text & Hm & Hu). exists text. split; [done|].
  unfold scan_ranges. rewrite Hu. rewrite bool_decide_true by done.
  destruct (Unmarshal_strings text) as [[l|]|] eqn:E; [done| |done].
  unfold Scope_UnmarshalJSON in Hu. by rewrite E in Hu.
Qed.

Lemma wf_set_row fp r d :
  wf d -> row_ok r -> wf (set_fps <[fp := r]> d).
Proof.
  intros [Hrows Hips Hports Hsg Hb] Hr.
  assert (forall fp', is_Some (db_fps d !! fp') -> is_Some (<[fp := r]> (db_fps d) !! fp')) as Hin.
  { intros fp' Hfp. destruct (decide (fp' = fp)) as [->|]; [rewrite lookup_insert_eq; eauto|].
    by rewrite lookup_insert_ne. }
  split; cbn [db_fps db_ips db_ports db_sightings set_fps]; [| | | |done]; eauto.
  - intros fp' r' Hr'. destruct (decide (fp' = fp)) as [->|].
    + rewrite lookup_insert_eq in Hr'. by injection Hr' as <-.
    + rewrite lookup_insert_ne in Hr' by done. eauto.
  - intros fp' ip port ls Hls. destruct (Hsg _ _ _ _ Hls). auto.
Qed.

Lemma wf_delete victims d : wf d -> wf (delete_fps victims d).
Proof.
  intros [Hrows Hips Hports Hsg Hb].
  assert (forall fp, is_Some (db_fps d !! fp) -> survives victims d fp ->
    is_Some (db_fps (delete_fps victims d) !! fp)) as Hin.
  { intros fp [r Hr] [Hs|Hs]; [|congruence]. rewrite delete_fps_lookup, decide_False by done. eauto. }
  split.
  - intros fp r. rewrite delete_fps_lookup. case_decide; [done|]. apply Hrows.
  - intros fp ip. cbn [db_ips delete_fps]. rewrite elem_of_filter. intros [Hs Hi]. eauto.
  - intros fp p. cbn [db_ports delete_fps]. rewrite elem_of_filter. intros [Hs Hi]. eauto.
  - intros fp ip p ls. cbn [db_sightings delete_fps]. rewrite map_lookup_filter_Some.
    intros [Hl Hs]. destruct (Hsg _ _ _ _ Hl). auto.
  - intros fp. destruct (decide (survives victims d fp)) as [Hs|Hs].
    + destruct (delete_fps_survivor victims d fp Hs) as (-> & -> & ->). apply Hb.
    + destruct (delete_fps_victim victims d fp Hs) as (-> & -> & ->). simpl. lia.
Qed.

Lemma wf_history fp ip port now d :
  wf d -> is_Some (db_fps d !! fp) -> (exists t, decodeTime now = Ok t) ->
  wf (trim_db fp (record_history fp ip port now d)).
Proof.
  intros [Hrows Hips Hports Hsg Hb] Hfp Hnow.
  destruct (record_history_rows fp ip port now d) as (R1 & R2 & R3 & R4).
  set (d1 := record_history fp ip port now d) in *.
  destruct (trim_db_sub fp d1) as (S1 & S2 & S3).
  assert (db_fps (trim_db fp d1) = db_fps d) as Hf by exact R1.
  split; rewrite ?Hf.
  - done.
  - intros fp' ip' [Hi|[_ [= -> ->]]]%S1%R2; eauto.
  - intros fp' p' [Hi|[_ [= -> ->]]]%S2%R3; eauto.
  - intros fp' ip' p' ls Hl%S3. rewrite R4 in Hl. case_decide as Hk; [|by eauto].
    destruct Hk as [_ [= -> -> ->]]. injection Hl as <-. eauto.
  - intros fp'. destruct (decide (fp' = fp)) as [->|Hne].
    + destruct (trim_db_self fp d1) as (-> & -> & ->). rewrite !length_take. lia.
    + destruct (trim_db_other fp fp' d1 Hne) as (-> & -> & ->).
      rewrite (ips_of_ext fp' d1 d), (ports_of_ext fp' d1 d), (sightings_of_ext fp' d1 d); [done|..].
      * intros ip' p'. rewrite R4. rewrite decide_False; [done|]. naive_solver.
      * intros p'. rewrite R3. naive_solver.
      * intros ip'. rewrite R2. naive_solver.
Qed.

Lemma wf_meta f d : wf d -> wf (set_meta f d).
Proof. by intros []. Qed.

Lemma wf_alerts f d : wf d -> wf (set_alerts f d).
Proof. by intros []. Qed.

Lemma row_ok_new d st label t count meta ranges :
  Status_Valid st = true -> in_year_range t -> str_len meta <= MaxMetadataBytes ->
  (exists m, scan_meta meta = Ok m) -> (exists s, scan_ranges st ranges = Ok s) ->
  row_ok (new_row d st label (encodeTime t) count meta ranges).
Proof. intros Hst Ht Hl Hm Hr. split; try done; by apply time_ok. Qed.

Lemma row_ok_observed d r st t meta :
  (forall r0, r = Some r0 -> row_ok r0) -> Status_Valid st = true -> in_year_range t ->
  str_len meta <= MaxMetadataBytes -> (exists m, scan_meta meta = Ok m) ->
  row_ok (observed_row d r st (encodeTime t) meta).
Proof.
  intros Hr Hst Ht Hl Hm. destruct r as [r|]; simpl.
  - destruct (Hr r eq_refl) as []. split; try done. by apply time_ok.
  - apply row_ok_new; try done. by eexists.
Qed.

Lemma braces_small : str_len "{}" <= MaxMetadataBytes.
Proof. done. Qed.

(** The rows ApplyDecisions writes. *)
Definition scopes_ok (ds : list PolicyDecision) : Prop :=
  Forall (fun d => forall s, dec_ApprovalRanges d = Some s -> scope_ok s) ds.

Lemma encode_decisions_ok ds out :
  scopes_ok ds -> encode_decisions ds = Ok out ->
  Forall (fun '(d, scope) => Status_Valid (dec_Status d) = true /\
            exists s, scan_ranges (dec_Status d) scope = Ok s) out.
Proof.
  revert out. induction ds as [|d ds IH]; intros out Hs; cbn [encode_decisions].
  { by intros [= <-]. }
  apply Forall_cons in Hs as [Hd Hs]. destruct (Decision_Validate d) eqn:Hv; [done|].
  unfold Decision_Validate in Hv. destruct (_ || negb _) eqn:E1; [done|].
  apply orb_false_elim in E1 as [_ Hst%negb_false_iff]. destruct (_ && _) eqn:E2; [done|].
  unfold mbind, result_bind. intros Heq.
  destruct (dec_ApprovalRanges d) as [s|].
  - destruct (scan_ranges_marshalled s (Hd s eq_refl)) as (text & Hm & Hscan). rewrite Hm in Heq.
    destruct (encode_decisions ds) as [l|]; [|done]. injection Heq as <-.
    constructor; [|by apply IH]. split; [done|]. exists (Some s).
    apply andb_false_iff in E2 as [E2|E2]; [by rewrite bool_decide_true in E2 by eauto|].
    apply negb_false_iff, bool_decide_eq_true in E2. by rewrite E2.
  - destruct (encode_decisions ds) as [l|]; [|done]. injection Heq as <-.
    constructor; [|by apply IH]. split; [done|]. by exists None.
Qed.

Lemma wf_decide t ds d :
  in_year_range t -> wf d ->
  Forall (fun '(d, scope) => Status_Valid (dec_Status d) = true /\
            exists s, scan_ranges (dec_Status d) scope = Ok s) ds ->
  wf (decide_db (encodeTime t) ds d).
Proof.
  intros Ht. revert d. induction ds as [|[dec scope] ds IH]; intros d Hwf Hall; [done|].
  apply Forall_cons in Hall as [[Hst Hr] Hall]. cbn [decide_db]. apply IH; [|done].
  apply wf_set_row; [done|]. destruct (db_fps d !! dec_Fingerprint dec) as [r|] eqn:E; simpl.
  - apply (wf_rows _ Hwf) in E as []. by split.
  - by apply row_ok_new; [..|apply braces_ok|].
Qed.
End wf.

Section preservation.
Context `{JSONLaws Any} `{RowOrder}.

(** The relation of keeping a database well-formed. *)
Definition keeps_wf (t : instant) (d d' : DB) : Prop := in_year_range t -> wf d -> wf d'.

Lemma wf_observe s obs b t d e d' : observe s obs b t d = Ok (e, d') -> keeps_wf t d d'.
Proof.
  intros Heq Ht Hwf. revert Heq. unfold observe. case_bool_decide; [done|].
  destruct (encodeMeta (obs_Meta obs)) as [metaJSON|] eqn:Em; [|done].
  destruct (MaxMetadataBytes <? str_len metaJSON) eqn:El; [done|].
  unfold observe_db. cbv zeta. set (r := observed_row _ _ _ _ _).
  unfold mbind, result_bind. destruct (scanEntry _) as [entry|]; [|done].
  set (d1 := trim_db _ _). destruct (history_entry _ _ _) as [e'|]; [|done]. intros [= _ <-].
  assert (wf d1) as Hwf1.
  { apply wf_history; [|cbn; rewrite lookup_insert_eq; eauto|by apply time_ok].
    apply wf_set_row; [done|]. apply row_ok_observed; [intros r0 Hr0; by eapply wf_rows| |done| |].
    - by destruct b.
    - lia.
    - by eapply encodeMeta_ok. }
  case_match; [|done]. unfold prune_db. case_match; [done|]. by apply wf_delete.
Qed.

Lemma wf_verdict fp r st d :
  wf d -> db_fps d !! fp = Some r -> Status_Valid st = true ->
  wf (set_fps <[fp := with_verdict st None r]> d).
Proof. intros Hwf Hr%(wf_rows _ Hwf) Hst. apply wf_set_row; [done|]. by apply row_ok_verdict. Qed.

Lemma wf_allows s : allows keeps_wf scopes_ok s.
Proof.
  split.
  - by intros t d _ Hwf.
  - intros obs b t d e d'. apply wf_observe.
  - intros fp st t d d' Heq _ Hwf. unfold set_status in Heq. destruct (Status_Valid st) eqn:Hst; [|done].
    simpl in Heq. destruct (db_fps d !! fp) as [r|] eqn:E; [|done].
    destruct (may_overwrite r st); [|done]. injection Heq as <-. by apply wf_verdict.
  - intros fp st l t d d' Heq Ht Hwf. unfold upsert_status in Heq.
    destruct (Status_Valid st) eqn:Hst; [|done]. simpl in Heq. destruct (db_fps d !! fp) as [r|] eqn:E.
    + destruct (may_overwrite r st); [|done]. injection Heq as <-. apply wf_set_row; [done|].
      apply row_ok_label, row_ok_verdict; [done|]. by apply (wf_rows _ Hwf) in E.
    + injection Heq as <-. apply wf_set_row; [done|].
      apply row_ok_new; [done|done|apply braces_small|apply braces_ok|by eexists].
  - intros fp l t d d' Heq _ Hwf. unfold set_label in Heq. destruct (db_fps d !! fp) as [r|] eqn:E; [|done].
    injection Heq as <-. apply wf_set_row; [done|]. apply row_ok_label. by apply (wf_rows _ Hwf) in E.
  - intros victims t d _. apply wf_delete.
  - intros t d d' f Hd Ht Hwf. apply wf_meta. auto.
  - intros f t d _. apply wf_alerts.
  - intros ds k c t d d' Hds Heq Ht Hwf. unfold apply_decisions in Heq.
    destruct (encode_decisions ds) as [l|] eqn:E; [|done]. apply encode_decisions_ok in E; [|done].
    injection Heq as <-. assert (wf (decide_db (encodeTime t) l d)) by (by apply wf_decide).
    case_match; [by apply wf_meta|done].
Qed.
End preservation.
