(* ===== verification/Reading.v ===== *)
(** What the reading methods return: the grouped sweeps of List agree with the
    per-fingerprint queries of Get, a page is a segment of the sorted keyspace,
    and the LIKE pattern of ResolveFingerprint matches exactly the prefixes. *)

From S2P Require Import Prelude GoStrings GoTime Netip Json Approval Database Tables Store Writes Refinement Invariant.
From Stdlib Require Import Ascii String.
From stdpp Require Import strings gmap sorting.
#[local] Open Scope stdpp_scope.
#[local] Open Scope Z_scope.

(** ** Scanning rows *)

Lemma scan_all_ok {R A} (scan : R -> result A) rows out :
  scan_all scan rows = Ok out <-> Forall2 (fun r a => scan r = Ok a) rows out.
Proof.
  revert out. induction rows as [|r rows IH]; intros out; cbn [scan_all].
  - split; [intros [= <-]; constructor|]. intros Hf. inversion Hf. done.
  - unfold mbind, result_bind. split.
    + destruct (scan r) as [a|] eqn:E; [|done]. destruct (scan_all scan rows) as [l|]; [|done].
      intros [= <-]. constructor; [done|]. by apply IH.
    + intros Hf. inversion Hf as [|? a ? l Ha Hl]; subst. rewrite Ha. by apply IH in Hl as ->.
Qed.

Lemma scan_all_total {R A} (scan : R -> result A) rows :
  (forall r, r ∈ rows -> exists a, scan r = Ok a) -> exists out, scan_all scan rows = Ok out.
Proof.
  induction rows as [|r rows IH]; intros Hr; [by exists []|]. cbn [scan_all].
  destruct (Hr r) as [a ->]; [set_solver|]. destruct IH as [out Hout]; [set_solver|].
  exists (a :: out). unfold mbind, result_bind. by rewrite Hout.
Qed.

(** ** Grouping *)

Lemma lookup_append_rows {V} (rows : list (string * V)) acc fp :
  default [] (fold_left (fun out '(fp, v) => append_key out fp v) rows acc !! fp) =
  default [] (acc !! fp) ++ (snd <$> filter (fun r => r.1 = fp) rows).
Proof.
  revert acc. induction rows as [|[f v] rows IH]; intros acc; cbn [fold_left].
  - by rewrite List.app_nil_r.
  - rewrite IH. unfold append_key. rewrite filter_cons. simpl.
    destruct (decide (f = fp)) as [->|Hne].
    + rewrite lookup_insert_eq. simpl. by rewrite <- (assoc_L (++)).
    + by rewrite lookup_insert_ne.
Qed.

(** The rows of one fingerprint, in the order of the sweep. *)
Lemma lookup_group_rows {V} (rows : list (string * V)) fp :
  default [] (group_rows rows !! fp) = snd <$> filter (fun r => r.1 = fp) rows.
Proof. unfold group_rows. by rewrite lookup_append_rows, lookup_empty. Qed.

(** Sorted up to ties and without ties: strictly sorted. *)
Lemma ssorted_no_ties {A B} (lt : B -> B -> Prop) `{!StrictTotal lt} (f : A -> B)
    (R : A -> A -> Prop) (l : list A) :
  (forall a b, a ∈ l -> b ∈ l -> R a b -> ~ lt (f b) (f a)) ->
  StronglySorted R l -> NoDup (f <$> l) -> StronglySorted lt (f <$> l).
Proof.
  intros HR Hs. induction Hs as [|a l Hs IH Hall]; intros Hnd; [constructor|].
  rewrite fmap_cons in *. apply NoDup_cons in Hnd as [Hni Hnd]. constructor.
  - apply IH; [|done]. intros x y Hx Hy. apply HR; set_solver.
  - rewrite Forall_forall. intros y (b & -> & Hb)%list_elem_of_fmap.
    rewrite Forall_forall in Hall.
    destruct (strict_total_tri (f a) (f b)) as [?|[Heq|Hlt]]; [done| |].
    + destruct Hni. rewrite Heq. by apply list_elem_of_fmap_2.
    + by destruct (HR a b ltac:(set_solver) ltac:(set_solver) (Hall b Hb)).
Qed.

Lemma not_lt_total {A B} (lt : B -> B -> Prop) `{!StrictTotal lt} `{!RelDecision lt} (f : A -> B) :
  Total (fun a b => ~ lt (f b) (f a)) /\ Transitive (fun a b => ~ lt (f b) (f a)).
Proof.
  split.
  - intros a b. destruct (decide (lt (f b) (f a))) as [H1|H1]; [right|by left].
    intros H2. by apply (irreflexivity lt (f a)); transitivity (f b).
  - intros a b c H1 H2 H3. destruct (strict_total_tri (f a) (f b)) as [?|[Heq|?]]; [|congruence|done].
    apply H2. by transitivity (f a).
Qed.

(** The sweeps of List give the per-fingerprint lists of Get. *)
Lemma grouped_ips d fp : default [] (group_rows (all_ips d) !! fp) = ips_of fp d.
Proof.
  rewrite lookup_group_rows. symmetry. apply ips_of_unique.
  - unfold all_ips. destruct (not_lt_total str_lt (snd : string * string -> string)) as [Ht Htr].
    apply (ssorted_no_ties str_lt snd (fun a b => ~ str_lt b.2 a.2)); [done| |].
    + apply ssorted_filter, StronglySorted_merge_sort; done.
    + apply NoDup_snd_filter. rewrite merge_sort_Permutation. apply NoDup_elements.
  - intros ip. rewrite list_elem_of_fmap. setoid_rewrite list_elem_of_filter. unfold all_ips.
    setoid_rewrite merge_sort_Permutation. setoid_rewrite elem_of_elements. split.
    + intros ([f i] & -> & Hf & Hin). simpl in *. by subst.
    + intros Hin. by exists (fp, ip).
Qed.

Lemma grouped_ports d fp : default [] (group_rows (all_ports d) !! fp) = ports_of fp d.
Proof.
  rewrite lookup_group_rows. symmetry. apply ports_of_unique.
  - unfold all_ports. destruct (not_lt_total Z.lt (snd : string * Z -> Z)) as [Ht Htr].
    apply (ssorted_no_ties Z.lt snd (fun a b => ~ b.2 < a.2)); [done| |].
    + apply ssorted_filter, StronglySorted_merge_sort; done.
    + apply NoDup_snd_filter. rewrite merge_sort_Permutation. apply NoDup_elements.
  - intros p. rewrite list_elem_of_fmap. setoid_rewrite list_elem_of_filter. unfold all_ports.
    setoid_rewrite merge_sort_Permutation. setoid_rewrite elem_of_elements. split.
    + intros ([f i] & -> & Hf & Hin). simpl in *. by subst.
    + intros Hin. by exists (fp, p).
Qed.

(** sort.Ints finds the lists sorted already. *)
Lemma merge_sort_sorted_id (l : list Z) : StronglySorted Z.lt l -> merge_sort Z.le l = l.
Proof.
  intros Hs. apply (StronglySorted_unique Z.le).
  - apply StronglySorted_merge_sort; apply _.
  - induction Hs as [|x l Hs IH Hall]; constructor; [done|].
    eapply Forall_impl; [exact Hall|]. intros y. simpl. lia.
  - apply merge_sort_Permutation.
Qed.

Lemma grouped_sorted_ports d fp :
  default [] ((merge_sort Z.le <$> group_rows (all_ports d)) !! fp) = ports_of fp d.
Proof.
  rewrite lookup_fmap. pose proof (grouped_ports d fp) as Hp.
  destruct (group_rows (all_ports d) !! fp) as [l|]; simpl in *; [|done]. subst l.
  apply merge_sort_sorted_id, ports_of_sorted.
Qed.

(** ORDER BY fp, last_seen DESC, ip, port *)
Definition row_lt (a b : string * srow) : Prop := str_lt a.1 b.1 \/ (a.1 = b.1 /\ sg_lt a.2 b.2).

#[export] Instance row_lt_dec : RelDecision row_lt.
Proof. intros a b. unfold row_lt. apply _. Defined.

#[export] Instance row_lt_total : StrictTotal row_lt.
Proof.
  split; [split|].
  - intros [f s]. unfold complement, row_lt. simpl. intros [Hx|[_ Hx]];
      [by apply str_lt_irrefl in Hx|by apply (irreflexivity sg_lt) in Hx].
  - intros [f1 s1] [f2 s2] [f3 s3]. unfold row_lt. simpl. intros [H1|[-> H1]] [H2|[-> H2]];
      [left; by eapply str_lt_trans|by left..|]. right. split; [done|]. by transitivity s2.
  - intros [f1 s1] [f2 s2]. unfold row_lt. simpl.
    destruct (strict_total_tri (lt := str_lt) f1 f2) as [?|[->|?]]; [auto| |auto].
    destruct (strict_total_tri (lt := sg_lt) s1 s2) as [?|[->|?]]; auto.
Qed.

(** The sightings of one fingerprint among all rows. *)
Lemma filter_all_sightings d fp :
  (snd <$> filter (fun r => r.1 = fp) (all_sightings d)) = sightings_of fp d.
Proof.
  assert (NoDup (all_sightings d)) as Hnd.
  { unfold all_sightings. rewrite merge_sort_Permutation. apply NoDup_fmap_2_strong;
      [|apply NoDup_map_to_list].
    intros [[[f1 i1] p1] l1] [[[f2 i2] p2] l2] _ _ Heq. by simplify_eq. }
  symmetry. apply sightings_of_unique.
  - apply (ssorted_no_ties sg_lt snd (fun a b => ~ (str_lt b.1 a.1 \/ (b.1 = a.1 /\ sg_lt b.2 a.2)))).
    + intros a b [Ha _]%list_elem_of_filter [Hb _]%list_elem_of_filter Hn Hlt.
      apply Hn. right. split; [congruence|done].
    + apply ssorted_filter. unfold all_sightings.
      destruct (not_lt_total row_lt id) as [Ht Htr]. apply StronglySorted_merge_sort; done.
    + apply NoDup_snd_filter. done.
  - intros ip port ls. rewrite list_elem_of_fmap. setoid_rewrite list_elem_of_filter.
    unfold all_sightings. setoid_rewrite merge_sort_Permutation.
    setoid_rewrite list_elem_of_fmap. split.
    + intros ([f [[i p] l]] & Heq & Hf & ([[[f' i'] p'] l'] & Heq' & Hin)). simplify_eq/=.
      by apply elem_of_map_to_list.
    + intros Hl. exists (fp, (ip, port, ls)). split; [done|]. split; [done|].
      exists ((fp, ip, port), ls). split; [done|]. by apply elem_of_map_to_list.
Qed.

Lemma Forall2_filter {A B} (P : A -> Prop) (Q : B -> Prop) `{!forall x, Decision (P x)}
    `{!forall x, Decision (Q x)} (R : A -> B -> Prop) l k :
  (forall a b, R a b -> (P a <-> Q b)) -> Forall2 R l k -> Forall2 R (filter P l) (filter Q k).
Proof.
  intros HPQ. induction 1 as [|a b l k HR _ IH]; [constructor|]. rewrite !filter_cons.
  specialize (HPQ a b HR). destruct (decide (P a)), (decide (Q b)); try tauto. by constructor.
Qed.

(** ** One entry, all entries *)

Section entries.
Context `{JSONCodec Any}.

Lemma scanEntry_fp fp r e : scanEntry (fp, r) = Ok e -> e_Fingerprint e = fp.
Proof.
  unfold scanEntry, mbind, result_bind. intros Hs. by repeat (split_match Hs); simplify_eq.
Qed.

Lemma get_entry_stored fp r d :
  db_fps d !! fp = Some r -> get_entry fp d = (e ← scanEntry (fp, r); history_entry e fp d).
Proof. intros Hr. unfold get_entry, lookup_row. by rewrite Hr. Qed.

Lemma get_entry_absent fp d : db_fps d !! fp = None -> get_entry fp d = Err ErrNoRows.
Proof. intros Hr. unfold get_entry, lookup_row. by rewrite Hr. Qed.

Lemma grouped_sightings_lookup d m fp :
  grouped_sightings d = Ok m -> scan_all scan_sighting (sightings_of fp d) = Ok (default [] (m !! fp)).
Proof.
  unfold grouped_sightings, mbind, result_bind. destruct (scan_all _ _) as [out|] eqn:E; [|done].
  intros [= <-]. rewrite lookup_group_rows, <- filter_all_sightings. apply scan_all_ok.
  apply scan_all_ok in E. apply Forall2_fmap.
  eapply Forall2_impl; [eapply (Forall2_filter (fun r => r.1 = fp) (fun r => r.1 = fp)); [|exact E]|].
  - intros [f r] [f' s]. unfold mbind, result_bind. destruct (scan_sighting r); [|done].
    by intros [= <- <-].
  - intros [f r] [f' s]. unfold mbind, result_bind. simpl. destruct (scan_sighting r); [|done].
    by intros [= _ <-].
Qed.

Lemma history_entry_fields (e : Entry Any) fp d (e' : Entry Any) :
  history_entry e fp d = Ok e' ->
  e_Fingerprint e' = e_Fingerprint e /\ e_Status e' = e_Status e /\ e_Label e' = e_Label e /\
  e_Count e' = e_Count e /\ e_FirstSeen e' = e_FirstSeen e /\ e_LastSeen e' = e_LastSeen e /\
  e_ApprovalRanges e' = e_ApprovalRanges e /\ e_Meta e' = e_Meta e /\
  e_IPs e' = ips_of fp d /\ e_Ports e' = ports_of fp d /\
  scan_all scan_sighting (sightings_of fp d) = Ok (e_Sightings e').
Proof.
  unfold history_entry, mbind, result_bind. destruct (scan_all _ _); [|done]. by intros [= <-].
Qed.

Lemma get_entry_fp fp d e : get_entry fp d = Ok e -> e_Fingerprint e = fp.
Proof.
  intros Hg. destruct (db_fps d !! fp) as [row|] eqn:E; [|by rewrite (get_entry_absent fp _ E) in Hg].
  rewrite (get_entry_stored fp row _ E) in Hg. unfold mbind, result_bind in Hg.
  destruct (scanEntry (fp, row)) as [e0|] eqn:Es; [|done]. apply scanEntry_fp in Es.
  by apply history_entry_fields in Hg as [-> _].
Qed.

Lemma entries_fps d fps es :
  Forall2 (fun fp e => get_entry fp d = Ok e) fps es -> map (fun e => e_Fingerprint e) es = fps.
Proof. induction 1 as [|fp e fps es He _ IH]; [done|]. simpl. by rewrite (get_entry_fp _ _ _ He), IH. Qed.

(** A readable row and history make a readable entry. *)
Lemma get_entry_wf `{!JSONLaws Any} fp r d :
  wf d -> db_fps d !! fp = Some r -> exists e, get_entry fp d = Ok e.
Proof.
  intros Hwf Hr. rewrite (get_entry_stored fp r d Hr).
  destruct (wf_rows _ Hwf _ _ Hr) as [_ _ [s Hs] [t1 Ht1] [t2 Ht2] [m Hm]].
  unfold scanEntry, mbind, result_bind. rewrite Hs, Ht1, Ht2, Hm. simpl.
  unfold history_entry. destruct (scan_all_total scan_sighting (sightings_of fp d)) as [sg ->];
    [|by eexists].
  intros [[ip p] ls] Hl. apply elem_of_sightings_of, (wf_sightings _ Hwf) in Hl as [_ [t Ht]].
  unfold scan_sighting, mbind, result_bind. simpl. rewrite Ht. by eexists.
Qed.

Context `{RowOrder}.

Lemma list_all_lookup d m fp :
  list_all d = Ok m ->
  m !! fp = match get_entry fp d with Ok e => Some e | Err _ => None end.
Proof.
  unfold list_all, mbind, result_bind.
  destruct (scan_all scanEntry _) as [out|] eqn:Eo; [|done].
  destruct (grouped_sightings d) as [sg|] eqn:Es; [|done]. intros [= <-].
  apply scan_all_ok in Eo.
  assert ((fun e => e_Fingerprint e) <$> out = fst <$> scan_rows (db_fps d)) as Hfst.
  { clear -Eo. induction Eo as [|[f r] e rows out He _ IH]; [done|]. rewrite !fmap_cons, IH. f_equal.
    simpl. by eapply scanEntry_fp. }
  set (g := fun e : Entry Any => (e_Fingerprint e, with_history e _ _ _)).
  assert (NoDup (fst <$> map g out)) as Hnd.
  { assert (fst <$> map g out = (fun e => e_Fingerprint e) <$> out) as ->
      by (clear; induction out as [|e out IH]; [done|]; cbn; f_equal; exact IH).
    rewrite Hfst, scan_rows_perm. apply NoDup_fst_map_to_list. }
  destruct (db_fps d !! fp) as [r|] eqn:Er.
  - rewrite (get_entry_stored fp r d Er).
    assert ((fp, r) ∈ scan_rows (db_fps d)) as Hin by (rewrite scan_rows_perm; by apply elem_of_map_to_list).
    apply list_elem_of_lookup in Hin as [i Hi].
    destruct (Forall2_lookup_l _ _ _ _ _ Eo Hi) as (e & He & Hs). rewrite Hs.
    unfold mbind, result_bind, history_entry. rewrite (grouped_sightings_lookup d sg fp Es).
    apply elem_of_list_to_map_1; [done|]. apply list_elem_of_fmap. exists e.
    split; [|by eapply list_elem_of_lookup_2]. unfold g. f_equal; [symmetry; by eapply scanEntry_fp|].
    rewrite (scanEntry_fp _ _ _ Hs). by rewrite grouped_ips, grouped_sorted_ports.
  - rewrite (get_entry_absent fp d Er). apply not_elem_of_list_to_map_1.
    assert (fst <$> map g out = (fun e => e_Fingerprint e) <$> out) as ->
      by (clear; induction out as [|e out IH]; [done|]; cbn; f_equal; exact IH).
    rewrite Hfst, scan_rows_perm. intros ([f r] & -> & Hin)%list_elem_of_fmap.
    apply elem_of_map_to_list in Hin. simpl in Er. congruence.
Qed.

Lemma list_all_wf `{!JSONLaws Any} d : wf d -> exists m, list_all d = Ok m.
Proof.
  intros Hwf. unfold list_all.
  destruct (scan_all_total scanEntry (scan_rows (db_fps d))) as [out ->].
  { intros [fp r] Hin. rewrite scan_rows_perm in Hin. apply elem_of_map_to_list in Hin.
    destruct (wf_rows _ Hwf _ _ Hin) as [_ _ [s Hs] [t1 Ht1] [t2 Ht2] [m Hm]].
    unfold scanEntry, mbind, result_bind. rewrite Hs, Ht1, Ht2, Hm. by eexists. }
  unfold grouped_sightings, mbind, result_bind.
  destruct (scan_all_total (fun '(fp, r) => match scan_sighting r with
    | Ok a => Ok (fp, a) | Err e => Err e end) (all_sightings d)) as [sg ->]; [|by eexists].
  intros [fp [[ip p] ls]] Hin.
  assert ((ip, p, ls) ∈ sightings_of fp d) as Hl.
  { rewrite <- filter_all_sightings. apply list_elem_of_fmap. exists (fp, (ip, p, ls)).
    split; [done|]. by apply list_elem_of_filter. }
  apply elem_of_sightings_of, (wf_sightings _ Hwf) in Hl as [_ [t Ht]].
  unfold scan_sighting, mbind, result_bind. simpl. rewrite Ht. by eexists.
Qed.

(** ** Pages *)

Definition page_fps (after through : string) (limit : Z) (d : DB) : list string :=
  take (Z.to_nat limit) (filter (fun fp => str_lt after fp /\ ~ str_lt through fp) (fps_sorted d)).

Lemma omap_rows (l : list string) d :
  (forall fp, fp ∈ l -> is_Some (db_fps d !! fp)) ->
  Forall2 (fun fp row => row.1 = fp /\ db_fps d !! fp = Some row.2) l
    (omap (fun fp => pair fp <$> db_fps d !! fp) l).
Proof.
  induction l as [|fp l IH]; intros Hl; [constructor|]. cbn.
  destruct (Hl fp ltac:(set_solver)) as [r Hr]. rewrite Hr. simpl. constructor; [done|].
  apply IH. set_solver.
Qed.

Lemma list_page_entries after through limit d es :
  list_page after through limit d = Ok es ->
  1 <= limit <= 128 /\
  Forall2 (fun fp e => get_entry fp d = Ok e) (page_fps after through limit d) es.
Proof.
  unfold list_page. destruct (_ || _) eqn:El; [done|]. unfold mbind, result_bind.
  destruct (scan_all scanEntry _) as [es0|] eqn:E0; [|done]. intros Hh. split; [lia|].
  apply scan_all_ok in E0. unfold page_rows in E0. set (fps := filter _ (fps_sorted d)) in *.
  assert (forall fp, fp ∈ fps -> is_Some (db_fps d !! fp)) as Hin.
  { intros fp [_ Hfp]%list_elem_of_filter. by apply elem_of_fps_sorted. }
  pose proof (omap_rows fps d Hin) as Hrows.
  apply (Forall2_take _ _ _ (Z.to_nat limit)) in Hrows. unfold page_fps. fold fps.
  revert Hrows E0. generalize (take (Z.to_nat limit) fps), (take (Z.to_nat limit)
    (omap (fun fp => pair fp <$> db_fps d !! fp) fps)). clear Hin fps El.
  intros fps rows Hrows. revert es0 es Hh.
  induction Hrows as [|fp [f r] fps rows [Hf Hr] _ IH]; intros es0 es Hh E0;
    inversion E0 as [|? e ? es1 He E1]; subst.
  { by injection Hh as <-. }
  cbn [histories] in Hh. unfold mbind, result_bind in Hh.
  cbn [fst snd] in Hr |- *. rewrite (scanEntry_fp _ _ _ He) in Hh.
  destruct (history_entry e f d) as [e'|] eqn:Ee; [|done].
  destruct (histories es1 d) as [l|] eqn:Eh; [|done]. injection Hh as <-.
  constructor; [|by eapply IH]. rewrite (get_entry_stored f r d Hr), He. done.
Qed.
End entries.

(** ** LIKE *)

(** The ASCII-case-insensitive prefix test. *)
Fixpoint prefix_fold (p s : string) : bool :=
  match p, s with
  | EmptyString, _ => true
  | String a p', String b s' => bool_decide (fold_byte a = fold_byte b) && prefix_fold p' s'
  | _, EmptyString => false
  end.

Lemma sqlite_like_percent s : sqlite_like "%" s = true.
Proof.
  induction s as [|a s IH]; [reflexivity|].
  change (sqlite_like "%" (String a s)) with (bool_decide (String a s = "") || sqlite_like "%" s).
  by rewrite IH, orb_true_r.
Qed.

(** An escaped query followed by the wildcard matches the prefixes. *)
Lemma like_escape_prefix q s : sqlite_like (like_escape q +:+ "%") s = prefix_fold q s.
Proof.
  revert s. induction q as [|c q IH]; intros s; [apply sqlite_like_percent|].
  cbn [like_escape]. destruct (_ || _) eqn:E.
  - rewrite !app_cons. cbn [sqlite_like]. rewrite bool_decide_false by done.
    rewrite bool_decide_true by done. destruct s as [|b s]; [done|]. cbn [prefix_fold]. by rewrite IH.
  - apply orb_false_elim in E as [[E1 E2]%orb_false_elim E3].
    rewrite app_cons. cbn [sqlite_like]. rewrite E1, E2, E3. destruct s as [|b s]; [done|].
    cbn [prefix_fold]. by rewrite IH.
Qed.

Lemma like_matches_prefix q d :
  like_matches (like_escape q +:+ "%") d =
  take 2 (filter (fun fp => prefix_fold q fp = true) (fps_sorted d)).
Proof.
  unfold like_matches. f_equal. apply list_filter_iff. intros fp. by rewrite like_escape_prefix.
Qed.
