(* ===== verification/StoreProps.v ===== *)
(** Properties of package store, first group: what the writing methods do to the
    database under any script of faults. *)

From S2P Require Import Prelude GoStrings GoTime Netip Json Approval Database Tables Store Writes Refinement Migrate Invariant Reading.
From Stdlib Require Import Ascii String.
From stdpp Require Import strings gmap sorting.
#[local] Open Scope stdpp_scope.
#[local] Open Scope Z_scope.

(** ** A concrete store, for the witnesses *)

(** Rows scanned in the order of the finite map. *)
#[export] Instance demo_order : RowOrder := {| scan_rows := map_to_list; scan_rows_perm t := reflexivity _ |}.

Definition demo_store : Store := {| st_path := "gate.db"; st_maxFingerprints := 2 |}.

Definition demo_row (status : Status) (label : string) (seen : instant) (ranges : option string) : FpRow :=
  {| fr_status := status; fr_label := label; fr_first_seen := encodeTime seen;
     fr_last_seen := encodeTime seen; fr_count := 1; fr_meta := "{}";
     fr_approval_ranges := ranges; fr_legacy := ∅ |}.

Definition demo_scope : Scope := {| prefixes := [ {| pfx_addr := Addr4 167772160; pfx_bits := 8 |} ] |}.

(** The text ApplyDecisions stores for [demo_scope]: one CIDR, 10.0.0.0/8. *)
Definition demo_scope_text : string := Marshal_strings (Some ["10.0.0.0/8"]).

(** Three fingerprints: a scoped approval, a pending one and a blocked one. *)
Definition demo_db : DB :=
  {| db_columns := ["fp"]; db_defaults := ∅;
     db_fps := {[ "aa" := demo_row StatusApproved "laptop" 0 (Some demo_scope_text);
                  "ab" := demo_row StatusPending "" 5000000000 None;
                  "b" := demo_row StatusBlocked "scanner" 7000000000 None ]};
     db_ips := {[ ("aa", "10.0.0.1"); ("b", "192.0.2.7") ]}; db_ports := {[ ("aa", 22) ]};
     db_sightings := {[ ("aa", "10.0.0.1", 22) := encodeTime 0 ]};
     db_alerts := ∅; db_meta := {[ "gatehub_cursor:x" := "7"; "other" := "1" ]} |}.

Definition demo_world (faults : list (option string)) : World :=
  {| committed := demo_db; working := None; script := faults; clock := 9000000000 |}.

(** ** Decisions *)

(** The column approval_ranges a decision writes. *)
Definition ranges_text `{JSONCodec Any} (dec : PolicyDecision) : option string :=
  match dec_ApprovalRanges dec with
  | None => None
  | Some s => Some (Marshal_strings (Scope_Ranges (Some s)))
  end.

Definition decisions_for (fp : string) (ds : list PolicyDecision) : list PolicyDecision :=
  filter (fun dec => dec_Fingerprint dec = fp) ds.

Section decisions.
Context `{JSONCodec Any}.

Lemma encode_decisions_spec ds out :
  encode_decisions ds = Ok out ->
  Forall (fun dec => Decision_Validate dec = None) ds /\ out = map (fun dec => (dec, ranges_text dec)) ds.
Proof.
  revert out. induction ds as [|dec ds IH]; intros out; cbn [encode_decisions].
  { by intros [= <-]. }
  destruct (Decision_Validate dec) eqn:Hv; [done|]. unfold mbind, result_bind.
  assert (match dec_ApprovalRanges dec with
          | None => Ok None
          | Some s => match Scope_MarshalJSON (Some s) with Ok b => Ok (Some b) | Err e => Err e end
          end = Ok (ranges_text dec)) as ->.
  { unfold ranges_text. destruct (dec_ApprovalRanges dec) as [s|] eqn:Es; [|done].
    unfold Decision_Validate in Hv. rewrite Es in Hv.
    destruct (_ || negb _); [done|]. destruct (_ && _); [done|].
    unfold Scope_MarshalJSON. by rewrite Hv. }
  destruct (encode_decisions ds) as [l|]; [|done]. intros [= <-].
  destruct (IH l eq_refl) as [Hall ->]. split; [by constructor|done].
Qed.

(** An invalid member fails the whole batch before anything is written. *)
Lemma encode_decisions_invalid ds dec :
  dec ∈ ds -> Decision_Validate dec <> None -> exists e, encode_decisions ds = Err e.
Proof.
  intros Hin Hv. destruct (encode_decisions ds) as [out|e] eqn:E; [|by exists e].
  apply encode_decisions_spec in E as [Hall _]. rewrite Forall_forall in Hall.
  by specialize (Hall dec Hin).
Qed.

(** A decision on top of another one for the same fingerprint replaces it. *)
Lemma decided_row_twice d d' old now st1 l1 r1 st2 l2 r2 :
  db_defaults d' = db_defaults d ->
  decided_row d' (Some (decided_row d old st1 l1 now r1)) st2 l2 now r2 =
  decided_row d old st2 l2 now r2.
Proof. intros Hd. by destruct old. Qed.

(** The last decision of the batch for a fingerprint is the one in effect. *)
Lemma decide_db_lookup now ds fp d :
  db_fps (decide_db now (map (fun dec => (dec, ranges_text dec)) ds) d) !! fp =
  match last (decisions_for fp ds) with
  | None => db_fps d !! fp
  | Some dec => Some (decided_row d (db_fps d !! fp) (dec_Status dec) (dec_Label dec) now
                        (ranges_text dec))
  end.
Proof.
  unfold decisions_for. revert d. induction ds as [|dec ds IH]; intros d; [done|].
  cbn [map decide_db]. rewrite IH. clear IH. set (d1 := set_fps _ d). rewrite filter_cons.
  destruct (decide (dec_Fingerprint dec = fp)) as [Hfp|Hfp].
  - assert (db_fps d1 !! fp = Some (decided_row d (db_fps d !! fp) (dec_Status dec) (dec_Label dec)
      now (ranges_text dec))) as Hd1 by (rewrite <- Hfp; apply lookup_insert_eq).
    rewrite last_cons. destruct (last (filter _ ds)) as [dec'|]; [|done].
    rewrite Hd1. by rewrite (decided_row_twice d d1).
  - assert (db_fps d1 !! fp = db_fps d !! fp) as Hd1 by (by apply lookup_insert_ne).
    destruct (last (filter _ ds)) as [dec'|]; [|done]. by rewrite Hd1.
Qed.

Lemma decide_db_rest now ds d :
  db_ips (decide_db now ds d) = db_ips d /\ db_ports (decide_db now ds d) = db_ports d /\
  db_sightings (decide_db now ds d) = db_sightings d /\ db_alerts (decide_db now ds d) = db_alerts d /\
  db_meta (decide_db now ds d) = db_meta d.
Proof.
  revert d. induction ds as [|[dec scope] ds IH]; intros d; [done|]. cbn [decide_db].
  destruct (IH (set_fps <[dec_Fingerprint dec := decided_row d (db_fps d !! dec_Fingerprint dec)
    (dec_Status dec) (dec_Label dec) now scope]> d)) as (-> & -> & -> & -> & ->). done.
Qed.

(** C1: ApplyDecisions is all or nothing under any faults: when it reports an
    error neither a row nor the cursor has changed, and when it succeeds every
    decision was valid, each fingerprint carries the verdict, label and scope of
    the last decision for it (keeping its first sighting, count, metadata and
    history), every other row is untouched, and the cursor is stored. *)
Theorem ApplyDecisions_all_or_nothing decisions cursorKey cursor w r w' :
  working w = None ->
  ApplyDecisions decisions cursorKey cursor w = (r, w') ->
  let d := committed w in let d' := committed w' in
  working w' = None /\
  (is_ok r = false -> d' = d) /\
  (is_ok r = true ->
     Forall (fun dec => Decision_Validate dec = None) decisions /\
     (forall fp, db_fps d' !! fp =
        match last (decisions_for fp decisions) with
        | None => db_fps d !! fp
        | Some dec => Some (decided_row d (db_fps d !! fp) (dec_Status dec) (dec_Label dec)
                              (encodeTime (clock w)) (ranges_text dec))
        end) /\
     db_ips d' = db_ips d /\ db_ports d' = db_ports d /\ db_sightings d' = db_sightings d /\
     db_alerts d' = db_alerts d /\
     db_meta d' = if decide (cursorKey <> "" /\ cursor <> "")
                  then <[cursorKey := cursor]> (db_meta d) else db_meta d).
Proof.
  intros Hw Hrun. cbv zeta. destruct (ApplyDecisions_atomic decisions cursorKey cursor) as [Hi Ha].
  destruct (Hi w r w' Hw Hrun) as (H1 & _ & H3 & _ & _).
  split; [done|]. split; [by apply (Ha w r w' Hw Hrun)|]. destruct r as [u|]; [|done]. intros _.
  specialize (H3 u eq_refl). unfold apply_decisions in H3.
  destruct (encode_decisions decisions) as [l|] eqn:E; [|done].
  apply encode_decisions_spec in E as [Hall ->]. split; [done|].
  set (l := map _ decisions) in *.
  destruct (decide_db_rest (encodeTime (clock w)) l (committed w)) as (R1 & R2 & R3 & R4 & R5).
  set (d1 := decide_db _ l _) in *. injection H3 as _ <-.
  split; [|destruct (decide (cursorKey <> "" /\ cursor <> "")) as [[Hk Hc]|Hk];
    repeat case_bool_decide; simpl; rewrite ?R1, ?R2, ?R3, ?R4, ?R5; try done; tauto].
  intros fp. rewrite <- decide_db_lookup. fold l d1. by destruct (_ && _).
Qed.
End decisions.

Definition demo_decisions : list PolicyDecision :=
  [ {| dec_Fingerprint := "ab"; dec_Status := StatusApproved; dec_Label := "phone";
       dec_ApprovalRanges := Some demo_scope |} ].

Lemma ApplyDecisions_all_or_nothing_witness :
  let run := ApplyDecisions (Any := PlainValue) demo_decisions "gatehub_cursor:x" "8" in
  (is_ok (run (demo_world [])).1 = true /\ working (run (demo_world [])).2 = None) /\
  (is_ok (run (demo_world [None; None; None; Some "disk full"])).1 = false /\
   committed (run (demo_world [None; None; None; Some "disk full"])).2 = demo_db).
Proof.
  intros run. split; (split; [vm_compute; reflexivity|]).
  - apply (ApplyDecisions_all_or_nothing demo_decisions "gatehub_cursor:x" "8" (demo_world [])
      _ _ eq_refl (surjective_pairing _)).
  - apply (ApplyDecisions_all_or_nothing demo_decisions "gatehub_cursor:x" "8"
      (demo_world [None; None; None; Some "disk full"]) _ _ eq_refl (surjective_pairing _)).
    vm_compute. reflexivity.
Defined.

(** ** Observing *)

(** The row an observation leaves. *)
Definition row_after (obs_meta : string) (blockUnknown : bool) (t : instant) (d : DB) (fp : string) : FpRow :=
  observed_row d (db_fps d !! fp) (if blockUnknown then StatusBlocked else StatusPending)
    (encodeTime t) obs_meta.

Section observing.
Context `{JSONCodec Any} `{RowOrder}.

(** The database between the observation and the pruning. *)
Definition observed_db (obs : Observation Any) (r : FpRow) (t : instant) (d : DB) : DB :=
  trim_db (obs_Fingerprint obs)
    (record_history (obs_Fingerprint obs) (obs_IP obs) (obs_Port obs) (encodeTime t)
       (set_fps <[obs_Fingerprint obs := r]> d)).

Lemma observed_db_rows obs r t d :
  db_fps (observed_db obs r t d) = <[obs_Fingerprint obs := r]> (db_fps d).
Proof.
  unfold observed_db. change (db_fps (trim_db ?fp ?x)) with (db_fps x).
  by rewrite (proj1 (record_history_rows _ _ _ _ _)).
Qed.

Lemma observe_inv s (obs : Observation Any) b t d e d' :
  observe s obs b t d = Ok (e, d') ->
  exists metaJSON entry, obs_Fingerprint obs <> "" /\ encodeMeta (obs_Meta obs) = Ok metaJSON /\
    str_len metaJSON <= MaxMetadataBytes /\
    let r := row_after metaJSON b t d (obs_Fingerprint obs) in
    scanEntry (obs_Fingerprint obs, r) = Ok entry /\
    history_entry entry (obs_Fingerprint obs) (observed_db obs r t d) = Ok e /\
    d' = if (e_Count entry =? 1) && (0 <? st_maxFingerprints s)
         then prune_db (st_maxFingerprints s) (observed_db obs r t d) else observed_db obs r t d.
Proof.
  unfold observe. case_bool_decide; [done|]. destruct (encodeMeta (obs_Meta obs)) as [m|]; [|done].
  destruct (MaxMetadataBytes <? str_len m) eqn:El; [done|].
  unfold observe_db. cbv zeta. fold (row_after m b t d (obs_Fingerprint obs)).
  fold (observed_db obs (row_after m b t d (obs_Fingerprint obs)) t d).
  unfold mbind, result_bind. destruct (scanEntry _) as [entry|] eqn:Es; [|done].
  destruct (history_entry _ _ _) as [e'|] eqn:Eh; [|done]. intros [= <- <-].
  exists m, entry. split_and!; try done. lia.
Qed.

Lemma scanEntry_fields fp r e :
  scanEntry (fp, r) = Ok e ->
  e_Fingerprint e = fp /\ e_Status e = fr_status r /\ e_Label e = fr_label r /\
  e_Count e = fr_count r /\ decodeTime (fr_first_seen r) = Ok (e_FirstSeen e) /\
  decodeTime (fr_last_seen r) = Ok (e_LastSeen e) /\
  scan_ranges (fr_status r) (fr_approval_ranges r) = Ok (e_ApprovalRanges e) /\
  scan_meta (fr_meta r) = Ok (e_Meta e).
Proof.
  unfold scanEntry, mbind, result_bind, wrap_error. intros Hs.
  destruct (scan_ranges _ _) eqn:E1; [|done]. destruct (decodeTime (fr_first_seen r)) eqn:E2; [|done].
  destruct (decodeTime (fr_last_seen r)) eqn:E3; [|done]. destruct (scan_meta _) eqn:E4; [|done].
  injection Hs as <-. done.
Qed.

(** Pruning removes rows and changes none. *)
Lemma prune_db_rows max d fp r :
  db_fps (prune_db max d) !! fp = Some r -> db_fps d !! fp = Some r.
Proof.
  unfold prune_db. cbv zeta. case_match; [done|]. rewrite delete_fps_lookup. by case_decide.
Qed.

Lemma prune_db_approved max d fp r :
  db_fps d !! fp = Some r -> fr_status r = StatusApproved -> db_fps (prune_db max d) !! fp = Some r.
Proof.
  intros Hr Hs. unfold prune_db. cbv zeta. case_match; [done|]. rewrite delete_fps_lookup.
  case_decide as Hv; [|done]. apply victims_in_rows in Hv as (r' & Hr' & Hn). congruence.
Qed.

Lemma observe_rows s obs b t d e d' fp r' :
  observe s obs b t d = Ok (e, d') -> db_fps d' !! fp = Some r' ->
  (fp <> obs_Fingerprint obs /\ db_fps d !! fp = Some r') \/
  (fp = obs_Fingerprint obs /\ exists metaJSON, r' = row_after metaJSON b t d fp).
Proof.
  intros (m & entry & _ & _ & _ & _ & _ & ->)%observe_inv Hr'.
  assert (db_fps (observed_db obs (row_after m b t d (obs_Fingerprint obs)) t d) !! fp = Some r') as Hd.
  { revert Hr'. case_match; [apply prune_db_rows|done]. }
  rewrite observed_db_rows in Hd. destruct (decide (fp = obs_Fingerprint obs)) as [->|Hne].
  - rewrite lookup_insert_eq in Hd. injection Hd as <-. right. eauto.
  - rewrite lookup_insert_ne in Hd by done. auto.
Qed.

(** ** Scoped approvals *)

Definition scoped (fp text : string) (d : DB) : Prop :=
  exists r, db_fps d !! fp = Some r /\ fr_status r = StatusApproved /\
            fr_approval_ranges r = Some text.

Definition not_broadened (fp text : string) (t : instant) (d d' : DB) : Prop :=
  scoped fp text d ->
  forall r', db_fps d' !! fp = Some r' -> fr_status r' = StatusApproved ->
             fr_approval_ranges r' = Some text.

(** Replacing one row by one that is as narrow. *)
Lemma not_broadened_row fp text t d fp' r r1 :
  db_fps d !! fp' = Some r ->
  (fr_status r1 = StatusApproved -> fr_approval_ranges r <> None ->
     fr_status r = StatusApproved -> fr_approval_ranges r1 = fr_approval_ranges r) ->
  not_broadened fp text t d (set_fps <[fp' := r1]> d).
Proof.
  intros Hr Hn (r0 & Hr0 & Hs & Ht) r' Hr' Hs'. cbn in Hr'.
  destruct (decide (fp' = fp)) as [->|Hne].
  - rewrite lookup_insert_eq in Hr'. injection Hr' as <-. rewrite Hr in Hr0. injection Hr0 as <-.
    rewrite Hn; [done|done|congruence|done].
  - rewrite lookup_insert_ne in Hr' by done. congruence.
Qed.

Lemma may_overwrite_narrow r st :
  may_overwrite r st = true -> st = StatusApproved -> fr_approval_ranges r = None.
Proof.
  unfold may_overwrite. intros [Hm|Hm]%orb_prop ->; [by apply bool_decide_eq_true in Hm|done].
Qed.

Lemma not_broadened_allows fp text s : allows (not_broadened fp text) (fun _ => False) s.
Proof.
  split; unfold not_broadened.
  - intros t d (r & Hr & Hs & Ht) r' Hr' _. congruence.
  - intros obs b t d e d' Hobs (r & Hr & Hs & Ht) r' Hr' Hs'.
    destruct (observe_rows _ _ _ _ _ _ _ _ _ Hobs Hr') as [[_ Hd]|(-> & m & ->)]; [congruence|].
    unfold row_after. rewrite Hr. done.
  - intros fp' st t d d' Heq. unfold set_status in Heq. destruct (negb _); [done|].
    destruct (db_fps d !! fp') as [r|] eqn:E; [|done].
    destruct (may_overwrite r st) eqn:Em; [|done]. injection Heq as <-.
    apply (not_broadened_row _ _ t d fp' r); [done|]. intros Hs Hne. by destruct Hne, (may_overwrite_narrow r st).
  - intros fp' st l t d d' Heq (r0 & Hr0 & Hs & Ht). revert Heq. unfold upsert_status.
    destruct (negb _); [done|]. destruct (db_fps d !! fp') as [r|] eqn:E.
    + destruct (may_overwrite r st) eqn:Em; [|done]. intros [= <-].
      apply (not_broadened_row fp text t d fp' r); [done| |by exists r0]. intros Hs' Hne.
      by destruct Hne, (may_overwrite_narrow r st).
    + intros [= <-] r' Hr' Hs'. cbn in Hr'. rewrite lookup_insert_ne in Hr' by congruence. congruence.
  - intros fp' l t d d' Heq. unfold set_label in Heq. destruct (db_fps d !! fp') as [r|] eqn:E; [|done].
    injection Heq as <-. by apply (not_broadened_row _ _ t d fp' r).
  - intros victims t d (r & Hr & Hs & Ht) r'. rewrite delete_fps_lookup. case_decide; [done|]. congruence.
  - done.
  - intros f t d (r & Hr & Hs & Ht) r' Hr'. cbn in Hr'. congruence.
  - done.
Qed.

(** C2: an approval restricted to client addresses is never broadened by any
    call other than ApplyDecisions: after any method, under any faults, the
    fingerprint is gone, or no longer approved, or approved with the same
    ranges. *)
Theorem scoped_approval_not_broadened s c w r w' fp text :
  working w = None ->
  (forall ds k v, c <> CallApplyDecisions ds k v) ->
  scoped fp text (committed w) ->
  run_call s c w = (r, w') ->
  forall row, db_fps (committed w') !! fp = Some row -> fr_status row = StatusApproved ->
    fr_approval_ranges row = Some text.
Proof.
  intros Hw Hc Hscoped Hrun.
  apply (allows_follows _ _ s c (not_broadened_allows fp text s)) in Hrun as (_ & _ & HR); [by apply HR| |done].
  destruct c; try done. by specialize (Hc decisions cursorKey cursor).
Qed.
End observing.

Lemma scoped_approval_not_broadened_witness :
  let after := committed (run_call (Any := PlainValue) demo_store
    (CallUpsertStatus "aa" StatusApproved "renamed") (demo_world [])).2 in
  exists row, db_fps after !! "aa" = Some row /\
    fr_status row = StatusApproved /\ fr_approval_ranges row = Some demo_scope_text.
Proof.
  cbv zeta.
  match goal with |- exists row, ?l = _ /\ _ =>
    assert (fr_status <$> l = Some StatusApproved) as Hst by (vm_compute; reflexivity);
    destruct l as [row|] eqn:E; [|discriminate Hst] end.
  injection Hst as Hst. exists row. split; [done|split; [done|]].
  refine (scoped_approval_not_broadened (Any := PlainValue) demo_store
    (CallUpsertStatus "aa" StatusApproved "renamed") (demo_world []) _ _ "aa" demo_scope_text
    eq_refl ltac:(done) _ (surjective_pairing _) row E Hst).
  exists (demo_row StatusApproved "laptop" 0 (Some demo_scope_text)). split; [vm_compute; reflexivity|done].
Defined.


(** ** The invariant *)

(** Databases a gate can reach: a fresh file that Open has initialised, then any
    calls in any order with any faults, at times RFC 3339 can write and with
    scopes built by approval.New. *)
Inductive reachable `{JSONCodec Any} `{RowOrder} : DB -> Prop :=
  | reach_open opts t st d : open_db opts t empty_db = Ok (st, d) -> reachable d
  | reach_call s c w r w' :
      reachable (committed w) -> working w = None -> in_year_range (clock w) ->
      call_applies scopes_ok c -> run_call s c w = (r, w') -> reachable (committed w').

Section invariant.
Context `{JSONLaws Any} `{RowOrder}.

Lemma wf_no_rows d :
  (forall fp, db_fps d !! fp = None) -> db_ips d = ∅ -> db_ports d = ∅ -> db_sightings d = ∅ -> wf d.
Proof.
  intros Hf Hi Hp Hs. split.
  - intros fp r. by rewrite Hf.
  - intros fp ip. rewrite Hi. set_solver.
  - intros fp p. rewrite Hp. set_solver.
  - intros fp ip p ls. by rewrite Hs, lookup_empty.
  - intros fp. rewrite (ips_of_unique fp d []); [|constructor|intros ip; rewrite Hi; set_solver].
    rewrite (ports_of_unique fp d []); [|constructor|intros p; rewrite Hp; set_solver].
    rewrite (sightings_of_unique fp d []); [simpl; lia|constructor|].
    intros ip p ls. rewrite Hs, lookup_empty. by split; [intros ?%not_elem_of_nil|].
Qed.

Lemma wf_reachable d : reachable d -> wf d.
Proof.
  induction 1 as [opts t st d Ho|s c w r w' _ IH Hw Ht Hc Hrun].
  - apply open_db_keeps in Ho as (K1 & _ & _ & _ & _ & K6 & K7 & K8). apply wf_no_rows.
    + intros fp. specialize (K1 fp). cbn [db_fps empty_db] in K1. rewrite lookup_empty in K1. by destruct (db_fps d !! fp).
    + set_solver.
    + set_solver.
    + apply map_eq. intros k. rewrite lookup_empty.
      destruct (db_sightings d !! k) as [ls|] eqn:E; [|done]. eapply lookup_weaken in E; [|exact K8].
      cbn [db_sightings empty_db] in E. by rewrite lookup_empty in E.
  - destruct (allows_follows _ _ s c (wf_allows s) Hc w r w' Hw Hrun) as (_ & _ & HR). by apply HR.
Qed.

(** C3: every database a gate can reach is well-formed: each row decodes and
    carries a known status, a metadata bag of at most 64 KiB and a scope only
    where it is approved; history rows have their fingerprint and a readable
    time; and no fingerprint has more than 128 IPs, ports or sightings. *)
Theorem reachable_well_formed d : reachable d -> wf d.
Proof. apply wf_reachable. Qed.

(** What an entry says about a fingerprint, column by column: the row's texts
    decoded, and the rows of the three history tables that carry the fingerprint,
    the sightings newest first. *)
Record exact_entry (fp : string) (d : DB) (row : FpRow) (e : Entry Any) : Prop := {
  ee_fp : e_Fingerprint e = fp;
  ee_status : e_Status e = fr_status row;
  ee_label : e_Label e = fr_label row;
  ee_count : e_Count e = fr_count row;
  ee_first : decodeTime (fr_first_seen row) = Ok (e_FirstSeen e);
  ee_last : decodeTime (fr_last_seen row) = Ok (e_LastSeen e);
  ee_scope : match fr_approval_ranges row with
             | None => e_ApprovalRanges e = None
             | Some text => fr_status row = StatusApproved /\
                 exists s, Scope_UnmarshalJSON text = Ok s /\ e_ApprovalRanges e = Some s
             end;
  ee_meta : if bool_decide (TrimSpace (fr_meta row) = "") then e_Meta e = None
            else Unmarshal_map (fr_meta row) = Some (e_Meta e);
  ee_ips : StronglySorted str_lt (e_IPs e) /\ forall ip, ip ∈ e_IPs e <-> (fp, ip) ∈ db_ips d;
  ee_ports : StronglySorted Z.lt (e_Ports e) /\ forall port, port ∈ e_Ports e <-> (fp, port) ∈ db_ports d;
  ee_sightings : exists rows : list (string * Z * string),
    StronglySorted (fun a b => str_lt b.2 a.2 \/ (a.2 = b.2 /\
      (str_lt a.1.1 b.1.1 \/ (a.1.1 = b.1.1 /\ a.1.2 < b.1.2)))) rows /\
    (forall ip port text, (ip, port, text) ∈ rows <-> db_sightings d !! (fp, ip, port) = Some text) /\
    Forall2 (fun row sg => sg_IP sg = row.1.1 /\ sg_Port sg = row.1.2 /\
               decodeTime row.2 = Ok (sg_LastSeen sg)) rows (e_Sightings e)
}.

Lemma scan_ranges_inv status ranges scope :
  scan_ranges status ranges = Ok scope ->
  match ranges with
  | None => scope = None
  | Some text => status = StatusApproved /\ exists s, Scope_UnmarshalJSON text = Ok s /\ scope = Some s
  end.
Proof.
  unfold scan_ranges. destruct ranges as [text|]; [|by intros [= <-]].
  destruct (Scope_UnmarshalJSON text) as [s|].
  - case_bool_decide; (destruct (Unmarshal_strings text) as [[]|]; intros [= <-]); (split; [done|by exists s]).
  - by destruct (Unmarshal_strings text) as [[]|].
Qed.

Lemma scan_meta_inv text (m : GoMap Any) :
  scan_meta text = Ok m -> if bool_decide (TrimSpace text = "") then m = None else Unmarshal_map text = Some m.
Proof.
  unfold scan_meta. case_bool_decide; [by intros [= <-]|]. destruct (Unmarshal_map text); [|done]. by intros [= <-].
Qed.

Lemma get_entry_exact fp d row e :
  db_fps d !! fp = Some row -> get_entry fp d = Ok e -> exact_entry fp d row e.
Proof.
  intros E Hg. rewrite (get_entry_stored _ _ _ E) in Hg. unfold mbind, result_bind in Hg.
  destruct (scanEntry (fp, row)) as [e0|] eqn:Es; [|done].
  apply scanEntry_fields in Es as (F1 & F2 & F3 & F4 & F5 & F6 & F7%scan_ranges_inv & F8%scan_meta_inv).
  apply history_entry_fields in Hg as (G1 & G2 & G3 & G4 & G5 & G6 & G7 & G8 & G9 & G10 & G11%scan_all_ok).
  constructor; rewrite ?G1, ?G2, ?G3, ?G4, ?G5, ?G6, ?G7, ?G8, ?G9, ?G10; try done.
  - split; [apply ips_of_sorted|intros ip; apply elem_of_ips_of].
  - split; [apply ports_of_sorted|intros port; apply elem_of_ports_of].
  - exists (sightings_of fp d). split; [apply sightings_of_sorted|].
    split; [intros ip port text; apply elem_of_sightings_of|].
    eapply Forall2_impl; [exact G11|]. intros [[ip port] ls] sg. unfold scan_sighting, mbind, result_bind. simpl.
    destruct (decodeTime ls); [|done]. by intros [= <-].
Qed.

(** C21: on a reachable database Get is total and exact: without faults it
    returns an entry for a stored fingerprint and sql.ErrNoRows for any other,
    and with faults a success is still that entry: all its fields, the scope, the
    times, the count, the metadata and the three histories, are what is stored. *)
Theorem Get_total_and_exact fp w r w' :
  reachable (committed w) -> Get fp w = (r, w') ->
  committed w' = committed w /\
  (script w = [] -> match db_fps (committed w) !! fp with
                    | Some _ => exists e, r = Ok e
                    | None => r = Err ErrNoRows
                    end) /\
  (forall e, r = Ok e -> exists row, db_fps (committed w) !! fp = Some row /\
     exact_entry fp (committed w) row e).
Proof.
  intros Hr Hrun. apply wf_reachable in Hr.
  destruct (reads_Get fp w (committed w) r w' eq_refl Hrun) as (A1 & _ & _ & A4 & A5).
  split; [done|]. destruct (db_fps (committed w) !! fp) as [row|] eqn:E.
  - split.
    + intros Hq. destruct (A5 Hq) as [_ ->]. by eapply get_entry_wf.
    + intros e ->. exists row. split; [done|]. apply get_entry_exact; [done|]. by rewrite <- A4.
  - rewrite (get_entry_absent fp _ E) in A4, A5. split; [by intros Hq; destruct (A5 Hq)|].
    intros e ->. by specialize (A4 eq_refl).
Qed.
End invariant.

(** A freshly opened database, and one observation with a fault on the way. *)
Definition fresh_db : DB :=
  match open_db (Any := PlainValue) {| o_Path := "gate.db"; o_MaxFingerprints := 2; o_Legacy := [] |} 0 empty_db with
  | Ok (_, d) => d
  | Err _ => empty_db
  end.

Definition demo_observation (fp : string) : Observation PlainValue :=
  {| obs_Fingerprint := fp; obs_IP := "192.0.2.1"; obs_Port := 22; obs_Meta := Some {[ "kex" := PText "x25519" ]} |}.

Definition fresh_world (faults : list (option string)) : World :=
  {| committed := fresh_db; working := None; script := faults; clock := 1000000000 |}.

Lemma reachable_fresh : reachable (Any := PlainValue) fresh_db.
Proof. by eapply (reach_open {| o_Path := "gate.db"; o_MaxFingerprints := 2; o_Legacy := [] |} 0). Defined.

Lemma reachable_well_formed_witness :
  wf (committed (run_call demo_store (CallObserve (demo_observation "aa") true) (fresh_world [])).2).
Proof.
  apply reachable_well_formed.
  eapply (reach_call demo_store (CallObserve (demo_observation "aa") true) (fresh_world []));
    [apply reachable_fresh|reflexivity|split; vm_compute; done|exact I|apply surjective_pairing].
Defined.

(** The database after a first sighting, from which it, another fingerprint and,
    with a fault in the second call, it again are read. *)
Lemma first_sighting : exists d row,
  d = committed (run_call demo_store (CallObserve (demo_observation "aa") false) (fresh_world [])).2 /\
  reachable (Any := PlainValue) d /\ db_fps d !! "aa" = Some row /\
  fr_last_seen row = encodeTime 1000000000 /\ db_fps d !! "zz" = None.
Proof.
  set (d := committed _). assert (db_fps d !! "zz" = None) as Hz by (vm_compute; reflexivity).
  assert (fr_last_seen <$> db_fps d !! "aa" = Some (encodeTime 1000000000)) as Hs by (vm_compute; reflexivity).
  apply fmap_Some in Hs as (row & Hrow & Hseen). exists d, row.
  split; [exact eq_refl|split; [|exact (conj Hrow (conj (eq_sym Hseen) Hz))]].
  eapply (reach_call demo_store (CallObserve (demo_observation "aa") false) (fresh_world []));
    [apply reachable_fresh|reflexivity|split; vm_compute; done|exact I|apply surjective_pairing].
Qed.

Lemma Get_total_and_exact_witness : exists d,
  d = committed (run_call demo_store (CallObserve (demo_observation "aa") false) (fresh_world [])).2 /\
  let w faults := {| committed := d; working := None; script := faults; clock := 2000000000 |} in
  (exists e : Entry PlainValue, (Get "aa" (w [])).1 = Ok e /\ e_LastSeen e = 1000000000 /\
     (forall ip, ip ∈ e_IPs e <-> ("aa", ip) ∈ db_ips d)) /\
  (Get (Any := PlainValue) "zz" (w [])).1 = Err ErrNoRows /\
  committed (Get (Any := PlainValue) "aa" (w [None; Some "busy"])).2 = d.
Proof.
  destruct first_sighting as (d & row & Hd & Hr & Hrow & Hseen & Hz). exists d. split; [exact Hd|].
  intros w. clear Hd. split; [|split].
  - destruct (Get_total_and_exact (Any := PlainValue) "aa" (w []) _ _ Hr (surjective_pairing _)) as (_ & Ht & He).
    specialize (Ht eq_refl). cbn [w committed] in Ht, He. rewrite Hrow in Ht, He.
    destruct Ht as [e Ht]. destruct (He e Ht) as (row' & [= <-] & Hx). exists e.
    split; [exact Ht|split; [|exact (proj2 (ee_ips _ _ _ _ Hx))]].
    pose proof (ee_last _ _ _ _ Hx) as Hl. rewrite Hseen in Hl. vm_compute in Hl. injection Hl as Hl. exact (eq_sym Hl).
  - destruct (Get_total_and_exact (Any := PlainValue) "zz" (w []) _ _ Hr (surjective_pairing _)) as (_ & Ht & _).
    specialize (Ht eq_refl). cbn [w committed] in Ht. rewrite Hz in Ht. exact Ht.
  - destruct (Get_total_and_exact (Any := PlainValue) "aa" (w [None; Some "busy"]) _ _ Hr
      (surjective_pairing _)) as (Hc & _). exact Hc.
Defined.
