(* ===== verification/ObserveProps.v ===== *)
(** Properties of package store, second group: what an observation records and
    returns, and which rows pruning removes. *)

From S2P Require Import Prelude GoStrings GoTime Netip Json Approval Database Tables Store Writes Refinement Migrate Invariant Reading StoreProps.
From Stdlib Require Import Ascii String.
From stdpp Require Import strings gmap sorting.
#[local] Open Scope stdpp_scope.
#[local] Open Scope Z_scope.

(** ** Pruning *)

Section pruning.
Context `{RowOrder}.

(** After a prune the cap holds, unless only approved rows are left. *)
Lemma prune_db_cap max d :
  count_fps (prune_db max d) <= max \/
  forall fp r, db_fps (prune_db max d) !! fp = Some r -> fr_status r = StatusApproved.
Proof.
  unfold prune_db. cbv zeta. destruct (count_fps d - max <=? 0) eqn:E; [left; lia|].
  set (excess := count_fps d - max) in *. set (v := prune_victims excess d).
  assert (count_fps (delete_fps v d) = count_fps d - Z.of_nat (List.length v)) as Hc.
  { apply size_delete_fps; [apply NoDup_victims|]. intros fp (r & Hr & _)%victims_in_rows. eauto. }
  destruct (Z.leb_spec excess (Z.of_nat (List.length v))) as [Hl|Hl]; [left; lia|right].
  intros fp r. rewrite delete_fps_lookup. case_decide as Hin; [done|]. intros Hr.
  destruct (decide (fr_status r = StatusApproved)) as [|Hn]; [done|]. destruct Hin.
  unfold v, prune_victims in *. rewrite take_ge.
  - apply prune_candidates_spec. eauto.
  - rewrite length_take in Hl. lia.
Qed.

(** The number of rows removed, and the order they are removed in. *)
Lemma prune_db_size max d : count_fps (prune_db max d) = count_fps d - prune_count max d.
Proof.
  unfold prune_db, prune_count. cbv zeta. destruct (count_fps d - max <=? 0); [lia|].
  apply size_delete_fps; [apply NoDup_victims|]. intros fp (r & Hr & _)%victims_in_rows. eauto.
Qed.

Lemma victims_before_survivors excess d v rv u ru :
  v ∈ prune_victims excess d -> db_fps d !! v = Some rv ->
  u ∉ prune_victims excess d -> db_fps d !! u = Some ru -> fr_status ru <> StatusApproved ->
  ~ str_lt (fr_last_seen ru) (fr_last_seen rv).
Proof.
  unfold prune_victims. rewrite <- !fmap_take.
  set (l := merge_sort seen_le _). intros (x & -> & Hx)%list_elem_of_fmap Hrv Hu Hru Hs.
  assert (forall y, y ∈ l -> db_fps d !! y.1 = Some y.2) as Hl.
  { intros [f r]. unfold l. rewrite merge_sort_Permutation. intros [_ Hin]%list_elem_of_filter.
    rewrite scan_rows_perm in Hin. by apply elem_of_map_to_list in Hin. }
  assert (x ∈ l) as Hxl by (apply (elem_of_take_drop (Z.to_nat excess)); auto).
  rewrite (Hl x Hxl) in Hrv. injection Hrv as <-.
  assert ((u, ru) ∈ l) as Hul.
  { unfold l. rewrite merge_sort_Permutation. apply list_elem_of_filter. split; [done|].
    rewrite scan_rows_perm. by apply elem_of_map_to_list. }
  apply (elem_of_take_drop (Z.to_nat excess)) in Hul as [Hul|Hul].
  { destruct Hu. apply list_elem_of_fmap. by exists (u, ru). }
  assert (Transitive seen_le) as Htr.
  { intros a b c. unfold seen_le. rewrite !str_not_lt. intros H1 H2. by etrans. }
  assert (StronglySorted seen_le l) as Hsort
    by (pose proof seen_le_total; by apply StronglySorted_merge_sort).
  by apply (StronglySorted_take_drop seen_le (Z.to_nat excess) l x (u, ru) Hsort).
Qed.

(** C26: PruneToLimit removes only non-approved rows, as many as it reports,
    until the cap holds or only approved rows are left; a row it removes is not
    behind any non-approved row it keeps in the order of the stored last_seen,
    so it is never newer by a whole second; and under any fault it removes
    either all of these rows or none. *)
Theorem PruneToLimit_evicts_oldest max w r w' :
  working w = None -> 0 < max -> PruneToLimit max w = (r, w') ->
  let d := committed w in let d' := committed w' in
  (is_ok r = false -> d' = d) /\
  (forall n, r = Ok n ->
     count_fps d' = count_fps d - n /\
     (count_fps d' <= max \/ forall fp row, db_fps d' !! fp = Some row -> fr_status row = StatusApproved) /\
     (forall fp row, db_fps d' !! fp = Some row -> db_fps d !! fp = Some row) /\
     (forall v rv, db_fps d !! v = Some rv -> db_fps d' !! v = None ->
        fr_status rv <> StatusApproved /\
        forall u ru, db_fps d' !! u = Some ru -> fr_status ru <> StatusApproved ->
          ~ str_lt (fr_last_seen ru) (fr_last_seen rv) /\
          (forall tv tu, fr_last_seen rv = encodeTime tv -> fr_last_seen ru = encodeTime tu ->
             in_year_range tv -> in_year_range tu -> tv / ns_per_sec <= tu / ns_per_sec))).
Proof.
  intros Hw Hmax Hrun. cbv zeta. destruct (PruneToLimit_atomic max) as [Hi Ha].
  destruct (Hi w r w' Hw Hrun) as (_ & _ & H3 & _ & _). split; [by apply (Ha w r w' Hw Hrun)|].
  intros n ->. specialize (H3 n eq_refl). unfold prune in H3.
  destruct (max <=? 0) eqn:E; [lia|]. injection H3 as <- <-.
  split; [apply prune_db_size|]. split; [apply prune_db_cap|]. split; [apply prune_db_rows|].
  intros v rv Hv Hgone. unfold prune_db in *. cbv zeta in *.
  destruct (count_fps (committed w) - max <=? 0); [congruence|].
  rewrite delete_fps_lookup in Hgone. case_decide as Hin; [|congruence].
  destruct (victims_in_rows _ _ _ Hin) as (r' & Hr' & Hs). split; [congruence|].
  intros u ru Hu Hsu. rewrite delete_fps_lookup in Hu. case_decide as Hnin; [done|].
  pose proof (victims_before_survivors _ _ _ _ _ _ Hin Hv Hnin Hu Hsu) as Hord. split; [done|].
  intros tv tu Ev Eu Hrv Hru. apply Z.nlt_ge. intros Hlt. apply Hord. rewrite Ev, Eu.
  by apply encodeTime_lt.
Qed.
End pruning.

Lemma PruneToLimit_evicts_oldest_witness :
  count_fps (committed (PruneToLimit 1 (demo_world [])).2) = count_fps (committed (demo_world [])) - 2.
Proof.
  refine (proj1 (proj2 (PruneToLimit_evicts_oldest 1 (demo_world []) _ _ eq_refl eq_refl
    (surjective_pairing _)) 2 _)).
  vm_compute. reflexivity.
Defined.

(** Two pending rows of the same second: one seen on the second, one half a
    second later. *)
Definition same_second_db : DB :=
  set_fps (fun _ => {[ "older" := demo_row StatusPending "" 1000000000 None;
                       "newer" := demo_row StatusPending "" 1500000000 None ]}) empty_db.

(** The stored text of a time is not ordered as the time within one second
    ("...:01.5Z" sorts before "...:01Z"), so PruneToLimit can evict the newer of
    two entries and keep the older one. *)
Theorem PruneToLimit_can_evict_newer :
  let w := {| committed := same_second_db; working := None; script := []; clock := 2000000000 |} in
  let d' := committed (PruneToLimit 1 w).2 in
  1000000000 < 1500000000 /\
  fr_last_seen <$> db_fps same_second_db !! "older" = Some (encodeTime 1000000000) /\
  fr_last_seen <$> db_fps same_second_db !! "newer" = Some (encodeTime 1500000000) /\
  is_Some (db_fps d' !! "older") /\ db_fps d' !! "newer" = None.
Proof. split_and!; [done|vm_compute; by eexists..|vm_compute; reflexivity]. Qed.

(** ** Observations *)

Section observations.
Context `{JSONCodec Any} `{RowOrder}.

(** A successful Observe, from its pure counterpart. *)
Lemma Observe_ok s (obs : Observation Any) b w e w' :
  working w = None -> Observe s obs b w = (Ok e, w') ->
  observe s obs b (clock w) (committed w) = Ok (e, committed w').
Proof.
  intros Hw Hrun. destruct (Observe_atomic s obs b) as [Hi _].
  by destruct (Hi w _ w' Hw Hrun) as (_ & _ & H3 & _); apply H3.
Qed.

(** What the metadata an observation stores decodes to. *)
Definition stored_meta (meta : GoMap Any) : GoMap Any :=
  if bool_decide (map_of meta = ∅) then Some ∅ else Some (json_norm (map_of meta)).

Lemma scan_encoded_meta `{!JSONLaws Any} (meta : GoMap Any) text :
  encodeMeta meta = Ok text -> scan_meta text = Ok (stored_meta meta).
Proof.
  unfold encodeMeta, stored_meta. case_bool_decide; [intros [= <-]|].
  - unfold scan_meta. rewrite bool_decide_false by (vm_compute; done). by rewrite Unmarshal_braces.
  - destruct (Marshal_map (map_of meta)) as [s'|] eqn:E; [|done]. intros [= <-].
    unfold scan_meta. rewrite bool_decide_false by (by eapply Marshal_map_not_blank).
    by rewrite (Unmarshal_Marshal_map _ _ E).
Qed.

(** C22: a successful Observe returns the row it wrote: a first sighting is
    pending, or blocked under blockUnknown, with count 1; a repeat keeps the
    status, label, scope and first_seen and adds one to the count; last_seen is
    now, and the metadata bag is the one of this sighting. *)
Theorem Observe_returns_row `{!JSONLaws Any} s (obs : Observation Any) b w e w' :
  working w = None -> in_year_range (clock w) -> Observe s obs b w = (Ok e, w') ->
  e_Fingerprint e = obs_Fingerprint obs /\ e_LastSeen e = clock w /\
  e_Meta e = stored_meta (obs_Meta obs) /\
  match db_fps (committed w) !! obs_Fingerprint obs with
  | None => e_Status e = (if b then StatusBlocked else StatusPending) /\ e_Label e = "" /\
            e_Count e = 1 /\ e_FirstSeen e = clock w /\ e_ApprovalRanges e = None
  | Some row => e_Status e = fr_status row /\ e_Label e = fr_label row /\
                e_Count e = fr_count row + 1 /\
                decodeTime (fr_first_seen row) = Ok (e_FirstSeen e) /\
                scan_ranges (fr_status row) (fr_approval_ranges row) = Ok (e_ApprovalRanges e)
  end.
Proof.
  intros Hw Ht Hrun. apply Observe_ok, observe_inv in Hrun as (m & entry & _ & Hm & _ & Hs & Hh & _);
    [|done].
  apply scan_encoded_meta in Hm.
  apply scanEntry_fields in Hs as (S1 & S2 & S3 & S4 & S5 & S6 & S7 & S8).
  apply history_entry_fields in Hh as (G1 & G2 & G3 & G4 & G5 & G6 & G7 & G8 & _).
  assert (fr_last_seen (row_after m b (clock w) (committed w) (obs_Fingerprint obs)) =
    encodeTime (clock w) /\ fr_meta (row_after m b (clock w) (committed w) (obs_Fingerprint obs)) = m)
    as [Hl Hmm] by (unfold row_after; by destruct (db_fps (committed w) !! obs_Fingerprint obs)).
  rewrite Hl, decode_encode_time in S6 by done. rewrite Hmm, Hm in S8.
  split_and!; [congruence..|]. unfold row_after in *.
  destruct (db_fps (committed w) !! obs_Fingerprint obs) as [row|];
    cbn [observed_row new_row fr_status fr_label fr_count fr_first_seen fr_approval_ranges scan_ranges] in *.
  - rewrite G2, G3, G4, G5, G7. done.
  - rewrite decode_encode_time in S5 by done. injection S5 as S5. injection S7 as S7.
    split_and!; [by rewrite G2|congruence..].
Qed.

(** A sorted list of the addresses a fingerprint had and the new one. *)
Definition ips_with (d : DB) (fp ip : string) (all : list string) : Prop :=
  StronglySorted str_lt all /\ forall i, i ∈ all <-> (fp, i) ∈ db_ips d \/ (ip <> "" /\ i = ip).

Definition ports_with (d : DB) (fp : string) (port : Z) (all : list Z) : Prop :=
  StronglySorted Z.lt all /\ forall p, p ∈ all <-> (fp, p) ∈ db_ports d \/ (port <> 0 /\ p = port).

Definition sightings_with (d : DB) (fp ip : string) (port : Z) (now : string) (all : list srow) : Prop :=
  StronglySorted sg_lt all /\
  forall i p t, (i, p, t) ∈ all <->
    if decide (ip <> "" /\ i = ip /\ p = port) then t = now
    else db_sightings d !! (fp, i, p) = Some t.

Lemma observed_history (obs : Observation Any) r t d :
  exists ips ports sgs,
    ips_with d (obs_Fingerprint obs) (obs_IP obs) ips /\
    ports_with d (obs_Fingerprint obs) (obs_Port obs) ports /\
    sightings_with d (obs_Fingerprint obs) (obs_IP obs) (obs_Port obs) (encodeTime t) sgs /\
    ips_of (obs_Fingerprint obs) (observed_db obs r t d) = take MaxObservationValues ips /\
    ports_of (obs_Fingerprint obs) (observed_db obs r t d) = take MaxObservationValues ports /\
    sightings_of (obs_Fingerprint obs) (observed_db obs r t d) = take MaxObservationValues sgs.
Proof.
  set (fp := obs_Fingerprint obs). set (d0 := set_fps <[fp := r]> d).
  destruct (record_history_rows fp (obs_IP obs) (obs_Port obs) (encodeTime t) d0) as (_ & R2 & R3 & R4).
  set (d1 := record_history fp (obs_IP obs) (obs_Port obs) (encodeTime t) d0) in *.
  exists (ips_of fp d1), (ports_of fp d1), (sightings_of fp d1). split_and!.
  - split; [apply ips_of_sorted|]. intros i. rewrite elem_of_ips_of, R2. simpl. naive_solver.
  - split; [apply ports_of_sorted|]. intros p. rewrite elem_of_ports_of, R3. simpl. naive_solver.
  - split; [apply sightings_of_sorted|]. intros i p ls. rewrite elem_of_sightings_of, R4.
    destruct (decide (obs_IP obs <> "" /\ (fp, i, p) = (fp, obs_IP obs, obs_Port obs))) as [Ha|Ha],
      (decide (obs_IP obs <> "" /\ i = obs_IP obs /\ p = obs_Port obs)) as [Hb|Hb].
    + split; [by intros [= ->]|by intros ->].
    + destruct Hb. by destruct Ha as [Hn [= -> ->]].
    + destruct Ha. by destruct Hb as (Hn & -> & ->).
    + reflexivity.
  - apply trim_db_self.
  - apply trim_db_self.
  - apply trim_db_self.
Qed.

(** C23: the history Observe returns: the sorted source addresses and ports with
    the new ones added, and the sightings in the order of their stored times
    with this pair's sighting set to now, each cut to its first 128. *)
Theorem Observe_returns_history s (obs : Observation Any) b w e w' :
  working w = None -> Observe s obs b w = (Ok e, w') ->
  exists ips ports sgs,
    ips_with (committed w) (obs_Fingerprint obs) (obs_IP obs) ips /\
    ports_with (committed w) (obs_Fingerprint obs) (obs_Port obs) ports /\
    sightings_with (committed w) (obs_Fingerprint obs) (obs_IP obs) (obs_Port obs)
      (encodeTime (clock w)) sgs /\
    e_IPs e = take 128 ips /\ e_Ports e = take 128 ports /\
    Forall2 (fun row sg => sg_IP sg = row.1.1 /\ sg_Port sg = row.1.2 /\
               decodeTime row.2 = Ok (sg_LastSeen sg)) (take 128 sgs) (e_Sightings e).
Proof.
  intros Hw Hrun. apply Observe_ok, observe_inv in Hrun as (m & entry & _ & _ & _ & _ & Hh & _); [|done].
  set (r := row_after _ _ _ _ _) in Hh.
  destruct (observed_history obs r (clock w) (committed w)) as (ips & ports & sgs & Hi & Hp & Hg & Ei & Ep & Eg).
  apply history_entry_fields in Hh as (_ & _ & _ & _ & _ & _ & _ & _ & G9 & G10 & G11).
  exists ips, ports, sgs. split_and!; [done..|by rewrite G9|by rewrite G10|].
  rewrite Eg in G11. apply scan_all_ok in G11. eapply Forall2_impl; [exact G11|].
  intros [[i p] ls] sg. unfold scan_sighting, mbind, result_bind. simpl.
  destruct (decodeTime ls); [|done]. by intros [= <-].
Qed.

(** Reading back what was observed. *)
Lemma prune_db_history max d fp :
  is_Some (db_fps (prune_db max d) !! fp) ->
  ips_of fp (prune_db max d) = ips_of fp d /\ ports_of fp (prune_db max d) = ports_of fp d /\
  sightings_of fp (prune_db max d) = sightings_of fp d.
Proof.
  unfold prune_db. cbv zeta. case_match; [done|]. rewrite delete_fps_lookup.
  case_decide as Hin; [by intros []|]. intros _. apply delete_fps_survivor. by left.
Qed.

Lemma history_entry_ext e fp d d' :
  ips_of fp d' = ips_of fp d -> ports_of fp d' = ports_of fp d ->
  sightings_of fp d' = sightings_of fp d ->
  history_entry (Any := Any) e fp d' = history_entry e fp d.
Proof. intros H1 H2 H3. unfold history_entry. by rewrite H1, H2, H3. Qed.

(** C24: read your writes: after a successful Observe, Get returns exactly the
    entry Observe returned, unless the cap evicted the fingerprint at once, which
    happens only to a fingerprint seen for the first time and not approved. *)
Theorem Get_after_Observe s (obs : Observation Any) b w e w1 w2 r w3 :
  working w = None -> Observe s obs b w = (Ok e, w1) ->
  committed w2 = committed w1 -> script w2 = [] -> Get (obs_Fingerprint obs) w2 = (r, w3) ->
  r = Ok e \/
  (r = Err ErrNoRows /\ 0 < st_maxFingerprints s /\
   match db_fps (committed w) !! obs_Fingerprint obs with
   | None => True
   | Some old => fr_count old = 0 /\ fr_status old <> StatusApproved
   end).
Proof.
  intros Hw Hrun Hc Hq Hget. apply Observe_ok, observe_inv in Hrun
    as (m & entry & _ & _ & _ & Hs & Hh & Hd); [|done].
  set (fp := obs_Fingerprint obs) in *. set (row := row_after _ _ _ _ _) in *.
  destruct (reads_Get fp w2 _ r w3 eq_refl Hget) as (_ & _ & _ & _ & A5).
  destruct (A5 Hq) as [_ ->]. rewrite Hc.
  assert (db_fps (observed_db obs row (clock w) (committed w)) !! fp = Some row) as Hrow
    by (rewrite observed_db_rows; apply lookup_insert_eq).
  set (d1 := observed_db obs row (clock w) (committed w)) in *.
  destruct (db_fps (committed w1) !! fp) as [row'|] eqn:E.
  - left. assert (row' = row /\ ips_of fp (committed w1) = ips_of fp d1 /\
      ports_of fp (committed w1) = ports_of fp d1 /\ sightings_of fp (committed w1) = sightings_of fp d1)
      as (-> & E1 & E2 & E3).
    { rewrite Hd in E |- *. destruct (_ && _).
      - destruct (prune_db_history _ _ _ (ex_intro _ _ E)) as (-> & -> & ->).
        apply prune_db_rows in E. split_and!; [congruence|done..].
      - split_and!; [congruence|done..]. }
    rewrite (get_entry_stored fp row _ E), Hs. unfold mbind, result_bind.
    by rewrite (history_entry_ext entry fp d1).
  - right. rewrite (get_entry_absent fp _ E). split; [done|].
    destruct ((e_Count entry =? 1) && (0 <? st_maxFingerprints s)) eqn:Ep; [|congruence].
    apply andb_prop in Ep as [Ec Em]. split; [lia|].
    apply scanEntry_fields in Hs as (_ & _ & _ & S4 & _). unfold row, row_after in *.
    destruct (db_fps (committed w) !! fp) as [old|]; [|done]. simpl in S4. split; [lia|].
    intros Hst. rewrite Hd in E. by erewrite prune_db_approved in E.
Qed.

(** C25: Observe leaves every other fingerprint's row alone, except that a first
    sighting may evict non-approved ones to keep the cap; after it the cap holds
    or only approved fingerprints are left. *)
Theorem Observe_bounds_unknown_clients s (obs : Observation Any) b w r w' :
  working w = None -> Observe s obs b w = (r, w') ->
  (is_ok r = false -> committed w' = committed w) /\
  (forall fp row, fp <> obs_Fingerprint obs -> db_fps (committed w') !! fp = Some row ->
     db_fps (committed w) !! fp = Some row) /\
  (forall fp row, fp <> obs_Fingerprint obs -> db_fps (committed w) !! fp = Some row ->
     db_fps (committed w') !! fp = None ->
     fr_status row <> StatusApproved /\ 0 < st_maxFingerprints s) /\
  (is_ok r = true -> db_fps (committed w) !! obs_Fingerprint obs = None -> 0 < st_maxFingerprints s ->
     count_fps (committed w') <= st_maxFingerprints s \/
     forall fp row, db_fps (committed w') !! fp = Some row -> fr_status row = StatusApproved).
Proof.
  intros Hw Hrun. destruct (Observe_atomic s obs b) as [Hi Ha].
  destruct (Hi w r w' Hw Hrun) as (_ & _ & H3 & _ & _).
  specialize (Ha w r w' Hw Hrun). split; [done|].
  destruct r as [e|]; [|rewrite Ha by done; split_and!; [done|congruence|done]].
  specialize (H3 e eq_refl). split; [|split].
  - intros fp row Hne Hr. by destruct (observe_rows _ _ _ _ _ _ _ _ _ H3 Hr) as [[_ ?]|[? _]].
  - intros fp row Hne Hr Hgone. apply observe_inv in H3 as (m & entry & _ & _ & _ & _ & _ & Hd).
    set (d1 := observed_db _ _ _ _) in *.
    assert (db_fps d1 !! fp = Some row) as Hd1
      by (unfold d1; rewrite observed_db_rows, lookup_insert_ne by done; exact Hr).
    destruct ((e_Count entry =? 1) && (0 <? st_maxFingerprints s)) eqn:Ep; [|congruence].
    apply andb_prop in Ep as [_ Em]. split; [|lia]. intros Hs. rewrite Hd in Hgone.
    by erewrite prune_db_approved in Hgone.
  - intros _ Hnew Hmax. apply observe_inv in H3 as (m & entry & _ & _ & _ & Hs & _ & Hd).
    apply scanEntry_fields in Hs as (_ & _ & _ & S4 & _). unfold row_after in S4 at 1.
    rewrite Hnew in S4. cbn [observed_row new_row fr_count] in S4.
    destruct ((e_Count entry =? 1) && (0 <? st_maxFingerprints s)) eqn:Ep; [|lia].
    rewrite Hd. apply prune_db_cap.
Qed.
End observations.

Lemma Observe_returns_row_witness :
  exists e w', Observe demo_store (demo_observation "aa") true (fresh_world []) = (Ok e, w') /\
    e_Status e = StatusBlocked.
Proof.
  destruct (Observe demo_store (demo_observation "aa") true (fresh_world [])) as [[e|err] w'] eqn:E.
  - exists e, w'. split; [reflexivity|].
    pose proof (Observe_returns_row demo_store (demo_observation "aa") true (fresh_world []) e w'
      eq_refl ltac:(split; vm_compute; done) E) as (_ & _ & _ & Hnew).
    vm_compute in Hnew. apply Hnew.
  - exfalso. apply (f_equal (fun p => is_ok p.1)) in E. vm_compute in E. discriminate E.
Defined.

Lemma Observe_returns_history_witness :
  exists e w', Observe demo_store (demo_observation "aa") true (fresh_world []) = (Ok e, w') /\
    exists ips, ips_with fresh_db "aa" "192.0.2.1" ips /\ e_IPs e = take 128 ips.
Proof.
  destruct (Observe demo_store (demo_observation "aa") true (fresh_world [])) as [[e|err] w'] eqn:E.
  - exists e, w'. split; [reflexivity|].
    destruct (Observe_returns_history demo_store (demo_observation "aa") true (fresh_world []) e w'
      eq_refl E) as (ips & _ & _ & Hi & _ & _ & He & _).
    exists ips. split; [exact Hi|exact He].
  - exfalso. apply (f_equal (fun p => is_ok p.1)) in E. vm_compute in E. discriminate E.
Defined.

Lemma Get_after_Observe_witness :
  exists e w', Observe demo_store (demo_observation "aa") false (fresh_world []) = (Ok e, w') /\
    ((Get (Any := PlainValue) "aa" w').1 = Ok e \/ (Get (Any := PlainValue) "aa" w').1 = Err ErrNoRows).
Proof.
  destruct (Observe demo_store (demo_observation "aa") false (fresh_world [])) as [[e|err] w'] eqn:E.
  - exists e, w'. split; [reflexivity|].
    destruct (Get_after_Observe demo_store (demo_observation "aa") false (fresh_world []) e w' w' _ _
      eq_refl E eq_refl ltac:(apply (f_equal (fun p => script p.2)) in E; vm_compute in E; by rewrite E)
      (surjective_pairing (Get (Any := PlainValue) "aa" w'))) as [H|[H _]]; [left|right]; exact H.
  - exfalso. apply (f_equal (fun p => is_ok p.1)) in E. vm_compute in E. discriminate E.
Defined.

Lemma Observe_bounds_unknown_clients_witness :
  let run := Observe demo_store (demo_observation "zz") false (demo_world []) in
  count_fps (committed run.2) <= 2 \/
  forall fp row, db_fps (committed run.2) !! fp = Some row -> fr_status row = StatusApproved.
Proof.
  intros run.
  refine (proj2 (proj2 (proj2 (Observe_bounds_unknown_clients demo_store (demo_observation "zz") false
    (demo_world []) _ _ eq_refl (surjective_pairing _)))) _ _ _); vm_compute; reflexivity.
Defined.
