(* ===== verification/QueryProps.v ===== *)
(** Properties of package store, third group: List, ListPage and
    ResolveFingerprint against Get. *)

From S2P Require Import Prelude GoStrings GoTime Netip Json Approval Database Tables Store Writes Refinement Migrate Invariant Reading StoreProps.
From Stdlib Require Import Ascii String.
From stdpp Require Import strings gmap sorting.
#[local] Open Scope stdpp_scope.
#[local] Open Scope Z_scope.

Section queries.
Context `{JSONCodec Any} `{RowOrder}.

(** C27: List agrees with Get, entry by entry: whatever the faults, a
    successful List holds for each fingerprint exactly the entry Get reads from
    the same database, grouped sweeps and all, and nothing else; and on a
    well-formed database without faults it succeeds. *)
Theorem List_agrees_with_Get `{!JSONLaws Any} w r w' :
  List_ w = (r, w') ->
  committed w' = committed w /\
  (forall m, r = Ok m -> forall fp,
     m !! fp = match get_entry fp (committed w) with Ok e => Some e | Err _ => None end) /\
  (wf (committed w) -> script w = [] -> exists m, r = Ok m /\ dom m = dom (db_fps (committed w))).
Proof.
  intros Hrun. destruct (reads_List w (committed w) r w' eq_refl Hrun) as (A1 & _ & _ & A4 & A5).
  split; [done|]. split.
  - intros m -> fp. by apply list_all_lookup, eq_sym, A4.
  - intros Hwf Hq. destruct (A5 Hq) as [_ ->]. destruct (list_all_wf (committed w) Hwf) as [m Hm].
    exists m. split; [done|]. apply set_eq. intros fp. rewrite !elem_of_dom.
    rewrite (list_all_lookup (committed w) m fp Hm).
    destruct (db_fps (committed w) !! fp) as [row|] eqn:E.
    + destruct (get_entry_wf fp row (committed w) Hwf E) as [e ->]. split; eauto.
    + rewrite (get_entry_absent fp _ E). done.
Qed.

Lemma page_fps_sorted after through limit d : StronglySorted str_lt (page_fps after through limit d).
Proof. apply ssorted_take, ssorted_filter, fps_sorted_sorted. Qed.

(** The fingerprints of a page are the first ones of the range. *)
Lemma page_fps_elem after through limit d fp :
  fp ∈ page_fps after through limit d ->
  is_Some (db_fps d !! fp) /\ str_lt after fp /\ ~ str_lt through fp.
Proof.
  intros Hin. assert (fp ∈ filter (fun fp => str_lt after fp /\ ~ str_lt through fp) (fps_sorted d)) as Hf
    by (apply (elem_of_take_drop (Z.to_nat limit)); by left).
  apply list_elem_of_filter in Hf as [[H1 H2] Hf]. apply elem_of_fps_sorted in Hf. done.
Qed.

Lemma page_fps_complete after through limit d fp :
  is_Some (db_fps d !! fp) -> str_lt after fp -> ~ str_lt through fp ->
  fp ∉ page_fps after through limit d ->
  List.length (page_fps after through limit d) = Z.to_nat limit /\
  forall x, x ∈ page_fps after through limit d -> str_lt x fp.
Proof.
  intros Hin Ha Ht Hn. unfold page_fps in *. set (l := filter _ (fps_sorted d)) in *.
  assert (fp ∈ l) as Hl
    by (apply list_elem_of_filter; split; [done|]; by apply elem_of_fps_sorted).
  apply (elem_of_take_drop (Z.to_nat limit)) in Hl as [|Hd]; [done|].
  split.
  - rewrite length_take. destruct (drop (Z.to_nat limit) l) eqn:E; [by apply not_elem_of_nil in Hd|].
    apply (f_equal List.length) in E. rewrite length_drop in E. simpl in E. lia.
  - intros x Hx. apply (StronglySorted_take_drop str_lt (Z.to_nat limit) l x fp); [|done|done].
    apply ssorted_filter, fps_sorted_sorted.
Qed.

(** C28: a successful ListPage returns, in strictly increasing order, the
    entries Get reads for the stored fingerprints in (after, through], at most
    [limit] of them; one is missing only when the page is full and the missing
    one is above all of the page.  A page size outside 1..128 is refused. *)
Theorem ListPage_is_segment after through limit w r w' :
  ListPage after through limit w = (r, w') ->
  (limit < 1 \/ 128 < limit -> is_ok r = false) /\
  (forall es, r = Ok es ->
     let fps := map (fun e => e_Fingerprint e) es in
     StronglySorted str_lt fps /\
     Z.of_nat (List.length es) <= limit /\
     Forall (fun e => get_entry (Any := Any) (e_Fingerprint e) (committed w) = Ok e) es /\
     (forall fp, fp ∈ fps -> str_lt after fp /\ ~ str_lt through fp) /\
     (forall fp, is_Some (db_fps (committed w) !! fp) -> str_lt after fp -> ~ str_lt through fp ->
        fp ∈ fps \/ (Z.of_nat (List.length es) = limit /\ forall x, x ∈ fps -> str_lt x fp))).
Proof.
  intros Hrun. destruct (reads_ListPage after through limit w (committed w) r w' eq_refl Hrun)
    as (_ & _ & _ & A4 & _). split.
  { intros Hl. destruct r as [es|]; [|done]. specialize (A4 eq_refl). symmetry in A4.
    apply list_page_entries in A4 as [? _]. lia. }
  intros es ->. specialize (A4 eq_refl). symmetry in A4. apply list_page_entries in A4 as [Hl Hes].
  pose proof (entries_fps _ _ _ Hes) as Heq.
  pose proof (Forall2_length _ _ _ Hes) as Hlen. cbv zeta. rewrite Heq. split_and!.
  - apply page_fps_sorted.
  - rewrite <- Hlen. unfold page_fps. rewrite length_take. lia.
  - clear -Hes. induction Hes as [|fp e fps es Hg _ IH]; constructor; [|done].
    by rewrite (get_entry_fp _ _ _ Hg).
  - intros fp Hin. by apply page_fps_elem in Hin as [_ ?].
  - intros fp Hin Ha Ht. destruct (decide (fp ∈ page_fps after through limit (committed w))); [by left|right].
    destruct (page_fps_complete after through limit (committed w) fp) as [H1 H2]; try done.
    split; [lia|done].
Qed.
End queries.

(** C29: ResolveFingerprint: a stored fingerprint resolves to itself; otherwise
    the one stored fingerprint that starts with the query, up to ASCII case, is
    returned, and no match or several are errors.  LIKE's wildcards in the query
    stand for themselves.  Nothing is written. *)
Theorem ResolveFingerprint_unique_prefix query w r w' :
  ResolveFingerprint query w = (r, w') ->
  let q := TrimSpace query in
  let matching := filter (fun fp => prefix_fold q fp = true) (fps_sorted (committed w)) in
  committed w' = committed w /\
  (forall fp, r = Ok fp -> q <> "" /\ is_Some (db_fps (committed w) !! fp) /\
     (fp = q \/ (db_fps (committed w) !! q = None /\ matching = [fp]))) /\
  (script w = [] -> q <> "" ->
     (is_Some (db_fps (committed w) !! q) -> r = Ok q) /\
     (db_fps (committed w) !! q = None ->
        match matching with
        | [] => r = Err (ErrText "no fingerprint matching %q" [q])
        | [fp] => r = Ok fp
        | _ => r = Err (ErrText "fingerprint prefix %q is ambiguous" [q])
        end)).
Proof.
  intros Hrun. cbv zeta. set (q := TrimSpace query). set (matching := filter _ _).
  destruct (reads_ResolveFingerprint query w (committed w) r w' eq_refl Hrun) as (A1 & _ & _ & A4 & A5).
  assert (resolve query (committed w) =
    if bool_decide (q = "") then Err (ErrText "empty fingerprint" [])
    else if bool_decide (is_Some (db_fps (committed w) !! q)) then Ok q
    else match take 2 matching with
         | [] => Err (ErrText "no fingerprint matching %q" [q])
         | [fp] => Ok fp
         | _ => Err (ErrText "fingerprint prefix %q is ambiguous" [q])
         end) as Hres.
  { unfold resolve. fold q. by rewrite like_matches_prefix. }
  split; [done|]. split.
  - intros fp ->. specialize (A4 eq_refl). rewrite Hres in A4. case_bool_decide as Hq; [done|].
    split; [done|]. case_bool_decide as Hin; [injection A4 as ->; auto|].
    destruct matching as [|x [|y l]] eqn:Em; simpl in A4; [done| |done]. injection A4 as ->.
    assert (x ∈ matching) as Hx by (rewrite Em; set_solver).
    apply list_elem_of_filter in Hx as [_ Hx]. apply elem_of_fps_sorted in Hx.
    split; [done|]. right. split; [|done]. destruct (db_fps (committed w) !! q); [|done]. by destruct Hin.
  - intros Hs Hq. destruct (A5 Hs) as [_ ->]. rewrite Hres. rewrite bool_decide_false by done. split.
    + intros Hin. by rewrite bool_decide_true.
    + intros Hn. rewrite bool_decide_false by (rewrite Hn; by intros []).
      destruct matching as [|x [|y l]]; done.
Qed.

(** The prefix test ignores ASCII case: a query that is no prefix of any
    stored fingerprint can resolve, and a prefix of exactly one fingerprint can
    be refused as ambiguous because another differs in case only. *)
Theorem ResolveFingerprint_ignores_case :
  let two := set_fps (fun _ => {[ "SHA256:abc" := demo_row StatusPending "" 0 None;
                                  "sha256:abd" := demo_row StatusPending "" 0 None ]}) empty_db in
  let w := {| committed := two; working := None; script := []; clock := 0 |} in
  (ResolveFingerprint "sHA256:ABC" w).1 = Ok "SHA256:abc" /\
  String.prefix "SHA256:" "sha256:abd" = false /\
  (ResolveFingerprint "SHA256:" w).1 = Err (ErrText "fingerprint prefix %q is ambiguous" ["SHA256:"]).
Proof. split_and!; vm_compute; reflexivity. Qed.

Lemma List_agrees_with_Get_witness :
  exists m, (List_ (Any := PlainValue) (demo_world [])).1 = Ok m /\
    m !! "ab" = match get_entry "ab" (committed (demo_world [])) with Ok e => Some e | Err _ => None end.
Proof.
  assert (is_ok (List_ (Any := PlainValue) (demo_world [])).1 = true) as Hok by (vm_compute; reflexivity).
  destruct (List_ (Any := PlainValue) (demo_world [])) as [[m|e] w'] eqn:E; [|discriminate Hok].
  exists m. split; [reflexivity|].
  exact (proj1 (proj2 (List_agrees_with_Get (Any := PlainValue) (demo_world []) _ _ E)) m eq_refl "ab").
Defined.

Lemma ListPage_is_segment_witness :
  is_ok (ListPage (Any := PlainValue) "" "b" 0 (demo_world [])).1 = false /\
  exists es, (ListPage (Any := PlainValue) "" "b" 2 (demo_world [])).1 = Ok es /\
    StronglySorted str_lt (map (fun e => e_Fingerprint e) es).
Proof.
  split.
  - apply (ListPage_is_segment (Any := PlainValue) "" "b" 0 (demo_world []) _ _ (surjective_pairing _)). lia.
  - destruct (ListPage (Any := PlainValue) "" "b" 2 (demo_world [])) as [[es|err] w'] eqn:E.
    + exists es. split; [reflexivity|].
      apply (proj2 (ListPage_is_segment (Any := PlainValue) "" "b" 2 (demo_world []) _ _ E) es eq_refl).
    + exfalso. apply (f_equal (fun p => is_ok p.1)) in E. vm_compute in E. discriminate E.
Defined.

Lemma ResolveFingerprint_unique_prefix_witness :
  (ResolveFingerprint " aa " (demo_world [])).1 = Ok "aa".
Proof.
  refine (proj1 (proj2 (proj2 (ResolveFingerprint_unique_prefix " aa " (demo_world []) _ _
    (surjective_pairing _))) eq_refl _) _); vm_compute; [discriminate|by eexists].
Defined.
