(* ===== verification/AdminProps.v ===== *)
(** Properties of package store, fourth group: verdicts set by an operator,
    resetting the keyspace, alert deduplication, and opening a database. *)

From S2P Require Import Prelude GoStrings GoTime Netip Json Approval Database Tables Store Writes Refinement Migrate Invariant Reading StoreProps ObserveProps.
From Stdlib Require Import Ascii String.
From stdpp Require Import strings gmap sorting.
#[local] Open Scope stdpp_scope.
#[local] Open Scope Z_scope.

(** ** Verdicts *)

(** C33: SetStatus succeeds only for a known status and a stored fingerprint
    that is not a scoped approval being approved again; it then replaces the
    verdict and drops the scope, keeping the label, the times, the count, the
    metadata, the other columns, every other row and every other table.  Without
    faults it succeeds in exactly that case, and otherwise changes nothing. *)
Theorem SetStatus_replaces_verdict_only fp status w r w' :
  working w = None -> SetStatus fp status w = (r, w') ->
  let d := committed w in
  let d' := committed w' in
  (is_ok r = true -> Status_Valid status = true /\
     (exists row row', db_fps d !! fp = Some row /\ db_fps d' !! fp = Some row' /\
       (fr_approval_ranges row = None \/ status <> StatusApproved) /\
       fr_status row' = status /\ fr_approval_ranges row' = None /\ fr_label row' = fr_label row /\
       fr_first_seen row' = fr_first_seen row /\ fr_last_seen row' = fr_last_seen row /\
       fr_count row' = fr_count row /\ fr_meta row' = fr_meta row /\ fr_legacy row' = fr_legacy row) /\
     (forall fp', fp' <> fp -> db_fps d' !! fp' = db_fps d !! fp') /\
     db_columns d' = db_columns d /\ db_defaults d' = db_defaults d /\ db_ips d' = db_ips d /\
     db_ports d' = db_ports d /\ db_sightings d' = db_sightings d /\ db_alerts d' = db_alerts d /\
     db_meta d' = db_meta d) /\
  (script w = [] -> is_ok r = false -> d' = d /\
     (Status_Valid status = false \/ db_fps d !! fp = None \/
      (status = StatusApproved /\ exists row, db_fps d !! fp = Some row /\
         fr_approval_ranges row <> None))).
Proof.
  intros Hw Hrun. destruct (SetStatus_implements fp status w r w' Hw Hrun) as (_ & _ & H3 & H4 & H5).
  split.
  - intros Hok. destruct r as [[]|]; [|done]. specialize (H3 tt eq_refl). unfold set_status in H3.
    destruct (Status_Valid status); [|done]. split; [done|]. simpl in H3.
    destruct (db_fps (committed w) !! fp) as [row|] eqn:E; [|done].
    destruct (may_overwrite row status) eqn:Em; [|done]. injection H3 as H3. cbv zeta. rewrite <- H3.
    split_and!; try done; [|intros fp' Hne; by apply lookup_insert_ne].
    exists row, (with_verdict status None row). split_and!; try done; [apply lookup_insert_eq|].
    destruct (decide (status = StatusApproved)); [left|by right]. by apply (may_overwrite_narrow row status).
  - intros Hq Hbad. destruct (H5 Hq) as [_ Ha]. destruct r as [|e]; [done|].
    unfold set_status in Ha, H4. destruct (Status_Valid status); simpl in *.
    + destruct (db_fps (committed w) !! fp) as [row|] eqn:E.
      * destruct (may_overwrite row status) eqn:Em; [done|].
        split; [by destruct (H4 eq_refl) as [|[]]|]. right. right. unfold may_overwrite in Em.
        apply orb_false_elim in Em as [E1%bool_decide_eq_false E2%negb_false_iff%bool_decide_eq_true].
        split; [done|]. by exists row.
      * split; [by destruct (H4 eq_refl) as [|[]]|]. auto.
    + split; [by destruct (H4 eq_refl) as [|[]]|]. auto.
Qed.

(** Approving the scoped approval again changes nothing; blocking it keeps its
    label, and the rows of the others. *)
Lemma SetStatus_replaces_verdict_only_witness :
  let w := demo_world [] in
  committed (SetStatus "aa" StatusApproved w).2 = committed w /\
  (exists row', db_fps (committed (SetStatus "aa" StatusBlocked w).2) !! "aa" = Some row' /\
     fr_status row' = StatusBlocked /\ fr_label row' = "laptop") /\
  db_fps (committed (SetStatus "aa" StatusBlocked w).2) !! "b" = db_fps demo_db !! "b".
Proof.
  intros w. split.
  - refine (proj1 (proj2 (SetStatus_replaces_verdict_only "aa" StatusApproved w _ _ eq_refl
      (surjective_pairing _)) eq_refl _)). vm_compute. reflexivity.
  - destruct (proj1 (SetStatus_replaces_verdict_only "aa" StatusBlocked w _ _ eq_refl (surjective_pairing _)))
      as (_ & (row & row' & Hrow & Hrow' & _ & Hs & _ & Hl & _) & Ho & _); [vm_compute; reflexivity|]. split.
    + exists row'. split; [exact Hrow'|split; [exact Hs|]]. rewrite Hl. vm_compute in Hrow. by injection Hrow as <-.
    + by apply Ho.
Defined.

(** A verdict set before a fingerprint is ever seen survives its first
    sighting: after UpsertStatus on an unknown fingerprint and then Observe, the
    entry has that status and label, count 1 and the time of the upsert as
    first_seen, whatever blockUnknown says. *)
Theorem UpsertStatus_survives_first_sighting `{JSONLaws Any} `{RowOrder}
    s (obs : Observation Any) b status label w w1 w2 e w3 :
  working w = None -> in_year_range (clock w) ->
  db_fps (committed w) !! obs_Fingerprint obs = None ->
  UpsertStatus (obs_Fingerprint obs) status label w = (Ok tt, w1) ->
  committed w2 = committed w1 -> working w2 = None -> Observe s obs b w2 = (Ok e, w3) ->
  e_Status e = status /\ e_Label e = label /\ e_Count e = 1 /\ e_FirstSeen e = clock w /\
  e_ApprovalRanges e = None.
Proof.
  intros Hw Ht Hnew Hups Hc Hw2 Hobs.
  destruct (UpsertStatus_implements _ status label w _ w1 Hw Hups) as (_ & _ & A3 & _).
  specialize (A3 tt eq_refl). unfold upsert_status in A3. rewrite Hnew in A3.
  destruct (Status_Valid status); [|done]. injection A3 as Hd.
  apply Observe_ok, observe_inv in Hobs as (m & entry & _ & _ & _ & Hs & Hh & _); [|done].
  apply scanEntry_fields in Hs as (_ & S2 & S3 & S4 & S5 & _ & S7 & _).
  apply history_entry_fields in Hh as (_ & G2 & G3 & G4 & G5 & _ & G7 & _).
  assert (db_fps (committed w2) !! obs_Fingerprint obs =
    Some (new_row (committed w) status label (encodeTime (clock w)) 0 "{}" None)) as Hrow.
  { rewrite Hc, <- Hd. apply lookup_insert_eq. }
  unfold row_after in *. rewrite Hrow in *.
  cbn [observed_row new_row fr_status fr_label fr_count fr_first_seen fr_approval_ranges scan_ranges] in *.
  rewrite decode_encode_time in S5 by done. injection S5 as S5. injection S7 as S7.
  split_and!; [by rewrite G2|congruence|lia|congruence|congruence].
Qed.

Lemma UpsertStatus_survives_first_sighting_witness :
  exists e, (Observe demo_store (demo_observation "new") true
              (UpsertStatus "new" StatusApproved "laptop" (fresh_world [])).2).1 = Ok e /\
    e_Status e = StatusApproved.
Proof.
  destruct (UpsertStatus "new" StatusApproved "laptop" (fresh_world [])) as [r1 w1] eqn:E1.
  assert (r1 = Ok tt) as -> by (apply (f_equal fst) in E1; vm_compute in E1; by rewrite E1).
  assert (working w1 = None) as Hw1 by (apply (f_equal (fun p => working p.2)) in E1; vm_compute in E1; by rewrite E1).
  cbn [snd]. destruct (Observe demo_store (demo_observation "new") true w1) as [[e|err] w3] eqn:E3.
  - exists e. split; [reflexivity|].
    apply (UpsertStatus_survives_first_sighting demo_store (demo_observation "new") true
      StatusApproved "laptop" (fresh_world []) w1 w1 e w3 eq_refl ltac:(split; vm_compute; done)
      ltac:(vm_compute; reflexivity) E1 eq_refl Hw1 E3).
  - exfalso. assert (w1 = (UpsertStatus "new" StatusApproved "laptop" (fresh_world [])).2) as Hw
      by (by rewrite E1).
    rewrite Hw in E3. apply (f_equal (fun p => is_ok p.1)) in E3. vm_compute in E3. discriminate E3.
Defined.

(** ** Alerts *)

(** An alert is reported once: RecordBlockedRangeAlert answers true exactly
    when the (range, ip) pair had no record, and then stores this sighting; a
    repeat answers false and keeps the first record; other pairs and all other
    tables are untouched. *)
Theorem RecordBlockedRangeAlert_once rangeName ip fp w b w' :
  working w = None -> RecordBlockedRangeAlert rangeName ip fp w = (Ok b, w') ->
  (b = true <-> db_alerts (committed w) !! (rangeName, ip) = None) /\
  db_alerts (committed w') !! (rangeName, ip) =
    Some (default (fp, encodeTime (clock w)) (db_alerts (committed w) !! (rangeName, ip))) /\
  (forall k, k <> (rangeName, ip) -> db_alerts (committed w') !! k = db_alerts (committed w) !! k) /\
  db_fps (committed w') = db_fps (committed w) /\ db_meta (committed w') = db_meta (committed w).
Proof.
  intros Hw Hrun. destruct (RecordBlockedRangeAlert_implements rangeName ip fp w _ w' Hw Hrun)
    as (_ & _ & H3 & _). specialize (H3 b eq_refl). unfold record_alert in H3.
  destruct (db_alerts (committed w) !! (rangeName, ip)) as [old|] eqn:E; injection H3 as <- <-; simpl.
  - done.
  - rewrite lookup_insert_eq. split_and!; try done.
    intros k Hk. by rewrite lookup_insert_ne.
Qed.

Lemma RecordBlockedRangeAlert_once_witness :
  let run := RecordBlockedRangeAlert "office" "10.0.0.9" "b" (demo_world []) in
  run.1 = Ok true /\
  db_alerts (committed run.2) !! ("office", "10.0.0.9") = Some ("b", encodeTime 9000000000).
Proof.
  intros run. assert (run.1 = Ok true) as Hr by (vm_compute; reflexivity). split; [exact Hr|].
  refine (proj1 (proj2 (RecordBlockedRangeAlert_once "office" "10.0.0.9" "b" (demo_world []) true run.2
    eq_refl _))). rewrite <- Hr. apply surjective_pairing.
Defined.

(** ** Resetting *)

(** C34: ResetFingerprints is all or nothing: an error leaves the database as it
    was, a success removes every fingerprint with its history and every
    synchronisation cursor, reports how many fingerprints there were, and keeps
    the other meta keys and the alert records. *)
Theorem ResetFingerprints_clears_keyspace w r w' :
  working w = None -> ResetFingerprints w = (r, w') ->
  let d := committed w in let d' := committed w' in
  (is_ok r = false -> d' = d) /\
  (forall n, r = Ok n ->
     n = count_fps d /\ db_fps d' = ∅ /\
     (forall fp, is_Some (db_fps d !! fp) ->
        ips_of fp d' = [] /\ ports_of fp d' = [] /\ sightings_of fp d' = []) /\
     (forall key, db_meta d' !! key =
        if String.prefix "gatehub_cursor:" key then None else db_meta d !! key) /\
     db_alerts d' = db_alerts d).
Proof.
  intros Hw Hrun. cbv zeta. destruct ResetFingerprints_atomic as [Hi Ha].
  destruct (Hi w r w' Hw Hrun) as (_ & _ & H3 & _). split; [by apply (Ha w r w' Hw Hrun)|].
  intros n ->. specialize (H3 n eq_refl). injection H3 as <- <-. split; [done|]. split_and!.
  - apply map_eq. intros fp. rewrite lookup_empty.
    change (db_fps (reset_db ?d)) with (db_fps (delete_fps (fps_sorted d) d)).
    rewrite delete_fps_lookup. case_decide as Hin; [done|].
    destruct (db_fps (committed w) !! fp) eqn:E; [|done]. destruct Hin. apply elem_of_fps_sorted. eauto.
  - intros fp Hfp. apply (delete_fps_victim (fps_sorted (committed w)) (committed w) fp).
    intros [Hs|Hs]; [|rewrite Hs in Hfp; by destruct Hfp]. apply Hs. by apply elem_of_fps_sorted.
  - intros key. cbn [db_meta reset_db set_meta delete_fps]. apply option_eq. intros v.
    rewrite map_lookup_filter_Some. simpl. unfold is_cursor_key.
    destruct (String.prefix _ key); naive_solver.
  - done.
Qed.

Lemma ResetFingerprints_clears_keyspace_witness :
  db_fps (committed (ResetFingerprints (demo_world [])).2) = ∅.
Proof.
  refine (proj1 (proj2 (proj2 (ResetFingerprints_clears_keyspace (demo_world []) _ _ eq_refl
    (surjective_pairing _)) 3 _))). vm_compute. reflexivity.
Defined.

(** ** Changing the fingerprint method *)

(** The database after a change of method with a reset. *)
Definition rekeyed_db (method : string) (d : DB) : DB :=
  set_meta <[MetaFingerprintMethod := method]> (reset_db d).

Lemma reset_db_idemp d : reset_db (reset_db d) = reset_db d.
Proof.
  assert (forall fp, db_fps (reset_db d) !! fp = None) as Hnone.
  { intros fp. change (db_fps (reset_db ?d)) with (db_fps (delete_fps (fps_sorted d) d)).
    rewrite delete_fps_lookup. case_decide as Hin; [done|].
    destruct (db_fps d !! fp) eqn:E; [|done]. destruct Hin. apply elem_of_fps_sorted. eauto. }
  unfold reset_db at 1. rewrite delete_fps_absent by auto.
  unfold reset_db, set_meta. f_equal. cbn [db_meta delete_fps].
  rewrite map_filter_filter_l; [done|]. auto.
Qed.

Lemma reset_db_method d :
  get_meta MetaFingerprintMethod (reset_db d) = get_meta MetaFingerprintMethod d.
Proof.
  unfold get_meta. do 2 f_equal. cbn [db_meta reset_db set_meta delete_fps].
  apply option_eq. intros v. rewrite map_lookup_filter_Some. split; [by intros [? _]|].
  intros Hv. split; [done|]. by vm_compute.
Qed.

Definition stored_method (d : DB) : string := default "" (db_meta d !! MetaFingerprintMethod).

(** What a successful ReconcileFingerprintMethod leaves. *)
Definition reconcile_db (method : string) (d : DB) : DB :=
  if decide (stored_method d = method) then d
  else if decide (stored_method d = "") then set_meta <[MetaFingerprintMethod := method]> d
  else rekeyed_db method d.

Lemma stored_method_reset d : stored_method (reset_db d) = stored_method d.
Proof. pose proof (reset_db_method d) as Hx. by injection Hx. Qed.

Lemma stored_method_set method d :
  stored_method (set_meta <[MetaFingerprintMethod := method]> d) = method.
Proof. unfold stored_method. cbn [db_meta set_meta]. by rewrite lookup_insert_eq. Qed.

Lemma stored_method_reconciled method d : stored_method (reconcile_db method d) = method.
Proof.
  unfold reconcile_db, rekeyed_db. destruct (decide (stored_method d = method)); [done|].
  destruct (decide (stored_method d = "")); apply stored_method_set.
Qed.

(** Whatever intermediate database a run stops in, the next run ends in the same
    one. *)
Lemma reconcile_db_idemp method d : reconcile_db method (reconcile_db method d) = reconcile_db method d.
Proof. unfold reconcile_db at 1. by rewrite decide_True by apply stored_method_reconciled. Qed.

Lemma reconcile_db_reset method d :
  stored_method d <> "" -> stored_method d <> method ->
  reconcile_db method (reset_db d) = reconcile_db method d.
Proof.
  intros H1 H2. unfold reconcile_db. rewrite stored_method_reset, !decide_False by done.
  unfold rekeyed_db. by rewrite reset_db_idemp.
Qed.

(** What a run may leave, by how far it got. *)
Definition reconcile_outcome (method : string) (reset : bool) (w : World) (r : result Z) (w' : World) : Prop :=
  let d := committed w in
  let may := reset = true \/ stored_method d = "" \/ stored_method d = method in
  working w' = None /\
  (committed w' = d \/ (may /\ committed w' = reconcile_db method d) \/
   (reset = true /\ stored_method d <> "" /\ stored_method d <> method /\ committed w' = reset_db d)) /\
  (is_ok r = true -> may /\ committed w' = reconcile_db method d) /\
  (script w = [] -> is_ok r = true \/ ~ may).

Lemma Reconcile_outcomes_set method w1 (n : Z) d (r : result Z) w' :
  working w1 = None -> (SetMeta MetaFingerprintMethod method ;; mret n) w1 = (r, w') ->
  d = committed w1 ->
  working w' = None /\
  ((is_ok r = false /\ committed w' = d) \/
   (r = Ok n /\ committed w' = set_meta <[MetaFingerprintMethod := method]> d)) /\
  (script w1 = [] -> is_ok r = true).
Proof.
  intros Hw Hrun ->. unfold mbind, M_bind in Hrun.
  destruct (SetMeta MetaFingerprintMethod method w1) as [r2 w2] eqn:E2.
  destruct (SetMeta_atomic MetaFingerprintMethod method) as [Hi Ha].
  destruct (Hi w1 r2 w2 Hw E2) as (I1 & _ & I3 & _ & I5). specialize (Ha w1 r2 w2 Hw E2).
  destruct r2 as [u|e]; injection Hrun as <- <-; (split; [done|]).
  - specialize (I3 u eq_refl). injection I3 as _ I3. split; [right; done|done].
  - split; [left; by rewrite Ha|]. intros Hq. by destruct (I5 Hq).
Qed.

Lemma Reconcile_outcomes method reset w r w' :
  working w = None -> ReconcileFingerprintMethod method reset w = (r, w') ->
  reconcile_outcome method reset w r w'.
Proof.
  intros Hw Hrun. unfold reconcile_outcome. cbv zeta. unfold ReconcileFingerprintMethod in Hrun.
  unfold mbind at 1, M_bind in Hrun. destruct (GetMeta MetaFingerprintMethod w) as [rg w1] eqn:Eg.
  destruct (reads_GetMeta _ w (committed w) rg w1 eq_refl Eg) as (G1 & G2 & G3 & G4 & G5).
  rewrite Hw in G2. destruct rg as [st|e].
  2:{ injection Hrun as <- <-. rewrite G1. split; [done|]. split; [by left|]. split; [done|].
      intros Hq. by destruct (G5 Hq). }
  specialize (G4 eq_refl). injection G4 as ->. fold (stored_method (committed w)) in Hrun.
  case_bool_decide as Em.
  { injection Hrun as <- <-. rewrite G1. split; [done|]. split; [by left|].
    split; [|by left]. intros _. split; [auto|]. unfold reconcile_db. by rewrite decide_True. }
  case_bool_decide as Ee.
  { apply (Reconcile_outcomes_set _ _ _ (committed w)) in Hrun as (S1 & S2 & S3); [|done|done].
    assert (reconcile_db method (committed w) = set_meta <[MetaFingerprintMethod := method]> (committed w)) as ->
      by (unfold reconcile_db; by rewrite decide_False, decide_True).
    split; [done|]. split; [destruct S2 as [[_ ?]|[_ ?]]; auto 6|].
    split; [destruct S2 as [[-> _]|[_ ?]]; [done|auto]|]. intros [Hq _]%G5. left. auto. }
  destruct reset; cbn [negb] in Hrun.
  - unfold mbind at 1, M_bind in Hrun. destruct (ResetFingerprints w1) as [r2 w2] eqn:E2.
    destruct ResetFingerprints_atomic as [Hi Ha].
    destruct (Hi w1 r2 w2 G2 E2) as (I1 & _ & I3 & _ & I5). specialize (Ha w1 r2 w2 G2 E2).
    destruct r2 as [n|e].
    2:{ injection Hrun as <- <-. rewrite Ha, G1 by done. split; [done|]. split; [by left|].
        split; [done|]. intros [Hq _]%G5. by destruct (I5 Hq). }
    specialize (I3 n eq_refl). injection I3 as In I3. rewrite G1 in I3.
    apply (Reconcile_outcomes_set _ _ _ (reset_db (committed w))) in Hrun as (S1 & S2 & S3); [|done|done].
    assert (reconcile_db method (committed w) = rekeyed_db method (committed w)) as ->
      by (unfold reconcile_db; by rewrite !decide_False).
    split; [done|]. split; [destruct S2 as [[_ ?]|[_ ?]]; auto 8|].
    split; [destruct S2 as [[-> _]|[_ ?]]; [done|auto]|]. intros [Hq _]%G5. left. apply S3. by apply I5.
  - unfold mbind, M_bind in Hrun. destruct (query_row OnReader _ w1) as [r2 w2] eqn:E2.
    destruct (reads_query_row OnReader _ w1 (committed w1) r2 w2 eq_refl E2) as (Q1 & Q2 & _).
    assert (committed w' = committed w /\ working w' = None /\ is_ok r = false) as (-> & -> & Hr)
      by (destruct r2; injection Hrun as <- <-; (split_and!; [congruence|congruence|done])).
    split; [done|]. split; [by left|]. split; [by rewrite Hr|]. intros _. right. naive_solver.
Qed.

(** C30: without [reset] ReconcileFingerprintMethod never touches a fingerprint
    row, and with it only when a different method was recorded; a run a fault
    interrupts in the middle is completed by the next one, which succeeds and
    ends in the database an uninterrupted run ends in, with the method recorded. *)
Theorem Reconcile_resumes_after_failure method reset w r w' :
  working w = None -> ReconcileFingerprintMethod method reset w = (r, w') ->
  (db_fps (committed w') = db_fps (committed w) \/
     (reset = true /\ stored_method (committed w) <> "" /\ stored_method (committed w) <> method)) /\
  (is_ok r = true -> committed w' = reconcile_db method (committed w) /\
                     stored_method (committed w') = method) /\
  (forall w2 r2 w3, committed w2 = committed w' -> working w2 = None -> script w2 = [] ->
     ReconcileFingerprintMethod method true w2 = (r2, w3) ->
     is_ok r2 = true /\ committed w3 = reconcile_db method (committed w)).
Proof.
  intros Hw Hrun. destruct (Reconcile_outcomes _ _ _ _ _ Hw Hrun) as (_ & Hcases & Hok & _).
  split; [|split].
  - destruct (decide (reset = true /\ stored_method (committed w) <> "" /\ stored_method (committed w) <> method))
      as [|Hn]; [by right|left].
    destruct Hcases as [->|[[Hmay ->]|(? & ? & ? & _)]]; [done| |tauto].
    unfold reconcile_db. destruct (decide (stored_method (committed w) = method)); [done|].
    destruct (decide (stored_method (committed w) = "")); [done|]. tauto.
  - intros Hr. destruct (Hok Hr) as [_ ->]. split; [done|apply stored_method_reconciled].
  - intros w2 r2 w3 Hc Hw2 Hq Hrun2.
    destruct (Reconcile_outcomes _ _ _ _ _ Hw2 Hrun2) as (_ & _ & Hok2 & Hq2).
    destruct (Hq2 Hq) as [Hr2|Hn]; [|by destruct Hn; left]. split; [done|].
    destruct (Hok2 Hr2) as [_ ->]. rewrite Hc.
    destruct Hcases as [->|[[_ ->]|(_ & ? & ? & ->)]];
      [done|apply reconcile_db_idemp|by apply reconcile_db_reset].
Qed.

Lemma Reconcile_resumes_after_failure_witness :
  let w := demo_world [] in
  stored_method (committed (ReconcileFingerprintMethod "ja4" true w).2) = "ja4".
Proof.
  intros w. refine (proj2 (proj1 (proj2 (Reconcile_resumes_after_failure "ja4" true w _ _ eq_refl
    (surjective_pairing _))) _)). vm_compute. reflexivity.
Defined.
