(* ===== verification/OpenProps.v ===== *)
(** Properties of package store, fifth group: Open and the migrations it runs. *)

From S2P Require Import Prelude GoStrings GoTime Netip Json Approval Database Tables Store Writes Refinement Migrate Invariant Reading StoreProps.
From Stdlib Require Import Ascii String.
From stdpp Require Import strings gmap sorting.
#[local] Open Scope stdpp_scope.
#[local] Open Scope Z_scope.

(** ** Bounding *)

Lemma bound_db_history d fp :
  ips_of fp (bound_db d) = take MaxObservationValues (ips_of fp d) /\
  ports_of fp (bound_db d) = take MaxObservationValues (ports_of fp d) /\
  sightings_of fp (bound_db d) = take MaxObservationValues (sightings_of fp d).
Proof.
  unfold bound_db. set (d1 := ok_db (sql_drop_oversized_meta MaxMetadataBytes) d).
  set (d2 := ok_db (sql_bound_sightings MaxObservationValues) d1).
  set (d3 := ok_db (sql_bound_ips MaxObservationValues) d2). split_and!.
  - change (ips_of fp (ok_db (sql_bound_ports MaxObservationValues) d3)) with (ips_of fp d3).
    exact (bounded_ips MaxObservationValues d2 d3 eq_refl fp).
  - exact (bounded_ports MaxObservationValues d3 _ eq_refl fp).
  - change (sightings_of fp (ok_db (sql_bound_ports MaxObservationValues) d3)) with (sightings_of fp d2).
    exact (bounded_sightings MaxObservationValues d1 d2 eq_refl fp).
Qed.

Lemma bound_db_meta d fp row :
  db_fps (bound_db d) !! fp = Some row ->
  exists old, db_fps d !! fp = Some old /\
    row = (if MaxMetadataBytes <? str_len (fr_meta old) then with_meta "{}" old else old).
Proof.
  cbn [bound_db ok_db sql_bound_ports sql_bound_ips sql_bound_sightings sql_drop_oversized_meta
    set_ports set_ips set_sightings set_fps db_fps].
  rewrite lookup_fmap. destruct (db_fps d !! fp) as [old|]; [|done]. intros [= <-]. by exists old.
Qed.

Lemma init_db_columns d column : column ∈ added_columns -> column ∈ db_columns (init_db d).
Proof.
  assert (forall c d, c ∈ db_columns (add_column_db c d)) as Hin.
  { intros c d0. unfold add_column_db. case_bool_decide; [done|]. cbn. set_solver. }
  assert (forall c c' d, c ∈ db_columns d -> c ∈ db_columns (add_column_db c' d)) as Hkeep.
  { intros c c' d0 Hc. unfold add_column_db. case_bool_decide; [done|]. cbn. set_solver. }
  unfold init_db, added_columns. intros [->|[->|[->|[]%not_elem_of_nil]%elem_of_cons]%elem_of_cons]%elem_of_cons;
    auto.
Qed.

Section opening.
Context `{JSONCodec Any} `{RowOrder}.

Lemma migrate_columns cols t d d' : migrate cols t d = Ok (tt, d') -> db_columns d' = db_columns d.
Proof.
  assert (forall ups d, db_columns (apply_updates ups d) = db_columns d) as Hu.
  { intros ups. induction ups as [|[fp m] ups IH]; intros d0; [done|]. cbn. by rewrite IH. }
  unfold migrate. repeat case_match; intros; simplify_eq; try done. cbn. apply Hu.
Qed.

(** C31: Open never loses a verdict, whatever fails on the way: every stored
    fingerprint keeps its status, label, times, legacy columns, and (where the
    columns existed) its count and scope, no row and no history appears, and
    alert records stay.  When it succeeds the schema is complete, every
    fingerprint's IPs, ports and sightings are cut to 128, and no metadata bag
    is over 64 KiB. *)
Theorem Open_keeps_verdicts opts w r w' :
  working w = None -> Open opts w = (r, w') ->
  working w' = None /\ keeps_rows (committed w) (committed w') /\
  (forall st, r = Ok st ->
     st_path st = o_Path opts /\ st_maxFingerprints st = o_MaxFingerprints opts /\
     (forall column, column ∈ added_columns -> column ∈ db_columns (committed w')) /\
     (forall fp, (List.length (ips_of fp (committed w')) <= 128)%nat /\
        (List.length (ports_of fp (committed w')) <= 128)%nat /\
        (List.length (sightings_of fp (committed w')) <= 128)%nat) /\
     (forall fp row, db_fps (committed w') !! fp = Some row -> str_len (fr_meta row) <= 65536)).
Proof.
  intros Hw Hrun. destruct (Open_delivers opts w r w' Hw Hrun) as (O1 & _ & O3 & O4 & _).
  split; [done|]. split; [done|]. intros st ->. specialize (O3 st eq_refl). unfold open_db in O3.
  case_bool_decide; [done|]. unfold step_wrap in O3.
  destruct (migrate (o_Legacy opts) (clock w) (init_db (committed w))) as [[[] d1]|e] eqn:Em;
    [|by destruct e].
  cbn [wrap_error] in O3. injection O3 as <- <-. split_and!; [done|done| | |].
  - intros column Hc. change (db_columns (bound_db d1)) with (db_columns d1).
    rewrite (migrate_columns _ _ _ _ Em). by apply init_db_columns.
  - intros fp. destruct (bound_db_history d1 fp) as (-> & -> & ->). rewrite !length_take.
    unfold MaxObservationValues. lia.
  - intros fp row (old & _ & ->)%bound_db_meta. destruct (MaxMetadataBytes <? str_len (fr_meta old)) eqn:E;
      [done|]. unfold MaxMetadataBytes in E. lia.
Qed.

(** ** Folding the legacy columns *)

Definition folded (fp : string) (r : FpRow) (cols : list LegacyColumn) (k : string) (v : Any) : Prop :=
  exists c raw, c ∈ cols /\ lc_MetaKey c = k /\ column_value fp r (lc_Column c) = Some raw /\
    decodeLegacy raw (lc_Kind c) = Ok (Some v).

(** Keys the gate has written stay; new keys come from the columns. *)
Lemma fold_columns_keeps fp r cols m m' :
  fold_columns fp r cols (Some m) = Ok m' ->
  exists m1, m' = Some m1 /\ m ⊆ m1 /\
    forall k v, m1 !! k = Some v -> m !! k = Some v \/ folded fp r cols k v.
Proof.
  revert m. induction cols as [|c cols IH]; intros m; cbn [fold_columns].
  { intros [= <-]. exists m. split_and!; [done|done|auto]. }
  assert (forall k v, folded fp r cols k v -> folded fp r (c :: cols) k v) as Hmore.
  { intros k v (c' & raw & Hc & Hrest). exists c', raw. split; [set_solver|done]. }
  assert (fold_columns fp r cols (Some m) = Ok m' -> exists m1, m' = Some m1 /\ m ⊆ m1 /\
    forall k v, m1 !! k = Some v -> m !! k = Some v \/ folded fp r (c :: cols) k v) as Hskip.
  { intros (m1 & -> & Hsub & Hk)%IH. exists m1. split_and!; [done|done|].
    intros k v [?|?]%Hk; auto. }
  destruct (column_value fp r (lc_Column c)) as [raw|] eqn:Ec; [|done].
  case_bool_decide as Hex; [done|]. destruct (decodeLegacy raw (lc_Kind c)) as [[value|]|] eqn:Ed; [|done..].
  intros (m1 & -> & Hsub & Hk)%IH. exists m1. simpl in Hex. split_and!; [done| |].
  - etrans; [|exact Hsub]. apply insert_subseteq. destruct (m !! lc_MetaKey c); [|done].
    destruct Hex. eauto.
  - intros k v [Hv|Hv]%Hk; [|auto]. destruct (decide (k = lc_MetaKey c)) as [->|Hne].
    + rewrite lookup_insert_eq in Hv. injection Hv as <-. right. exists c, raw. split; [set_solver|done].
    + rewrite lookup_insert_ne in Hv by done. auto.
Qed.

Lemma apply_updates_lookup ups d fp meta :
  NoDup ups.*1 -> (fp, meta) ∈ ups ->
  db_fps (apply_updates ups d) !! fp = with_meta meta <$> db_fps d !! fp.
Proof.
  assert (forall ups d fp, fp ∉ ups.*1 -> db_fps (apply_updates ups d) !! fp = db_fps d !! fp) as Hother.
  { intros ups0. induction ups0 as [|[f m] ups0 IH]; intros d0 fp0 Hni; [done|]. cbn in *.
    rewrite IH by set_solver. cbn. destruct (db_fps d0 !! f) eqn:E; [|done].
    rewrite lookup_insert_ne; [done|set_solver]. }
  revert d. induction ups as [|[f m] ups IH]; intros d Hnd Hin; [by apply not_elem_of_nil in Hin|].
  cbn in Hnd. apply NoDup_cons in Hnd as [Hni Hnd]. cbn.
  apply elem_of_cons in Hin as [[= -> ->]|Hin].
  - rewrite Hother by done. cbn. destruct (db_fps d !! f) eqn:E; [by rewrite lookup_insert_eq|by rewrite E].
  - rewrite IH by done. cbn. assert (f <> fp) as Hne
      by (intros ->; apply Hni, list_elem_of_fmap; by exists (fp, meta)).
    destruct (db_fps d !! f); [by rewrite lookup_insert_ne|done].
Qed.

Lemma legacy_updates_spec present d ups :
  legacy_updates present d = Ok ups ->
  NoDup ups.*1 /\
  forall fp r, db_fps d !! fp = Some r ->
    exists meta, (fp, meta) ∈ ups /\ legacy_row present (fp, r) = Ok (fp, meta).
Proof.
  unfold legacy_updates. intros Hs%scan_all_ok.
  assert (forall row u, legacy_row present row = Ok u -> u.1 = row.1) as Hfst.
  { intros [fp r] u. unfold legacy_row, mbind, result_bind. cbn [fst snd].
    repeat case_match; by intros [= <-] || done. }
  split.
  - assert (ups.*1 = (scan_rows (db_fps d)).*1) as ->.
    { induction Hs as [|row u rows us Hr _ IH]; [done|]. rewrite !fmap_cons, IH. by rewrite (Hfst _ _ Hr). }
    rewrite scan_rows_perm. apply NoDup_fst_map_to_list.
  - intros fp r Hr. assert ((fp, r) ∈ scan_rows (db_fps d)) as Hin
      by (rewrite scan_rows_perm; by apply elem_of_map_to_list).
    apply list_elem_of_lookup in Hin as [i Hi].
    destruct (Forall2_lookup_l _ _ _ _ _ Hs Hi) as ([fp' meta] & Hu & Hl).
    specialize (Hfst _ _ Hl) as Hf. simpl in Hf. subst fp'. exists meta.
    split; [by eapply list_elem_of_lookup_2|done].
Qed.

Lemma migrateLegacy_ok cols w w' :
  working w = None -> migrateLegacy cols w = (Ok tt, w') ->
  migrate cols (clock w) (committed w) = Ok (tt, committed w').
Proof.
  intros Hw Hrun. by destruct (migrateLegacy_delivers cols w _ w' Hw Hrun) as (_ & _ & H3 & _); apply H3.
Qed.

(** C32: folding the legacy columns does not clobber: after a successful
    migrateLegacy each fingerprint's metadata is what it was, or the encoding of
    a bag that contains every key the gate had written with its value, and
    otherwise only keys decoded from the named columns of its own row. *)
Theorem migrateLegacy_does_not_clobber cols w w' fp row m :
  working w = None -> migrateLegacy cols w = (Ok tt, w') ->
  db_fps (committed w) !! fp = Some row ->
  Unmarshal_map (fr_meta row) = Some (Some m) -> TrimSpace (fr_meta row) <> "" ->
  exists row', db_fps (committed w') !! fp = Some row' /\
    (row' = row \/
     exists m', encodeMeta (Some m') = Ok (fr_meta row') /\ row' = with_meta (fr_meta row') row /\
       m ⊆ m' /\ forall k v, m' !! k = Some v -> m !! k = Some v \/ folded fp row cols k v).
Proof.
  intros Hw Hrun Hr Hm Hb. apply migrateLegacy_ok in Hrun; [|done]. unfold migrate in Hrun.
  case_bool_decide; [injection Hrun as <-; eauto|]. case_bool_decide; [injection Hrun as <-; eauto|].
  case_bool_decide; [injection Hrun as <-; exists row; split; [exact Hr|by left]|].
  destruct (legacy_updates _ _) as [ups|] eqn:Eu; [|done]. injection Hrun as <-.
  destruct (legacy_updates_spec _ _ _ Eu) as [Hnd Hups]. destruct (Hups fp row Hr) as (meta & Hin & Hl).
  exists (with_meta meta row). split.
  { change (db_fps (migrate_db ups ?d)) with (db_fps (apply_updates ups d)).
    rewrite (apply_updates_lookup ups _ fp meta Hnd Hin), Hr. done. }
  right. unfold legacy_row, legacy_start, mbind, result_bind in Hl. cbn [fst snd] in Hl.
  rewrite bool_decide_false, Hm in Hl by done.
  destruct (fold_columns fp row _ (Some m)) as [m'|] eqn:Ef; [|done].
  destruct (encodeMeta m') as [text|] eqn:Ee; [|done]. injection Hl as <-.
  apply fold_columns_keeps in Ef as (m1 & -> & Hsub & Hk). exists m1. split_and!; [done|done|done|].
  intros k v [?|(c & raw & Hc & Hrest)]%Hk; [auto|right]. exists c, raw.
  apply list_elem_of_filter in Hc as [_ Hc]. done.
Qed.

(** The fold runs once: a successful migrateLegacy with a mapping leaves the
    marker, and with the marker present any later run, with any mapping and any
    faults, changes nothing. *)
Theorem migrateLegacy_runs_once cols w w' :
  working w = None -> cols <> [] -> migrateLegacy cols w = (Ok tt, w') ->
  db_meta (committed w') !! metaLegacyMigrated = Some "1" /\
  forall cols2 w2 r2 w3, working w2 = None ->
    db_meta (committed w2) !! metaLegacyMigrated = Some "1" ->
    migrateLegacy cols2 w2 = (r2, w3) -> committed w3 = committed w2.
Proof.
  intros Hw Hne Hrun. split.
  - apply migrateLegacy_ok in Hrun; [|done]. unfold migrate in Hrun.
    case_bool_decide as Hl; [by destruct cols|].
    case_bool_decide as Hd.
    { injection Hrun as <-. destruct (db_meta (committed w) !! metaLegacyMigrated); simpl in Hd; congruence. }
    case_bool_decide; [injection Hrun as <-; apply lookup_insert_eq|].
    destruct (legacy_updates _ _) as [ups|]; [|done]. injection Hrun as <-. apply lookup_insert_eq.
  - intros cols2 w2 r2 w3 Hw2 Hflag Hrun2. unfold migrateLegacy in Hrun2.
    case_bool_decide; [by injection Hrun2 as <- <-|]. unfold mbind at 1, M_bind in Hrun2.
    destruct (GetMeta metaLegacyMigrated w2) as [rg w4] eqn:Eg.
    destruct (reads_GetMeta _ w2 (committed w2) rg w4 eq_refl Eg) as (G1 & _ & _ & G4 & _).
    destruct rg as [g|]; [|by injection Hrun2 as <- <-]. specialize (G4 eq_refl).
    unfold get_meta in G4. rewrite Hflag in G4. injection G4 as ->. simpl in Hrun2.
    by injection Hrun2 as <- <-.
Qed.
End opening.

(** ** Concrete databases *)

(** A database of an older gate: a typed column ja3 and a boolean one. *)
Definition legacy_row_of (meta : string) : FpRow :=
  {| fr_status := StatusApproved; fr_label := "office"; fr_first_seen := encodeTime 0;
     fr_last_seen := encodeTime 0; fr_count := 3; fr_meta := meta; fr_approval_ranges := None;
     fr_legacy := {[ "ja3" := Some "771,49195"; "grease" := Some "1" ]} |}.

Definition legacy_db (meta : string) : DB :=
  {| db_columns := base_columns ++ ["ja3"; "grease"]; db_defaults := ∅;
     db_fps := {[ "aa" := legacy_row_of meta ]}; db_ips := ∅; db_ports := ∅; db_sightings := ∅;
     db_alerts := ∅; db_meta := ∅ |}.

Definition legacy_columns : list LegacyColumn :=
  [ {| lc_Column := "ja3"; lc_MetaKey := "ja3"; lc_Kind := KindString |};
    {| lc_Column := "grease"; lc_MetaKey := "grease"; lc_Kind := KindBool |} ].

Definition legacy_world (meta : string) (faults : list (option string)) : World :=
  {| committed := legacy_db meta; working := None; script := faults; clock := 0 |}.

Definition legacy_options : Options :=
  {| o_Path := "/var/lib/gate/gate.db"; o_MaxFingerprints := 0; o_Legacy := legacy_columns |}.

(** The metadata bag {"ja3":"mine"}, as text. *)
Definition mine_text : string :=
  default "" (Marshal_map {[ "ja3" := PText "mine" ]}).

(** A row whose stored metadata is the JSON text null is read as a nil map,
    and folding a legacy value into it panics: Open does not return an error, it
    crashes, although scanEntry reads the same row without complaint. *)
Theorem Open_panics_on_null_metadata :
  (exists msg, (Open (Any := PlainValue) legacy_options (legacy_world "null" [])).1 = Err (ErrPanic msg)) /\
  is_ok (scanEntry (Any := PlainValue) ("aa", legacy_row_of "null")) = true.
Proof. split; [eexists; vm_compute; reflexivity|vm_compute; reflexivity]. Qed.

(** The legacy database opened, and with a fault on the way. *)
Lemma Open_keeps_verdicts_witness :
  (exists st w', Open (Any := PlainValue) legacy_options (legacy_world mine_text []) = (Ok st, w') /\
     st_path st = "/var/lib/gate/gate.db" /\ keeps_rows (legacy_db mine_text) (committed w')) /\
  working (Open (Any := PlainValue) legacy_options (legacy_world mine_text [None; Some "disk I/O error"])).2 = None.
Proof.
  split.
  - assert (is_ok (Open (Any := PlainValue) legacy_options (legacy_world mine_text [])).1 = true) as Hok
      by (vm_compute; reflexivity).
    destruct (Open (Any := PlainValue) legacy_options (legacy_world mine_text [])) as [[st|e] w'] eqn:E;
      [|discriminate Hok].
    destruct (Open_keeps_verdicts (Any := PlainValue) legacy_options (legacy_world mine_text []) _ _ eq_refl E)
      as (_ & Hk & Hst). exists st, w'. split; [reflexivity|split; [|exact Hk]].
    exact (proj1 (Hst st eq_refl)).
  - exact (proj1 (Open_keeps_verdicts (Any := PlainValue) legacy_options
      (legacy_world mine_text [None; Some "disk I/O error"]) _ _ eq_refl (surjective_pairing _))).
Defined.

Lemma migrateLegacy_run_ok : 
  let run := migrateLegacy (Any := PlainValue) legacy_columns (legacy_world mine_text []) in
  run = (Ok tt, run.2).
Proof.
  intros run. assert (run.1 = Ok tt) as Hr by (vm_compute; reflexivity).
  rewrite <- Hr. apply surjective_pairing.
Defined.

Lemma migrateLegacy_does_not_clobber_witness :
  exists row', db_fps (committed (migrateLegacy (Any := PlainValue) legacy_columns
    (legacy_world mine_text [])).2) !! "aa" = Some row'.
Proof.
  destruct (migrateLegacy_does_not_clobber (Any := PlainValue) legacy_columns (legacy_world mine_text [])
    _ "aa" (legacy_row_of mine_text) {[ "ja3" := PText "mine" ]} eq_refl migrateLegacy_run_ok)
    as (row' & Hr & _); [vm_compute; reflexivity|vm_compute; reflexivity|vm_compute; discriminate|].
  exists row'. exact Hr.
Defined.

Lemma migrateLegacy_runs_once_witness :
  db_meta (committed (migrateLegacy (Any := PlainValue) legacy_columns (legacy_world mine_text [])).2)
    !! metaLegacyMigrated = Some "1".
Proof.
  exact (proj1 (migrateLegacy_runs_once (Any := PlainValue) legacy_columns (legacy_world mine_text [])
    _ eq_refl ltac:(discriminate) migrateLegacy_run_ok)).
Defined.
