(* ===== verification/Dsn.v ===== *)
(** The data source names the store opens its two pools with (store/store.go,
    dsn), and that they carry the path and the pragmas as given. *)

From S2P Require Import Prelude GoStrings GoUrl UrlLemmas Database Tables Store.
From Stdlib Require Import Ascii String.
From stdpp Require Import strings gmap sorting.
#[local] Open Scope stdpp_scope.
#[local] Open Scope Z_scope.

Definition maxReaders : Z := 8.

(** [q.Add("_pragma", p)] for each pragma. *)
Definition pragma_values (pragmas : list string) : Values :=
  fold_left (fun q p => add_setting q ("_pragma", p)) pragmas ∅.

Definition dsn (path : string) (pragmas : list string) : string :=
  path +:+ String "?" (Values_Encode (pragma_values pragmas)).

(** The names Open uses for the single writer and for the readers. *)
Definition writer_pragmas : list string :=
  ["busy_timeout=5000"; "foreign_keys=ON"; "journal_mode=WAL"; "synchronous=NORMAL"].
Definition reader_pragmas : list string := ["busy_timeout=5000"; "foreign_keys=ON"; "journal_mode=WAL"].

(** Store.Path *)
Definition Path (s : Store) : string := st_path s.

Lemma pragma_values_eq pragmas : pragmas <> [] -> pragma_values pragmas = {[ "_pragma" := pragmas ]}.
Proof.
  intros Hne. unfold pragma_values.
  assert (forall ps vs, vs <> [] -> fold_left (fun q p => add_setting q ("_pragma", p)) ps {[ "_pragma" := vs ]} =
    {[ "_pragma" := vs ++ ps ]} :> Values) as Hfold.
  { clear. induction ps as [|p ps IH]; intros vs Hvs; cbn [fold_left]; [by rewrite app_nil_r|].
    unfold add_setting at 2. cbn [fst snd]. rewrite lookup_singleton_eq, insert_singleton_eq. cbn [default].
    rewrite IH by (by destruct vs). by rewrite <- app_assoc. }
  destruct pragmas as [|p ps]; [done|]. cbn [fold_left].
  assert (add_setting ∅ ("_pragma", p) = {[ "_pragma" := [p] ]}) as ->; [|by apply Hfold].
  unfold add_setting. cbn [fst snd]. by rewrite lookup_empty, insert_empty.
Qed.

(** A driver that splits the name at its first question mark and parses the rest
    as a query finds the path and the pragmas, in order; a path with a question
    mark of its own is cut short. *)
Lemma dsn_read_back path pragmas :
  has_byte "?"%char path = false -> pragmas <> [] -> (List.length pragmas <= max_query_params)%nat ->
  exists query, cut_byte "?"%char (dsn path pragmas) = Some (path, query) /\
    parse_query query = {[ "_pragma" := pragmas ]}.
Proof.
  intros Hp Hne Hlen. exists (Values_Encode (pragma_values pragmas)). split; [by apply cut_byte_Some|].
  rewrite pragma_values_eq by done. apply parse_query_encode.
  - intros k vs [<- <-]%lookup_singleton_Some. done.
  - unfold settings. rewrite map_to_list_singleton. cbn. rewrite app_nil_r. by rewrite length_fmap.
Qed.

Example writer_dsn : dsn "/var/lib/gate.db" writer_pragmas =
  "/var/lib/gate.db?_pragma=busy_timeout%3D5000&_pragma=foreign_keys%3DON&_pragma=journal_mode%3DWAL&_pragma=synchronous%3DNORMAL".
Proof. vm_compute. reflexivity. Qed.
