(* ===== verification/ControlPlane.v ===== *)
(** Package controlplane (controlplane/controlplane.go and cleanup.go): the
    configuration, the requests it sends, and the Syncer, whose methods run in a
    monad [SyncM] over the store's world, the network, the trusted ranges of the gate
    and what other goroutines do to the store in between. *)

From S2P Require Import Prelude GoStrings GoTime Netip Json JsonText GoDuration Sha256 GoUrl Approval Database Tables Store Writes.
From Stdlib Require Import Ascii String.
From stdpp Require Import strings gmap sorting.
#[local] Open Scope stdpp_scope.
#[local] Open Scope Z_scope.

Definition DefaultSyncInterval : Z := 30 * 1000000000.
Definition FullSyncInterval : Z := 15 * 60 * 1000000000.
(** controlplane's own maxObservationValues *)
Definition maxObservationValues : Z := 128.

(** ** Configuration *)

(** The control_plane block; ApplyTrustedRanges is whether the function is set. *)
Record Config := {
  SupportsApprovalRanges : bool;
  cfg_URL : string;
  InstanceID : string;
  Token : string;
  ClientCert : string;
  ClientKey : string;
  cfg_CA : string;
  ServerName : string;
  SyncInterval : string;
  ApplyTrustedRanges : bool
}.

(** Config.Enabled *)
Definition Enabled (cfg : Config) : bool := negb (bool_decide (TrimSpace (cfg_URL cfg) = "")).

Definition str_empty (s : string) : bool := bool_decide (s = "").

(** [strings.EqualFold(u.Scheme, "https")]: a scheme is ASCII. *)
Definition is_https (u : URL) : bool := bool_decide (ToLower (u_Scheme u) = "https").

(** Config.Validate *)
Definition Validate (cfg : Config) : result unit :=
  if str_empty (InstanceID cfg) then Err (ErrText "control_plane.instance_id is required" [])
  else if str_empty (Token cfg) && (str_empty (ClientCert cfg) || str_empty (ClientKey cfg) || str_empty (cfg_CA cfg))
  then Err (ErrText "control_plane.token or client_cert, client_key, and ca are required" [])
  else match ParseRequestURI (cfg_URL cfg) with
       | Err e => Err (ErrWrap "control_plane.url" e)
       | Ok u =>
           if negb (IsAbs u) || negb (is_https u) || str_empty (Hostname u) ||
              bool_decide (is_Some (u_User u)) || negb (str_empty (u_Fragment u))
           then Err (ErrText "control_plane.url must be an absolute https URL without userinfo or fragment" [])
           else if negb (str_empty (SyncInterval cfg)) then
                  match ParseDuration (SyncInterval cfg) with
                  | Err e => Err (ErrWrap "control_plane.sync_interval" e)
                  | Ok _ => Ok tt
                  end
                else Ok tt
       end.

(** Config.Interval *)
Definition Interval (cfg : Config) : Z :=
  if str_empty (SyncInterval cfg) then DefaultSyncInterval
  else match ParseDuration (SyncInterval cfg) with
       | Err _ => DefaultSyncInterval
       | Ok d => if d <=? 0 then DefaultSyncInterval else d
       end.

(** [strings.TrimRight(s, "/")] *)
Fixpoint trim_slashes (s : string) : string :=
  match s with
  | EmptyString => ""
  | String c r =>
      let t := trim_slashes r in
      if bool_decide (c = "/"%char /\ t = "") then "" else String c t
  end.

Definition endpointURL (base path instanceID since : string) : result string :=
  u ← Parse base;
  let u := set_path (trim_slashes (u_Path u) +:+ path) u in
  let q := Values_Set "instance_id" instanceID (Query u) in
  let q := if str_empty since then q else Values_Set "since" since q in
  Ok (URL_String (set_query (Values_Encode q) u)).

(** ** Wire format *)

(** The limited copy of a slice. *)
Definition limited {T} (values : list T) (max : Z) : list T :=
  if (max <=? 0) || (Z.of_nat (List.length values) <=? max) then values
  else take (Z.to_nat max) values.

Record observation (Any : Type) := {
  o_ApprovalRanges : option Scope;
  o_Fingerprint : string;
  o_Status : Status;
  o_Label : string;
  o_FirstSeen : string;
  o_LastSeen : string;
  o_IPs : list string;
  o_Ports : list Z;
  o_Sightings : list Sighting;
  o_Count : Z;
  o_Metadata : GoMap Any
}.
Arguments o_ApprovalRanges {Any}. Arguments o_Fingerprint {Any}. Arguments o_Status {Any}.
Arguments o_Label {Any}. Arguments o_FirstSeen {Any}. Arguments o_LastSeen {Any}.
Arguments o_IPs {Any}. Arguments o_Ports {Any}. Arguments o_Sightings {Any}.
Arguments o_Count {Any}. Arguments o_Metadata {Any}.

Definition toObservation {Any} (fp : string) (entry : Entry Any) : observation Any :=
  {| o_Fingerprint := fp;
     o_ApprovalRanges := e_ApprovalRanges entry;
     o_Status := e_Status entry;
     o_Label := e_Label entry;
     o_FirstSeen := encodeTime (e_FirstSeen entry);
     o_LastSeen := encodeTime (e_LastSeen entry);
     o_IPs := limited (e_IPs entry) maxObservationValues;
     o_Ports := limited (e_Ports entry) maxObservationValues;
     o_Sightings := limited (e_Sightings entry) maxObservationValues;
     o_Count := e_Count entry;
     o_Metadata := e_Meta entry |}.

Record observationBatch (Any : Type) := {
  ob_InstanceID : string;
  ob_Observations : list (observation Any)
}.
Arguments ob_InstanceID {Any}. Arguments ob_Observations {Any}.

Record policyResponse := {
  pr_Cursor : string;
  pr_Decisions : list PolicyDecision;
  pr_TrustedRanges : option (list string)
}.

Definition sighting_json (sg : Sighting) : string :=
  json_object [("ip", Some (json_string (sg_IP sg))); ("port", omit_int (sg_Port sg));
               ("last_seen", Some (Time_MarshalJSON (sg_LastSeen sg)))].

Section encoding.
Context `{JSONCodec Any}.

(** A member whose value may fail to encode; [None] leaves it out. *)
Definition scope_json (s : option Scope) : result (option string) :=
  match s with
  | None => Ok None
  | Some s => text ← Scope_MarshalJSON (Some s); Ok (Some text)
  end.

Definition metadata_json (m : GoMap Any) : result (option string) :=
  if bool_decide (map_of m = ∅) then Ok None
  else match Marshal_map (map_of m) with
       | Some text => Ok (Some text)
       | None => Err (ErrText "json: unsupported value" [])
       end.

(** json.Marshal of an observation *)
Definition observation_json (o : observation Any) : result string :=
  scope ← scope_json (o_ApprovalRanges o);
  meta ← metadata_json (o_Metadata o);
  Ok (json_object
    [("approval_ranges", scope);
     ("fingerprint", Some (json_string (o_Fingerprint o)));
     ("status", Some (json_string (o_Status o)));
     ("label", omit_string (o_Label o));
     ("first_seen", omit_string (o_FirstSeen o));
     ("last_seen", omit_string (o_LastSeen o));
     ("ips", omit_list json_string (o_IPs o));
     ("ports", omit_list Itoa (o_Ports o));
     ("sightings", omit_list sighting_json (o_Sightings o));
     ("count", omit_int (o_Count o));
     ("metadata", meta)]).

Fixpoint observations_json (os : list (observation Any)) : result (list string) :=
  match os with
  | [] => Ok []
  | o :: rest => text ← observation_json o; texts ← observations_json rest; Ok (text :: texts)
  end.

(** json.Marshal of a batch; the slice of a heartbeat is nil. *)
Definition batch_json (b : observationBatch Any) : result string :=
  texts ← observations_json (ob_Observations b);
  Ok (json_object
    [("instance_id", Some (json_string (ob_InstanceID b)));
     ("observations", Some (match texts with [] => "null" | _ => json_array texts end))]).
End encoding.

(** ** Requests and replies *)

Record Request := {
  rq_Method : string;
  rq_URL : string;
  rq_Headers : list (string * string);
  rq_Body : string
}.

(** What becomes of a request: it fails, or it is answered.  [body] is what
    decoding the JSON of a policy from the reply gives, if it is one, [closed] what
    closing it returns.  Redirects are not followed, so a 3xx is an answer like any other. *)
Inductive Exchange :=
  | NetError (msg : string)
  | Reply (status : Z) (text : string) (body : option policyResponse) (closed : option string).

(** Accepted, as the gate sees it: a 2xx whose body was closed without error. *)
Definition accepted_reply (x : Exchange) : bool :=
  match x with
  | Reply status _ _ None => Z.quot status 100 =? 2
  | _ => false
  end.

(** setAuth *)
Definition setAuth (cfg : Config) : list (string * string) :=
  (if SupportsApprovalRanges cfg then [("X-Gatekit-Capabilities", Capability)] else []) ++
  (if str_empty (Token cfg) then [] else [("Authorization", "Bearer " +:+ Token cfg)]).

(** http.NewRequestWithContext parses the URL again. *)
Definition new_request (method url : string) (headers : list (string * string)) (body : string)
    : result Request :=
  _ ← Parse url;
  Ok {| rq_Method := method; rq_URL := url; rq_Headers := headers; rq_Body := body |}.

(** The request pushBatch makes. *)
Definition batch_request `{JSONCodec Any} (cfg : Config) (b : observationBatch Any) : result Request :=
  body ← batch_json b;
  endpoint ← endpointURL (cfg_URL cfg) "/v1/observations/batch" (InstanceID cfg) "";
  new_request "POST" endpoint (("Content-Type", "application/json") :: setAuth cfg) body.

(** The request pullPolicy makes. *)
Definition policy_request (cfg : Config) (cursor : string) : result Request :=
  endpoint ← endpointURL (cfg_URL cfg) "/v1/policy" (InstanceID cfg) cursor;
  new_request "GET" endpoint (setAuth cfg) "".

(** ** The state a Syncer works on *)

(** A Syncer; acknowledged is nil until the first push. *)
Record Syncer := {
  sy_cfg : Config;
  sy_cursor : string;
  sy_cursorKey : string;
  sy_acknowledged : option (gmap string digest);
  sy_lastFullSync : instant
}.

Definition set_cursor (c : string) (s : Syncer) : Syncer :=
  {| sy_cfg := sy_cfg s; sy_cursor := c; sy_cursorKey := sy_cursorKey s;
     sy_acknowledged := sy_acknowledged s; sy_lastFullSync := sy_lastFullSync s |}.
Definition set_acknowledged (m : option (gmap string digest)) (s : Syncer) : Syncer :=
  {| sy_cfg := sy_cfg s; sy_cursor := sy_cursor s; sy_cursorKey := sy_cursorKey s;
     sy_acknowledged := m; sy_lastFullSync := sy_lastFullSync s |}.
Definition set_lastFullSync (t : instant) (s : Syncer) : Syncer :=
  {| sy_cfg := sy_cfg s; sy_cursor := sy_cursor s; sy_cursorKey := sy_cursorKey s;
     sy_acknowledged := sy_acknowledged s; sy_lastFullSync := t |}.

(** The surroundings of a Syncer: the store; what other goroutines commit before
    each of the Syncer's store calls, without end; the outcomes of all requests to
    come and the log of those made; whether each check of the context finds it
    cancelled; the trusted ranges in force and the outcomes of the next calls that
    replace them. *)
Record SyncWorld := {
  sw_syncer : Syncer;
  sw_store : World;
  sw_others : stream (DB -> DB);
  sw_net : stream Exchange;
  sw_log : list (Request * Exchange);
  sw_ctx : list bool;
  sw_trusted : list string;
  sw_trust_faults : list (option string)
}.

Definition upd_syncer (f : Syncer -> Syncer) (w : SyncWorld) : SyncWorld :=
  {| sw_syncer := f (sw_syncer w); sw_store := sw_store w; sw_others := sw_others w;
     sw_net := sw_net w; sw_log := sw_log w; sw_ctx := sw_ctx w; sw_trusted := sw_trusted w;
     sw_trust_faults := sw_trust_faults w |}.
Definition upd_store (s : World) (others : stream (DB -> DB)) (w : SyncWorld) : SyncWorld :=
  {| sw_syncer := sw_syncer w; sw_store := s; sw_others := others;
     sw_net := sw_net w; sw_log := sw_log w; sw_ctx := sw_ctx w; sw_trusted := sw_trusted w;
     sw_trust_faults := sw_trust_faults w |}.
Definition upd_net (net : stream Exchange) (log : list (Request * Exchange)) (w : SyncWorld) : SyncWorld :=
  {| sw_syncer := sw_syncer w; sw_store := sw_store w; sw_others := sw_others w;
     sw_net := net; sw_log := log; sw_ctx := sw_ctx w; sw_trusted := sw_trusted w;
     sw_trust_faults := sw_trust_faults w |}.
Definition upd_ctx (c : list bool) (w : SyncWorld) : SyncWorld :=
  {| sw_syncer := sw_syncer w; sw_store := sw_store w; sw_others := sw_others w;
     sw_net := sw_net w; sw_log := sw_log w; sw_ctx := c; sw_trusted := sw_trusted w;
     sw_trust_faults := sw_trust_faults w |}.
Definition upd_trust (t : list string) (f : list (option string)) (w : SyncWorld) : SyncWorld :=
  {| sw_syncer := sw_syncer w; sw_store := sw_store w; sw_others := sw_others w;
     sw_net := sw_net w; sw_log := sw_log w; sw_ctx := sw_ctx w; sw_trusted := t;
     sw_trust_faults := f |}.

Definition SyncM (A : Type) : Type := SyncWorld -> result A * SyncWorld.

#[global] Instance SyncM_ret : MRet SyncM := fun A a w => (Ok a, w).
#[global] Instance SyncM_bind : MBind SyncM := fun A B f m w =>
  match m w with
  | (Ok a, w') => f a w'
  | (Err e, w') => (Err e, w')
  end.

Definition n_lift {A} (r : result A) : SyncM A := fun w => (r, w).
Definition n_throw {A} (e : GoError) : SyncM A := fun w => (Err e, w).
Definition get_syncer : SyncM Syncer := fun w => (Ok (sw_syncer w), w).
Definition modify_syncer (f : Syncer -> Syncer) : SyncM unit := fun w => (Ok tt, upd_syncer f w).
Definition now : SyncM instant := fun w => (Ok (clock (sw_store w)), w).

(** A store method, after what other goroutines have committed meanwhile. *)
Definition other_commits (w : SyncWorld) : World :=
  set_committed (sw_others w 0%nat (committed (sw_store w))) (sw_store w).
Definition store_call {A} (m : M A) : SyncM A := fun w =>
  let '(r, s) := m (other_commits w) in (r, upd_store s (s_tail (sw_others w)) w).

Definition err_cancelled : GoError := ErrText "context canceled" [].
(** [ctx.Err()] *)
Definition ctx_Err : SyncM unit := fun w =>
  (if default false (head (sw_ctx w)) then Err err_cancelled else Ok tt, upd_ctx (drop 1 (sw_ctx w)) w).

(** [s.client.Do(req)] *)
Definition client_Do (req : Request) : SyncM Exchange := fun w =>
  let x := sw_net w 0%nat in
  (match x with NetError msg => Err (ErrDriver msg) | _ => Ok x end,
   upd_net (s_tail (sw_net w)) (sw_log w ++ [(req, x)]) w).

(** [s.cfg.ApplyTrustedRanges(ranges)], which replaces the set or fails. *)
Definition apply_trusted (ranges : list string) : SyncM unit := fun w =>
  match default None (head (sw_trust_faults w)) with
  | Some msg => (Err (ErrDriver msg), upd_trust (sw_trusted w) (drop 1 (sw_trust_faults w)) w)
  | None => (Ok tt, upd_trust ranges (drop 1 (sw_trust_faults w)) w)
  end.

(** closeWithError (controlplane/cleanup.go), deferred around the rest. *)
Definition cp_closeWithError {A} (context : string) (closed : option string) (m : SyncM A) : SyncM A := fun w =>
  let '(r, w') := m w in
  (join_result r (closeError context (match closed with Some msg => Err (ErrDriver msg) | None => Ok tt end)), w').

(** ** Pushing observations *)

Definition err_status (what text : string) : GoError := ErrText what [text].

(** The checks on a reply's status. *)
Definition check_status (cfg : Config) (what text : string) (status : Z) (rest : SyncM unit) : SyncM unit :=
  if status =? 403
  then n_throw (ErrText (what +:+ " (instance %q not registered with gatehub?)") [text; InstanceID cfg])
  else if negb (Z.quot status 100 =? 2) then n_throw (err_status what text)
  else rest.

Section syncing.
Context `{JSONCodec Any}.

Definition pushBatch (cfg : Config) (batch : observationBatch Any) : SyncM unit :=
  req ← n_lift (batch_request cfg batch);
  resp ← client_Do req;
  match resp with
  | Reply status text _ closed =>
      cp_closeWithError "close response body" closed
        (check_status cfg "POST observations returned %s" text status (mret tt))
  | NetError msg => n_throw (ErrDriver msg)
  end.

(** What one entry adds to a batch: its observation and its digest, unless the
    digest is the acknowledged one. *)
Definition entry_changes (full : bool) (acknowledged : gmap string digest) (entry : Entry Any)
    : result (list (observation Any * digest)) :=
  let obs := toObservation (e_Fingerprint entry) entry in
  encoded ← observation_json obs;
  let hash := Sum256 encoded in
  Ok (if full || negb (bool_decide (acknowledged !! e_Fingerprint entry = Some hash))
      then [(obs, hash)] else []).

Fixpoint page_changes (full : bool) (acknowledged : gmap string digest) (entries : list (Entry Any))
    : result (list (observation Any * digest)) :=
  match entries with
  | [] => Ok []
  | e :: rest =>
      c ← entry_changes full acknowledged e;
      cs ← page_changes full acknowledged rest;
      Ok (c ++ cs)
  end.

(** [for fp, hash := range hashes { s.acknowledged[fp] = hash }] *)
Definition acknowledge (changes : list (observation Any * digest)) (m : gmap string digest)
    : gmap string digest :=
  fold_left (fun m c => <[o_Fingerprint c.1 := c.2]> m) changes m.

Definition ack_map (s : Syncer) : gmap string digest := default ∅ (sy_acknowledged s).

Definition last_fp (after : string) (entries : list (Entry Any)) : string :=
  default after (e_Fingerprint <$> last entries).

(** One turn of the loop over pages after the check of the context: [None] when
    there is no further page, else whether something was sent. *)
Definition push_page (full : bool) (after through : string) : SyncM (option (list (Entry Any) * bool)) :=
  entries ← store_call (ListPage after through 16);
  match entries with
  | [] => mret None
  | _ =>
      s ← get_syncer;
      changes ← n_lift (page_changes full (ack_map s) entries);
      match changes with
      | [] => mret (Some (entries, false))
      | _ =>
          pushBatch (sy_cfg s)
            {| ob_InstanceID := InstanceID (sy_cfg s); ob_Observations := map fst changes |} ;;
          modify_syncer (fun s => set_acknowledged (Some (acknowledge changes (ack_map s))) s) ;;
          mret (Some (entries, true))
      end
  end.

Definition err_fuel : GoError := ErrPanic "out of fuel".

(** The loop over pages: the fingerprints seen, and whether a batch was sent;
    [None] when the fuel does not suffice. *)
Fixpoint push_pages (fuel : nat) (full : bool) (after through : string) (seen : gset string)
    (sent : bool) : SyncM (option (gset string * bool)) :=
  match fuel with
  | O => mret None
  | S fuel =>
      ctx_Err ;;
      page ← push_page full after through;
      match page with
      | None => mret (Some (seen, sent))
      | Some (entries, s) =>
          push_pages fuel full (last_fp after entries) through
            (list_to_set (map e_Fingerprint entries) ∪ seen) (s || sent)
      end
  end.

(** Whether a full snapshot is due. *)
Definition full_due (started last : instant) : bool :=
  IsZero last || (FullSyncInterval <=? sat64 (started - last)).

Definition pushObservations (fuel : nat) : SyncM unit :=
  started ← now;
  s ← get_syncer;
  let full := full_due started (sy_lastFullSync s) in
  modify_syncer (fun s => set_acknowledged (Some (ack_map s)) s) ;;
  through ← store_call LastFingerprint;
  pages ← push_pages fuel full "" through ∅ false;
  r ← n_lift (match pages with Some r => Ok r | None => Err err_fuel end);
  (if (r.2 : bool) then mret tt
   else pushBatch (sy_cfg s) {| ob_InstanceID := InstanceID (sy_cfg s); ob_Observations := [] |}) ;;
  modify_syncer (fun s => set_acknowledged (Some (filter (fun kv => kv.1 ∈ r.1) (ack_map s))) s) ;;
  (if full then modify_syncer (set_lastFullSync started) else mret tt).

(** ** Pulling the policy *)

Fixpoint check_policy (cfg : Config) (ds : list PolicyDecision) : result unit :=
  match ds with
  | [] => Ok tt
  | d :: rest =>
      match Decision_Validate d with
      | Some e => Err (ErrWrap "invalid policy" e)
      | None =>
          if bool_decide (is_Some (dec_ApprovalRanges d)) && negb (SupportsApprovalRanges cfg)
          then Err (ErrText "gate does not enforce approval_ranges" [])
          else check_policy cfg rest
      end
  end.

(** [fmt.Errorf(context + ": %w", err)] *)
Definition wrap_policy_error {A} (context : string) (m : SyncM A) : SyncM A := fun w =>
  let '(r, w') := m w in (match r with Ok a => Ok a | Err e => Err (ErrWrap context e) end, w').

(** From the decoded policy on. *)
Definition apply_policy (s : Syncer) (policy : policyResponse) : SyncM unit :=
  n_lift (check_policy (sy_cfg s) (pr_Decisions policy)) ;;
  match pr_TrustedRanges policy with
  | Some ranges =>
      if ApplyTrustedRanges (sy_cfg s) then wrap_policy_error "apply trusted ranges" (apply_trusted ranges)
      else mret tt
  | None => mret tt
  end ;;
  wrap_policy_error "apply policy"
    (store_call (ApplyDecisions (pr_Decisions policy) (sy_cursorKey s) (pr_Cursor policy))) ;;
  (if str_empty (pr_Cursor policy) then mret tt else modify_syncer (set_cursor (pr_Cursor policy))).

(** [json.NewDecoder(resp.Body).Decode(&policy)] *)
Definition decoded (body : option policyResponse) : result policyResponse :=
  match body with
  | Some policy => Ok policy
  | None => Err (ErrText "json: cannot decode the policy" [])
  end.

Definition pullPolicy : SyncM unit :=
  s ← get_syncer;
  req ← n_lift (policy_request (sy_cfg s) (sy_cursor s));
  resp ← client_Do req;
  match resp with
  | Reply status text body closed =>
      cp_closeWithError "close response body" closed
        (check_status (sy_cfg s) "GET policy returned %s" text status
           (policy ← n_lift (decoded body); apply_policy s policy))
  | NetError msg => n_throw (ErrDriver msg)
  end.

(** ** Cycles *)

(** [if err := f(); err != nil { log.Printf(...) }]: an error is logged; a panic is
    not an error and goes on up the stack. *)
Definition logged (m : SyncM unit) : SyncM unit := fun w =>
  match m w with
  | (Err (ErrPanic msg), w') => (Err (ErrPanic msg), w')
  | (_, w') => (Ok tt, w')
  end.

Definition syncOnce (fuel : nat) : SyncM unit := logged (pushObservations fuel) ;; logged pullPolicy.

(** What the select of Run picks next. *)
Inductive RunEvent := TimerTick (at_ : instant) | CtxDone.

(** Where the loop of Run is: in its select, or returned. *)
Inductive LoopState := Waiting | Returned.

Definition set_clock (t : instant) (w : SyncWorld) : SyncWorld :=
  let s := sw_store w in
  upd_store {| committed := committed s; working := working s; script := script s; clock := t |}
    (sw_others w) w.

(** Time has moved on to [t]. *)
Definition tick (t : instant) : SyncM unit := fun w => (Ok tt, set_clock t w).

Fixpoint run_loop (fuel : nat) (events : list RunEvent) : SyncM LoopState :=
  match events with
  | [] => mret Waiting
  | CtxDone :: _ => mret Returned
  | TimerTick t :: rest => tick t ;; syncOnce fuel ;; run_loop fuel rest
  end.

(** Run: the timer panics unless its interval is positive. *)
Definition Run (fuel : nat) (interval : Z) (events : list RunEvent) : SyncM LoopState :=
  syncOnce fuel ;;
  if interval <=? 0 then n_throw (ErrPanic "non-positive interval for NewTicker")
  else run_loop fuel events.
End syncing.

(** ** Building a Syncer *)

(** The files and parsers newHTTPClient relies on. *)
Class TLSFiles := {
  Certificate : Type;
  CertPool : Type;
  LoadX509KeyPair : string -> string -> result Certificate;
  ReadFile : string -> result string;
  AppendCertsFromPEM : string -> option CertPool
}.

Record HTTPClient `{TLSFiles} := {
  hc_MinVersion : Z;
  hc_ServerName : string;
  hc_Certificates : list Certificate;
  hc_RootCAs : option CertPool;
  hc_FollowRedirects : bool;
  hc_Timeout : Z
}.

Definition VersionTLS12 : Z := 771.

Definition newHTTPClient `{TLSFiles} (cfg : Config) : result HTTPClient :=
  certs ← (if negb (str_empty (ClientCert cfg)) || negb (str_empty (ClientKey cfg)) then
             cert ← LoadX509KeyPair (ClientCert cfg) (ClientKey cfg); Ok [cert]
           else Ok []);
  roots ← (if negb (str_empty (cfg_CA cfg)) then
             caPEM ← ReadFile (cfg_CA cfg);
             match AppendCertsFromPEM caPEM with
             | Some pool => Ok (Some pool)
             | None => Err (ErrText "no CA certificates found in %s" [cfg_CA cfg])
             end
           else Ok None);
  Ok {| hc_MinVersion := VersionTLS12; hc_ServerName := ServerName cfg; hc_Certificates := certs;
        hc_RootCAs := roots; hc_FollowRedirects := false; hc_Timeout := 15 * 1000000000 |}.

Definition nul : ascii := ascii_of_N 0.
Definition cursor_key (cfg : Config) : string :=
  "gatehub_cursor:" +:+ hex_bytes (Sum256 (cfg_URL cfg +:+ String nul (InstanceID cfg))).

(** controlplane.New *)
Definition controlplane_New `{TLSFiles} (cfg : Config) : M (HTTPClient * Syncer) :=
  lift (Validate cfg) ;;
  client ← lift (newHTTPClient cfg);
  cursor ← GetMeta (cursor_key cfg);
  mret (client, {| sy_cfg := cfg; sy_cursor := cursor; sy_cursorKey := cursor_key cfg;
                   sy_acknowledged := None; sy_lastFullSync := zero_instant |}).

(** Start: the Syncer to run with its interval, or nothing when no control plane
    is configured. *)
Definition Start `{TLSFiles} (cfg : Config) : M (option (Syncer * Z)) :=
  if negb (Enabled cfg) then mret None
  else
    lift (Validate cfg) ;;
    cs ← controlplane_New cfg;
    mret (Some (cs.2, Interval cfg)).
