(* ===== verification/SyncRun.v ===== *)
(** What the Syncer's methods do: inversion of runs in the monad [SyncM], a
    successful batch, the pages of the push loop as segments of the sorted
    fingerprints, and the loop as one function of the stored entries. *)

From S2P Require Import Prelude GoStrings GoTime Netip Json JsonText GoDuration Sha256 GoUrl Approval Database Tables Store Writes Refinement Invariant Reading ControlPlane.
From Stdlib Require Import Ascii String.
From stdpp Require Import strings gmap sorting.
#[local] Open Scope stdpp_scope.
#[local] Open Scope Z_scope.

(** ** Inversion *)

Lemma n_bind_inv {A B} (m : SyncM A) (k : A -> SyncM B) w r w' :
  (m ≫= k) w = (r, w') ->
  (exists a w1, m w = (Ok a, w1) /\ k a w1 = (r, w')) \/ (exists e, m w = (Err e, w') /\ r = Err e).
Proof.
  unfold mbind, SyncM_bind. destruct (m w) as [[a|e] w1]; intros H; [left; by exists a, w1|right].
  injection H as <- <-. by exists e.
Qed.

Lemma n_bind_ok {A B} (m : SyncM A) (k : A -> SyncM B) w b w' :
  (m ≫= k) w = (Ok b, w') -> exists a w1, m w = (Ok a, w1) /\ k a w1 = (Ok b, w').
Proof. by intros [?|(e & _ & ?)]%n_bind_inv. Qed.

Lemma run_ok (m : SyncM unit) w : is_ok (m w).1 = true -> m w = (Ok tt, (m w).2).
Proof. by destruct (m w) as [[[]|] ?]. Qed.

(** The parts of the world a step may touch. *)
Definition same_syncer (w w' : SyncWorld) : Prop := sw_syncer w' = sw_syncer w.
Definition same_net (w w' : SyncWorld) : Prop :=
  sw_log w' = sw_log w /\ sw_trusted w' = sw_trusted w.
Definition same_store (w w' : SyncWorld) : Prop :=
  committed (sw_store w') = committed (sw_store w) /\ working (sw_store w') = working (sw_store w) /\
  clock (sw_store w') = clock (sw_store w).

(** A read through the store. *)
Lemma store_call_reads {A} (m : M A) f w r w' :
  reads OnReader m f -> store_call m w = (r, w') ->
  same_syncer w w' /\ same_net w w' /\ same_store (upd_store (other_commits w) (sw_others w) w) w' /\
  sw_others w' = s_tail (sw_others w) /\
  (is_ok r = true -> r = f (committed (other_commits w))).
Proof.
  intros Hm. unfold store_call. destruct (m (other_commits w)) as [r1 s] eqn:E.
  destruct (Hm _ _ _ _ eq_refl E) as (H1 & H2 & H3 & H4 & _). intros [= <- <-]. simpl. done.
Qed.

(** Nobody else writes. *)
Definition nobody_else (w : SyncWorld) : Prop := forall n d, sw_others w n d = d.

Lemma other_commits_quiet w : nobody_else w -> other_commits w = sw_store w.
Proof. intros Ho. unfold other_commits. rewrite Ho. by destruct (sw_store w). Qed.

Lemma client_Do_inv req w r w' :
  client_Do req w = (r, w') ->
  exists x, sw_log w' = sw_log w ++ [(req, x)] /\ sw_syncer w' = sw_syncer w /\
    sw_store w' = sw_store w /\ sw_others w' = sw_others w /\ sw_trusted w' = sw_trusted w /\
    match x with
    | NetError msg => r = Err (ErrDriver msg)
    | _ => r = Ok x
    end.
Proof. intros [= <- <-]. eexists. split; [reflexivity|]. simpl. by destruct (sw_net w 0%nat). Qed.

(** What other goroutines have committed in the course of a run: the steps it
    has used up, in order. *)
Fixpoint db_after (used : nat) (others : stream (DB -> DB)) (d : DB) : DB :=
  match used with
  | O => d
  | S used => db_after used (s_tail others) (others 0%nat d)
  end.

Lemma db_after_add j k others d :
  db_after (j + k) others d = db_after k (s_drop j others) (db_after j others d).
Proof. revert others d. induction j as [|j IH]; intros others d; [done|]. apply IH. Qed.

(** What holds of the database and is preserved by the others still holds. *)
Lemma db_after_invariant (P : DB -> Prop) used others d :
  (forall n d, P d -> P (others n d)) -> P d -> P (db_after used others d).
Proof.
  revert others d. induction used as [|used IH]; intros others d Ho Hd; [done|].
  apply IH; [|by apply Ho]. intros n. apply (Ho (S n)).
Qed.

Definition others_ran (used : nat) (w w' : SyncWorld) : Prop :=
  sw_others w' = s_drop used (sw_others w) /\
  committed (sw_store w') = db_after used (sw_others w) (committed (sw_store w)).

Lemma others_ran_trans used1 used2 w1 w2 w3 :
  others_ran used1 w1 w2 -> others_ran used2 w2 w3 -> others_ran (used1 + used2) w1 w3.
Proof.
  intros [A1 A2] [B1 B2]. unfold others_ran.
  by rewrite s_drop_add, db_after_add, <- A2, <- A1.
Qed.

Lemma others_ran_quiet used w w' :
  others_ran used w w' -> nobody_else w ->
  nobody_else w' /\ committed (sw_store w') = committed (sw_store w).
Proof.
  intros [H1 H2] Ho. split.
  - intros n d. rewrite H1, s_drop_lookup. apply Ho.
  - rewrite H2. apply (db_after_invariant (fun d => d = committed (sw_store w))); [|done].
    intros n d ->. apply Ho.
Qed.

Definition meanwhile (w : SyncWorld) : DB := committed (other_commits w).

Lemma meanwhile_after w : meanwhile w = db_after 1 (sw_others w) (committed (sw_store w)).
Proof. done. Qed.

(** A step that leaves the Syncer's own state and the store alone. *)
Definition only_sends (reqs : list (Request * Exchange)) (w w' : SyncWorld) : Prop :=
  sw_log w' = sw_log w ++ reqs /\ sw_syncer w' = sw_syncer w /\ sw_store w' = sw_store w /\
  sw_others w' = sw_others w /\ sw_trusted w' = sw_trusted w.

Section frame.
Context `{JSONCodec Any}.

Definition batch_of (cfg : Config) (os : list (observation Any)) : observationBatch Any :=
  {| ob_InstanceID := InstanceID cfg; ob_Observations := os |}.

Definition syncer_ack (w : SyncWorld) : gmap string digest := ack_map (sw_syncer w).
Definition syncer_cfg (w : SyncWorld) : Config := sy_cfg (sw_syncer w).

(** A request that uploads at most one page. *)
Definition sends_batch (cfg : Config) (rq : Request) : Prop :=
  exists os, (List.length os <= 16)%nat /\ batch_request cfg (batch_of cfg os) = Ok rq.

(** What pushing may change besides the acknowledgements: it appends batches to
    the log, while other goroutines write. *)
Record frame (reqs : list (Request * Exchange)) (w w' : SyncWorld) : Prop := {
  fm_log : sw_log w' = sw_log w ++ reqs;
  fm_batches : Forall (fun rx => sends_batch (syncer_cfg w) rx.1) reqs;
  fm_trusted : sw_trusted w' = sw_trusted w;
  fm_cfg : syncer_cfg w' = syncer_cfg w;
  fm_cursor : sy_cursor (sw_syncer w') = sy_cursor (sw_syncer w);
  fm_cursorKey : sy_cursorKey (sw_syncer w') = sy_cursorKey (sw_syncer w);
  fm_lastFull : sy_lastFullSync (sw_syncer w') = sy_lastFullSync (sw_syncer w);
  fm_working : working (sw_store w') = working (sw_store w);
  fm_clock : clock (sw_store w') = clock (sw_store w);
  fm_others : exists used, others_ran used w w'
}.

Lemma frame_trans reqs1 reqs2 w1 w2 w3 :
  frame reqs1 w1 w2 -> frame reqs2 w2 w3 -> frame (reqs1 ++ reqs2) w1 w3.
Proof.
  intros [A1 A2 A3 A4 A5 A6 A7 A8 A9 [u1 O1]] [B1 B2 B3 B4 B5 B6 B7 B8 B9 [u2 O2]].
  constructor; try congruence.
  - by rewrite B1, A1, app_assoc.
  - apply Forall_app. by rewrite A4 in B2.
  - exists (u1 + u2)%nat. by eapply others_ran_trans.
Qed.

Lemma only_sends_frame reqs w w' :
  only_sends reqs w w' -> Forall (fun rx => sends_batch (syncer_cfg w) rx.1) reqs ->
  frame reqs w w' /\ sy_acknowledged (sw_syncer w') = sy_acknowledged (sw_syncer w).
Proof.
  intros (A1 & A2 & A3 & A4 & A5) Hb. split; [|by rewrite A2].
  unfold syncer_cfg in *. constructor; unfold syncer_cfg; rewrite ?A2, ?A3; try done.
  exists 0%nat. unfold others_ran. by rewrite A3, A4.
Qed.

Lemma frame_ctx c w : frame [] w (upd_ctx c w).
Proof. constructor; try done; [by rewrite app_nil_r|by exists 0%nat]. Qed.

Lemma frame_refl w : frame [] w w.
Proof. constructor; try done; [by rewrite app_nil_r|by exists 0%nat]. Qed.

Lemma store_read_frame {A} (m : M A) f w r w' :
  reads OnReader m f -> store_call m w = (r, w') ->
  frame [] w w' /\ sy_acknowledged (sw_syncer w') = sy_acknowledged (sw_syncer w) /\
  (is_ok r = true -> r = f (meanwhile w)).
Proof.
  intros Hm E. destruct (store_call_reads m f w r w' Hm E) as (A1 & (A2 & A3) & (S1 & S2 & S3) & A5 & A6).
  unfold same_syncer in A1. split_and!; [|by rewrite A1|done].
  assert (working (other_commits w) = working (sw_store w)) as Hw by done.
  assert (clock (other_commits w) = clock (sw_store w)) as Hc by done.
  constructor; unfold syncer_cfg; rewrite ?A1; try done; [by rewrite app_nil_r|simpl in *; congruence..|].
  exists 1%nat. split; [exact A5|]. rewrite <- meanwhile_after. exact S1.
Qed.
End frame.

(** ** Changes and acknowledgements *)

Section changes.
Context `{JSONCodec Any}.

(** The digest an entry is acknowledged by. *)
Definition entry_digest (e : Entry Any) : result digest :=
  encoded ← observation_json (toObservation (e_Fingerprint e) e); Ok (Sum256 encoded).

Lemma entry_changes_ok full m (e : Entry Any) cs :
  entry_changes full m e = Ok cs ->
  exists h, entry_digest e = Ok h /\
    cs = if full || negb (bool_decide (m !! e_Fingerprint e = Some h))
         then [(toObservation (e_Fingerprint e) e, h)] else [].
Proof.
  unfold entry_changes, entry_digest, mbind, result_bind.
  destruct (observation_json _); [|done]. intros [= <-]. eauto.
Qed.

Lemma page_changes_cons full m e (es : list (Entry Any)) cs :
  page_changes full m (e :: es) = Ok cs ->
  exists c cs', entry_changes full m e = Ok c /\ page_changes full m es = Ok cs' /\ cs = c ++ cs'.
Proof.
  cbn [page_changes]. unfold mbind, result_bind. destruct (entry_changes full m e); [|done].
  destruct (page_changes full m es); [|done]. intros [= <-]. eauto.
Qed.

Lemma page_changes_app full m (es1 es2 : list (Entry Any)) cs1 cs2 :
  page_changes full m es1 = Ok cs1 -> page_changes full m es2 = Ok cs2 ->
  page_changes full m (es1 ++ es2) = Ok (cs1 ++ cs2).
Proof.
  revert cs1. induction es1 as [|e es1 IH]; intros cs1.
  { by intros [= <-]. }
  intros (c & cs' & Hc & Hcs & ->)%page_changes_cons H2. rewrite <- app_comm_cons. cbn [page_changes].
  rewrite Hc, (IH cs' Hcs H2). unfold mbind, result_bind. by rewrite app_assoc.
Qed.

Lemma page_changes_ext full (m m' : gmap string digest) (es : list (Entry Any)) :
  (forall e, e ∈ es -> m !! e_Fingerprint e = m' !! e_Fingerprint e) ->
  page_changes full m es = page_changes full m' es.
Proof.
  induction es as [|e es IH]; intros Hm; [done|]. cbn [page_changes].
  rewrite IH by (intros x Hx; apply Hm; by right).
  unfold entry_changes. by rewrite (Hm e) by (by left).
Qed.

(** Every change is an entry's current observation and digest. *)
Lemma page_changes_elem full m (es : list (Entry Any)) cs c :
  page_changes full m es = Ok cs -> c ∈ cs ->
  exists e, e ∈ es /\ c.1 = toObservation (e_Fingerprint e) e /\ entry_digest e = Ok c.2.
Proof.
  revert cs. induction es as [|e es IH]; intros cs.
  { intros [= <-] []%not_elem_of_nil. }
  intros (c0 & cs' & (h & Hh & ->)%entry_changes_ok & Hcs & ->)%page_changes_cons [Hin|Hin]%elem_of_app.
  - case_match; [|by apply not_elem_of_nil in Hin]. apply list_elem_of_singleton in Hin as ->.
    exists e. split; [by left|done].
  - destruct (IH cs' Hcs Hin) as (e' & ? & ?). exists e'. split; [by right|done].
Qed.

(** Without a full snapshot, a change is an entry whose digest is not the
    acknowledged one. *)
Lemma page_changes_kept m (es : list (Entry Any)) cs c :
  page_changes false m es = Ok cs -> c ∈ cs ->
  exists e h, e ∈ es /\ entry_digest e = Ok h /\ m !! e_Fingerprint e <> Some h.
Proof.
  revert cs. induction es as [|e es IH]; intros cs.
  { intros [= <-] []%not_elem_of_nil. }
  intros (c0 & cs' & (h & Hh & ->)%entry_changes_ok & Hcs & ->)%page_changes_cons [Hin|Hin]%elem_of_app.
  - simpl in Hin. case_bool_decide as Hm; [by apply not_elem_of_nil in Hin|].
    exists e, h. split; [by left|done].
  - destruct (IH cs' Hcs Hin) as (e' & h' & ? & ?). exists e', h'. split; [by right|done].
Qed.

(** What has changed, without reference to the loop: in order, the entries whose
    encoding is not the one acknowledged, or all of them. *)
Definition changed (full : bool) (m : gmap string digest) (es : list (Entry Any)) (fp : string) : Prop :=
  exists e text, e ∈ es /\ e_Fingerprint e = fp /\ observation_json (toObservation fp e) = Ok text /\
    (full = true \/ m !! fp <> Some (Sum256 text)).

Lemma changed_cons full m e (es : list (Entry Any)) fp :
  changed full m (e :: es) fp <-> changed full m [e] fp \/ changed full m es fp.
Proof.
  unfold changed. split.
  - intros (x & text & [Hx|Hx]%elem_of_cons & Hr); [left|right]; exists x, text; [|done].
    by rewrite list_elem_of_singleton.
  - intros [(x & text & ->%list_elem_of_singleton & Hr)|(x & text & Hx & Hr)].
    + exists e, text. split; [by left|done].
    + exists x, text. split; [by right|done].
Qed.

Lemma entry_changes_changed full m (e : Entry Any) cs fp :
  entry_changes full m e = Ok cs ->
  fp ∈ map (fun c => o_Fingerprint c.1) cs <-> changed full m [e] fp.
Proof.
  intros (h & Hh & ->)%entry_changes_ok. unfold entry_digest, mbind, result_bind in Hh.
  destruct (observation_json _) as [text|] eqn:Et; [|done]. injection Hh as <-. unfold changed. split.
  - destruct (full || _) eqn:Ef; [|by intros []%not_elem_of_nil]. intros ->%list_elem_of_singleton.
    exists e, text. split_and!; [by apply list_elem_of_singleton|done..|].
    apply orb_prop in Ef as [?|Ef]; [by left|right]. by apply negb_true_iff, bool_decide_eq_false in Ef.
  - intros (x & text' & ->%list_elem_of_singleton & <- & Hx & Hd). rewrite Et in Hx. injection Hx as <-.
    assert (full || negb (bool_decide (m !! e_Fingerprint e = Some (Sum256 text))) = true) as ->;
      [|by apply list_elem_of_singleton].
    destruct Hd as [->|Hd]; [done|]. rewrite bool_decide_false by done. apply orb_true_r.
Qed.

Lemma page_changes_changed full m (es : list (Entry Any)) cs :
  page_changes full m es = Ok cs ->
  sublist (map (fun c => o_Fingerprint c.1) cs) (map e_Fingerprint es) /\
  (forall fp, fp ∈ map (fun c => o_Fingerprint c.1) cs <-> changed full m es fp) /\
  Forall2 (fun fp o => exists e, e ∈ es /\ e_Fingerprint e = fp /\ o = toObservation fp e)
    (map (fun c => o_Fingerprint c.1) cs) (map fst cs).
Proof.
  revert cs. induction es as [|e es IH]; intros cs.
  { intros [= <-]. split_and!; [constructor| |constructor]. intros fp. simpl.
    split; [by intros []%not_elem_of_nil|by intros (e & ? & []%not_elem_of_nil & _)]. }
  intros (c & cs' & Hc & (Hs & Hin & Hf)%IH & ->)%page_changes_cons. rewrite !map_app. split_and!.
  - change (map e_Fingerprint (e :: es)) with ([e_Fingerprint e] ++ map e_Fingerprint es).
    apply sublist_app; [|done]. apply entry_changes_ok in Hc as (h & _ & ->). case_match; [done|].
    apply sublist_nil_l.
  - intros fp. by rewrite elem_of_app, changed_cons, Hin, (entry_changes_changed full m e c fp Hc).
  - apply Forall2_app.
    + apply entry_changes_ok in Hc as (h & _ & ->). case_match; constructor; [|constructor].
      exists e. split; [by left|done].
    + eapply Forall2_impl; [exact Hf|]. intros fp o (x & Hx & Hr). exists x. split; [by right|done].
Qed.

(** Every entry of a page has been encoded. *)
Lemma page_changes_encodes full m (es : list (Entry Any)) cs e :
  page_changes full m es = Ok cs -> e ∈ es ->
  exists text, observation_json (toObservation (e_Fingerprint e) e) = Ok text.
Proof.
  revert cs. induction es as [|x es IH]; intros cs; [by intros _ []%not_elem_of_nil|].
  intros (c & cs' & (h & Hh & _)%entry_changes_ok & Hcs & _)%page_changes_cons [->|Hin]%elem_of_cons; [|by eapply IH].
  unfold entry_digest, mbind, result_bind in Hh. destruct (observation_json _) as [text|]; [by exists text|done].
Qed.

Lemma page_changes_length full m (es : list (Entry Any)) cs :
  page_changes full m es = Ok cs -> (List.length cs <= List.length es)%nat.
Proof.
  revert cs. induction es as [|e es IH]; intros cs; [by intros [= <-]|].
  intros (c0 & cs' & (h & Hh & ->)%entry_changes_ok & Hcs%IH & ->)%page_changes_cons.
  rewrite List.length_app. case_match; simpl in *; lia.
Qed.

Lemma acknowledge_app (cs1 cs2 : list (observation Any * digest)) m :
  acknowledge (cs1 ++ cs2) m = acknowledge cs2 (acknowledge cs1 m).
Proof. apply fold_left_app. Qed.

Lemma acknowledge_other (cs : list (observation Any * digest)) m fp :
  (forall c, c ∈ cs -> o_Fingerprint c.1 <> fp) -> acknowledge cs m !! fp = m !! fp.
Proof.
  revert m. induction cs as [|c cs IH]; intros m Hne; [done|]. unfold acknowledge in *. cbn [fold_left].
  rewrite IH by (intros x Hx; apply Hne; by right).
  apply lookup_insert_ne. apply Hne. by left.
Qed.

Lemma acknowledge_elem (cs : list (observation Any * digest)) m fp h :
  acknowledge cs m !! fp = Some h ->
  m !! fp = Some h \/ exists c, c ∈ cs /\ o_Fingerprint c.1 = fp /\ c.2 = h.
Proof.
  revert m. induction cs as [|c cs IH]; intros m; [by left|]. unfold acknowledge in *. cbn [fold_left].
  intros [Hm|(c' & ? & ?)]%IH; [|right; exists c'; split; [by right|done]].
  apply lookup_insert_Some in Hm as [[<- <-]|[_ Hm]]; [|by left]. right. exists c. split; [by left|done].
Qed.

(** After acknowledging a page's changes, the page's entries are acknowledged by
    their current digests. *)
Lemma acknowledge_page full m (es : list (Entry Any)) cs fp :
  NoDup (map e_Fingerprint es) -> page_changes full m es = Ok cs ->
  acknowledge cs m !! fp =
  match list_find (fun e => e_Fingerprint e = fp) es with
  | Some (_, e) => match entry_digest e with Ok h => Some h | Err _ => None end
  | None => m !! fp
  end.
Proof.
  revert m cs. induction es as [|e es IH]; intros m cs Hnd.
  { by intros [= <-]. }
  intros (c & cs' & (h & Hh & Hc)%entry_changes_ok & Hcs & ->)%page_changes_cons.
  apply NoDup_cons in Hnd as [Hni Hnd]. rewrite acknowledge_app.
  assert (forall x, x ∈ es -> e_Fingerprint x <> e_Fingerprint e) as Hne.
  { intros x Hx Heq. apply Hni. rewrite <- Heq. by apply list_elem_of_fmap_2. }
  assert (forall x, x <> e_Fingerprint e -> acknowledge c m !! x = m !! x) as Ho.
  { intros x Hx. apply acknowledge_other. intros y Hy. subst c. case_match; [|by apply not_elem_of_nil in Hy].
    apply list_elem_of_singleton in Hy as ->. done. }
  rewrite (page_changes_ext full m (acknowledge c m)) in Hcs
    by (intros x Hx; symmetry; by apply Ho, Hne).
  rewrite (IH _ _ Hnd Hcs). simpl. destruct (decide (e_Fingerprint e = fp)) as [<-|Hfp].
  - destruct (list_find _ es) as [[i x]|] eqn:E.
    { apply list_find_Some in E as (Hx & Heq & _). apply list_elem_of_lookup_2 in Hx. by destruct (Hne x Hx). }
    simpl. rewrite Hh, Hc. destruct (full || _) eqn:Ef.
    + apply lookup_insert_eq.
    + apply orb_false_elim in Ef as [_ Ef]. apply negb_false_iff, bool_decide_eq_true in Ef. done.
  - rewrite (Ho fp) by done. by destruct (list_find _ es) as [[i x]|].
Qed.
End changes.

(** When a full snapshot is due: at the start, and every fifteen minutes. *)
Lemma full_due_spec started last :
  full_due started last = true <-> last = zero_instant \/ 15 * 60 * 1000000000 <= started - last.
Proof.
  unfold full_due, IsZero, FullSyncInterval, sat64, int64_min, int64_max.
  rewrite orb_true_iff, Z.eqb_eq, Z.leb_le. lia.
Qed.

Section running.
Context `{JSONCodec Any}.

Lemma pushBatch_inv cfg (b : observationBatch Any) w r w' :
  pushBatch cfg b w = (r, w') ->
  (only_sends [] w w' /\ is_ok r = false) \/
  (exists req x, batch_request cfg b = Ok req /\ only_sends [(req, x)] w w' /\
     is_ok r = accepted_reply x).
Proof.
  unfold pushBatch. intros [(req & w1 & Hreq & Hk)|(e & Hreq & ->)]%n_bind_inv.
  - unfold n_lift in Hreq. injection Hreq as Hreq <-. right.
    apply n_bind_inv in Hk as [(resp & w2 & Hdo & Hk)|(e & Hdo & ->)];
      apply client_Do_inv in Hdo as (x & A1 & A2 & A3 & A4 & A5 & Hx); exists req, x;
      (split; [done|]).
    + destruct x as [|status text body closed]; [done|]. injection Hx as ->.
      unfold cp_closeWithError, check_status in Hk.
      assert (is_ok r = accepted_reply (Reply status text body closed) /\ w' = w2) as [Hr ->];
        [|split; [by unfold only_sends|done]].
      destruct (status =? 403) eqn:E4.
      { apply Z.eqb_eq in E4 as ->. unfold n_throw in Hk. destruct closed; by injection Hk as <- <-. }
      simpl. destruct (Z.quot status 100 =? 2); unfold n_throw in Hk; destruct closed;
        by injection Hk as <- <-.
    + split; [by unfold only_sends|]. by destruct x.
  - left. injection Hreq as _ <-. split; [unfold only_sends; by rewrite app_nil_r|done].
Qed.

(** ** Pages *)

Definition segment (after through : string) (d : DB) : list string :=
  filter (fun fp => str_lt after fp /\ ~ str_lt through fp) (fps_sorted d).

Lemma segment_sorted after through d : StronglySorted str_lt (segment after through d).
Proof. apply ssorted_filter, fps_sorted_sorted. Qed.

Lemma elem_of_segment after through d fp :
  fp ∈ segment after through d <-> is_Some (db_fps d !! fp) /\ str_lt after fp /\ ~ str_lt through fp.
Proof. unfold segment. rewrite list_elem_of_filter, elem_of_fps_sorted. tauto. Qed.

(** The last element of a sorted list is above the others. *)
Lemma sorted_last_max (l : list string) x y :
  StronglySorted str_lt l -> last l = Some x -> y ∈ l -> y = x \/ str_lt y x.
Proof.
  intros Hs Hl Hy. apply last_Some in Hl as [l' ->]. apply elem_of_app in Hy as [Hy|Hy].
  - right. eapply (StronglySorted_app_1_elem_of str_lt l' [x]); [done|done|]. by apply list_elem_of_singleton.
  - left. by apply list_elem_of_singleton in Hy.
Qed.

(** Going on after the last fingerprint of a page. *)
Lemma segment_next n after through d x :
  last (take n (segment after through d)) = Some x ->
  segment x through d = drop n (segment after through d).
Proof.
  intros Hl. pose proof (segment_sorted after through d) as Hs.
  assert (x ∈ take n (segment after through d)) as Hx
    by (apply last_Some in Hl as [l' ->]; apply elem_of_app; right; by apply list_elem_of_singleton).
  apply (ssorted_ext str_lt); [apply segment_sorted|by apply ssorted_drop|].
  intros y. rewrite elem_of_segment. split.
  - intros (Hin & Hxy & Ht).
    assert (y ∈ segment after through d) as Hy.
    { apply elem_of_segment. split_and!; [done| |done].
      assert (x ∈ segment after through d) as Hxs by (apply (elem_of_take_drop n); by left).
      apply elem_of_segment in Hxs as (_ & ? & _). by eapply str_lt_trans. }
    apply (elem_of_take_drop n) in Hy as [Hy|Hy]; [|done].
    destruct (sorted_last_max _ x y (ssorted_take _ n _ Hs) Hl Hy) as [->|Hlt].
    + by destruct (str_lt_irrefl x).
    + destruct (str_lt_irrefl x). by eapply str_lt_trans.
  - intros Hy. assert (y ∈ segment after through d) as Hys by (apply (elem_of_take_drop n); by right).
    apply elem_of_segment in Hys as (? & _ & ?). split_and!; [done| |done].
    by apply (StronglySorted_take_drop str_lt n (segment after through d)).
Qed.

Lemma segment_all d : segment "" (max_fp d) d = filter (fun fp => fp <> "") (fps_sorted d).
Proof.
  unfold segment. apply list_filter_iff_elem. intros fp Hfp. split.
  - intros [Hlt _] ->. by destruct (str_lt_irrefl "").
  - intros Hne. split; [by apply str_lt_empty|]. unfold max_fp.
    destruct (last (fps_sorted d)) as [x|] eqn:E; simpl.
    + destruct (sorted_last_max _ x fp (fps_sorted_sorted d) E Hfp) as [->|Hlt]; [apply str_lt_irrefl|].
      intros Hc. destruct (str_lt_irrefl x). by eapply str_lt_trans.
    + apply last_None in E. rewrite E in Hfp. by apply not_elem_of_nil in Hfp.
Qed.

(** ** One page *)

Lemma ack_same w w' :
  sy_acknowledged (sw_syncer w') = sy_acknowledged (sw_syncer w) -> syncer_ack w' = syncer_ack w.
Proof. unfold syncer_ack, ack_map. by intros ->. Qed.

Lemma pushBatch_frame os w r w' :
  (List.length os <= 16)%nat -> pushBatch (syncer_cfg w) (batch_of (syncer_cfg w) os) w = (r, w') ->
  syncer_ack w' = syncer_ack w /\
  ((frame [] w w' /\ is_ok r = false) \/
   exists req x, batch_request (syncer_cfg w) (batch_of (syncer_cfg w) os) = Ok req /\
     frame [(req, x)] w w' /\ is_ok r = accepted_reply x).
Proof.
  intros Hlen [[Hs Hok]|(req & x & Hreq & Hs & Hok)]%pushBatch_inv.
  - apply only_sends_frame in Hs as [F A]; [|constructor]. split; [by apply ack_same|]. by left.
  - apply only_sends_frame in Hs as [F A].
    + split; [by apply ack_same|]. right. by exists req, x.
    + constructor; [|constructor]. by exists os.
Qed.

Lemma list_page_segment after through d (es : list (Entry Any)) :
  list_page after through 16 d = Ok es ->
  Forall2 (fun fp e => get_entry fp d = Ok e) (take 16 (segment after through d)) es.
Proof. by intros [_ ?]%list_page_entries. Qed.

Lemma page_changes_bound full after through d m (es : list (Entry Any)) cs :
  list_page after through 16 d = Ok es -> page_changes full m es = Ok cs -> (List.length cs <= 16)%nat.
Proof.
  intros Hl%list_page_segment Hcs%page_changes_length. apply Forall2_length in Hl.
  rewrite length_take in Hl. lia.
Qed.

(** The ways a turn of the loop can go. *)
Inductive page_outcome (full : bool) (after through : string) (w : SyncWorld) :
    result (option (list (Entry Any) * bool)) -> SyncWorld -> Prop :=
  | page_failed reqs e w' :
      frame reqs w w' -> syncer_ack w' = syncer_ack w ->
      Forall (fun rx => accepted_reply rx.2 = false) reqs ->
      page_outcome full after through w (Err e) w'
  | page_end w' :
      list_page after through 16 (meanwhile w) = Ok ([] : list (Entry Any)) ->
      frame [] w w' -> syncer_ack w' = syncer_ack w ->
      page_outcome full after through w (Ok None) w'
  | page_quiet es w' :
      list_page after through 16 (meanwhile w) = Ok es -> es <> [] ->
      page_changes full (syncer_ack w) es = Ok [] ->
      frame [] w w' -> syncer_ack w' = syncer_ack w ->
      page_outcome full after through w (Ok (Some (es, false))) w'
  | page_sent es cs req x w' :
      list_page after through 16 (meanwhile w) = Ok es -> es <> [] ->
      page_changes full (syncer_ack w) es = Ok cs -> cs <> [] ->
      batch_request (syncer_cfg w) (batch_of (syncer_cfg w) (map fst cs)) = Ok req ->
      accepted_reply x = true ->
      frame [(req, x)] w w' -> syncer_ack w' = acknowledge cs (syncer_ack w) ->
      page_outcome full after through w (Ok (Some (es, true))) w'.

Lemma push_page_inv full after through w r w' :
  push_page full after through w = (r, w') -> page_outcome full after through w r w'.
Proof.
  unfold push_page. intros [(es & w1 & Hr & Hk)|(e & Hr & ->)]%n_bind_inv;
    destruct (store_read_frame _ _ _ _ _ (reads_ListPage after through 16) Hr) as (F1 & A1 & L1).
  2:{ apply (page_failed _ _ _ _ []); [done|by apply ack_same|done]. }
  specialize (L1 eq_refl). symmetry in L1.
  assert (syncer_ack w1 = syncer_ack w) as Ha by (by apply ack_same).
  assert (syncer_cfg w1 = syncer_cfg w) as Hcfg by apply F1.
  destruct es as [|e0 es0] eqn:Hes.
  { injection Hk as <- <-. by apply page_end. }
  rewrite <- Hes in *. assert (es <> []) as Hne by (by subst). clear Hes e0 es0.
  apply n_bind_inv in Hk as [(s & w2 & [= <- <-] & Hk)|(? & [=] & _)].
  fold (syncer_ack w1) in Hk. fold (syncer_cfg w1) in Hk. rewrite Ha, Hcfg in Hk.
  apply n_bind_inv in Hk as [(cs & w2 & Hc & Hk)|(e & [= Hc <-] & ->)];
    [|by apply (page_failed _ _ _ _ [])].
  injection Hc as Hc <-. destruct cs as [|c0 cs0] eqn:Hcs.
  { injection Hk as <- <-. by apply page_quiet. }
  rewrite <- Hcs in *. assert (cs <> []) as Hcne by (by subst). clear Hcs c0 cs0.
  assert (List.length (map fst cs) <= 16)%nat as Hlen
    by (rewrite List.length_map; by eapply page_changes_bound).
  rewrite <- Hcfg in Hk.
  apply n_bind_inv in Hk as [([] & w2 & Hp & Hk)|(e & Hp & ->)];
    apply (pushBatch_frame _ _ _ _ Hlen) in Hp as (A2 & [[F2 Hok]|(req & x & Hreq & F2 & Hok)]); try done;
    pose proof (frame_trans _ _ _ _ _ F1 F2) as F; rewrite Ha in A2; simpl in F.
  - apply n_bind_inv in Hk as [(u & w3 & [= _ <-] & Hk)|(? & [=] & _)]. injection Hk as <- <-.
    rewrite Hcfg in Hreq. eapply (page_sent _ _ _ _ es cs req x); try done.
    + by destruct F; constructor.
    + change (acknowledge cs (syncer_ack w2) = acknowledge cs (syncer_ack w)). by rewrite A2.
  - by apply (page_failed _ _ _ _ []).
  - apply (page_failed _ _ _ _ [(req, x)]); [done..|]. constructor; [done|constructor].
Qed.

(** ** The loop *)

(** A request of the log that acknowledges [h] for [fp]: an accepted batch with
    an observation of the fingerprint whose encoding has this digest. *)
Definition evidence (cfg : Config) (reqs : list (Request * Exchange)) (fp : string) (h : digest) : Prop :=
  exists req x os o text, (req, x) ∈ reqs /\ accepted_reply x = true /\
    batch_request cfg (batch_of cfg os) = Ok req /\ o ∈ os /\ o_Fingerprint o = fp /\
    observation_json o = Ok text /\ h = Sum256 text.

Lemma evidence_incl cfg reqs reqs' fp h :
  reqs ⊆ reqs' -> evidence cfg reqs fp h -> evidence cfg reqs' fp h.
Proof. intros Hs (req & x & os & o & text & Hin & He). exists req, x, os, o, text. by split; [apply Hs|]. Qed.

Definition ack_step (cfg : Config) (reqs : list (Request * Exchange)) (m m' : gmap string digest) : Prop :=
  forall fp h, m' !! fp = Some h -> m !! fp = Some h \/ evidence cfg reqs fp h.

Lemma page_outcome_frame full after through w r w' :
  page_outcome full after through w r w' ->
  exists reqs, frame reqs w w' /\ ack_step (syncer_cfg w) reqs (syncer_ack w) (syncer_ack w').
Proof.
  destruct 1 as [reqs e w' HF HA _|w' _ HF HA|es w' _ _ _ HF HA|es cs req x w' _ _ Hcs _ Hreq Hx HF HA].
  - exists reqs. split; [done|]. rewrite HA. intros fp h ?. by left.
  - exists []. split; [done|]. rewrite HA. intros fp h ?. by left.
  - exists []. split; [done|]. rewrite HA. intros fp h ?. by left.
  - exists [(req, x)]. split; [done|]. rewrite HA. intros fp h [?|(c & Hc & Hfp & Hh)]%acknowledge_elem; [by left|].
    right. destruct (page_changes_elem _ _ _ _ _ Hcs Hc) as (e & _ & Ho & Hd).
    unfold entry_digest in Hd. destruct (observation_json _) as [text|] eqn:Et; [|done]. injection Hd as Hd.
    exists req, x, (map fst cs), c.1, text. split_and!; [by apply list_elem_of_singleton|done|done| |done| |].
    + by apply list_elem_of_fmap_2.
    + by rewrite Ho.
    + by rewrite <- Hh, <- Hd.
Qed.

Lemma push_pages_frame fuel full after through seen sent w r w' :
  push_pages fuel full after through seen sent w = (r, w') ->
  exists reqs, frame reqs w w' /\ ack_step (syncer_cfg w) reqs (syncer_ack w) (syncer_ack w').
Proof.
  revert after seen sent w. induction fuel as [|fuel IH]; intros after seen sent w.
  { intros [= <- <-]. exists []. split; [apply frame_refl|]. intros fp h ?. by left. }
  cbn [push_pages].
  intros [(u & w1 & Hc & Hk)|(e & Hc & ->)]%n_bind_inv; injection Hc as _ <-.
  2:{ exists []. split; [apply frame_ctx|]. intros fp h ?. by left. }
  set (w1 := upd_ctx _ w) in *.
  assert (frame [] w w1) as F0 by apply frame_ctx.
  apply n_bind_inv in Hk as [(page & w2 & Hp & Hk)|(e & Hp & ->)];
    apply push_page_inv, page_outcome_frame in Hp as (reqs1 & F1 & A1);
    pose proof (frame_trans _ _ _ _ _ F0 F1) as F; simpl in F.
  2:{ by exists reqs1. }
  destruct page as [[es s]|]; [|injection Hk as _ <-; by exists reqs1].
  apply IH in Hk as (reqs2 & F2 & A2). exists (reqs1 ++ reqs2). split; [by eapply frame_trans|].
  assert (syncer_cfg w2 = syncer_cfg w) as Hcfg by apply F1. rewrite Hcfg in A2.
  intros fp h Hh. apply A2 in Hh as [Hh|He]; [apply A1 in Hh as [Hh|He]|].
  - by left.
  - right. eapply evidence_incl; [|exact He]. set_solver.
  - right. eapply evidence_incl; [|exact He]. set_solver.
Qed.

(** What a run over all pages has uploaded when nobody else writes. *)
Record uploaded (full : bool) (d : DB) (fps : list string) (w w' : SyncWorld)
    (es : list (Entry Any)) (cs : list (observation Any * digest))
    (bs : list (list (observation Any))) (reqs : list (Request * Exchange)) : Prop := {
  up_entries : Forall2 (fun fp e => get_entry fp d = Ok e) fps es;
  up_changes : page_changes full (syncer_ack w) es = Ok cs;
  up_batches : concat bs = map fst cs;
  up_bounds : Forall (fun b => b <> [] /\ (List.length b <= 16)%nat) bs;
  up_requests : Forall2 (fun b rx => batch_request (syncer_cfg w) (batch_of (syncer_cfg w) b) = Ok rx.1 /\
                                     accepted_reply rx.2 = true) bs reqs;
  up_frame : frame reqs w w';
  up_ack : syncer_ack w' = acknowledge cs (syncer_ack w)
}.

Lemma uploaded_cons full d fps1 fps2 w0 w w' w2 es1 cs1 bs1 reqs1 es2 cs2 bs2 reqs2 :
  frame [] w0 w -> syncer_ack w = syncer_ack w0 -> NoDup (fps1 ++ fps2) ->
  uploaded full d fps1 w w' es1 cs1 bs1 reqs1 -> uploaded full d fps2 w' w2 es2 cs2 bs2 reqs2 ->
  uploaded full d (fps1 ++ fps2) w0 w2 (es1 ++ es2) (cs1 ++ cs2) (bs1 ++ bs2) (reqs1 ++ reqs2).
Proof.
  intros F0 A0 Hnd [E1 C1 B1 L1 R1 F1 A1] [E2 C2 B2 L2 R2 F2 A2].
  assert (syncer_cfg w = syncer_cfg w0) as G0 by apply F0.
  assert (syncer_cfg w' = syncer_cfg w0) as G1 by (rewrite <- G0; apply F1).
  rewrite G0, A0 in *. rewrite G1, A1 in *. constructor.
  - by apply Forall2_app.
  - apply page_changes_app; [done|]. rewrite <- C2. apply page_changes_ext. intros e He.
    symmetry. apply acknowledge_other. intros c Hc Heq.
    destruct (page_changes_elem _ _ _ _ _ C1 Hc) as (e1 & He1 & Ho & _). rewrite Ho in Heq. simpl in Heq.
    apply NoDup_app in Hnd as (_ & Hnd & _). apply (Hnd (e_Fingerprint e)).
    + rewrite <- (entries_fps _ _ _ E1), <- Heq. by apply list_elem_of_fmap_2.
    + rewrite <- (entries_fps _ _ _ E2). by apply list_elem_of_fmap_2.
  - by rewrite concat_app, B1, B2, map_app.
  - by apply Forall_app.
  - by apply Forall2_app.
  - pose proof (frame_trans _ _ _ _ _ F0 (frame_trans _ _ _ _ _ F1 F2)) as F. exact F.
  - by rewrite A2, acknowledge_app.
Qed.

Definition sent_any (bs : list (list (observation Any))) : bool :=
  match bs with [] => false | _ => true end.

Lemma sent_any_app bs1 bs2 : sent_any (bs1 ++ bs2) = sent_any bs1 || sent_any bs2.
Proof. by destruct bs1. Qed.

Lemma page_outcome_uploaded full after through w r w' :
  page_outcome full after through w (Ok r) w' -> nobody_else w ->
  let d := committed (sw_store w) in
  match r with
  | None => segment after through d = [] /\ uploaded full d [] w w' [] [] [] []
  | Some (es, s) =>
      es <> [] /\ exists cs bs reqs,
        uploaded full d (take 16 (segment after through d)) w w' es cs bs reqs /\ s = sent_any bs
  end.
Proof.
  intros Hout Ho. inversion Hout as [|? Hl HF HA|es ? Hl Hne Hcs HF HA|es cs req x ? Hl Hne Hcs Hcn Hreq Hx HF HA];
    subst; unfold meanwhile in Hl; rewrite (other_commits_quiet _ Ho) in Hl;
    apply list_page_segment in Hl as Hl'; cbv zeta.
  - split; [|by constructor]. apply Forall2_nil_inv_r in Hl'.
    by destruct (segment after through _).
  - split; [done|]. exists [], [], []. split; [|done]. by constructor.
  - split; [done|]. exists cs, [map fst cs], [(req, x)]. split; [|done]. constructor; try done.
    + simpl. by rewrite app_nil_r.
    + constructor; [|constructor]. split; [by destruct cs|].
      apply page_changes_length in Hcs. apply Forall2_length in Hl'. rewrite length_take in Hl'.
      rewrite List.length_map. lia.
    + by constructor.
Qed.

(** ** Termination *)

Lemma push_page_others full after through w r w' :
  push_page full after through w = (r, w') -> sw_others w' = s_tail (sw_others w).
Proof.
  unfold push_page. intros [(es & w1 & Hr & Hk)|(e & Hr & ->)]%n_bind_inv;
    apply (store_call_reads _ _ _ _ _ (reads_ListPage after through 16)) in Hr as (_ & _ & _ & <- & _); [|done].
  destruct es as [|e0 es0]; [by injection Hk as _ <-|].
  apply n_bind_inv in Hk as [(s & w2 & [= <- <-] & Hk)|(? & [=] & _)].
  apply n_bind_inv in Hk as [(cs & w2 & [= Hc <-] & Hk)|(e & [= Hc <-] & ->)]; [|done].
  destruct cs as [|c cs]; [by injection Hk as _ <-|].
  apply n_bind_inv in Hk as [([] & w2 & Hp & Hk)|(e & Hp & ->)];
    apply pushBatch_inv in Hp as [[(_ & _ & _ & Hs & _) _]|(req & x & _ & (_ & _ & _ & Hs & _) & _)];
    [..|done|done]; by injection Hk as _ <-.
Qed.

(** Up to [through], no fingerprint but those of [T] is stored. *)
Definition confined (through : string) (T : gset string) (d : DB) : Prop :=
  forall fp, is_Some (db_fps d !! fp) -> fp ∈ T \/ str_lt through fp.

(** ... now and whatever the others go on to commit. *)
Definition stays_confined (through : string) (T : gset string) (w : SyncWorld) : Prop :=
  confined through T (committed (sw_store w)) /\
  forall n d, confined through T d -> confined through T (sw_others w n d).

(** ... as when they add, up to [through], fingerprints of [T] only. *)
Lemma orderly_confined through (T : gset string) w :
  (forall n d fp, is_Some (db_fps (sw_others w n d) !! fp) ->
     is_Some (db_fps d !! fp) \/ fp ∈ T \/ str_lt through fp) ->
  stays_confined through (dom (db_fps (committed (sw_store w))) ∪ T) w.
Proof.
  intros Ho. split.
  - intros fp Hfp. left. apply elem_of_union. left. by apply elem_of_dom.
  - intros n d Hd fp [Hfp|[Hfp|Hfp]]%Ho; [by apply Hd| |by right]. left. set_solver.
Qed.

(** What is left to visit of [T]. *)
Definition ahead (after through : string) (T : gset string) : gset string :=
  filter (fun fp => str_lt after fp /\ ~ str_lt through fp) T.

Lemma push_page_confined full after through T w r w' :
  push_page full after through w = (r, w') -> stays_confined through T w -> stays_confined through T w'.
Proof.
  intros Hp [Hc Ho]. pose proof (push_page_others _ _ _ _ _ _ Hp) as Ho'.
  apply push_page_inv, page_outcome_frame in Hp as (reqs & [_ _ _ _ _ _ _ _ _ [used [_ Hd]]] & _).
  split.
  - rewrite Hd. by apply db_after_invariant.
  - intros n. rewrite Ho'. apply (Ho (S n)).
Qed.

(** A page that is not the last ends at a fingerprint of [T] not visited before. *)
Lemma push_page_progress full after through T w es s w' :
  push_page full after through w = (Ok (Some (es, s)), w') -> stays_confined through T w ->
  (size (ahead (last_fp after es) through T) < size (ahead after through T))%nat.
Proof.
  intros Hp%push_page_inv [Hc Ho].
  assert (list_page after through 16 (meanwhile w) = Ok es /\ es <> []) as [Hl Hne] by (inversion Hp; by subst).
  pose proof (list_page_segment _ _ _ _ Hl) as Hf. apply entries_fps in Hf.
  destruct (last es) as [el|] eqn:El; [|by apply last_None in El].
  assert (last_fp after es = e_Fingerprint el) as -> by (unfold last_fp; by rewrite El).
  assert (e_Fingerprint el ∈ segment after through (meanwhile w)) as (Hin & Hlt & Hle)%elem_of_segment.
  { apply (elem_of_take_drop 16). left. rewrite <- Hf. apply last_Some_elem_of in El. by apply list_elem_of_fmap_2. }
  assert (e_Fingerprint el ∈ T) as HT.
  { apply (Ho 0%nat _ Hc) in Hin as [?|?]; [done|by destruct Hle]. }
  apply subset_size. split.
  - intros x. unfold ahead. rewrite !elem_of_filter. intros [[Hx ?] ?]. split_and!; [|done..].
    by eapply str_lt_trans.
  - intros Hsub. assert (e_Fingerprint el ∈ ahead (e_Fingerprint el) through T) as Hx.
    { apply Hsub. unfold ahead. by rewrite elem_of_filter. }
    unfold ahead in Hx. rewrite elem_of_filter in Hx. destruct Hx as [[Hx _] _]. by apply str_lt_irrefl in Hx.
Qed.

(** The loop, its fuel taken away: [n] suffices from here. *)
Definition enough (full : bool) (n : nat) (after through : string) (seen : gset string) (sent : bool)
    (w : SyncWorld) : Prop :=
  (push_pages n full after through seen sent w).1 <> Ok None /\
  forall fuel, (n <= fuel)%nat ->
    push_pages fuel full after through seen sent w = push_pages n full after through seen sent w.

Lemma enough_mono full n m after through seen sent w :
  (n <= m)%nat -> enough full n after through seen sent w -> enough full m after through seen sent w.
Proof.
  intros Hnm [H1 H2]. split; [by rewrite H2 by lia|]. intros fuel Hm. by rewrite (H2 m), H2 by lia.
Qed.

Lemma enough_step full n after through seen sent w :
  (forall es s w', push_page full after through (upd_ctx (drop 1 (sw_ctx w)) w) = (Ok (Some (es, s)), w') ->
     enough full n (last_fp after es) through (list_to_set (map e_Fingerprint es) ∪ seen) (s || sent) w') ->
  enough full (S n) after through seen sent w.
Proof.
  intros Hnext. set (w1 := upd_ctx (drop 1 (sw_ctx w)) w) in *.
  destruct (default false (head (sw_ctx w))) eqn:Ec.
  { split; [|intros [|fuel] ?; [lia|]]; cbn [push_pages]; unfold mbind, SyncM_bind, ctx_Err;
      by rewrite Ec. }
  assert (forall fuel, push_pages (S fuel) full after through seen sent w =
    match push_page full after through w1 with
    | (Ok (Some (es, s)), w2) => push_pages fuel full (last_fp after es) through
        (list_to_set (map e_Fingerprint es) ∪ seen) (s || sent) w2
    | (Ok None, w2) => (Ok (Some (seen, sent)), w2)
    | (Err e, w2) => (Err e, w2)
    end) as Hs.
  { intros fuel. cbn [push_pages]. unfold mbind, SyncM_bind, ctx_Err. rewrite Ec. fold w1.
    by destruct (push_page full after through w1) as [[[[es s]|]|e] w2]. }
  destruct (push_page full after through w1) as [[[[es s]|]|e] w2] eqn:E.
  - destruct (Hnext es s w2 eq_refl) as [Hn1 Hn2]. split; [by rewrite Hs|].
    intros [|fuel] ?; [lia|]. rewrite !Hs. apply Hn2. lia.
  - split; [by rewrite Hs|]. intros [|fuel] ?; [lia|]. by rewrite !Hs.
  - split; [by rewrite Hs|]. intros [|fuel] ?; [lia|]. by rewrite !Hs.
Qed.

(** One turn per fingerprint of [T] still ahead, and one to find no more. *)
Lemma push_pages_terminates full after through seen sent T w :
  stays_confined through T w ->
  enough full (S (size (ahead after through T))) after through seen sent w.
Proof.
  remember (size (ahead after through T)) as m eqn:Hm. revert after seen sent w Hm.
  induction (lt_wf m) as [m _ IH]. intros after seen sent w -> Hc.
  apply enough_step. intros es s w' Hp.
  pose proof (push_page_progress _ _ _ _ _ _ _ _ Hp Hc) as Hlt.
  eapply enough_mono; [|eapply IH; [exact Hlt|done|by eapply push_page_confined]]. lia.
Qed.

Lemma push_pages_ok fuel full after through seen sent w seen' sent' w' :
  push_pages fuel full after through seen sent w = (Ok (Some (seen', sent')), w') -> nobody_else w ->
  let d := committed (sw_store w) in
  exists es cs bs reqs, uploaded full d (segment after through d) w w' es cs bs reqs /\
    seen' = list_to_set (segment after through d) ∪ seen /\ sent' = sent_any bs || sent.
Proof.
  revert after seen sent w. induction fuel as [|fuel IH]; intros after seen sent w; [done|].
  cbn [push_pages]. intros (u & w1 & Hc & Hk)%n_bind_ok Ho. injection Hc as _ <-.
  set (w1 := upd_ctx _ w) in *.
  assert (frame [] w w1) as F0 by apply frame_ctx.
  apply n_bind_ok in Hk as (page & w2 & Hp & Hk).
  apply push_page_inv, page_outcome_uploaded in Hp; [|done]. cbv zeta in *.
  change (sw_store w1) with (sw_store w) in Hp. set (d := committed (sw_store w)) in *.
  destruct page as [[es s]|].
  - destruct Hp as (Hne & cs & bs & reqs & Hup & ->).
    destruct (up_frame _ _ _ _ _ _ _ _ _ Hup) as [_ _ _ _ _ _ _ _ _ [used HO]].
    destruct (others_ran_quiet _ _ _ HO Ho) as [Ho2 Hd2].
    apply IH in Hk; [|done]. rewrite Hd2 in Hk. change (committed (sw_store w1)) with d in Hk.
    assert (map e_Fingerprint es = take 16 (segment after through d)) as Hfps
      by apply (entries_fps _ _ _ (up_entries _ _ _ _ _ _ _ _ _ Hup)).
    destruct (last es) as [el|] eqn:El; [|by apply last_None in El].
    assert (last_fp after es = e_Fingerprint el) as Hlast by (unfold last_fp; by rewrite El).
    assert (segment (last_fp after es) through d = drop 16 (segment after through d)) as Hseg.
    { apply segment_next. rewrite <- Hfps, fmap_last, El. by rewrite Hlast. }
    rewrite Hseg in Hk. destruct Hk as (es2 & cs2 & bs2 & reqs2 & Hup2 & -> & ->).
    exists (es ++ es2), (cs ++ cs2), (bs ++ bs2), (reqs ++ reqs2). split_and!.
    + rewrite <- (take_drop 16 (segment after through d)). eapply uploaded_cons; try done.
      rewrite take_drop. apply (ssorted_NoDup str_lt), segment_sorted.
    + rewrite Hfps, (assoc_L (∪)), <- list_to_set_app_L.
      f_equal. rewrite <- (take_drop 16 (segment after through d)) at 3.
      rewrite !list_to_set_app_L. by rewrite (comm_L (∪)).
    + rewrite sent_any_app. by destruct (sent_any bs), (sent_any bs2), sent.
  - injection Hk as <- <- <-. destruct Hp as [-> Hup]. exists [], [], [], []. split_and!.
    + destruct Hup as [E C B L R F A]. constructor; try done. exact (frame_trans [] [] _ _ _ F0 F).
    + by rewrite list_to_set_nil, (left_id_L ∅ (∪)).
    + done.
Qed.

(** ** A whole push *)

(** The heartbeat of a push that had nothing to send. *)
Definition heartbeat (sent : bool) (reqs : list (Request * Exchange)) (w w' : SyncWorld) : Prop :=
  if sent then reqs = [] /\ w' = w
  else exists req x, reqs = [(req, x)] /\ accepted_reply x = true /\
         batch_request (syncer_cfg w) (batch_of (Any := Any) (syncer_cfg w) []) = Ok req.

(** The Syncer after a successful push. *)
Definition finish_push (full : bool) (started : instant) (seen : gset string) (w : SyncWorld) : SyncWorld :=
  upd_syncer (fun s =>
    let s := set_acknowledged (Some (filter (fun kv => kv.1 ∈ seen) (ack_map s))) s in
    if full then set_lastFullSync started s else s) w.

Lemma pushObservations_inv fuel w r w' :
  pushObservations fuel w = (r, w') ->
  let started := clock (sw_store w) in
  let full := full_due started (sy_lastFullSync (sw_syncer w)) in
  (is_ok r = false /\ exists reqs, frame reqs w w' /\
     ack_step (syncer_cfg w) reqs (syncer_ack w) (syncer_ack w')) \/
  (r = Ok tt /\ exists w1 w2 w3 seen sent reqs1 reqs2,
     frame [] w w1 /\ syncer_ack w1 = syncer_ack w /\
     push_pages fuel full "" (max_fp (meanwhile w)) ∅ false w1 = (Ok (Some (seen, sent)), w2) /\
     frame reqs1 w w2 /\ ack_step (syncer_cfg w) reqs1 (syncer_ack w) (syncer_ack w2) /\
     heartbeat sent reqs2 w2 w3 /\ frame reqs2 w2 w3 /\ syncer_ack w3 = syncer_ack w2 /\
     w' = finish_push full started seen w3).
Proof.
  unfold pushObservations. intros [(t & w0 & [= <- <-] & Hk)|(? & [=] & _)]%n_bind_inv.
  apply n_bind_inv in Hk as [(s & w0 & [= <- <-] & Hk)|(? & [=] & _)].
  set (full := full_due _ _) in *. cbv zeta.
  apply n_bind_inv in Hk as [(u & w0 & [= _ <-] & Hk)|(? & [=] & _)].
  set (w0 := upd_syncer _ w) in *.
  assert (frame [] w w0) as F0 by (constructor; try done; [by rewrite app_nil_r|by exists 0%nat]).
  apply n_bind_inv in Hk as [(through & w1 & Hl & Hk)|(e & Hl & ->)];
    destruct (store_read_frame _ _ _ _ _ reads_LastFingerprint Hl) as (F1 & A1 & L1);
    pose proof (frame_trans _ _ _ _ _ F0 F1) as F; simpl in F; apply ack_same in A1.
  2:{ left. split; [done|]. exists []. split; [done|]. rewrite A1. intros fp h ?. by left. }
  injection (L1 eq_refl) as ->. change (meanwhile w0) with (meanwhile w) in Hk.
  apply n_bind_inv in Hk as [(pages & w2 & Hp & Hk)|(e & Hp & ->)];
    pose proof Hp as Hpages; apply push_pages_frame in Hp as (reqs1 & F2 & A2);
    rewrite A1, (fm_cfg _ _ _ F) in A2;
    pose proof (frame_trans _ _ _ _ _ F F2) as F'; simpl in F'.
  2:{ left. split; [done|]. by exists reqs1. }
  apply n_bind_inv in Hk as [(rr & w2' & Hlift & Hk)|(e & Hlift & ->)]; injection Hlift as Hlift <-.
  2:{ left. split; [done|]. by exists reqs1. }
  destruct pages as [[seen sent]|]; [|done]. injection Hlift as <-. cbn [fst snd] in Hk.
  change (sy_cfg (sw_syncer w)) with (syncer_cfg w) in Hk.
  change {| ob_InstanceID := InstanceID (syncer_cfg w); ob_Observations := [] |}
    with (batch_of (Any := Any) (syncer_cfg w) []) in Hk.
  assert (syncer_cfg w2 = syncer_cfg w) as Hcfg by apply F'.
  assert (forall w3 v, (modify_syncer (fun s => set_acknowledged (Some (filter (fun kv => kv.1 ∈ seen) (ack_map s))) s) ;;
    (if full then modify_syncer (set_lastFullSync (clock (sw_store w))) else mret tt)) w3 = v ->
    v = (Ok tt, finish_push full (clock (sw_store w)) seen w3)) as Hfin.
  { intros w3 v <-. unfold finish_push. by destruct full. }
  destruct sent.
  - apply Hfin in Hk as [= -> ->]. right. split; [done|].
    exists w1, w2, w2, seen, true, reqs1, []. split_and!; try done. apply frame_refl.
  - apply n_bind_inv in Hk as [([] & w3 & Hb & Hk)|(e & Hb & ->)]; rewrite <- Hcfg in Hb;
      apply pushBatch_frame in Hb as (A3 & [[F3 Hok]|(req & x & Hreq & F3 & Hok)]); simpl; try lia; try done.
    + apply Hfin in Hk as [= -> ->]. right. split; [done|].
      exists w1, w2, w3, seen, false, reqs1, [(req, x)]. split_and!; try done. by exists req, x.
    + left. split; [done|]. exists reqs1. rewrite A3. split; [|done].
      pose proof (frame_trans _ _ _ _ _ F' F3) as F''. by rewrite app_nil_r in F''.
    + left. split; [done|]. exists (reqs1 ++ [(req, x)]). rewrite A3. split; [by eapply frame_trans|].
      intros fp h Hh. apply A2 in Hh as [Hh|He]; [by left|right]. eapply evidence_incl; [|exact He].
      set_solver.
Qed.
End running.

(** ** Pulling *)

Lemma store_call_atomic {A} (m : M A) F w r w' :
  atomic m F -> store_call m w = (r, w') -> working (sw_store w) = None ->
  sw_syncer w' = sw_syncer w /\ sw_log w' = sw_log w /\ sw_trusted w' = sw_trusted w /\
  working (sw_store w') = None /\ sw_others w' = s_tail (sw_others w) /\
  (forall a, r = Ok a -> F (clock (sw_store w)) (meanwhile w) = Ok (a, committed (sw_store w'))) /\
  (is_ok r = false -> committed (sw_store w') = meanwhile w).
Proof.
  intros [Hm Ha]. unfold store_call. destruct (m (other_commits w)) as [r1 s] eqn:E. intros [= <- <-] Hw.
  assert (working (other_commits w) = None) as Hw' by done.
  assert (clock (other_commits w) = clock (sw_store w)) as Hc by done.
  destruct (Hm _ _ _ Hw' E) as (H1 & H2 & H3 & _). rewrite Hc in H3.
  split_and!; [done..|]. intros Hr. by apply (Ha _ _ _ Hw' E).
Qed.

Section pulling.
Context `{JSONCodec Any}.

(** The trusted ranges after a policy has been applied. *)
Definition new_trusted (cfg : Config) (p : policyResponse) (old : list string) : list string :=
  match pr_TrustedRanges p with
  | Some ranges => if ApplyTrustedRanges cfg then ranges else old
  | None => old
  end.

Definition new_cursor (p : policyResponse) (old : string) : string :=
  if str_empty (pr_Cursor p) then old else pr_Cursor p.

(** What a policy does to the Syncer and the database it finds. *)
Definition policy_applied (p : policyResponse) (w w' : SyncWorld) : Prop :=
  let s := sw_syncer w in
  apply_decisions (Any := Any) (pr_Decisions p) (sy_cursorKey s) (pr_Cursor p) (clock (sw_store w)) (meanwhile w) =
    Ok (tt, committed (sw_store w')) /\
  sw_trusted w' = new_trusted (sy_cfg s) p (sw_trusted w) /\
  sw_syncer w' = set_cursor (new_cursor p (sy_cursor s)) s.

(** Nothing of it, except that the trusted ranges of a valid policy may have
    been replaced before the store refused its decisions. *)
Definition policy_refused (p : policyResponse) (w w' : SyncWorld) : Prop :=
  (committed (sw_store w') = committed (sw_store w) \/ committed (sw_store w') = meanwhile w) /\
  (sw_trusted w' = sw_trusted w \/
   (check_policy (sy_cfg (sw_syncer w)) (pr_Decisions p) = Ok tt /\
    sw_trusted w' = new_trusted (sy_cfg (sw_syncer w)) p (sw_trusted w))) /\
  sw_syncer w' = sw_syncer w.

(** Other goroutines got at most one turn. *)
Definition others_left (w w' : SyncWorld) : Prop :=
  sw_others w' = sw_others w \/ sw_others w' = s_tail (sw_others w).

Lemma apply_policy_inv p w r w' :
  working (sw_store w) = None -> apply_policy (Any := Any) (sw_syncer w) p w = (r, w') ->
  sw_log w' = sw_log w /\ working (sw_store w') = None /\ others_left w w' /\
  (if is_ok r then check_policy (sy_cfg (sw_syncer w)) (pr_Decisions p) = Ok tt /\ policy_applied p w w'
   else policy_refused p w w').
Proof.
  intros Hw. unfold apply_policy.
  intros [([] & w1 & Hc & Hk)|(e & Hc & ->)]%n_bind_inv; injection Hc as Hc <-.
  2:{ split_and!; [done..|by left|]. split_and!; auto. }
  apply n_bind_inv in Hk as [([] & w2 & Ht & Hk)|(e & Ht & ->)].
  - assert (sw_syncer w2 = sw_syncer w /\ sw_store w2 = sw_store w /\ sw_others w2 = sw_others w /\
      sw_log w2 = sw_log w /\ sw_trusted w2 = new_trusted (sy_cfg (sw_syncer w)) p (sw_trusted w))
      as (T1 & T2 & T3 & T4 & T5).
    { unfold new_trusted. destruct (pr_TrustedRanges p) as [ranges|]; [|by injection Ht as <-].
      destruct (ApplyTrustedRanges _); [|by injection Ht as <-].
      unfold wrap_policy_error, apply_trusted in Ht. destruct (default None _); [done|]. by injection Ht as <-. }
    assert (meanwhile w2 = meanwhile w) as Hm by (unfold meanwhile, other_commits; by rewrite T2, T3).
    apply n_bind_inv in Hk as [([] & w3 & Ha & Hk)|(e & Ha & ->)]; unfold wrap_policy_error in Ha;
      destruct (store_call _ w2) as [ra w4] eqn:Es;
      destruct (store_call_atomic _ _ _ _ _ (ApplyDecisions_atomic (Any := Any) _ _ _) Es) as (S1 & S2 & S3 & S4 & S0 & S5 & S6);
      try congruence.
    + destruct ra as [[]|]; [|done]. injection Ha as <-. specialize (S5 tt eq_refl). rewrite T2, Hm in S5.
      unfold policy_applied, new_cursor. destruct (str_empty (pr_Cursor p)) eqn:Ec; injection Hk as <- <-; simpl.
      * split_and!; [congruence|done|right; simpl; congruence|done|done|congruence|].
        rewrite S1, T1. by destruct (sw_syncer w).
      * split_and!; [congruence|done|right; simpl; congruence|done|done|congruence|]. by rewrite S1, T1.
    + destruct ra as [|e']; [done|]. injection Ha as _ <-. split_and!; [congruence|done|right; congruence|].
      split_and!; [right; by rewrite S6|right; split; [done|congruence]|congruence].
  - destruct (pr_TrustedRanges p) as [ranges|]; [|done]. destruct (ApplyTrustedRanges _); [|done].
    unfold wrap_policy_error, apply_trusted in Ht. destruct (default None _); [|done]. injection Ht as _ <-.
    split_and!; [done..|by left|]. split_and!; auto.
Qed.

(** The replies a pull goes on with. *)
Definition policy_reply (x : Exchange) : option policyResponse :=
  match x with
  | Reply status _ (Some p) _ => if Z.quot status 100 =? 2 then Some p else None
  | _ => None
  end.

(** What a pull can come to. *)
Inductive pull_outcome (w : SyncWorld) : result unit -> SyncWorld -> Prop :=
  | pull_nothing reqs e w' :
      Forall (fun rx => Ok rx.1 = policy_request (syncer_cfg w) (sy_cursor (sw_syncer w)) /\
                        policy_reply rx.2 = None) reqs -> (List.length reqs <= 1)%nat ->
      sw_log w' = sw_log w ++ reqs -> sw_store w' = sw_store w -> sw_trusted w' = sw_trusted w ->
      sw_syncer w' = sw_syncer w -> others_left w w' ->
      pull_outcome w (Err e) w'
  | pull_policy req x p r w' :
      policy_request (syncer_cfg w) (sy_cursor (sw_syncer w)) = Ok req -> policy_reply x = Some p ->
      sw_log w' = sw_log w ++ [(req, x)] -> working (sw_store w') = None -> others_left w w' ->
      (is_ok r = accepted_reply x /\ check_policy (syncer_cfg w) (pr_Decisions p) = Ok tt /\
         policy_applied p w w') \/ (is_ok r = false /\ policy_refused p w w') ->
      pull_outcome w r w'.

Lemma policy_applied_same p w1 w2 w' :
  sw_syncer w2 = sw_syncer w1 -> sw_store w2 = sw_store w1 -> sw_others w2 = sw_others w1 ->
  sw_trusted w2 = sw_trusted w1 ->
  (policy_applied p w2 w' -> policy_applied p w1 w') /\ (policy_refused p w2 w' -> policy_refused p w1 w').
Proof.
  intros E1 E2 E3 E4. unfold policy_applied, policy_refused.
  assert (meanwhile w2 = meanwhile w1) as -> by (unfold meanwhile, other_commits; by rewrite E2, E3).
  by rewrite E1, E2, E4.
Qed.

Lemma pull_nothing_one req x w e w' :
  policy_request (syncer_cfg w) (sy_cursor (sw_syncer w)) = Ok req -> policy_reply x = None ->
  only_sends [(req, x)] w w' -> pull_outcome w (Err e) w'.
Proof.
  intros Hreq Hx (A1 & A2 & A3 & A4 & A5). apply (pull_nothing _ [(req, x)]); try done.
  - by constructor.
  - by left.
Qed.

Lemma join_result_err {A} e o : exists e', join_result (Err e : result A) o = Err e'.
Proof. destruct o; eauto. Qed.

Lemma join_result_throw {A} e o (r : result A) (w w' : SyncWorld) :
  (let '(r0, w0) := n_throw e w in (join_result r0 o, w0)) = (r, w') ->
  (exists e', r = Err e') /\ w' = w.
Proof. intros [= <- <-]. split; [apply join_result_err|done]. Qed.

Lemma pullPolicy_inv w r w' :
  working (sw_store w) = None -> pullPolicy (Any := Any) w = (r, w') -> pull_outcome w r w'.
Proof.
  intros Hw. unfold pullPolicy. intros [(s & w0 & [= <- <-] & Hk)|(? & [=] & _)]%n_bind_inv.
  apply n_bind_inv in Hk as [(req & w1 & [= Hreq <-] & Hk)|(e & [= Hreq <-] & ->)].
  2:{ apply (pull_nothing _ []); rewrite ?app_nil_r; try done; [simpl; lia|by left]. }
  apply n_bind_inv in Hk as [(resp & w2 & Hdo & Hk)|(e & Hdo & ->)];
    apply client_Do_inv in Hdo as (x & A1 & A2 & A3 & A4 & A5 & Hx).
  2:{ eapply (pull_nothing_one req x); [done| |by unfold only_sends]. by destruct x. }
  destruct x as [|status text body closed]; [done|]. injection Hx as ->.
  unfold cp_closeWithError, check_status in Hk. set (c := closeError _ _) in Hk.
  assert (only_sends [(req, Reply status text body closed)] w w2) as Hs by done.
  destruct (status =? 403) eqn:E4.
  { apply Z.eqb_eq in E4. apply join_result_throw in Hk as [[e' ->] ->].
    eapply pull_nothing_one; [done| |done]. simpl. rewrite E4. by destruct body. }
  destruct (Z.quot status 100 =? 2) eqn:E2; simpl in Hk.
  2:{ apply join_result_throw in Hk as [[e' ->] ->].
      eapply pull_nothing_one; [done| |done]. simpl. rewrite E2. by destruct body. }
  destruct body as [p|].
  2:{ apply join_result_throw in Hk as [[e' ->] ->]. by eapply (pull_nothing_one _ _ _ _ _ Hreq); [|exact Hs]. }
  change ((n_lift (decoded (Some p)) ≫= λ policy, apply_policy (sw_syncer w) policy) w2)
    with (apply_policy (Any := Any) (sw_syncer w) p w2) in Hk.
  rewrite <- A2 in Hk. destruct (apply_policy _ p w2) as [ra w3] eqn:Ea. injection Hk as <- <-.
  apply apply_policy_inv in Ea as (B1 & B2 & B0 & B3); [|by rewrite A3].
  destruct (policy_applied_same p w w2 w3 A2 A3 A4 A5) as [Hap Hre].
  apply (pull_policy _ req (Reply status text (Some p) closed) p); simpl; [done|by rewrite E2|congruence|done| |].
  { unfold others_left in *. by rewrite A4 in B0. }
  destruct ra as [[]|e]; simpl in B3.
  - destruct B3 as [B3 B4]. left. rewrite A2 in B3. split_and!; [|done|by apply Hap].
    subst c. destruct closed; [done|]. by rewrite E2.
  - right. destruct (join_result_err (A := ()) e c) as [e' ->]. split; [done|by apply Hre].
Qed.
End pulling.
