(* ===== verification/NoPanic.v ===== *)
(** No step of a synchronisation panics: the errors the code builds, on every
    path of a push and of a pull, are errors.  With it the loop of Run, which logs
    errors and would be torn down by a panic, is shown never to stop. *)

From S2P Require Import Prelude GoStrings GoTime Netip Json JsonText GoDuration Sha256 GoUrl Approval Database Tables Store Writes ControlPlane SyncRun.
From Stdlib Require Import Ascii String.
From stdpp Require Import strings gmap sorting.
#[local] Open Scope stdpp_scope.
#[local] Open Scope Z_scope.

(** ** Outcomes that are not panics *)

Definition calm {A} (r : result A) : Prop := forall msg, r <> Err (ErrPanic msg).

Lemma calm_ok {A} (a : A) : calm (Ok a).
Proof. done. Qed.

Lemma calm_bind {A B} (r : result A) (f : A -> result B) :
  calm r -> (forall a, calm (f a)) -> calm (r ≫= f).
Proof. intros Hr Hf. destruct r as [a|e]; [apply Hf|]. intros msg [= ->]. by apply (Hr msg). Qed.

Lemma calm_err {A B} (r : result A) e : r = Err e -> calm r -> calm (Err e : result B).
Proof. intros -> Hr msg [= ->]. by apply (Hr msg). Qed.

Lemma calm_join {A} (r : result A) o :
  calm r -> (forall msg, o <> Some (ErrPanic msg)) -> calm (join_result r o).
Proof.
  intros Hr Ho. destruct r as [a|e], o as [e'|]; simpl; try done.
  intros msg [= ->]. by apply (Ho msg).
Qed.

Lemma closeError_calm context r msg : closeError context r <> Some (ErrPanic msg).
Proof. by destruct r. Qed.

Create HintDb calm.
#[export] Hint Resolve calm_ok calm_join closeError_calm : calm.

(** Goes through the cases of a pure function, given the calls it makes. *)
Ltac calm_cases :=
  repeat first
    [ match goal with |- forall _, _ => intro end
    | solve [auto with calm]
    | apply calm_bind
    | match goal with
      | E : ?r = Err ?e |- calm (Err ?e) => apply (calm_err r); [exact E|]
      | |- calm (Err (_ _)) => intros ? ?; discriminate
      | |- calm (Err _) => intros ? ?; discriminate
      end
    | case_match ].

(** ** The pure functions *)

Lemma or_err_calm {A} (o : option A) e : (forall msg, e <> ErrPanic msg) -> calm (or_err o e).
Proof. intros He. destruct o; [done|]. intros msg [= ->]. by apply (He msg). Qed.

Lemma err_escape_calm msg : err_escape <> ErrPanic msg.
Proof. done. Qed.

#[export] Hint Resolve or_err_calm err_escape_calm : calm.

Lemma finish_url_calm scheme query force user host path omit :
  calm (finish_url scheme query force user host path omit).
Proof. unfold finish_url, setPath. calm_cases. Qed.

Lemma parseHost_calm scheme host : calm (parseHost scheme host).
Proof. unfold parseHost, parse_bracketed. calm_cases. Qed.

Lemma parse_user_calm userinfo : calm (parse_user userinfo).
Proof. unfold parse_user. calm_cases. Qed.

#[export] Hint Resolve finish_url_calm parseHost_calm parse_user_calm : calm.

Lemma parseAuthority_calm scheme authority : calm (parseAuthority scheme authority).
Proof. unfold parseAuthority. calm_cases. Qed.

Lemma getScheme_calm s : calm (getScheme s).
Proof. unfold getScheme. calm_cases. Qed.

#[export] Hint Resolve parseAuthority_calm getScheme_calm : calm.

Lemma Parse_calm s : calm (Parse s).
Proof. unfold Parse, url_parse. calm_cases. Qed.

Lemma endpointURL_calm base path inst since : calm (endpointURL base path inst since).
Proof. unfold endpointURL. apply calm_bind; [apply Parse_calm|]. calm_cases. Qed.

Lemma new_request_calm m url h body : calm (new_request m url h body).
Proof. unfold new_request. apply calm_bind; [apply Parse_calm|]. calm_cases. Qed.

#[export] Hint Resolve endpointURL_calm new_request_calm : calm.

Lemma decodeTime_calm s : calm (decodeTime s).
Proof. unfold decodeTime. calm_cases. Qed.

Lemma Scope_Validate_calm s msg : Scope_Validate s <> Some (ErrPanic msg).
Proof. unfold Scope_Validate. by repeat case_match. Qed.

Lemma Decision_Validate_calm d msg : Decision_Validate d <> Some (ErrPanic msg).
Proof. unfold Decision_Validate. repeat case_match; try done. apply Scope_Validate_calm. Qed.

Lemma collect_prefixes_calm seen ranges : calm (collect_prefixes seen ranges).
Proof. revert seen. induction ranges; intros seen; simpl; calm_cases. Qed.

#[export] Hint Resolve decodeTime_calm collect_prefixes_calm : calm.

Lemma approval_New_calm ranges : calm (approval_New ranges).
Proof. unfold approval_New. calm_cases. Qed.

#[export] Hint Resolve approval_New_calm : calm.

Section pure.
Context `{JSONCodec Any}.

Lemma Scope_MarshalJSON_calm s : calm (Scope_MarshalJSON s).
Proof.
  unfold Scope_MarshalJSON. destruct (Scope_Validate s) eqn:E; [|done].
  intros msg [= ->]. by apply (Scope_Validate_calm s msg).
Qed.

Lemma Scope_UnmarshalJSON_calm text : calm (Scope_UnmarshalJSON text).
Proof. unfold Scope_UnmarshalJSON. calm_cases. Qed.

#[local] Hint Resolve Scope_MarshalJSON_calm Scope_UnmarshalJSON_calm : calm.

Lemma wrap_error_calm {A} context (r : result A) : calm (wrap_error context r).
Proof. unfold wrap_error. by destruct r. Qed.

#[local] Hint Resolve wrap_error_calm : calm.

Lemma scan_ranges_calm status text : calm (scan_ranges status text).
Proof. unfold scan_ranges. calm_cases. Qed.

Lemma scan_meta_calm text : calm (scan_meta (Any := Any) text).
Proof. unfold scan_meta. calm_cases. Qed.

#[local] Hint Resolve scan_ranges_calm scan_meta_calm : calm.

Lemma scanEntry_calm row : calm (scanEntry (Any := Any) row).
Proof. unfold scanEntry. calm_cases. Qed.

Lemma scan_all_calm {R A} (scan : R -> result A) rows :
  (forall r, calm (scan r)) -> calm (scan_all scan rows).
Proof. intros Hs. induction rows; simpl; calm_cases. Qed.

Lemma scan_sighting_calm r : calm (scan_sighting r).
Proof. unfold scan_sighting. calm_cases. Qed.

Lemma encode_decisions_calm ds : calm (encode_decisions (Any := Any) ds).
Proof.
  induction ds as [|d ds IH]; cbn [encode_decisions]; [done|].
  destruct (Decision_Validate d) eqn:E; [|calm_cases].
  intros msg [= ->]. by apply (Decision_Validate_calm d msg).
Qed.

Lemma observation_json_calm (o : observation Any) : calm (observation_json o).
Proof. unfold observation_json, scope_json, metadata_json. calm_cases. Qed.

#[local] Hint Resolve observation_json_calm : calm.

Lemma batch_json_calm (b : observationBatch Any) : calm (batch_json b).
Proof.
  unfold batch_json. apply calm_bind; [|calm_cases]. induction (ob_Observations b); simpl; calm_cases.
Qed.

#[local] Hint Resolve batch_json_calm : calm.

Lemma batch_request_calm cfg (b : observationBatch Any) : calm (batch_request cfg b).
Proof. unfold batch_request. calm_cases. Qed.

Lemma policy_request_calm cfg cursor : calm (policy_request cfg cursor).
Proof. unfold policy_request. calm_cases. Qed.

Lemma check_policy_calm cfg ds : calm (check_policy cfg ds).
Proof. induction ds; simpl; calm_cases. Qed.

Lemma page_changes_calm full m (es : list (Entry Any)) : calm (page_changes full m es).
Proof. induction es; cbn [page_changes]; unfold entry_changes; calm_cases. Qed.
End pure.

#[export] Hint Resolve scanEntry_calm scan_all_calm scan_sighting_calm encode_decisions_calm
  batch_request_calm policy_request_calm check_policy_calm page_changes_calm : calm.

(** ** The store's methods *)

Definition calm_m {A} (m : M A) : Prop := forall w, calm (m w).1.

Lemma calm_m_bind {A B} (m : M A) (f : A -> M B) :
  calm_m m -> (forall a, calm_m (f a)) -> calm_m (m ≫= f).
Proof.
  intros Hm Hf w. unfold mbind, M_bind. specialize (Hm w). destruct (m w) as [[a|e] w']; [apply Hf|].
  by eapply calm_err.
Qed.

Lemma lift_calm {A} (r : result A) : calm r -> calm_m (lift r).
Proof. by intros Hr w. Qed.

Lemma mret_calm {A} (a : A) : calm_m (mret a).
Proof. by intros w. Qed.

Lemma poll_calm : calm_m poll.
Proof. intros w. unfold poll. by destruct (script w) as [|[]]. Qed.

Lemma snapshot_calm q : calm_m (snapshot q).
Proof. intros w. unfold snapshot. destruct q; [|done]. by destruct (working w). Qed.

Lemma closeWithError_calm {A} context close (m : M A) : calm_m m -> calm_m (closeWithError context close m).
Proof.
  intros Hm w. unfold closeWithError. specialize (Hm w). destruct (m w) as [r w1], (close w1) as [c w2].
  apply calm_join; [done|apply closeError_calm].
Qed.

#[export] Hint Resolve lift_calm mret_calm poll_calm snapshot_calm closeWithError_calm : calm.

Ltac calm_steps := repeat first [match goal with |- forall _, _ => intro end|solve [auto with calm]|apply calm_m_bind].

Lemma query_row_calm {A} q (f : DB -> option A) : calm_m (query_row q f).
Proof. unfold query_row. calm_steps. apply lift_calm. by destruct (f _). Qed.

Lemma query_rows_calm {R A} q context (f : DB -> list R) (scan : list R -> result A) :
  (forall l, calm (scan l)) -> calm_m (query_rows q context f scan).
Proof. intros Hs. unfold query_rows. calm_steps. apply closeWithError_calm. calm_steps. Qed.

#[export] Hint Resolve query_row_calm query_rows_calm : calm.

Lemma LastFingerprint_calm : calm_m LastFingerprint.
Proof. unfold LastFingerprint. auto with calm. Qed.

Section methods.
Context `{JSONCodec Any}.

Lemma read_history_calm q (e : Entry Any) fp : calm_m (read_history q e fp).
Proof.
  unfold read_history, listStringsFrom, listIntsFrom, listSightingsFrom. calm_steps.
Qed.

#[local] Hint Resolve read_history_calm : calm.

Lemma attach_histories_calm (es : list (Entry Any)) : calm_m (attach_histories es).
Proof. induction es; cbn [attach_histories]; calm_steps. Qed.

#[local] Hint Resolve attach_histories_calm : calm.

Lemma ListPage_calm after through limit : calm_m (ListPage (Any := Any) after through limit).
Proof. unfold ListPage. destruct (_ || _); [by intros w|]. calm_steps. Qed.

Lemma tx_exec_calm {A} (f : DB -> result (A * DB)) : (forall d, calm (f d)) -> calm_m (tx_exec f).
Proof.
  intros Hf. unfold tx_exec. calm_steps. intros w. unfold tx_apply. destruct (working w) as [d|]; [|done].
  specialize (Hf d). destruct (f d) as [[x d']|e]; [done|by eapply calm_err].
Qed.

Lemma Commit_calm : calm_m Commit.
Proof.
  intros w. unfold Commit. destruct (working w); [|done]. unfold poll. by destruct (script w) as [|[]].
Qed.

Lemma in_tx_calm {A} (m : M A) : calm_m m -> calm_m (in_tx m).
Proof.
  intros Hm. unfold in_tx, BeginTx. calm_steps; [by intros w|]. intros w. unfold rollbackTransaction.
  specialize (Hm w). destruct (m w) as [r w1]. destruct (Rollback w1) as [[[]|e] w2]; [done|].
  destruct e; simpl; try done; by apply calm_join.
Qed.

#[local] Hint Resolve Commit_calm : calm.

Lemma ApplyDecisions_calm ds key cursor : calm_m (ApplyDecisions (Any := Any) ds key cursor).
Proof.
  unfold ApplyDecisions. apply calm_m_bind; [auto with calm|intros l]. apply in_tx_calm.
  apply calm_m_bind; [|calm_steps]. unfold decisions_tx. apply calm_m_bind; [by intros w|intros t].
  apply calm_m_bind; [|intros _].
  - induction l as [|[d scope] l IH]; cbn [apply_each]; [calm_steps|].
    apply calm_m_bind; [by apply tx_exec_calm|by intros _].
  - unfold when. destruct (_ && _); [|calm_steps]. by apply tx_exec_calm.
Qed.
End methods.

#[export] Hint Resolve LastFingerprint_calm ListPage_calm ApplyDecisions_calm : calm.

(** ** The Syncer's methods *)

Definition calm_s {A} (m : SyncM A) : Prop := forall w, calm (m w).1.

Lemma calm_s_bind {A B} (m : SyncM A) (f : A -> SyncM B) :
  calm_s m -> (forall a, calm_s (f a)) -> calm_s (m ≫= f).
Proof.
  intros Hm Hf w. unfold mbind, SyncM_bind. specialize (Hm w). destruct (m w) as [[a|e] w']; [apply Hf|].
  by eapply calm_err.
Qed.

Lemma n_lift_calm {A} (r : result A) : calm r -> calm_s (n_lift r).
Proof. by intros Hr w. Qed.

Lemma n_ret_calm {A} (a : A) : calm_s (mret a).
Proof. by intros w. Qed.

Lemma n_throw_text_calm {A} text args : calm_s (n_throw (A := A) (ErrText text args)).
Proof. by intros w. Qed.

Lemma n_throw_driver_calm {A} text : calm_s (n_throw (A := A) (ErrDriver text)).
Proof. by intros w. Qed.

Lemma get_syncer_calm : calm_s get_syncer.
Proof. by intros w. Qed.

Lemma modify_syncer_calm f : calm_s (modify_syncer f).
Proof. by intros w. Qed.

Lemma store_call_calm {A} (m : M A) : calm_m m -> calm_s (store_call m).
Proof.
  intros Hm w. unfold store_call. specialize (Hm (other_commits w)). by destruct (m (other_commits w)).
Qed.

Lemma client_Do_calm req : calm_s (client_Do req).
Proof. intros w. unfold client_Do. by destruct (sw_net w 0%nat). Qed.

Lemma ctx_Err_calm : calm_s ctx_Err.
Proof. intros w. unfold ctx_Err. by destruct (default false _). Qed.

Lemma apply_trusted_calm ranges : calm_s (apply_trusted ranges).
Proof. intros w. unfold apply_trusted. by destruct (default None _). Qed.

Lemma wrap_policy_error_calm {A} context (m : SyncM A) : calm_s (wrap_policy_error context m).
Proof. intros w. unfold wrap_policy_error. by destruct (m w) as [[] ?]. Qed.

Lemma cp_closeWithError_calm {A} context closed (m : SyncM A) :
  calm_s m -> calm_s (cp_closeWithError context closed m).
Proof.
  intros Hm w. unfold cp_closeWithError. specialize (Hm w). destruct (m w) as [r w1].
  apply calm_join; [done|apply closeError_calm].
Qed.

#[export] Hint Resolve n_lift_calm n_ret_calm n_throw_text_calm n_throw_driver_calm get_syncer_calm
  modify_syncer_calm store_call_calm client_Do_calm ctx_Err_calm apply_trusted_calm
  wrap_policy_error_calm cp_closeWithError_calm : calm.

Ltac calm_run := repeat first [match goal with |- forall _, _ => intro end|solve [auto with calm]|apply calm_s_bind|case_match].

Lemma check_status_calm cfg what text status rest :
  calm_s rest -> calm_s (check_status cfg what text status rest).
Proof. intros Hr. unfold check_status, err_status. calm_run. Qed.

#[export] Hint Resolve check_status_calm : calm.

Section cycle.
Context `{JSONCodec Any}.

Lemma pushBatch_calm cfg (b : observationBatch Any) : calm_s (pushBatch cfg b).
Proof. unfold pushBatch. calm_run. Qed.

#[local] Hint Resolve pushBatch_calm : calm.

Lemma push_page_calm full after through : calm_s (push_page (Any := Any) full after through).
Proof. unfold push_page. calm_run. Qed.

#[local] Hint Resolve push_page_calm : calm.

Lemma push_pages_calm fuel full after through seen sent :
  calm_s (push_pages (Any := Any) fuel full after through seen sent).
Proof. revert after seen sent. induction fuel; intros; cbn [push_pages]; calm_run. Qed.

Lemma decoded_calm body : calm (decoded body).
Proof. by destruct body. Qed.

#[local] Hint Resolve decoded_calm : calm.

Lemma apply_policy_calm s p : calm_s (apply_policy (Any := Any) s p).
Proof. unfold apply_policy. calm_run. Qed.

#[local] Hint Resolve apply_policy_calm : calm.

Lemma pullPolicy_calm : calm_s (pullPolicy (Any := Any)).
Proof. unfold pullPolicy. calm_run. apply cp_closeWithError_calm, check_status_calm. calm_run. Qed.
End cycle.
