(* ===== verification/SyncProps.v ===== *)
(** Properties of the control plane, first group: what is uploaded and
    acknowledged, over any number of cycles and any faults. *)

From S2P Require Import Prelude GoStrings GoTime Netip Json JsonText GoDuration Sha256 GoUrl Approval Database Tables Store Writes Refinement Invariant Reading StoreProps ControlPlane SyncRun NoPanic.
From Stdlib Require Import Ascii String.
From stdpp Require Import strings gmap sorting.
#[local] Open Scope stdpp_scope.
#[local] Open Scope Z_scope.

Section cycles.
Context `{JSONCodec Any}.

(** ** Cycles *)

(** An invariant of pushes, pulls and the passing of time is one of Run. *)
Lemma Run_invariant (I : SyncWorld -> Prop) fuel :
  (forall w r w', I w -> pushObservations (Any := Any) fuel w = (r, w') -> I w') ->
  (forall w r w', I w -> pullPolicy (Any := Any) w = (r, w') -> I w') ->
  (forall t w, I w -> I (set_clock t w)) ->
  forall interval events w r w', I w -> Run (Any := Any) fuel interval events w = (r, w') -> I w'.
Proof.
  intros Hpush Hpull Hclock.
  assert (forall m : SyncM unit, (forall w r w', I w -> m w = (r, w') -> I w') ->
    forall w r w', I w -> logged m w = (r, w') -> I w') as Hlog.
  { intros m Hm w r w' Hw. unfold logged. destruct (m w) as [r1 w1] eqn:E. apply Hm in E; [|done].
    destruct r1 as [|[]]; by intros [= _ <-]. }
  assert (forall w r w', I w -> syncOnce (Any := Any) fuel w = (r, w') -> I w') as Honce.
  { intros w r w' Hw [(u & w1 & H1 & H2)|(e & H1 & _)]%n_bind_inv.
    - eapply (Hlog _ Hpull); [|exact H2]. by eapply (Hlog _ (Hpush)); [|exact H1].
    - by eapply (Hlog _ (Hpush)); [|exact H1]. }
  assert (forall events w r w', I w -> run_loop (Any := Any) fuel events w = (r, w') -> I w') as Hloop.
  { induction events as [|[t|] events IH]; intros w r w' Hw Hr; [by injection Hr as _ <-| |by injection Hr as _ <-].
    cbn [run_loop] in Hr.
    apply n_bind_inv in Hr as [(u & w1 & [= _ <-] & Hr)|(? & [=] & _)].
    apply n_bind_inv in Hr as [(u' & w1 & Ho & Hr)|(e & Ho & ->)].
    - apply Honce in Ho; [|by apply Hclock]. by eapply IH.
    - apply Honce in Ho; [done|by apply Hclock]. }
  intros interval events w r w' Hw Hr. unfold Run in Hr.
  apply n_bind_inv in Hr as [(u & w1 & Ho & Hr)|(e & Ho & ->)]; apply Honce in Ho; try done.
  destruct (interval <=? 0); [by injection Hr as _ <-|by eapply Hloop].
Qed.

(** A push seen from outside: the cycle's requests, the acknowledgements, and
    the last full snapshot, which only a successful push advances. *)
Lemma pushObservations_effect fuel w r w' :
  pushObservations fuel w = (r, w') ->
  exists reqs, sw_log w' = sw_log w ++ reqs /\ Forall (fun rx => sends_batch (syncer_cfg w) rx.1) reqs /\
    ack_step (syncer_cfg w) reqs (syncer_ack w) (syncer_ack w') /\
    sw_trusted w' = sw_trusted w /\ syncer_cfg w' = syncer_cfg w /\
    sy_cursor (sw_syncer w') = sy_cursor (sw_syncer w) /\
    sy_cursorKey (sw_syncer w') = sy_cursorKey (sw_syncer w) /\
    working (sw_store w') = working (sw_store w) /\ clock (sw_store w') = clock (sw_store w) /\
    (exists used, others_ran used w w') /\
    (is_ok r = false -> sy_lastFullSync (sw_syncer w') = sy_lastFullSync (sw_syncer w)).
Proof.
  intros [(Hr & reqs & [F1 F2 F3 F4 F5 F6 F7 F8 F9 F10] & A)|
    (-> & w1 & w2 & w3 & seen & sent & reqs1 & reqs2 & _ & _ & _ & Fa & A & Hb & Fb & A3 & ->)]%pushObservations_inv.
  { exists reqs. split_and!; done. }
  destruct (frame_trans _ _ _ _ _ Fa Fb) as [F1 F2 F3 F4 F5 F6 F7 F8 F9 F10].
  assert (forall full t s, let s' := set_acknowledged (Some (filter (fun kv => kv.1 ∈ seen) (ack_map s))) s in
    ack_map (if (full : bool) then set_lastFullSync t s' else s') = filter (fun kv => kv.1 ∈ seen) (ack_map s) /\
    sy_cfg (if full then set_lastFullSync t s' else s') = sy_cfg s /\
    sy_cursor (if full then set_lastFullSync t s' else s') = sy_cursor s /\
    sy_cursorKey (if full then set_lastFullSync t s' else s') = sy_cursorKey s) as Hs
    by (intros full t s; by destruct full).
  destruct (Hs (full_due (clock (sw_store w)) (sy_lastFullSync (sw_syncer w))) (clock (sw_store w))
    (sw_syncer w3)) as (S1 & S2 & S3 & S4).
  exists (reqs1 ++ reqs2). unfold syncer_cfg, finish_push, upd_syncer in *. cbn [sw_log sw_syncer sw_store sw_trusted] in *.
  split_and!; try done; try congruence.
  unfold syncer_ack. cbn [sw_syncer]. rewrite S1. intros fp h Hh.
  apply map_lookup_filter_Some in Hh as [Hh _]. change (syncer_ack w3 !! fp = Some h) in Hh.
  rewrite A3 in Hh. apply A in Hh as [Hh|He]; [by left|right]. eapply evidence_incl; [|exact He]. set_solver.
Qed.

(** A pull seen from outside. *)
Lemma pullPolicy_effect w r w' :
  working (sw_store w) = None -> pullPolicy (Any := Any) w = (r, w') ->
  exists reqs, sw_log w' = sw_log w ++ reqs /\
    Forall (fun rx => Ok rx.1 = policy_request (syncer_cfg w) (sy_cursor (sw_syncer w))) reqs /\
    syncer_ack w' = syncer_ack w /\ syncer_cfg w' = syncer_cfg w /\
    sy_cursorKey (sw_syncer w') = sy_cursorKey (sw_syncer w) /\
    sy_lastFullSync (sw_syncer w') = sy_lastFullSync (sw_syncer w) /\
    working (sw_store w') = None.
Proof.
  intros Hw Hp. apply pullPolicy_inv in Hp; [|done].
  destruct Hp as [reqs e w' Hreqs _ Hlog Hst _ Hs _|req x p r w' Hreq _ Hlog Hwk _ Hout].
  - exists reqs. unfold syncer_ack, syncer_cfg. rewrite Hs, Hst. split_and!; try done.
    eapply Forall_impl; [exact Hreqs|]. by intros rx [? _].
  - exists [(req, x)]. assert (exists c, sw_syncer w' = set_cursor c (sw_syncer w)) as [c Hs].
    { destruct Hout as [(_ & _ & _ & _ & ->)|(_ & _ & _ & ->)]; [by eexists|].
      exists (sy_cursor (sw_syncer w)). by destruct (sw_syncer w). }
    unfold syncer_ack, syncer_cfg. rewrite Hs. split_and!; try done. by constructor.
Qed.

(** C10: over any number of cycles, whatever fails in between and whatever other
    goroutines write, the Syncer holds a digest for a fingerprint only if a batch
    the hub accepted contained an observation of that fingerprint with exactly
    this encoding: a failed upload is never taken for a delivered one. *)
Theorem acknowledged_was_accepted fuel interval events w r w' :
  working (sw_store w) = None ->
  (forall fp h, syncer_ack w !! fp = Some h -> evidence (Any := Any) (syncer_cfg w) (sw_log w) fp h) ->
  Run (Any := Any) fuel interval events w = (r, w') ->
  forall fp h, syncer_ack w' !! fp = Some h -> evidence (Any := Any) (syncer_cfg w') (sw_log w') fp h.
Proof.
  set (I w := working (sw_store w) = None /\
    forall fp h, syncer_ack w !! fp = Some h -> evidence (Any := Any) (syncer_cfg w) (sw_log w) fp h).
  intros Hw He Hrun. enough (I w') as [_ ?] by done. revert Hrun.
  apply (Run_invariant I); [| | |by split].
  - intros w1 r1 w2 [I1 I2] Hp.
    apply pushObservations_effect in Hp as (reqs & L & _ & A & _ & C & _ & _ & W & _).
    split; [congruence|]. rewrite C, L. intros fp h Hh.
    apply A in Hh as [Hh|Hh]; [apply I2 in Hh|]; (eapply evidence_incl; [|exact Hh]); set_solver.
  - intros w1 r1 w2 [I1 I2] Hp.
    apply pullPolicy_effect in Hp as (reqs & L & _ & A & C & _ & _ & W); [|done].
    split; [done|]. rewrite A, C, L. intros fp h Hh%I2. eapply evidence_incl; [|exact Hh]. set_solver.
  - intros t w1 [I1 I2]. by split.
Qed.

(** What goes out over any number of cycles: batches of at most sixteen
    observations and policy requests, each built from the configuration. *)
Theorem requests_are_bounded fuel interval events w r w' :
  working (sw_store w) = None -> Run (Any := Any) fuel interval events w = (r, w') ->
  exists reqs, sw_log w' = sw_log w ++ reqs /\
    Forall (fun rx => sends_batch (Any := Any) (syncer_cfg w) rx.1 \/
                      exists cursor, policy_request (syncer_cfg w) cursor = Ok rx.1) reqs.
Proof.
  intros Hw Hrun.
  set (ok (cfg : Config) (rx : Request * Exchange) := sends_batch (Any := Any) cfg rx.1 \/
    exists cursor, policy_request cfg cursor = Ok rx.1).
  set (I v := working (sw_store v) = None /\ syncer_cfg v = syncer_cfg w /\
    exists reqs, sw_log v = sw_log w ++ reqs /\ Forall (ok (syncer_cfg w)) reqs).
  enough (I w') as (_ & _ & ?) by done. revert Hrun. apply (Run_invariant I).
  - intros w1 r1 w2 (I1 & I2 & reqs1 & I3 & I4) Hp.
    apply pushObservations_effect in Hp as (reqs & L & B & _ & _ & C & _ & _ & W & _).
    split_and!; [congruence..|]. exists (reqs1 ++ reqs). split; [by rewrite L, I3, (assoc_L (++))|].
    apply Forall_app. split; [done|]. rewrite I2 in B. eapply Forall_impl; [exact B|]. by left.
  - intros w1 r1 w2 (I1 & I2 & reqs1 & I3 & I4) Hp.
    apply pullPolicy_effect in Hp as (reqs & L & B & _ & C & _ & _ & W); [|done].
    split_and!; [done|congruence|]. exists (reqs1 ++ reqs). split; [by rewrite L, I3, (assoc_L (++))|].
    apply Forall_app. split; [done|]. rewrite I2 in B. eapply Forall_impl; [exact B|].
    intros rx Hrx. right. exists (sy_cursor (sw_syncer w1)). symmetry. exact Hrx.
  - intros t w1 HI. exact HI.
  - split; [done|split; [done|]]. exists []. split; [by rewrite (right_id_L [] (++))|constructor].
Qed.

(** ** Uploading exactly the changes *)

Lemma entries_elem d fps (es : list (Entry Any)) :
  Forall2 (fun fp e => get_entry fp d = Ok e) fps es ->
  (forall e, e ∈ es -> e_Fingerprint e ∈ fps /\ get_entry (e_Fingerprint e) d = Ok e) /\
  (forall fp, fp ∈ fps -> exists e, e ∈ es /\ get_entry fp d = Ok e).
Proof.
  induction 1 as [|fp e fps es He _ [IH1 IH2]]; split.
  - intros e []%not_elem_of_nil.
  - intros fp []%not_elem_of_nil.
  - intros e' [->|[? ?]%IH1]%elem_of_cons; [|split; [by right|done]].
    rewrite (get_entry_fp _ _ _ He). split; [by left|done].
  - intros fp' [->|(e' & ? & ?)%IH2]%elem_of_cons; [by exists e; split; [left|]|].
    exists e'. by split; [right|].
Qed.

(** The acknowledgements after all entries have been gone through. *)
Lemma acknowledged_entries full d fps (es : list (Entry Any)) m cs fp h :
  Forall2 (fun fp e => get_entry fp d = Ok e) fps es -> NoDup fps -> page_changes full m es = Ok cs ->
  fp ∈ fps ->
  acknowledge cs m !! fp = Some h <-> exists e, get_entry fp d = Ok e /\ entry_digest e = Ok h.
Proof.
  intros Hes Hnd Hcs Hfp. destruct (entries_elem d fps es Hes) as [E1 E2].
  rewrite (acknowledge_page full m es cs fp) by (first [exact Hcs|by rewrite (entries_fps _ _ _ Hes : map e_Fingerprint es = fps)]).
  destruct (list_find _ es) as [[k e]|] eqn:Ef.
  - apply list_find_Some in Ef as (Hk & Heq & _). apply list_elem_of_lookup_2, E1 in Hk as [_ Hg].
    rewrite Heq in Hg. destruct (entry_digest e) as [h'|] eqn:Ed; split.
    + intros [= <-]. by exists e.
    + intros (e' & Hg' & Hd). congruence.
    + done.
    + intros (e' & Hg' & Hd). congruence.
  - apply list_find_None in Ef. destruct (E2 fp Hfp) as (e & He & Hg). rewrite Forall_forall in Ef.
    destruct (Ef e He). by eapply get_entry_fp.
Qed.

(** The fingerprints a push covers. *)
Definition pushed_fps (d : DB) : list string := filter (fun fp => fp <> "") (fps_sorted d).

Lemma pushed_fps_elem d fp : fp ∈ pushed_fps d <-> fp <> "" /\ is_Some (db_fps d !! fp).
Proof. unfold pushed_fps. by rewrite list_elem_of_filter, elem_of_fps_sorted. Qed.

(** Restricted to what a push covers, the acknowledgements are the digests of the
    stored entries. *)
Lemma acknowledged_pushed full d (es : list (Entry Any)) m cs fp h :
  Forall2 (fun fp e => get_entry fp d = Ok e) (pushed_fps d) es -> page_changes full m es = Ok cs ->
  acknowledge cs m !! fp = Some h /\ fp ∈ pushed_fps d <->
  fp <> "" /\ exists e, get_entry fp d = Ok e /\ entry_digest e = Ok h.
Proof.
  intros E C. assert (NoDup (pushed_fps d)) as Hnd by apply (ssorted_NoDup str_lt), ssorted_filter, fps_sorted_sorted.
  split.
  - intros [Hh Hin]. apply (acknowledged_entries full d (pushed_fps d) es m cs) in Hh; [|done..].
    split; [by apply pushed_fps_elem in Hin as [? _]|done].
  - intros [Hne (e & Hg & Hh)]. assert (fp ∈ pushed_fps d) as Hin.
    { apply pushed_fps_elem. split; [done|]. destruct (db_fps d !! fp) eqn:Er; [by eexists|].
      by rewrite (get_entry_absent fp d Er) in Hg. }
    split; [|done]. apply (acknowledged_entries full d (pushed_fps d) es m cs); try done. by exists e.
Qed.

(** The changes among all entries, in terms of what is stored. *)
Lemma changed_stored full d m (es : list (Entry Any)) (due : Prop) fp :
  Forall2 (fun fp e => get_entry fp d = Ok e) (pushed_fps d) es -> (full = true <-> due) ->
  changed full m es fp <->
  exists text, (fp <> "" /\ exists e, get_entry fp d = Ok e /\ observation_json (toObservation fp e) = Ok text) /\
    (due \/ m !! fp <> Some (Sum256 text)).
Proof.
  intros E Hdue. destruct (entries_elem d _ _ E) as [E1 E2]. unfold changed. setoid_rewrite Hdue. split.
  - intros (e & text & He & <- & Ht & Hm). destruct (E1 e He) as [[Hne _]%pushed_fps_elem Hg]. exists text. eauto 6.
  - intros (text & (Hne & e & Hg & Ht) & Hm).
    assert (fp ∈ pushed_fps d) as Hin.
    { apply pushed_fps_elem. split; [done|]. destruct (db_fps d !! fp) eqn:Er; [by eexists|].
      by rewrite (get_entry_absent fp d Er) in Hg. }
    destruct (E2 fp Hin) as (e' & He & Hg'). assert (e' = e) as -> by congruence.
    exists e, text. split_and!; [done|by eapply get_entry_fp|done..].
Qed.

(** Nothing changed exactly when no batch was sent from the pages. *)
Lemma no_changes_no_batches {A} (cs : list (A * digest)) (bs : list (list A)) :
  concat bs = map fst cs -> Forall (fun b => b <> [] /\ (List.length b <= 16)%nat) bs -> cs = [] <-> bs = [].
Proof.
  intros B L. destruct bs as [|b bs]; simpl in B; [by destruct cs|].
  split; [|done]. intros ->. inversion L as [|? ? [Hb0 _] _]; subst. by destruct b.
Qed.

(** A successful push with nobody else writing, in the terms of the loop. *)
Lemma push_uploads fuel w w' :
  nobody_else w -> pushObservations (Any := Any) fuel w = (Ok tt, w') ->
  let d := committed (sw_store w) in
  let full := full_due (clock (sw_store w)) (sy_lastFullSync (sw_syncer w)) in
  exists es cs bs reqs,
    Forall2 (fun fp e => get_entry (Any := Any) fp d = Ok e) (pushed_fps d) es /\
    page_changes full (syncer_ack w) es = Ok cs /\
    concat bs = map fst cs /\ Forall (fun b => (List.length b <= 16)%nat) bs /\
    (if bool_decide (cs = []) then bs = [[]] else Forall (fun b => b <> []) bs) /\
    Forall2 (fun b rx => batch_request (syncer_cfg w) (batch_of (syncer_cfg w) b) = Ok rx.1 /\
                         accepted_reply rx.2 = true) bs reqs /\
    sw_log w' = sw_log w ++ reqs /\
    (forall fp h, syncer_ack w' !! fp = Some h <->
       fp <> "" /\ exists e, get_entry (Any := Any) fp d = Ok e /\ entry_digest e = Ok h) /\
    sy_lastFullSync (sw_syncer w') =
      (if full then clock (sw_store w) else sy_lastFullSync (sw_syncer w)) /\
    committed (sw_store w') = d.
Proof.
  intros Ho [(? & _)|(_ & w1 & w2 & w3 & seen & sent & reqs1 & reqs2 & F1 & A1 & Hp & F2 & _ & Hb & F3 & A3 & ->)]%pushObservations_inv;
    [done|]. cbv zeta. set (d := committed (sw_store w)) in *. set (full := full_due _ _) in *.
  assert (meanwhile w = d) as Hd by (unfold meanwhile; by rewrite other_commits_quiet).
  destruct (fm_others _ _ _ F1) as [u1 O1]. apply others_ran_quiet in O1 as [Ho1 Hd1]; [|done].
  apply push_pages_ok in Hp as (es & cs & bs & reqs & [E C B L R F A] & Hseen & Hsent); [|done].
  rewrite Hd1, Hd in *. fold d in E, Hseen. rewrite segment_all in E, Hseen.
  change (filter (fun fp => fp <> "") (fps_sorted d)) with (pushed_fps d) in E, Hseen.
  rewrite (right_id_L ∅ (∪)) in Hseen. rewrite orb_false_r in Hsent. rewrite A1 in C, A.
  assert (syncer_cfg w1 = syncer_cfg w) as G1 by apply F1. rewrite G1 in R.
  assert (reqs1 = reqs) as ->.
  { pose proof (fm_log _ _ _ F2) as L2. rewrite (fm_log _ _ _ F), (fm_log _ _ _ F1), app_nil_r in L2.
    by apply app_inv_head in L2. }
  pose proof (frame_trans _ _ _ _ _ F2 F3) as F'.
  exists es, cs, (if sent then bs else [[]]), (reqs ++ reqs2). split_and!.
  - exact E.
  - exact C.
  - destruct sent; [done|]. by destruct bs.
  - destruct sent; [|by repeat constructor; simpl; lia]. eapply Forall_impl; [exact L|]. by intros b [_ ?].
  - pose proof (no_changes_no_batches cs bs B L) as Hcb.
    subst sent. case_bool_decide as Hcs.
    + apply Hcb in Hcs as ->. done.
    + destruct bs; [by destruct Hcs; apply Hcb|]. eapply Forall_impl; [exact L|]. by intros b [? _].
  - destruct sent; simpl in Hb.
    + destruct Hb as [-> _]. by rewrite app_nil_r.
    + destruct Hb as (req & x & -> & Hx & Hreq). destruct bs; [|done]. inversion R; subst. simpl.
      rewrite (fm_cfg _ _ _ F2) in Hreq. by repeat constructor.
  - exact (fm_log _ _ _ F').
  - intros fp h. assert (syncer_ack (finish_push full (clock (sw_store w)) seen w3) =
      filter (fun kv => kv.1 ∈ seen) (syncer_ack w3)) as -> by (by destruct full).
    rewrite map_lookup_filter_Some, A3. rewrite Hseen, elem_of_list_to_set. simpl.
    rewrite A. by apply (acknowledged_pushed full d es (syncer_ack w)).
  - unfold finish_push. destruct full; [done|]. exact (fm_lastFull _ _ _ F').
  - destruct (fm_others _ _ _ F') as [u' O']. apply others_ran_quiet in O' as [_ Hc]; [|done].
    exact Hc.
Qed.

(** What an observation says of an entry, field by field. *)
Lemma limited_take {T} (l : list T) : limited l maxObservationValues = take 128 l.
Proof.
  unfold limited, maxObservationValues. change (128 <=? 0) with false. simpl.
  destruct (Z.leb_spec (Z.of_nat (List.length l)) 128); [|done]. by rewrite take_ge by lia.
Qed.

Lemma toObservation_fields fp (e : Entry Any) :
  toObservation fp e =
  {| o_ApprovalRanges := e_ApprovalRanges e; o_Fingerprint := fp; o_Status := e_Status e;
     o_Label := e_Label e; o_FirstSeen := encodeTime (e_FirstSeen e); o_LastSeen := encodeTime (e_LastSeen e);
     o_IPs := take 128 (e_IPs e); o_Ports := take 128 (e_Ports e); o_Sightings := take 128 (e_Sightings e);
     o_Count := e_Count e; o_Metadata := e_Meta e |}.
Proof. unfold toObservation. by rewrite !limited_take. Qed.

(** C4: with nobody else writing, a successful push has read and encoded every
    stored entry and uploads exactly what has changed.  The fingerprints it uploads are, in ascending order and once each,
    those stored whose encoded observation is not the acknowledged one, or all of
    them when a full snapshot is due: at the start, and when fifteen minutes have
    passed since the last one.  Each observation carries the entry's fields, with
    at most 128 values of each history.  They go out in accepted batches of one to sixteen,
    or as one empty batch if there are none.  Afterwards exactly the encodings
    stored are acknowledged, and the time of a full snapshot is recorded. *)
Theorem push_uploads_changes fuel w w' :
  nobody_else w -> pushObservations (Any := Any) fuel w = (Ok tt, w') ->
  let d := committed (sw_store w) in
  let started := clock (sw_store w) in
  let last := sy_lastFullSync (sw_syncer w) in
  let due := last = zero_instant \/ 15 * 60 * 1000000000 <= started - last in
  let shown fp e := {| o_ApprovalRanges := e_ApprovalRanges e; o_Fingerprint := fp; o_Status := e_Status e;
    o_Label := e_Label e; o_FirstSeen := encodeTime (e_FirstSeen e); o_LastSeen := encodeTime (e_LastSeen e);
    o_IPs := take 128 (e_IPs e); o_Ports := take 128 (e_Ports e); o_Sightings := take 128 (e_Sightings e);
    o_Count := e_Count e; o_Metadata := e_Meta e |} in
  let encoded fp text := fp <> "" /\ exists e, get_entry (Any := Any) fp d = Ok e /\
    observation_json (shown fp e) = Ok text in
  (forall fp, fp <> "" -> is_Some (db_fps d !! fp) -> exists text, encoded fp text) /\
  exists ups bs reqs,
    StronglySorted str_lt ups /\
    (forall fp, fp ∈ ups <-> exists text, encoded fp text /\ (due \/ syncer_ack w !! fp <> Some (Sum256 text))) /\
    Forall2 (fun fp o => exists e, get_entry fp d = Ok e /\ o = shown fp e) ups (concat bs) /\
    Forall (fun b => (List.length b <= 16)%nat) bs /\
    (if bool_decide (ups = []) then bs = [[]] else Forall (fun b => b <> []) bs) /\
    Forall2 (fun b rx => batch_request (syncer_cfg w) {| ob_InstanceID := InstanceID (syncer_cfg w);
                           ob_Observations := b |} = Ok rx.1 /\ accepted_reply rx.2 = true) bs reqs /\
    sw_log w' = sw_log w ++ reqs /\
    (forall fp h, syncer_ack w' !! fp = Some h <-> exists text, encoded fp text /\ h = Sum256 text) /\
    (due -> sy_lastFullSync (sw_syncer w') = started) /\
    (~ due -> sy_lastFullSync (sw_syncer w') = last) /\
    committed (sw_store w') = d.
Proof.
  intros Ho Hp d0 started last due shown encoded. unfold encoded, due, last, started, d0.
  clear encoded due last started d0.
  assert (forall fp e, toObservation fp e = shown fp e) as Hshown by apply toObservation_fields.
  clearbody shown. destruct (push_uploads fuel w w' Ho Hp) as (es & cs & bs & reqs & E & C & B & L & S & R & G & A & F & D).
  cbv zeta in *. set (d := committed (sw_store w)) in *. pose proof (full_due_spec (clock (sw_store w)) (sy_lastFullSync (sw_syncer w))) as Hdue.
  destruct (page_changes_changed _ _ _ _ C) as (U1 & U2 & U3). destruct (entries_elem d _ _ E) as [E1 E2].
  rewrite (entries_fps _ _ _ E : map e_Fingerprint es = pushed_fps d) in U1.
  split.
  { intros fp Hne Hfp. destruct (E2 fp) as (e & He & Hg); [by apply pushed_fps_elem|].
    destruct (page_changes_encodes _ _ _ _ _ C He) as [text Ht].
    rewrite (get_entry_fp _ _ _ Hg), Hshown in Ht. exists text. eauto. }
  exists (map (fun c => o_Fingerprint c.1) cs), bs, reqs. split_and!; try done.
  - eapply ssorted_sublist; [exact U1|]. apply ssorted_filter, fps_sorted_sorted.
  - intros fp. rewrite U2. rewrite (changed_stored _ d _ es _ fp E Hdue). by setoid_rewrite Hshown.
  - rewrite B. eapply Forall2_impl; [exact U3|]. intros fp o (e & He & <- & Hx). exists e. rewrite <- Hshown. by apply E1 in He as [_ ?].
  - replace (bool_decide (map (fun c => o_Fingerprint c.1) cs = [])) with (bool_decide (cs = [])); [done|].
    by destruct cs.
  - intros fp h. rewrite A. split.
    + intros (Hne & e & Hg & Hd). unfold entry_digest, mbind, result_bind in Hd.
      rewrite (get_entry_fp _ _ _ Hg) in Hd. destruct (observation_json _) as [text|] eqn:Et; [|done].
      injection Hd as <-. exists text. rewrite Hshown in Et. eauto.
    + intros (text & (Hne & e & Hg & Ht) & ->). split; [done|]. exists e. split; [done|].
      unfold entry_digest, mbind, result_bind. by rewrite (get_entry_fp _ _ _ Hg), Hshown, Ht.
  - intros Hd. rewrite F. by apply Hdue in Hd as ->.
  - intros Hd. rewrite F. destruct (full_due _ _) eqn:Ef; [|done]. by destruct Hd; apply Hdue.
Qed.

(** A quiet cycle: when a push has succeeded and, at the next one, the
    database and the Syncer are as the first left them and no full snapshot is
    due, the next successful push sends one empty batch and nothing else, and the
    acknowledgements stay as they are. *)
Theorem quiet_push_sends_heartbeat fuel1 fuel2 w1 w2 w3 w4 :
  nobody_else w1 -> pushObservations (Any := Any) fuel1 w1 = (Ok tt, w2) ->
  nobody_else w3 -> sw_syncer w3 = sw_syncer w2 ->
  committed (sw_store w3) = committed (sw_store w2) ->
  full_due (clock (sw_store w3)) (sy_lastFullSync (sw_syncer w3)) = false ->
  pushObservations (Any := Any) fuel2 w3 = (Ok tt, w4) ->
  (exists req x, sw_log w4 = sw_log w3 ++ [(req, x)] /\ accepted_reply x = true /\
     batch_request (syncer_cfg w3) (batch_of (Any := Any) (syncer_cfg w3) []) = Ok req) /\
  (forall fp, syncer_ack w4 !! fp = syncer_ack w3 !! fp).
Proof.
  intros Ho1 Hp1 Ho3 Hs Hc Hfull Hp2.
  apply push_uploads in Hp1 as (es1 & cs1 & bs1 & reqs1 & _ & _ & _ & _ & _ & _ & _ & Hack1 & _ & Hd1); [|done].
  apply push_uploads in Hp2 as (es & cs & bs & reqs & E & C & B & _ & Hb & R & L & Hack2 & _ & _); [|done].
  rewrite Hc, Hd1 in *. set (d := committed (sw_store w1)) in *. rewrite Hfull in C.
  assert (syncer_ack w3 = syncer_ack w2) as Ha by (unfold syncer_ack; by rewrite Hs).
  split.
  - assert (cs = []) as ->.
    { destruct cs as [|c cs]; [done|]. exfalso.
      destruct (page_changes_kept _ _ _ c C) as (e & h & He & Hh & Hne); [by left|].
      apply Hne. rewrite Ha. apply Hack1.
      destruct (entries_elem d _ _ E) as [E1 _]. destruct (E1 e He) as [Hin Hg].
      apply pushed_fps_elem in Hin as [Hn _]. split; [done|]. by exists e. }
    simpl in Hb. subst bs. inversion R as [|? [req x] ? ? [Hreq Hx] Rn]; subst. inversion Rn; subst.
    by exists req, x.
  - intros fp. rewrite Ha. apply option_eq. intros h. by rewrite Hack1, Hack2.
Qed.

(** C11: the loop over the pages ends even if other goroutines commit before
    every page, for ever: it takes at most one turn more than there are
    fingerprints between [after] and [through], stored now or committed later.
    What they add beyond [through] does not count and may be without limit. *)
Theorem push_loop_terminates full after through seen sent w (T : gset string) :
  (forall n d fp, is_Some (db_fps (sw_others w n d) !! fp) ->
     is_Some (db_fps d !! fp) \/ fp ∈ T \/ str_lt through fp) ->
  let turns := S (size (filter (fun fp => str_lt after fp /\ ~ str_lt through fp)
                          (dom (db_fps (committed (sw_store w))) ∪ T))) in
  (push_pages (Any := Any) turns full after through seen sent w).1 <> Ok None /\
  forall fuel, (turns <= fuel)%nat ->
    push_pages (Any := Any) fuel full after through seen sent w =
    push_pages turns full after through seen sent w.
Proof.
  intros Ho. by apply push_pages_terminates, orderly_confined.
Qed.
End cycles.

(** ** Concrete runs *)

Definition demo_cfg : Config :=
  {| SupportsApprovalRanges := true; cfg_URL := "https://hub.example/base/"; InstanceID := "mx";
     Token := "t"; ClientCert := ""; ClientKey := ""; cfg_CA := ""; ServerName := "";
     SyncInterval := "45s"; ApplyTrustedRanges := true |}.

Definition demo_reply (status : Z) (p : policyResponse) : Exchange := Reply status "" (Some p) None.

Definition demo_policy : policyResponse :=
  {| pr_Cursor := "9"; pr_Decisions := demo_decisions; pr_TrustedRanges := Some ["192.0.2.0/24"] |}.

(** A store with one entry. *)
Definition one_entry : World :=
  {| committed := set_fps (fun _ => {[ "ab" := demo_row StatusPending "" 0 None ]}) empty_db;
     working := None; script := []; clock := 9000000000 |}.

Definition demo_sync (st : World) (net : list Exchange) : SyncWorld :=
  {| sw_syncer := {| sy_cfg := demo_cfg; sy_cursor := "7"; sy_cursorKey := "gatehub_cursor:x";
                     sy_acknowledged := None; sy_lastFullSync := zero_instant |};
     sw_store := st; sw_others := fun _ d => d; sw_net := s_list net (NetError "connection refused"); sw_log := []; sw_ctx := [];
     sw_trusted := []; sw_trust_faults := [] |}.

Definition ok_reply : Exchange := demo_reply 200 demo_policy.

Lemma acknowledged_was_accepted_witness :
  let w' := (Run (Any := PlainValue) 2 (Interval demo_cfg) [] (demo_sync one_entry [ok_reply; ok_reply])).2 in
  exists h, syncer_ack w' !! "ab" = Some h /\
    evidence (Any := PlainValue) (syncer_cfg w') (sw_log w') "ab" h.
Proof.
  cbv zeta. match goal with |- exists h, ?l = _ /\ _ =>
    assert (bool_decide (is_Some l) = true) as Hs by (vm_compute; reflexivity) end.
  apply bool_decide_eq_true in Hs as [h Hh]. exists h. split; [exact Hh|].
  refine (acknowledged_was_accepted (Any := PlainValue) 2 (Interval demo_cfg) []
    (demo_sync one_entry [ok_reply; ok_reply]) _ _ eq_refl _ (surjective_pairing _) "ab" h Hh).
  intros fp h' Hl. discriminate Hl.
Defined.

Lemma requests_are_bounded_witness :
  let w := demo_sync one_entry [ok_reply; NetError "timeout"] in
  exists reqs, sw_log (Run (Any := PlainValue) 2 0 [] w).2 = sw_log w ++ reqs.
Proof.
  cbv zeta. destruct (requests_are_bounded (Any := PlainValue) 2 0 []
    (demo_sync one_entry [ok_reply; NetError "timeout"]) _ _ eq_refl (surjective_pairing _)) as (reqs & H & _).
  exists reqs. exact H.
Defined.

(** The first push uploads the one entry there is, and records the full snapshot. *)
Lemma push_uploads_changes_witness :
  let w := demo_sync one_entry [ok_reply] in
  let w' := (pushObservations (Any := PlainValue) 2 w).2 in
  (exists h, syncer_ack w' !! "ab" = Some h) /\ sy_lastFullSync (sw_syncer w') = 9000000000 /\
  committed (sw_store w') = committed one_entry.
Proof.
  cbv zeta. destruct (push_uploads_changes (Any := PlainValue) 2 (demo_sync one_entry [ok_reply])
    (pushObservations (Any := PlainValue) 2 (demo_sync one_entry [ok_reply])).2 (fun _ _ => eq_refl))
    as (_ & ups & bs & reqs & _ & _ & _ & _ & _ & _ & _ & Ha & Hl & _ & Hd).
  - apply run_ok. vm_compute. reflexivity.
  - split_and!; [|apply Hl; by left|exact Hd].
    match goal with |- exists h, ?l = _ => assert (bool_decide (is_Some l) = true) as Hs by (vm_compute; reflexivity) end.
    by apply bool_decide_eq_true in Hs as [h Hh]; exists h.
Defined.

(** Another goroutine stores a greater and greater fingerprint before every call,
    for ever; the loop still ends, in its second turn. *)
Definition flooded : SyncWorld :=
  let w := demo_sync one_entry [ok_reply] in
  upd_store one_entry (fun _ d => set_fps <["z" +:+ max_fp d := demo_row StatusPending "" 0 None]> d) w.

Lemma push_loop_terminates_witness :
  (push_pages (Any := PlainValue) 2 true "" "m" ∅ false flooded).1 <> Ok None /\
  forall fuel, (2 <= fuel)%nat ->
    push_pages (Any := PlainValue) fuel true "" "m" ∅ false flooded =
    push_pages 2 true "" "m" ∅ false flooded.
Proof.
  pose proof (push_loop_terminates (Any := PlainValue) true "" "m" ∅ false flooded ∅) as Hend.
  cbv zeta in Hend. set (turns := S _) in Hend.
  assert (turns = 2%nat) as Hturns by (vm_compute; reflexivity). clearbody turns. subst turns.
  apply Hend. intros n d fp Hfp. simpl in Hfp. destruct Hfp as [r Hr].
  apply lookup_insert_Some in Hr as [[<- _]|[_ Hr]]; [right; right; reflexivity|left; by exists r].
Defined.

Lemma quiet_push_sends_heartbeat_witness :
  let w2 := (pushObservations (Any := PlainValue) 2 (demo_sync one_entry [ok_reply; ok_reply])).2 in
  let w4 := (pushObservations (Any := PlainValue) 2 w2).2 in
  (exists req x, sw_log w4 = sw_log w2 ++ [(req, x)]) /\ syncer_ack w4 !! "ab" = syncer_ack w2 !! "ab".
Proof.
  cbv zeta. destruct (quiet_push_sends_heartbeat (Any := PlainValue) 2 2
    (demo_sync one_entry [ok_reply; ok_reply])
    (pushObservations (Any := PlainValue) 2 (demo_sync one_entry [ok_reply; ok_reply])).2
    (pushObservations (Any := PlainValue) 2 (demo_sync one_entry [ok_reply; ok_reply])).2
    (pushObservations (Any := PlainValue) 2
      (pushObservations (Any := PlainValue) 2 (demo_sync one_entry [ok_reply; ok_reply])).2).2
    (fun _ _ => eq_refl)) as [(req & x & Hl & _) Ha]; [apply run_ok; vm_compute; reflexivity|
      by intros n d|reflexivity|reflexivity|vm_compute; reflexivity|apply run_ok; vm_compute; reflexivity|].
  split; [by exists req, x|apply Ha].
Defined.
