(* ===== verification/PolicyProps.v ===== *)
(** Properties of the control plane, second group: the policy a pull applies, the
    cursor, the sync loop, and the URL requests go to. *)

From S2P Require Import Prelude GoStrings GoTime Netip Json JsonText GoDuration Sha256 GoUrl Approval Database Tables Store Writes Refinement Invariant Reading StoreProps ControlPlane SyncRun SyncProps.
From Stdlib Require Import Ascii String.
From stdpp Require Import strings gmap sorting.
#[local] Open Scope stdpp_scope.
#[local] Open Scope Z_scope.

Section policy.
Context `{JSONCodec Any}.

(** ** Applying a policy *)

(** A validated decision always encodes. *)
Lemma check_policy_encodes cfg ds :
  check_policy cfg ds = Ok tt -> exists es, encode_decisions (Any := Any) ds = Ok es.
Proof.
  induction ds as [|d ds IH]; cbn [check_policy encode_decisions]; [eauto|].
  destruct (Decision_Validate d) as [e|] eqn:Ev; [done|].
  destruct (_ && _); [done|]. intros [es Hes]%IH. rewrite Hes.
  unfold mbind, result_bind. destruct (dec_ApprovalRanges d) as [sc|] eqn:Es; [|eauto].
  assert (Scope_Validate (Some sc) = None) as Hv.
  { unfold Decision_Validate in Ev. rewrite Es in Ev.
    destruct (_ || _); [done|]. by destruct (_ && _). }
  unfold Scope_MarshalJSON. rewrite Hv. eauto.
Qed.

(** Without faults, applying a valid policy succeeds. *)
Lemma apply_policy_succeeds p w :
  working (sw_store w) = None -> script (sw_store w) = [] -> default None (head (sw_trust_faults w)) = None ->
  check_policy (syncer_cfg w) (pr_Decisions p) = Ok tt ->
  (apply_policy (Any := Any) (sw_syncer w) p w).1 = Ok tt.
Proof.
  intros Hw Hs Ht Hc. destruct (check_policy_encodes _ _ Hc) as [es Hes].
  unfold apply_policy. unfold mbind, SyncM_bind, n_lift. unfold syncer_cfg in Hc. rewrite Hc.
  assert (exists w2, match pr_TrustedRanges p with
    | Some ranges => if ApplyTrustedRanges (sy_cfg (sw_syncer w))
        then wrap_policy_error "apply trusted ranges" (apply_trusted ranges) else mret tt
    | None => mret tt end w = (Ok tt, w2) /\ sw_store w2 = sw_store w /\ sw_others w2 = sw_others w)
    as (w2 & -> & Hst & Hot).
  { destruct (pr_TrustedRanges p) as [ranges|]; [|by eexists].
    destruct (ApplyTrustedRanges _); [|by eexists].
    unfold wrap_policy_error, apply_trusted. rewrite Ht. by eexists. }
  unfold wrap_policy_error, store_call.
  destruct (ApplyDecisions _ _ _ (other_commits w2)) as [r s] eqn:E.
  destruct (ApplyDecisions_atomic (Any := Any) (pr_Decisions p) (sy_cursorKey (sw_syncer w)) (pr_Cursor p)) as [Hi _].
  assert (working (other_commits w2) = None /\ script (other_commits w2) = []) as [Hw2 Hs2]
    by (unfold other_commits; rewrite Hot, Hst; done).
  destruct (Hi _ _ _ Hw2 E) as (_ & _ & _ & _ & Hq). destruct (Hq Hs2) as [_ Ha].
  unfold apply_decisions in Ha. rewrite Hes in Ha. simpl in Ha. subst r.
  by destruct (str_empty (pr_Cursor p)).
Qed.

(** C5: a pull applies a policy completely or not at all.  Either the decoded
    policy is valid for this gate and its decisions, its cursor (in the database
    and in memory) and its trusted ranges are all in force, or an error is
    returned and the Syncer and the rows are untouched; the one exception is that
    a valid policy's trusted ranges stay replaced when the store then fails.  A
    valid policy in an accepted reply is applied when nothing fails locally. *)
Theorem pullPolicy_all_or_nothing w r w' :
  working (sw_store w) = None -> pullPolicy (Any := Any) w = (r, w') ->
  ((exists req x p, sw_log w' = sw_log w ++ [(req, x)] /\ policy_reply x = Some p /\
      policy_request (syncer_cfg w) (sy_cursor (sw_syncer w)) = Ok req /\
      is_ok r = accepted_reply x /\ check_policy (syncer_cfg w) (pr_Decisions p) = Ok tt /\
      apply_decisions (Any := Any) (pr_Decisions p) (sy_cursorKey (sw_syncer w)) (pr_Cursor p)
        (clock (sw_store w)) (meanwhile w) = Ok (tt, committed (sw_store w')) /\
      sw_trusted w' = new_trusted (syncer_cfg w) p (sw_trusted w) /\
      sw_syncer w' = set_cursor (new_cursor p (sy_cursor (sw_syncer w))) (sw_syncer w)) \/
   (is_ok r = false /\ sw_syncer w' = sw_syncer w /\
      (committed (sw_store w') = committed (sw_store w) \/ committed (sw_store w') = meanwhile w) /\
      (sw_trusted w' = sw_trusted w \/ exists p, check_policy (syncer_cfg w) (pr_Decisions p) = Ok tt /\
         sw_trusted w' = new_trusted (syncer_cfg w) p (sw_trusted w)))) /\
  (forall req status text p, sw_net w 0%nat = Reply status text (Some p) None ->
     Z.quot status 100 = 2 -> policy_request (syncer_cfg w) (sy_cursor (sw_syncer w)) = Ok req ->
     check_policy (syncer_cfg w) (pr_Decisions p) = Ok tt ->
     script (sw_store w) = [] -> sw_trust_faults w = [] -> r = Ok tt).
Proof.
  intros Hw Hp. split.
  - apply pullPolicy_inv in Hp; [|done].
    destruct Hp as [reqs e w' _ _ _ Hst Htr Hs _|req x p r w' Hreq Hx Hlog _ _ [(Hr & Hc & Ha & Ht & Hs)|(Hr & Hd & Ht & Hs)]].
    + right. rewrite Hst. auto.
    + left. by exists req, x, p.
    + right. split_and!; [done..|]. destruct Ht as [Ht|[Hc Ht]]; [by left|right; by exists p].
  - intros req status text p Hnet H2 Hreq Hc Hs Ht.
    unfold pullPolicy in Hp. unfold mbind, SyncM_bind, get_syncer, n_lift, client_Do in Hp.
    unfold syncer_cfg in *. rewrite Hreq in Hp. rewrite Hnet in Hp. simpl in Hp.
    unfold cp_closeWithError, check_status in Hp.
    rewrite H2 in Hp. destruct (Z.eqb_spec status 403) as [->|_]; [done|]. simpl in Hp.
    set (w1 := upd_net _ _ w) in *.
    pose proof (apply_policy_succeeds p w1 Hw Hs) as Hok. change (sw_trust_faults w1) with (sw_trust_faults w) in Hok.
    rewrite Ht in Hok. specialize (Hok eq_refl Hc). change (sw_syncer w1) with (sw_syncer w) in Hok.
    destruct (apply_policy (sw_syncer w) p w1) as [ra w2]. simpl in Hok. subst ra. by injection Hp as <- _.
Qed.

(** ** Invariants of the cursor and the database *)

(** What valid policies and the other goroutines preserve holds after any number
    of cycles. *)
Lemma Run_cursor_db (P : string -> DB -> Prop) cfg key fuel interval events w r w' :
  (forall p c t d d', P c d -> check_policy cfg (pr_Decisions p) = Ok tt ->
     apply_decisions (Any := Any) (pr_Decisions p) key (pr_Cursor p) t d = Ok (tt, d') ->
     P (new_cursor p c) d') ->
  syncer_cfg w = cfg -> sy_cursorKey (sw_syncer w) = key -> working (sw_store w) = None ->
  (forall n c d, P c d -> P c (sw_others w n d)) ->
  P (sy_cursor (sw_syncer w)) (committed (sw_store w)) ->
  Run (Any := Any) fuel interval events w = (r, w') ->
  P (sy_cursor (sw_syncer w')) (committed (sw_store w')).
Proof.
  intros Hpol Hcfg Hkey Hw Hoth HP Hrun.
  set (I v := syncer_cfg v = cfg /\ sy_cursorKey (sw_syncer v) = key /\ working (sw_store v) = None /\
    (forall n c d, P c d -> P c (sw_others v n d)) /\
    P (sy_cursor (sw_syncer v)) (committed (sw_store v))).
  enough (I w') as (_ & _ & _ & _ & ?) by done. revert Hrun. apply (Run_invariant I); [| | |done].
  - intros w1 r1 w2 (I1 & I2 & I3 & I4 & I5) Hp.
    apply pushObservations_effect in Hp as (_ & _ & _ & _ & _ & C & Cu & K & W & _ & (used & O1 & O2) & _).
    split_and!; try congruence.
    + intros n. rewrite O1, s_drop_lookup. apply I4.
    + rewrite Cu, O2. apply db_after_invariant; [|done]. auto.
  - intros w1 r1 w2 (I1 & I2 & I3 & I4 & I5) Hp. pose proof Hp as Hp'.
    apply pullPolicy_effect in Hp as (_ & _ & _ & _ & C & K & _ & W); [|done].
    apply pullPolicy_inv in Hp'; [|done].
    assert ((forall n c d, P c d -> P c (sw_others w2 n d)) /\
      P (sy_cursor (sw_syncer w1)) (meanwhile w1)) as [I4' Hm].
    { split; [|by apply I4].
      assert (others_left w1 w2) as [->| ->] by (by inversion Hp'); [done|]. intros n. apply (I4 (S n)). }
    split; [congruence|]. split; [congruence|]. split; [done|]. split; [done|].
    inversion Hp' as [reqs e ? _ _ _ Hst Htr Hs _|req x p ? ? _ _ _ _ _ [(_ & Hc & Ha & _ & Hs)|(_ & Hd & _ & Hs)]]; subst.
    + by rewrite Hs, Hst.
    + rewrite Hs. simpl. eapply Hpol; [exact Hm|rewrite <- I1; exact Hc|rewrite <- I2; exact Ha].
    + rewrite Hs. by destruct Hd as [->| ->].
  - intros t w1 HI. exact HI.
Qed.

Lemma cursor_key_nonempty cfg : cursor_key cfg <> "".
Proof. done. Qed.

Lemma cursor_key_is_cursor cfg : is_cursor_key (cursor_key cfg) = true.
Proof.
  unfold is_cursor_key, cursor_key. generalize (hex_bytes (Sum256 (cfg_URL cfg +:+ String nul (InstanceID cfg)))).
  intros s. by destruct s.
Qed.

(** What building a Syncer reads and leaves. *)
Lemma controlplane_New_inv `{TLSFiles} cfg st v st' : controlplane_New cfg st = (Ok v, st') ->
  sy_cfg v.2 = cfg /\ sy_cursorKey v.2 = cursor_key cfg /\
  (sy_acknowledged v.2 = None /\ sy_lastFullSync v.2 = zero_instant) /\
  get_meta (cursor_key cfg) (committed st) = Ok (sy_cursor v.2) /\
  committed st' = committed st /\ working st' = working st.
Proof.
  unfold controlplane_New, mbind, M_bind, lift.
  destruct (Validate cfg); [|done]. destruct (newHTTPClient cfg); [|done].
  destruct (GetMeta (cursor_key cfg) st) as [[c|] st1'] eqn:E; [|done]. intros [= <- <-].
  destruct (reads_GetMeta (cursor_key cfg) st (committed st) _ _ eq_refl E) as (A1 & A2 & _ & A4 & _).
  by rewrite <- (A4 eq_refl).
Qed.

(** C16: a restart resumes where the process was: after any number of cycles,
    with any faults, a Syncer built anew on the same database has the cursor the
    old one had in memory, as long as nobody else writes that meta key. *)
Theorem restart_resumes_cursor `{TLSFiles} cfg st0 client s st1 fuel interval events w r w' st2 client' s' st3 :
  controlplane_New cfg st0 = (Ok (client, s), st1) -> working st0 = None ->
  sw_syncer w = s -> sw_store w = st1 ->
  (forall n d, db_meta (sw_others w n d) !! cursor_key cfg = db_meta d !! cursor_key cfg) ->
  Run (Any := Any) fuel interval events w = (r, w') ->
  committed st2 = committed (sw_store w') -> controlplane_New cfg st2 = (Ok (client', s'), st3) ->
  sy_cursor s' = sy_cursor (sw_syncer w').
Proof.
  intros (N1 & N2 & _ & N3 & N4 & N5)%controlplane_New_inv Hw Hs Hst Hoth Hrun Hc (M1 & M2 & _ & M3 & _)%controlplane_New_inv.
  simpl in *.
  enough (get_meta (cursor_key cfg) (committed (sw_store w')) = Ok (sy_cursor (sw_syncer w'))) as Hg
    by (rewrite Hc, Hg in M3; by injection M3).
  eapply (Run_cursor_db (fun c d => get_meta (cursor_key cfg) d = Ok c)); [..|exact Hrun].
  - intros p c t d d' Hcd _ Ha. unfold apply_decisions in Ha. destruct (encode_decisions _) as [ds|]; [|done].
    injection Ha as <-. unfold get_meta, new_cursor, str_empty in *. rewrite bool_decide_false by apply cursor_key_nonempty. simpl.
    destruct (bool_decide_reflect (pr_Cursor p = "")) as [He|He]; simpl.
    + by destruct (decide_db_rest (encodeTime t) ds d) as (_ & _ & _ & _ & ->).
    + by rewrite lookup_insert_eq.
  - unfold syncer_cfg. by rewrite Hs.
  - by rewrite Hs.
  - by rewrite Hst, N5.
  - intros n c d. unfold get_meta. by rewrite Hoth.
  - by rewrite Hs, Hst, N4.
Qed.

(** C17: a cleared store starts over: after a successful ResetFingerprints a Syncer
    built on the database, for whatever hub and instance, has no cursor, so its
    first pull asks for the whole policy, and its first push is a full snapshot
    that holds nothing as acknowledged. *)
Theorem reset_refetches_policy `{TLSFiles} cfg st n st1 st2 client s st3 :
  working st = None -> ResetFingerprints st = (Ok n, st1) -> committed st2 = committed st1 ->
  controlplane_New cfg st2 = (Ok (client, s), st3) ->
  sy_cursor s = "" /\
  (forall req, policy_request cfg (sy_cursor s) = Ok req ->
     endpointURL (cfg_URL cfg) "/v1/policy" (InstanceID cfg) "" = Ok (rq_URL req)) /\
  ack_map s = ∅ /\ (forall started, full_due started (sy_lastFullSync s) = true) /\
  db_fps (committed st2) = ∅.
Proof.
  intros Hw Hrun Hc (_ & _ & [N1 N2] & N3 & _)%controlplane_New_inv. cbn [snd] in *.
  destruct ResetFingerprints_atomic as [Hi _]. destruct (Hi st _ st1 Hw Hrun) as (_ & _ & H3 & _).
  specialize (H3 n eq_refl). injection H3 as _ H3. rewrite Hc, <- H3 in *.
  assert (sy_cursor s = "") as E.
  { unfold get_meta in N3. cbn [db_meta reset_db set_meta delete_fps] in N3.
    rewrite map_lookup_filter_None_2 in N3; [by injection N3|].
    right. intros v _. cbn [fst]. by rewrite cursor_key_is_cursor. }
  rewrite E. split_and!; [done| | | |].
  - intros req. unfold policy_request, new_request, mbind, result_bind.
    destruct (endpointURL _ _ _ _) as [u|]; [|done]. destruct (Parse u); [|done]. by intros [= <-].
  - unfold ack_map. by rewrite N1.
  - intros started. rewrite N2. done.
  - apply map_eq. intros fp. rewrite lookup_empty.
    change (db_fps (reset_db ?d)) with (db_fps (delete_fps (fps_sorted d) d)).
    rewrite delete_fps_lookup. case_decide as Hin; [done|].
    destruct (db_fps (committed st) !! fp) eqn:Er; [|done]. destruct Hin. apply elem_of_fps_sorted. eauto.
Qed.

Definition no_scopes (d : DB) : Prop :=
  forall fp row, db_fps d !! fp = Some row -> fr_approval_ranges row = None.

Lemma unscoped_policy cfg ds :
  SupportsApprovalRanges cfg = false -> check_policy cfg ds = Ok tt ->
  Forall (fun dec => dec_ApprovalRanges dec = None) ds.
Proof.
  intros Hsup. induction ds as [|d ds IH]; [constructor|]. cbn [check_policy].
  destruct (Decision_Validate d); [done|]. rewrite Hsup, andb_true_r.
  case_bool_decide as Hs; [done|]. intros Hc. constructor; [|by apply IH].
  destruct (dec_ApprovalRanges d); [|done]. by destruct Hs.
Qed.

(** C18: a gate that has not declared support for scoped approvals never stores
    one, whatever the hub sends: starting from rows without scopes, no cycle
    writes a scope, so an approval it cannot enforce is refused, not widened. *)
Theorem unsupporting_gate_stores_no_scope fuel interval events w r w' :
  SupportsApprovalRanges (syncer_cfg w) = false -> working (sw_store w) = None ->
  (forall n d, no_scopes d -> no_scopes (sw_others w n d)) ->
  no_scopes (committed (sw_store w)) ->
  Run (Any := Any) fuel interval events w = (r, w') -> no_scopes (committed (sw_store w')).
Proof.
  intros Hsup Hw Hoth H0 Hrun.
  eapply (Run_cursor_db (fun _ d => no_scopes d)); [|done|done|done|by auto|done|exact Hrun].
  intros p c t d d' Hd Hc Ha. apply unscoped_policy in Hc; [|done].
  unfold apply_decisions in Ha. destruct (encode_decisions _) as [ds|] eqn:He; [|done].
  apply encode_decisions_spec in He as [_ ->]. injection Ha as <-.
  assert (no_scopes (decide_db (encodeTime t) (map (fun dec => (dec, ranges_text dec)) (pr_Decisions p)) d)) as Hn;
    [|by destruct (_ && _)].
  intros fp row. rewrite decide_db_lookup.
  destruct (last (decisions_for fp (pr_Decisions p))) as [dec|] eqn:El; [|apply Hd].
  intros [= <-]. apply last_Some_elem_of, list_elem_of_filter in El as [_ Hin].
  rewrite Forall_forall in Hc. unfold ranges_text. rewrite (Hc dec Hin).
  by destruct (db_fps d !! fp).
Qed.
End policy.

(** ** Concrete runs *)

(** Readers of files that hold nothing. *)
Definition demo_tls : TLSFiles :=
  {| Certificate := unit; CertPool := unit; LoadX509KeyPair := fun _ _ => Err (ErrDriver "no such file");
     ReadFile := fun _ => Err (ErrDriver "no such file"); AppendCertsFromPEM := fun _ => None |}.

Lemma pullPolicy_all_or_nothing_witness :
  let w := demo_sync (demo_world []) [ok_reply] in
  (pullPolicy (Any := PlainValue) w).1 = Ok tt.
Proof.
  cbv zeta. refine (proj2 (pullPolicy_all_or_nothing (Any := PlainValue) (demo_sync (demo_world []) [ok_reply]) _ _
    eq_refl (surjective_pairing _)) _ 200 "" demo_policy eq_refl eq_refl _ _ eq_refl eq_refl).
  - vm_compute. reflexivity.
  - vm_compute. reflexivity.
Defined.

(** The Syncer New builds on a store. *)
Definition built (st : World) : option Syncer :=
  match controlplane_New (H := demo_tls) demo_cfg st with
  | (Ok (_, s), _) => Some s
  | _ => None
  end.

(** The gate after a first cycle: the upload times out, the policy arrives. *)
Definition first_cycle (st : World) : SyncWorld :=
  let w := demo_sync (controlplane_New (H := demo_tls) demo_cfg st).2 [NetError "timeout"; ok_reply] in
  match built st with
  | Some s => (Run (Any := PlainValue) 2 (Interval demo_cfg) [] (upd_syncer (fun _ => s) w)).2
  | None => w
  end.

Lemma built_some st s :
  built st = Some s ->
  exists client, controlplane_New (H := demo_tls) demo_cfg st =
    (Ok (client, s), (controlplane_New (H := demo_tls) demo_cfg st).2).
Proof.
  unfold built. destruct (controlplane_New demo_cfg st) as [[[client s']|] st1]; [|done].
  intros [= <-]. by exists client.
Qed.

Lemma restart_resumes_cursor_witness :
  exists s', built (sw_store (first_cycle (demo_world []))) = Some s' /\
    sy_cursor s' = sy_cursor (sw_syncer (first_cycle (demo_world []))).
Proof.
  assert (bool_decide (is_Some (sy_cursor <$> built (demo_world []))) = true) as [c Hc]%bool_decide_eq_true
    by (vm_compute; reflexivity).
  assert (bool_decide (is_Some (sy_cursor <$> built (sw_store (first_cycle (demo_world []))))) = true)
    as [c' Hc']%bool_decide_eq_true by (vm_compute; reflexivity).
  apply fmap_Some in Hc as (s & Hs & _). apply fmap_Some in Hc' as (s' & Hs' & _).
  exists s'. split; [exact Hs'|].
  destruct (built_some _ _ Hs) as [client Hn]. destruct (built_some _ _ Hs') as [client' Hn'].
  set (w := upd_syncer (fun _ => s) (demo_sync (controlplane_New (H := demo_tls) demo_cfg (demo_world [])).2
    [NetError "timeout"; ok_reply])).
  assert (first_cycle (demo_world []) = (Run (Any := PlainValue) 2 (Interval demo_cfg) [] w).2) as Hw
    by (unfold first_cycle; rewrite Hs; reflexivity).
  exact (restart_resumes_cursor (H0 := demo_tls) (Any := PlainValue) demo_cfg (demo_world []) client s _
    2 (Interval demo_cfg) [] w _ (first_cycle (demo_world [])) _ client' s' _ Hn eq_refl eq_refl eq_refl
    (fun _ _ => eq_refl) (eq_ind_r (fun x => Run (Any := PlainValue) 2 (Interval demo_cfg) [] w = (_, x))
      (surjective_pairing _) Hw) eq_refl Hn').
Defined.

Definition plain_cfg : Config :=
  {| SupportsApprovalRanges := false; cfg_URL := "https://hub.example"; InstanceID := "mx";
     Token := "t"; ClientCert := ""; ClientKey := ""; cfg_CA := ""; ServerName := "";
     SyncInterval := ""; ApplyTrustedRanges := false |}.

Definition plain_sync (net : list Exchange) : SyncWorld :=
  {| sw_syncer := {| sy_cfg := plain_cfg; sy_cursor := ""; sy_cursorKey := "gatehub_cursor:x";
                     sy_acknowledged := None; sy_lastFullSync := zero_instant |};
     sw_store := one_entry; sw_others := fun _ d => d; sw_net := s_list net (NetError "connection refused"); sw_log := []; sw_ctx := [];
     sw_trusted := []; sw_trust_faults := [] |}.

(** The policy of the example holds a scoped approval: it is refused as a whole. *)
Lemma unsupporting_gate_stores_no_scope_witness :
  no_scopes (committed (sw_store (Run (Any := PlainValue) 2 (Interval plain_cfg) []
    (plain_sync [ok_reply; ok_reply])).2)).
Proof.
  refine (unsupporting_gate_stores_no_scope (Any := PlainValue) 2 (Interval plain_cfg) []
    (plain_sync [ok_reply; ok_reply]) _ _ eq_refl eq_refl (fun _ _ Hd => Hd) _ (surjective_pairing _)).
  intros fp row Hl. change (({[ "ab" := demo_row StatusPending "" 0 None ]} : gmap string FpRow) !! fp = Some row) in Hl.
  apply lookup_singleton_Some in Hl as [_ <-]. reflexivity.
Defined.

(** The gate has a cursor and a row, is reset and starts again. *)
Definition cursor_db : DB :=
  set_meta <[cursor_key demo_cfg := "c7"]> (committed one_entry).
Definition cursor_world : World := {| committed := cursor_db; working := None; script := []; clock := clock one_entry |}.

Lemma reset_refetches_policy_witness :
  exists s, built (ResetFingerprints cursor_world).2 = Some s /\ sy_cursor s = "" /\
    sy_cursor <$> built cursor_world = Some "c7".
Proof.
  assert (bool_decide (is_Some (sy_cursor <$> built (ResetFingerprints cursor_world).2)) = true)
    as [c Hc]%bool_decide_eq_true by (vm_compute; reflexivity).
  assert (is_ok (ResetFingerprints cursor_world).1 = true) as Hr by (vm_compute; reflexivity).
  apply fmap_Some in Hc as (s & Hs & _). exists s. split; [exact Hs|].
  destruct (built_some _ _ Hs) as [client Hn].
  destruct (ResetFingerprints cursor_world) as [[n|e] st1] eqn:E; [|done]. cbn [snd] in Hn.
  split; [|vm_compute; reflexivity].
  exact (proj1 (reset_refetches_policy (H0 := demo_tls) demo_cfg cursor_world n st1 st1 client s _ eq_refl E eq_refl Hn)).
Defined.
