(* ===== verification/EndpointProps.v ===== *)
(** Properties of the control plane, third group: the configuration and the URLs
    built from the configured one. *)

From S2P Require Import Prelude GoStrings GoTime Netip Json GoDuration GoUrl UrlLemmas UrlFragments Approval Database Tables Store Writes ControlPlane SyncRun.
From Stdlib Require Import Ascii String.
From stdpp Require Import strings gmap sorting.
#[local] Open Scope stdpp_scope.
#[local] Open Scope Z_scope.

(** ** Endpoints *)

(** What Validate has seen. *)
Lemma Validate_parsed cfg :
  Validate cfg = Ok tt ->
  exists u, ParseRequestURI (cfg_URL cfg) = Ok u /\ u_Scheme u <> "" /\ ToLower (u_Scheme u) = "https" /\
    u_Host u <> "" /\ u_User u = None.
Proof.
  unfold Validate. destruct (str_empty (InstanceID cfg)); [done|]. destruct (_ && _); [done|].
  destruct (ParseRequestURI (cfg_URL cfg)) as [u|] eqn:E; [|done].
  destruct (_ || _) eqn:Eu; [done|]. intros _. exists u.
  apply orb_false_elim in Eu as [[[[Ha Hh]%orb_false_elim Hn]%orb_false_elim Hu]%orb_false_elim _].
  apply negb_false_iff in Ha, Hh. unfold IsAbs in Ha. apply negb_true_iff, bool_decide_eq_false in Ha.
  unfold is_https in Hh. apply bool_decide_eq_true in Hh. apply bool_decide_eq_false in Hu, Hn.
  split_and!; [done..| |].
  - intros Hz. apply Hn. unfold Hostname. by rewrite Hz.
  - destruct (u_User u); [|done]. by destruct Hu.
Qed.

(** The URL endpointURL starts from: the one validated, without its fragment. *)
Lemma Validate_url cfg u :
  Validate cfg = Ok tt -> Parse (cfg_URL cfg) = Ok u ->
  hosted u /\ u_Scheme u = "https" /\ u_Host u <> "" /\ u_User u = None.
Proof.
  intros (u1 & E & Ha & Hl & Hh & Hu)%Validate_parsed Hp.
  pose proof (ho_scheme _ (url_parse_hosted _ _ _ E Hh)) as Hs. rewrite Hl in Hs. unfold Parse in Hp.
  destruct (cut_byte "#" (cfg_URL cfg)) as [[a z]|] eqn:Ec; cbn [from_option id] in Hp; unfold mbind, result_bind in Hp.
  - apply cut_byte_Some in Ec as [Ec Hno]. unfold ParseRequestURI in E. rewrite Ec in E.
    destruct (url_parse a false) as [u0|] eqn:E0; [|done].
    destruct (fragment_same_host a z true u1 u0 Hno E Ha Hh Hu E0) as (F1 & F2 & F3).
    assert (hosted u0) as Hho by (apply (url_parse_hosted _ _ _ E0); by rewrite F2).
    case_bool_decide; [injection Hp as <-; split_and!; congruence|].
    destruct (or_err _ _); [|done]. injection Hp as <-. cbn [u_Scheme u_Host u_User set_fragment].
    split_and!; [by destruct Hho; constructor|congruence..].
  - rewrite (url_parse_via _ _ E Ha) in Hp. injection Hp as <-.
    split_and!; [by eapply url_parse_hosted|congruence|done|done].
Qed.

Lemma Validate_no_fragment cfg :
  Validate cfg = Ok tt -> has_byte "#" (cfg_URL cfg) = false -> exists u, Parse (cfg_URL cfg) = Ok u.
Proof.
  intros (u & E & Ha & _)%Validate_parsed Hf. exists u. unfold Parse. apply cut_byte_None in Hf as ->.
  simpl. unfold mbind, result_bind. by rewrite (url_parse_via _ _ E Ha).
Qed.

Lemma escaped_path_slash u p q :
  hosted u -> starts_slash p = true -> starts_slash (EscapedPath (set_query q (set_path p u))) = true.
Proof.
  intros Hu Hp. unfold EscapedPath. simpl. rewrite bool_decide_false by (by intros ->). simpl.
  unfold escaped_form. destruct (_ && _) eqn:E.
  - apply andb_prop in E as [[E _]%andb_prop _]. apply negb_true_iff, bool_decide_eq_false in E.
    by destruct (ho_raw _ Hu).
  - destruct p as [|[[] [] [] [] [] [] [] []] p]; done.
Qed.

Lemma slash_text s : starts_slash s = true -> exists r, s = String "/" r.
Proof. destruct s as [|[[] [] [] [] [] [] [] []] r]; try done. eauto. Qed.

(** A hosted URL written with another path and query. *)
Lemma hosted_text u p q :
  hosted u -> u_Scheme u = "https" -> u_Host u <> "" -> u_User u = None -> starts_slash p = true ->
  exists rest, URL_String (set_query q (set_path p u)) =
    "https://" +:+ (escape encodeHost (u_Host u) +:+ String "/" rest).
Proof.
  intros Hu Hs Hh Hus Hp.
  destruct (slash_text _ (escaped_path_slash u p q Hu Hp)) as [r Hr].
  unfold URL_String, hierarchy_text, authority_text. rewrite Hr.
  cbn [u_Scheme u_Opaque u_Host u_Path u_User u_OmitHost set_query set_path].
  rewrite Hs, (ho_opaque _ Hu), (ho_omit _ Hu), Hus. rewrite (bool_decide_false (u_Host u = "")) by done.
  simpl. rewrite !GoStrings.app_assoc.
  set (tail := (if _ || _ then _ else _) +:+ _). exists (r +:+ tail).
  rewrite !GoStrings.app_nil_l. by rewrite <- GoStrings.app_cons.
Qed.

(** The query endpointURL writes. *)
Definition endpoint_values (u : URL) (inst since : string) : Values :=
  let q := Values_Set "instance_id" inst (Query u) in
  if str_empty since then q else Values_Set "since" since q.

Lemma trim_slashes_slash s path :
  s = "" \/ starts_slash s = true -> starts_slash path = true -> starts_slash (trim_slashes s +:+ path) = true.
Proof.
  intros Hs Hp. destruct s as [|c s]; [done|]. destruct Hs as [|Hs]; [done|]. cbn [trim_slashes].
  case_bool_decide; [done|]. by rewrite GoStrings.app_cons.
Qed.

(** C19: the requests of a validated configuration stay on its host.  Unless the
    configured URL has a fragment that does not decode, in which case no request
    can be built, every endpoint reads https, the configured host, a slash and the
    rest, the host's text holding none of the bytes that could end it early; and
    whatever the instance and cursor contain, the server reads back exactly them
    and the settings the configured URL had, as long as there are no more than the
    10000 settings net/url accepts. *)
Theorem endpoint_stays_on_host cfg path inst since :
  Validate cfg = Ok tt -> starts_slash path = true ->
  (has_byte "#" (cfg_URL cfg) = false -> exists u, Parse (cfg_URL cfg) = Ok u) /\
  match Parse (cfg_URL cfg) with
  | Err e => endpointURL (cfg_URL cfg) path inst since = Err e
  | Ok u => u_Host u <> "" /\ exists u' rest,
      endpointURL (cfg_URL cfg) path inst since = Ok (URL_String u') /\
      URL_String u' = "https://" +:+ (escape encodeHost (u_Host u) +:+ String "/" rest) /\
      (forall d, d ∈ ["/"%char; "@"%char; "?"%char; "#"%char] ->
         has_byte d (escape encodeHost (u_Host u)) = false) /\
      u_Path u' = trim_slashes (u_Path u) +:+ path /\
      ((List.length (settings (endpoint_values u inst since)) <= max_query_params)%nat ->
       forall key, Query u' !! key =
         if bool_decide (key = "since" /\ since <> "") then Some [since]
         else if bool_decide (key = "instance_id") then Some [inst] else Query u !! key)
  end.
Proof.
  intros Hv Hp. split; [by apply Validate_no_fragment|].
  destruct (Parse (cfg_URL cfg)) as [u|e] eqn:Hu.
  2:{ unfold endpointURL, mbind, result_bind. by rewrite Hu. }
  destruct (Validate_url cfg u Hv Hu) as (Hho & Hs & Hh & Hus). split; [done|].
  set (p := trim_slashes (u_Path u) +:+ path).
  assert (starts_slash p = true) as Hps by (apply trim_slashes_slash; [apply Hho|done]).
  set (u' := set_query (Values_Encode (endpoint_values u inst since)) (set_path p u)).
  destruct (hosted_text u p (Values_Encode (endpoint_values u inst since)) Hho Hs Hh Hus Hps) as [rest Hr].
  exists u', rest. split_and!; try done.
  - unfold endpointURL, mbind, result_bind. rewrite Hu. reflexivity.
  - intros d Hd. by apply escape_host_clean.
  - intros Hlen key. unfold Query at 1. simpl. rewrite parse_query_encode; [|clear|done].
    + unfold endpoint_values, Values_Set, str_empty.
      destruct (bool_decide_reflect (since = "")) as [->|Hne].
      * rewrite bool_decide_false by naive_solver.
        case_bool_decide as Hk; [by subst; rewrite lookup_insert_eq|by rewrite lookup_insert_ne].
      * destruct (decide (key = "since")) as [->|Hk1].
        { rewrite bool_decide_true by done. by rewrite lookup_insert_eq. }
        rewrite bool_decide_false by naive_solver. rewrite lookup_insert_ne by done.
        case_bool_decide as Hk; [by subst; rewrite lookup_insert_eq|by rewrite lookup_insert_ne].
    + intros k vs. unfold endpoint_values, Values_Set.
      destruct (str_empty since); intros Hl;
        repeat (apply lookup_insert_Some in Hl as [[_ <-]|[_ Hl]]; [done|]);
        by eapply parse_query_nonempty.
Qed.

(** ** Concrete configurations *)

Definition hub_cfg (url : string) : Config :=
  {| SupportsApprovalRanges := true; cfg_URL := url; InstanceID := "mx"; Token := "t"; ClientCert := "";
     ClientKey := ""; cfg_CA := ""; ServerName := ""; SyncInterval := ""; ApplyTrustedRanges := false |}.

(** With a base path, a setting and a fragment in the configured URL. *)
Lemma endpoint_stays_on_host_witness :
  exists text rest, endpointURL "https://hub.example:8443/base/?tenant=a#x" "/v1/policy" "m&x=1" "9" = Ok text /\
    text = "https://hub.example:8443/" +:+ rest.
Proof.
  destruct (endpoint_stays_on_host (hub_cfg "https://hub.example:8443/base/?tenant=a#x") "/v1/policy" "m&x=1" "9")
    as [_ H]; [vm_compute; reflexivity..|].
  destruct (Parse (cfg_URL (hub_cfg "https://hub.example:8443/base/?tenant=a#x"))) as [u|e] eqn:Hu;
    [|vm_compute in Hu; discriminate Hu].
  destruct H as (_ & u' & rest & He & Ht & _). exists (URL_String u'), rest. split; [exact He|]. rewrite Ht.
  assert (u_Host u = "hub.example:8443") as ->; [|reflexivity].
  vm_compute in Hu. by injection Hu as <-.
Defined.

(** The check for a fragment never applies: ParseRequestURI does not split one
    off.  A URL with a fragment is accepted, and one whose fragment is badly
    escaped makes every later request fail. *)
Theorem Validate_accepts_fragment :
  Validate (hub_cfg "https://hub.example/#frag") = Ok tt /\
  Validate (hub_cfg "https://hub.example/?a=1#%zz") = Ok tt /\
  forall path inst since, is_ok (endpointURL "https://hub.example/?a=1#%zz" path inst since) = false.
Proof. split_and!; [vm_compute; reflexivity..|done]. Qed.

(** An escaped slash in the configured path is not kept. *)
Theorem endpointURL_unescapes_slash :
  endpointURL "https://hub.example/a%2Fb" "/v1/policy" "mx" "" =
  Ok "https://hub.example/a/b/v1/policy?instance_id=mx".
Proof. vm_compute. reflexivity. Qed.
