(* ===== verification/LoopProps.v ===== *)
(** Properties of the control plane, fourth group: the loop of Run.  Each cycle
    comes to its end, none can end the loop, and only the context does. *)

From S2P Require Import Prelude GoStrings GoTime Netip Json JsonText GoDuration Sha256 GoUrl Approval Database Tables Store Writes Refinement Invariant Reading StoreProps ControlPlane SyncRun NoPanic SyncProps.
From Stdlib Require Import Ascii String.
From stdpp Require Import strings gmap sorting.
#[local] Open Scope stdpp_scope.
#[local] Open Scope Z_scope.

(** ** The period *)

Lemma duration_part_range s v rest : duration_part s = Some (v, rest) -> 0 <= v <= two63.
Proof.
  unfold duration_part. destruct s as [|c s]; [done|]. destruct (unit_byte c); [done|].
  unfold mbind, option_bind. destruct (leadingInt 0 _) as [[n s1]|]; [|done].
  destruct (read_fraction s1) as [[f scale] s2]. destruct (_ && _); [done|].
  destruct (take_unit s2) as [u r]. destruct (if bool_decide (u = "") then _ else _) as [unit|]; [|done].
  destruct (_ <? n); [done|]. destruct (if 0 <? f then _ else _) as [extra|]; [|done].
  destruct (two63 <? wrap_u64 _) eqn:E; [done|]. intros [= <- _].
  split; [|lia]. apply Z.mod_pos_bound. lia.
Qed.

Lemma duration_parts_range fuel d s v : 0 <= d <= two63 -> duration_parts fuel d s = Some v -> 0 <= v <= two63.
Proof.
  revert d s. induction fuel as [|fuel IH]; intros d s Hd.
  { destruct s; [|done]. by intros [= <-]. }
  destruct s as [|c s]; [by intros [= <-]|]. cbn [duration_parts].
  unfold mbind, option_bind. destruct (duration_part _) as [[x rest]|]; [|done].
  destruct (two63 <? wrap_u64 (d + x)) eqn:E; [done|]. apply IH.
  split; [|lia]. apply Z.mod_pos_bound. lia.
Qed.

(** A parsed duration fits an int64. *)
Lemma ParseDuration_range s d : ParseDuration s = Ok d -> int64_min <= d <= int64_max.
Proof.
  unfold ParseDuration. destruct (sign_of s) as [neg body].
  case_bool_decide; [intros [= <-]; unfold int64_min, int64_max; lia|]. case_bool_decide; [done|].
  destruct (duration_parts _ 0 body) as [v|] eqn:E; [|done].
  apply duration_parts_range in E; [|unfold two63; lia]. unfold two63, int64_min, int64_max in *.
  destruct neg; [intros [= <-]; lia|]. destruct (_ <? v) eqn:?; [done|]. intros [= <-]. lia.
Qed.

(** Whatever the configuration, valid or not, time.NewTicker accepts its period. *)
Lemma Interval_range cfg : 0 < Interval cfg <= int64_max.
Proof.
  unfold Interval, DefaultSyncInterval. destruct (str_empty _); [unfold int64_max; lia|].
  destruct (ParseDuration _) as [d|] eqn:E; [|unfold int64_max; lia].
  apply ParseDuration_range in E. destruct (d <=? 0) eqn:?; unfold int64_max in *; lia.
Qed.

(** ** What the others may do *)

(** Below any text, other goroutines add fingerprints from a finite set only. *)
Definition orderly (others : stream (DB -> DB)) : Prop :=
  forall through, exists T : gset string, forall n d fp,
    is_Some (db_fps (others n d) !! fp) -> is_Some (db_fps d !! fp) \/ fp ∈ T \/ str_lt through fp.

Lemma orderly_tail others : orderly others -> orderly (s_tail others).
Proof. intros Ho through. destruct (Ho through) as [T HT]. exists T. intros n. apply (HT (S n)). Qed.

Lemma orderly_drop k others : orderly others -> orderly (s_drop k others).
Proof. revert others. induction k as [|k IH]; intros others Ho; [done|]. by apply IH, orderly_tail. Qed.

(** The texts of at most [n] bytes. *)
Fixpoint short_texts (n : nat) : list string :=
  match n with
  | O => [""]
  | S n => "" :: flat_map (fun c => map (String (ascii_of_nat c)) (short_texts n)) (List.seq 0 256)
  end.

Lemma elem_of_short_texts n s : (String.length s <= n)%nat -> s ∈ short_texts n.
Proof.
  revert s. induction n as [|n IH]; intros [|c s] Hs; cbn [String.length] in *; [by left|lia|by left|].
  right. apply list_elem_of_In, in_flat_map. exists (nat_of_ascii c). split.
  - apply in_seq. pose proof (nat_ascii_bounded c). lia.
  - rewrite ascii_nat_embedding. apply in_map, list_elem_of_In, IH. lia.
Qed.

(** They do so when there is a bound on the length of fingerprints, as there is
    for the hexadecimal digests the gates store. *)
Lemma short_fingerprints_orderly len others :
  (forall n d fp, is_Some (db_fps (others n d) !! fp) ->
     is_Some (db_fps d !! fp) \/ (String.length fp <= len)%nat) ->
  orderly others.
Proof.
  intros Ho through. exists (list_to_set (short_texts len)). intros n d fp [Hfp|Hfp]%Ho; [by left|right; left].
  apply elem_of_list_to_set. by apply elem_of_short_texts.
Qed.

Section loop.
Context `{JSONCodec Any}.

(** ** One cycle *)

(** The push after its pages. *)
Definition push_rest (s : Syncer) (full : bool) (started : instant)
    (pages : option (gset string * bool)) : SyncM unit :=
  r ← n_lift (match pages with Some r => Ok r | None => Err err_fuel end);
  (if (r.2 : bool) then mret tt
   else pushBatch (Any := Any) (sy_cfg s) {| ob_InstanceID := InstanceID (sy_cfg s); ob_Observations := [] |}) ;;
  modify_syncer (fun s => set_acknowledged (Some (filter (fun kv => kv.1 ∈ r.1) (ack_map s))) s) ;;
  (if full then modify_syncer (set_lastFullSync started) else mret tt).

Lemma push_rest_calm s full started r : calm_s (push_rest s full started (Some r)).
Proof.
  unfold push_rest. apply calm_s_bind; [auto with calm|intros r']. apply calm_s_bind.
  { destruct (r'.2 : bool); [auto with calm|apply pushBatch_calm]. }
  intros _. apply calm_s_bind; [auto with calm|intros _]. destruct full; auto with calm.
Qed.

(** With enough fuel a push does not depend on it, and does not panic. *)
Lemma pushObservations_enough w :
  orderly (sw_others w) ->
  exists n, forall fuel, (n <= fuel)%nat ->
    pushObservations (Any := Any) fuel w = pushObservations n w /\ calm (pushObservations (Any := Any) fuel w).1.
Proof.
  intros Ho. set (full := full_due (clock (sw_store w)) (sy_lastFullSync (sw_syncer w))).
  set (w0 := upd_syncer (fun s => set_acknowledged (Some (ack_map s)) s) w).
  assert (forall fuel, pushObservations (Any := Any) fuel w =
    match store_call LastFingerprint w0 with
    | (Ok through, w1) => (push_pages fuel full "" through ∅ false ≫= push_rest (sw_syncer w) full (clock (sw_store w))) w1
    | (Err e, w1) => (Err e, w1)
    end) as Hp by (intros fuel; unfold pushObservations, mbind, SyncM_bind, now, get_syncer, modify_syncer; done).
  destruct (store_call LastFingerprint w0) as [[through|e] w1] eqn:E.
  2:{ exists 0%nat. intros fuel _. rewrite !Hp. split; [done|].
      pose proof (store_call_calm LastFingerprint LastFingerprint_calm w0) as Hc.
      rewrite E in Hc. by eapply calm_err. }
  assert (orderly (sw_others w1)) as Ho1.
  { apply (store_call_reads _ _ _ _ _ reads_LastFingerprint) in E as (_ & _ & _ & -> & _). by apply orderly_tail. }
  destruct (Ho1 through) as [T HT].
  destruct (push_pages_terminates full "" through ∅ false (dom (db_fps (committed (sw_store w1))) ∪ T) w1) as [Hn1 Hn2].
  { by apply orderly_confined. }
  set (n := S _) in *. exists n. intros fuel Hfuel. rewrite !Hp. unfold mbind, SyncM_bind. rewrite (Hn2 fuel Hfuel).
  split; [done|]. pose proof (push_pages_calm n full "" through ∅ false w1) as Hc.
  destruct (push_pages n full "" through ∅ false w1) as [[[r|]|e] w2]; [|done|by eapply calm_err].
  apply push_rest_calm.
Qed.

(** What a cycle does, seen on the log: it posts observations, and then, whatever
    has become of that, asks for the policy after the cursor it holds. *)
Definition cycle (w w' : SyncWorld) : Prop :=
  syncer_cfg w' = syncer_cfg w /\
  exists posts gets, sw_log w' = sw_log w ++ posts ++ gets /\
    Forall (fun rx => rq_Method rx.1 = "POST") posts /\
    match policy_request (syncer_cfg w) (sy_cursor (sw_syncer w)) with
    | Ok req => rq_Method req = "GET" /\ exists x, gets = [(req, x)]
    | Err _ => gets = []
    end.

Lemma batch_request_method cfg (b : observationBatch Any) req : batch_request cfg b = Ok req -> rq_Method req = "POST".
Proof.
  unfold batch_request, new_request, mbind, result_bind. destruct (batch_json b); [|done].
  destruct (endpointURL _ _ _ _) as [u|]; [|done]. destruct (Parse u); [|done]. by intros [= <-].
Qed.

Lemma policy_request_method cfg cursor req : policy_request cfg cursor = Ok req -> rq_Method req = "GET".
Proof.
  unfold policy_request, new_request, mbind, result_bind.
  destruct (endpointURL _ _ _ _) as [u|]; [|done]. destruct (Parse u); [|done]. by intros [= <-].
Qed.

(** Applying a policy sends nothing. *)
Lemma apply_policy_sends_nothing s p w r w' :
  apply_policy (Any := Any) s p w = (r, w') ->
  sw_log w' = sw_log w /\ syncer_cfg w' = syncer_cfg w /\ exists k, sw_others w' = s_drop k (sw_others w).
Proof.
  unfold apply_policy. intros [([] & w1 & [= _ <-] & Hk)|(e & [= _ <-] & _)]%n_bind_inv; [|by split_and!; [..|by exists 0%nat]].
  assert (forall r1 w2, match pr_TrustedRanges p with
    | Some ranges => if ApplyTrustedRanges (sy_cfg s)
        then wrap_policy_error "apply trusted ranges" (apply_trusted ranges) else mret tt
    | None => mret tt end w = (r1, w2) ->
    sw_log w2 = sw_log w /\ syncer_cfg w2 = syncer_cfg w /\ sw_others w2 = sw_others w) as Ht.
  { intros r1 w2. destruct (pr_TrustedRanges p) as [ranges|]; [|by intros [= _ <-]].
    destruct (ApplyTrustedRanges _); [|by intros [= _ <-]].
    unfold wrap_policy_error, apply_trusted. destruct (default None _); by intros [= _ <-]. }
  apply n_bind_inv in Hk as [([] & w2 & (T1 & T2 & T3)%Ht & Hk)|(e & (T1 & T2 & T3)%Ht & _)];
    [|by split_and!; [..|exists 0%nat]].
  apply n_bind_inv in Hk as [([] & w3 & Hs & Hk)|(e & Hs & _)]; unfold wrap_policy_error, store_call in Hs;
    destruct (ApplyDecisions _ _ _ _) as [r3 s3].
  - injection Hs as _ <-. destruct (str_empty _); injection Hk as _ <-;
      (split_and!; [done..|exists 1%nat; simpl; by rewrite T3]).
  - injection Hs as _ <-. split_and!; [done..|exists 1%nat; simpl; by rewrite T3].
Qed.

Lemma pullPolicy_sends w r w' :
  pullPolicy (Any := Any) w = (r, w') ->
  syncer_cfg w' = syncer_cfg w /\ (exists k, sw_others w' = s_drop k (sw_others w)) /\
  exists gets, sw_log w' = sw_log w ++ gets /\
    match policy_request (syncer_cfg w) (sy_cursor (sw_syncer w)) with
    | Ok req => gets = [(req, sw_net w 0%nat)]
    | Err _ => gets = []
    end.
Proof.
  unfold pullPolicy, mbind, SyncM_bind, get_syncer, n_lift. unfold syncer_cfg at 3.
  destruct (policy_request _ _) as [req|e].
  2:{ intros [= _ <-]. split_and!; [done|by exists 0%nat|]. exists []. by rewrite app_nil_r. }
  unfold client_Do. set (x := sw_net w 0%nat). set (w1 := upd_net _ _ w). intros Hk.
  enough (sw_log w' = sw_log w1 /\ syncer_cfg w' = syncer_cfg w /\ exists k, sw_others w' = s_drop k (sw_others w)) as (-> & ? & ?).
  { split_and!; [done..|]. by exists [(req, x)]. }
  assert (forall v, v = w1 -> sw_log v = sw_log w1 /\ syncer_cfg v = syncer_cfg w /\
    exists k, sw_others v = s_drop k (sw_others w)) as Hw1 by (intros v ->; split_and!; [done..|by exists 0%nat]).
  destruct x as [|status text body closed]; [injection Hk as _ <-; by apply Hw1|].
  unfold cp_closeWithError, check_status, n_throw in Hk.
  destruct (status =? 403); [injection Hk as _ <-; by apply Hw1|].
  destruct (negb _); [injection Hk as _ <-; by apply Hw1|].
  destruct body as [p|]; [|injection Hk as _ <-; by apply Hw1]. simpl in Hk.
  destruct (apply_policy _ p w1) as [r1 w2] eqn:Ea. injection Hk as _ <-.
  apply apply_policy_sends_nothing in Ea as (-> & -> & k & Hk). split_and!; [done..|]. by exists k.
Qed.

Lemma push_sends fuel w r w' :
  pushObservations (Any := Any) fuel w = (r, w') ->
  syncer_cfg w' = syncer_cfg w /\ sy_cursor (sw_syncer w') = sy_cursor (sw_syncer w) /\
  (exists k, sw_others w' = s_drop k (sw_others w)) /\
  exists posts, sw_log w' = sw_log w ++ posts /\ Forall (fun rx => rq_Method rx.1 = "POST") posts.
Proof.
  intros (posts & L & B & _ & _ & C & Cu & _ & _ & _ & (used & O1 & _) & _)%pushObservations_effect.
  split_and!; [done..|by exists used|]. exists posts. split; [done|]. eapply Forall_impl; [exact B|].
  intros rx (os & _ & Hos). by eapply batch_request_method.
Qed.

Lemma logged_calm m w : calm (m w).1 -> logged m w = (Ok tt, (m w).2).
Proof. unfold logged. destruct (m w) as [[|[]] w']; try done. intros Hc. by destruct (Hc msg). Qed.

(** A cycle ends, without a panic, and leaves others as orderly as they were. *)
Lemma syncOnce_cycles w :
  orderly (sw_others w) ->
  exists n w', (forall fuel, (n <= fuel)%nat -> syncOnce (Any := Any) fuel w = (Ok tt, w')) /\
    cycle w w' /\ orderly (sw_others w').
Proof.
  intros Ho. destruct (pushObservations_enough w Ho) as [n Hn].
  exists n, (pullPolicy (Any := Any) (pushObservations (Any := Any) n w).2).2. split.
  - intros fuel Hfuel. destruct (Hn fuel Hfuel) as [E Hc]. unfold syncOnce, mbind, SyncM_bind.
    rewrite (logged_calm _ _ Hc), E. apply logged_calm, pullPolicy_calm.
  - destruct (pushObservations n w) as [r1 w1] eqn:E1. destruct (pullPolicy w1) as [r2 w2] eqn:E2. cbn [snd].
    rewrite E2. cbn [snd].
    apply push_sends in E1 as (C1 & Cu & [k1 O1] & posts & L1 & P1).
    apply pullPolicy_sends in E2 as (C2 & [k2 O2] & gets & L2 & G2).
    split; [|rewrite O2, O1; by apply orderly_drop, orderly_drop].
    split; [congruence|]. exists posts, gets. rewrite L2, L1, (assoc_L (++)). split_and!; [done..|].
    rewrite C1, Cu in G2. destruct (policy_request _ _) as [req|] eqn:Er; [|done].
    split; [by eapply policy_request_method|by eexists].
Qed.

(** ** The loop *)

(** The ticks the loop still sees. *)
Fixpoint ticks_before (events : list RunEvent) : list instant :=
  match events with
  | TimerTick t :: rest => t :: ticks_before rest
  | _ => []
  end.

Definition is_CtxDone (ev : RunEvent) : bool := match ev with CtxDone => true | _ => false end.

(** A cycle for each of the ticks, one after the other. *)
Inductive cycles : list instant -> SyncWorld -> SyncWorld -> Prop :=
  | no_cycle w : cycles [] w w
  | one_more t ts w w1 w' : cycle (set_clock t w) w1 -> cycles ts w1 w' -> cycles (t :: ts) w w'.

Lemma run_loop_cycles events w :
  orderly (sw_others w) ->
  exists n w', cycles (ticks_before events) w w' /\
    forall fuel, (n <= fuel)%nat -> run_loop (Any := Any) fuel events w =
      (Ok (if existsb is_CtxDone events then Returned else Waiting), w').
Proof.
  revert w. induction events as [|[t|] events IH]; intros w Ho.
  - exists 0%nat, w. split; [constructor|done].
  - destruct (syncOnce_cycles (set_clock t w) Ho) as (n1 & w1 & Hn1 & Hc & Ho1).
    destruct (IH w1 Ho1) as (n2 & w' & Hcs & Hn2). exists (n1 + n2)%nat, w'.
    split; [by econstructor|]. intros fuel Hfuel. cbn [run_loop existsb is_CtxDone].
    unfold mbind, SyncM_bind, tick. rewrite (Hn1 fuel) by lia. apply Hn2. lia.
  - exists 0%nat, w. split; [constructor|done].
Qed.

(** C20: the sync loop never stops by itself.  The period computed from any
    configuration, valid or not, is positive and fits the timer, so creating the
    ticker cannot panic.  As long as other goroutines add, below any text, finitely
    many fingerprints only, every cycle comes to its end, and after any events Run
    has done a cycle at the start and one for each tick before the context was
    done, and has returned if and only if the context is done.  In each of them,
    whatever had become of the requests before, the policy was asked for. *)
Theorem sync_loop_never_stops cfg events w :
  orderly (sw_others w) ->
  0 < Interval cfg <= int64_max /\
  exists enough w0 w', cycle w w0 /\ cycles (ticks_before events) w0 w' /\
    forall fuel, (enough <= fuel)%nat -> Run (Any := Any) fuel (Interval cfg) events w =
      (Ok (if existsb is_CtxDone events then Returned else Waiting), w').
Proof.
  intros Ho. pose proof (Interval_range cfg) as Hi. split; [done|].
  destruct (syncOnce_cycles w Ho) as (n1 & w0 & Hn1 & Hc & Ho1).
  destruct (run_loop_cycles events w0 Ho1) as (n2 & w' & Hcs & Hn2).
  exists (n1 + n2)%nat, w0, w'. split_and!; [done..|]. intros fuel Hfuel.
  unfold Run, mbind, SyncM_bind. rewrite (Hn1 fuel) by lia.
  destruct (Interval cfg <=? 0) eqn:E; [lia|]. apply Hn2. lia.
Qed.
End loop.

(** ** A concrete loop *)

(** The hub is down for the first two requests, and another goroutine stores a
    fingerprint before every store call. *)
Definition busy : SyncWorld :=
  let w := demo_sync one_entry [NetError "timeout"; NetError "timeout"; ok_reply; ok_reply] in
  upd_store (sw_store w) (fun _ => set_fps <["cd" := demo_row StatusPending "" 0 None]>) w.

Definition busy_events : list RunEvent := [TimerTick 10; TimerTick 20; CtxDone; TimerTick 30].

Lemma busy_orderly : orderly (sw_others busy).
Proof.
  apply (short_fingerprints_orderly 2). intros n d fp [r Hr]. simpl in Hr.
  apply lookup_insert_Some in Hr as [[<- _]|[_ Hr]]; [by right; simpl; lia|left; by eexists].
Qed.

Lemma sync_loop_never_stops_witness :
  exists n w0 w', cycle busy w0 /\ cycles [10; 20] w0 w' /\
    Run (Any := PlainValue) n (Interval demo_cfg) busy_events busy = (Ok Returned, w').
Proof.
  destruct (sync_loop_never_stops (Any := PlainValue) demo_cfg busy_events busy busy_orderly)
    as (_ & n & w0 & w' & Hc & Hcs & Hrun).
  exists n, w0, w'. split; [exact Hc|split; [exact Hcs|]]. exact (Hrun n (le_n n)).
Defined.
