(* ===== verification/RateLimit.v ===== *)
(** Package ratelimit (ratelimit/ratelimit.go): the token bucket per client, its
    arithmetic in float64 as the code has it.  A [*Limiter] is [option Limiter];
    [l.now] is passed as the time a call reads.  The mutex makes every method one
    step, so concurrent use is a sequence of calls. *)

From S2P Require Import Prelude GoStrings Netip Float64.
From Stdlib Require Import Ascii String.
From stdpp Require Import strings gmap.
#[local] Open Scope stdpp_scope.
#[local] Open Scope Z_scope.

Definition DefaultMaxBuckets : Z := Z.shiftl 1 20.

Record bucket := { bk_tokens : float64; bk_last : Z }.

Record Limiter := {
  lm_buckets : gmap string bucket;
  lm_rate : float64;
  lm_burst : float64;
  lm_ttl : Z;
  lm_maxBuckets : Z
}.

Definition set_buckets (m : gmap string bucket) (l : Limiter) : Limiter :=
  {| lm_buckets := m; lm_rate := lm_rate l; lm_burst := lm_burst l; lm_ttl := lm_ttl l;
     lm_maxBuckets := lm_maxBuckets l |}.

(** ratelimit.New *)
Definition ratelimit_New (rate burst : float64) (ttl : Z) : Limiter :=
  {| lm_buckets := ∅; lm_rate := rate; lm_burst := burst; lm_ttl := ttl;
     lm_maxBuckets := DefaultMaxBuckets |}.

(** [net.ParseIP], as the 128 bits of the address: an IPv4 address is mapped, and
    an address with a zone is refused. *)
Definition ParseIP (s : string) : option Z :=
  match ParseAddr s with
  | Some (Addr4 v) => Some (Z.shiftl 65535 32 + v)
  | Some (Addr6 v zone) => if decide (zone = "") then Some v else None
  | _ => None
  end.

(** Key; [To4] is nil unless the address is IPv4-mapped. *)
Definition Key (ip : string) : string :=
  match ParseIP ip with
  | None => ip
  | Some addr => if is_4in6 addr then ip else Addr_String (Addr6 (mask_top 128 64 addr) "")
  end.

(** The refill of an existing bucket: tokens for the time since its last use, at
    most [burst]. *)
Definition refill (rate burst : float64) (b : bucket) (now : Z) : bucket :=
  let elapsed := Duration_Seconds (sat64 (now - bk_last b)) in
  let tokens := f64_add (bk_tokens b) (f64_mul elapsed rate) in
  {| bk_tokens := if f64_ltb burst tokens then burst else tokens; bk_last := now |}.

(** Spending a token, when there is one. *)
Definition spend (b : bucket) : bool * bucket :=
  if f64_ltb (bk_tokens b) f64_one then (false, b)
  else (true, {| bk_tokens := f64_sub (bk_tokens b) f64_one; bk_last := bk_last b |}).

(** Limiter.Allow *)
Definition Allow (l : option Limiter) (ip : string) (now : Z) : bool * option Limiter :=
  match l with
  | None => (true, None)
  | Some l =>
      let key := Key ip in
      let spend_from b :=
        let '(allowed, b') := spend b in
        (allowed, Some (set_buckets (<[key := b']> (lm_buckets l)) l)) in
      match lm_buckets l !! key with
      | None =>
          if (0 <? lm_maxBuckets l) && (lm_maxBuckets l <=? Z.of_nat (size (lm_buckets l)))
          then (true, Some l)
          else spend_from {| bk_tokens := lm_burst l; bk_last := now |}
      | Some b => spend_from (refill (lm_rate l) (lm_burst l) b now)
      end
  end.

(** [b.last.Before(cutoff)] *)
Definition idle (ttl now : Z) (b : bucket) : bool := bk_last b <? now + wrap64 (- ttl).

(** Limiter.Sweep *)
Definition Sweep (l : option Limiter) (now : Z) : option Limiter :=
  match l with
  | None => None
  | Some l => Some (set_buckets (filter (fun kb => idle (lm_ttl l) now kb.2 = false) (lm_buckets l)) l)
  end.

(** Calls on one limiter, in the order the mutex admits them. *)
Inductive Call :=
  | CallAllow (ip : string) (now : Z)
  | CallSweep (now : Z).

(** The answers of a sequence of calls, each with the key it was given for. *)
Fixpoint run_calls (l : option Limiter) (calls : list Call) : list (string * bool) * option Limiter :=
  match calls with
  | [] => ([], l)
  | CallAllow ip now :: rest =>
      let '(allowed, l1) := Allow l ip now in
      let '(answers, l2) := run_calls l1 rest in
      ((Key ip, allowed) :: answers, l2)
  | CallSweep now :: rest => run_calls (Sweep l now) rest
  end.

(** What RunSweeper meets: a tick of its timer, other goroutines using the
    limiter, and the stop channel being closed. *)
Inductive SweeperEvent :=
  | SweepTick (now : Z)
  | OtherCall (c : Call)
  | SweepStop.

(** The loop of RunSweeper; with the events after it stopped unused. *)
Fixpoint sweeper_loop (l : option Limiter) (events : list SweeperEvent) : option Limiter :=
  match events with
  | [] => l
  | SweepTick now :: rest => sweeper_loop (Sweep l now) rest
  | OtherCall c :: rest => sweeper_loop (run_calls l [c]).2 rest
  | SweepStop :: _ => l
  end.

(** Limiter.RunSweeper; the ticker panics unless the interval is positive. *)
Definition RunSweeper (l : option Limiter) (interval : Z) (events : list SweeperEvent)
    : result (option Limiter) :=
  match l with
  | None => Ok None
  | Some _ =>
      if interval <=? 0 then Err (ErrPanic "non-positive interval for NewTicker")
      else Ok (sweeper_loop l events)
  end.

(** A half-rate limiter of burst two: two calls pass, the third waits two
    seconds. *)
Example allow_refills :
  let l := Some (ratelimit_New (f64_div f64_one (f64_of_Z 2)) (f64_of_Z 2) 60000000000) in
  (run_calls l [CallAllow "192.0.2.1" 0; CallAllow "192.0.2.1" 0; CallAllow "192.0.2.1" 0;
                CallAllow "192.0.2.1" 1900000000; CallAllow "192.0.2.1" 2000000000;
                CallAllow "2001:db8::1" 0; CallAllow "2001:db8::2" 0; CallAllow "2001:db8::3" 0]).1 =
  [("192.0.2.1", true); ("192.0.2.1", true); ("192.0.2.1", false);
   ("192.0.2.1", false); ("192.0.2.1", true);
   ("2001:db8::", true); ("2001:db8::", true); ("2001:db8::", false)].
Proof. vm_compute. reflexivity. Qed.

(** A zone keeps an address from being masked. *)
Example zoned_keys : Key "fe80::1%eth0" = "fe80::1%eth0" /\ Key "fe80::1" = "fe80::".
Proof. split; vm_compute; reflexivity. Qed.
