(* ===== verification/FloatFacts.v ===== *)
(** Rounding of the non-negative floats: the value of a float as an integer in
    units of 2^-1074, the comparison as the order of the values, and for every
    operation that its result is not below any float the exact result is not
    below, and is the exact result when that is a float. *)

From S2P Require Import Prelude Float64.
#[local] Open Scope Z_scope.
#[local] Opaque Z.pow.

(** Canonical floats that are zero or positive. *)
Definition nonneg (x : float64) : Prop :=
  match x with
  | S754_zero _ => True
  | S754_infinity s => s = false
  | S754_nan => False
  | S754_finite s m e => s = false /\ bounded 53 1024 m e = true
  end.

(** Above every finite value: 2^1024 in these units. *)
Definition inf_units : Z := 2 ^ 2098.
Lemma inf_units_eq k : 0 <= k <= 2098 -> inf_units = 2 ^ k * 2 ^ (2098 - k).
Proof. intros. unfold inf_units. rewrite <- Z.pow_add_r by lia. f_equal. lia. Qed.

Definition fval (x : float64) : Z :=
  match x with
  | S754_finite false m e => Zpos m * 2 ^ (e + 1074)
  | S754_infinity false => inf_units
  | _ => 0
  end.

(** ** Digits and exponents *)

Lemma digits2_pos_bounds m :
  2 ^ (Zpos (digits2_pos m) - 1) <= Zpos m < 2 ^ Zpos (digits2_pos m).
Proof.
  induction m as [m IH|m IH|]; cbn [digits2_pos]; [| |by split].
  all: rewrite Pos2Z.inj_succ; set (d := Zpos (digits2_pos m)) in *.
  all: replace (Z.succ d - 1) with (Z.succ (d - 1)) by lia.
  all: rewrite !Z.pow_succ_r by lia; lia.
Qed.

Lemma Zdigits2_bounds m : 0 < m -> 2 ^ (Zdigits2 m - 1) <= m < 2 ^ Zdigits2 m.
Proof. destruct m as [|m|m]; [lia| |lia]. intros _. apply digits2_pos_bounds. Qed.

Lemma Zdigits2_nonneg m : 0 <= m -> 0 <= Zdigits2 m.
Proof. destruct m; cbn; lia. Qed.

(** The number of digits is determined by the bounds. *)
Lemma Zdigits2_unique m d : 0 <= d -> 2 ^ d <= m < 2 ^ (d + 1) -> Zdigits2 m = d + 1.
Proof.
  intros Hd Hm. assert (0 < 2 ^ d) by (apply Z.pow_pos_nonneg; lia).
  pose proof (Zdigits2_bounds m ltac:(lia)) as Hb. pose proof (Zdigits2_nonneg m ltac:(lia)).
  assert (Zdigits2 m - 1 < d + 1) by (apply (Z.pow_lt_mono_r_iff 2); lia).
  assert (d < Zdigits2 m) by (apply (Z.pow_lt_mono_r_iff 2); lia). lia.
Qed.

Lemma Zdigits2_pow m k : 0 < m -> 0 <= k -> Zdigits2 (m * 2 ^ k) = Zdigits2 m + k.
Proof.
  intros Hm Hk. pose proof (Zdigits2_bounds m Hm) as Hb.
  destruct m as [|m|m]; try lia. set (d := Zdigits2 (Zpos m)) in *.
  assert (1 <= d) by (unfold d; cbn; lia).
  rewrite (Zdigits2_unique _ (d - 1 + k)); [lia|lia|].
  replace (d - 1 + k + 1) with (d + k) by lia. rewrite !Z.pow_add_r by lia.
  assert (0 < 2 ^ k) by (apply Z.pow_pos_nonneg; lia). nia.
Qed.

Lemma fexp_eq e : fexp 53 1024 e = Z.max (e - 53) (-1074).
Proof. reflexivity. Qed.

Lemma bounded_spec m e :
  bounded 53 1024 m e = true <->
  e = Z.max (Zpos (digits2_pos m) + e - 53) (-1074) /\ e <= 971.
Proof.
  unfold bounded, canonical_mantissa. rewrite fexp_eq, andb_true_iff, Z.eqb_eq, Z.leb_le.
  change (1024 - 53) with 971. lia.
Qed.

Lemma pow_offset e k : 0 <= e -> 0 <= k -> 2 ^ (e + k) = 2 ^ e * 2 ^ k.
Proof. intros. by apply Z.pow_add_r. Qed.

Lemma shl_align_spec m e e' :
  let '(m', r) := shl_align m e e' in
  r = Z.min e e' /\ Zpos m' = Zpos m * 2 ^ (e - Z.min e e').
Proof.
  unfold shl_align. destruct (e' - e) as [|p|p] eqn:E.
  - split; [lia|]. replace (e - Z.min e e') with 0 by lia. lia.
  - split; [lia|]. replace (e - Z.min e e') with 0 by lia. lia.
  - split; [lia|]. replace (e - Z.min e e') with (Zpos p) by lia.
    clear E. revert m. induction p as [|p IH] using Pos.peano_ind; intros m.
    + change (Pos.iter xO m 1) with (xO m). change (2 ^ 1) with 2. lia.
    + rewrite Pos.iter_succ, Pos2Z.inj_succ, Z.pow_succ_r by lia.
      specialize (IH m). rewrite Pos2Z.inj_xO. lia.
Qed.

(** ** Shifting right *)

Lemma iter_pos_iter {A} (f : A -> A) p x : iter_pos f p x = Nat.iter (Pos.to_nat p) f x.
Proof.
  revert x. induction p as [p IH|p IH|]; intros x; cbn [iter_pos].
  - rewrite !IH, Pos2Nat.inj_xI. cbn [Nat.iter].
    rewrite <- Nat.iter_add, <- Nat.iter_succ_r. f_equal. lia.
  - rewrite !IH, Pos2Nat.inj_xO. rewrite <- Nat.iter_add. f_equal. lia.
  - reflexivity.
Qed.

Lemma shr_1_spec mrs : 0 <= shr_m mrs ->
  shr_m (shr_1 mrs) = shr_m mrs / 2 /\
  (shr_m mrs mod 2 = 0 -> shr_r mrs = false -> shr_s mrs = false ->
   shr_r (shr_1 mrs) = false /\ shr_s (shr_1 mrs) = false).
Proof.
  destruct mrs as [m r s]. cbn [shr_m shr_r shr_s]. intros Hm.
  destruct m as [|[p|p|]|]; try lia; cbn [shr_1 shr_m shr_r shr_s].
  - split; [done|]. intros _ -> ->. done.
  - split; [rewrite (Pos2Z.inj_xI p); apply Z.div_unique with 1; lia|].
    intros H. rewrite (Pos2Z.inj_xI p), Z.add_comm, Z.mul_comm, Z.mod_add in H by lia. done.
  - split; [rewrite (Pos2Z.inj_xO p), Z.mul_comm, Z.div_mul by lia; done|].
    intros _ -> ->. done.
  - split; [done|]. done.
Qed.

Lemma shr_n_spec n mrs : 0 <= shr_m mrs ->
  shr_m (Nat.iter n shr_1 mrs) = shr_m mrs / 2 ^ Z.of_nat n /\
  (shr_m mrs mod 2 ^ Z.of_nat n = 0 -> shr_r mrs = false -> shr_s mrs = false ->
   shr_r (Nat.iter n shr_1 mrs) = false /\ shr_s (Nat.iter n shr_1 mrs) = false).
Proof.
  induction n as [|n IH]; intros Hm.
  { change (2 ^ Z.of_nat 0) with 1. rewrite Z.div_1_r. done. }
  change (Nat.iter (S n) shr_1 mrs) with (shr_1 (Nat.iter n shr_1 mrs)).
  destruct (IH Hm) as [Hv He]. set (x := Nat.iter n shr_1 mrs) in *.
  assert (0 < 2 ^ Z.of_nat n) by (apply Z.pow_pos_nonneg; lia).
  assert (0 <= shr_m x) as Hx by (rewrite Hv; apply Z.div_pos; lia).
  destruct (shr_1_spec x Hx) as [H1 H2]. rewrite Nat2Z.inj_succ, Z.pow_succ_r by lia.
  split; [rewrite H1, Hv, Z.div_div by lia; f_equal; lia|].
  intros Hd Hr Hs. apply Z.div_exact in Hd; [|lia].
  assert (shr_m mrs = (2 * (shr_m mrs / (2 * 2 ^ Z.of_nat n))) * 2 ^ Z.of_nat n) as E by lia.
  destruct (He ltac:(rewrite E; apply Z.mod_mul; lia) Hr Hs) as [Hr' Hs'].
  apply H2; [|done|done]. rewrite Hv, E, Z.div_mul by lia.
  rewrite Z.mul_comm. apply Z.mod_mul. lia.
Qed.

(** [shr_fexp] for a mantissa whose exponent is not above the wanted one. *)
Lemma shr_fexp_spec m e l : 0 <= m -> e <= fexp 53 1024 (Zdigits2 m + e) ->
  let e' := fexp 53 1024 (Zdigits2 m + e) in
  exists r, shr_fexp 53 1024 m e l = (r, e') /\ shr_m r = m / 2 ^ (e' - e) /\
    (m mod 2 ^ (e' - e) = 0 -> l = loc_Exact -> loc_of_shr_record r = loc_Exact).
Proof.
  intros Hm He e'. unfold shr_fexp. fold e'.
  assert (shr_m (shr_record_of_loc m l) = m) as Hrec by (by destruct l as [|[]]).
  unfold shr. destruct (e' - e) as [|p|p] eqn:E.
  - exists (shr_record_of_loc m l). split_and!; [f_equal; lia| |by intros _ ->].
    rewrite Hrec. change (2 ^ 0) with 1. by rewrite Z.div_1_r.
  - eexists. split; [f_equal; lia|]. rewrite iter_pos_iter.
    destruct (shr_n_spec (Pos.to_nat p) (shr_record_of_loc m l)) as [Hv Hx]; [by rewrite Hrec|].
    rewrite Hrec in *. rewrite positive_nat_Z in *. split; [done|].
    intros Hd ->. destruct (Hx Hd eq_refl eq_refl) as [Hr Hs]. cbn [shr_record_of_loc] in *.
    destruct (Nat.iter _ _ _) as [? [] []]; done.
  - lia.
Qed.

(** ** Rounding *)

(** The mantissa and exponent the first shift leaves. *)
Lemma shifted_range m e : 0 <= m -> e <= fexp 53 1024 (Zdigits2 m + e) ->
  let e' := fexp 53 1024 (Zdigits2 m + e) in
  0 <= m / 2 ^ (e' - e) < 2 ^ 53 /\ -1074 <= e' /\ (-1074 < e' -> 2 ^ 52 <= m / 2 ^ (e' - e)).
Proof.
  intros Hm He e'. assert (0 < 2 ^ (e' - e)) by (apply Z.pow_pos_nonneg; lia).
  pose proof (fexp_eq (Zdigits2 m + e)) as Hf. fold e' in Hf.
  destruct (decide (m = 0)) as [->|Hm0].
  { rewrite Z.div_0_l by lia. change (Zdigits2 0) with 0 in *. split_and!; lia. }
  pose proof (Zdigits2_bounds m ltac:(lia)) as Hb. pose proof (Zdigits2_nonneg m Hm).
  split_and!; [apply Z.div_pos; lia| |lia|].
  - apply Z.div_lt_upper_bound; [lia|]. rewrite <- Z.pow_add_r by lia.
    eapply Z.lt_le_trans; [apply Hb|]. apply Z.pow_le_mono_r; lia.
  - intros Hgt. apply Z.div_le_lower_bound; [lia|]. rewrite <- Z.pow_add_r by lia.
    etrans; [|apply Hb]. apply Z.pow_le_mono_r; lia.
Qed.

(** The last step: a rounded mantissa of at most 2^53. *)
Lemma final_shift m e : 0 <= m <= 2 ^ 53 -> -1074 <= e -> (-1074 < e -> 2 ^ 52 <= m) ->
  exists r e', shr_fexp 53 1024 m e loc_Exact = (r, e') /\
    shr_m r * 2 ^ (e' + 1074) = m * 2 ^ (e + 1074) /\ -1074 <= e' /\
    (0 < shr_m r -> e' = Z.max (Zdigits2 (shr_m r) + e' - 53) (-1074)) /\
    0 <= shr_m r /\ (e' > -1074 -> 2 ^ 52 <= shr_m r).
Proof.
  intros Hm He Hn. pose proof (Zdigits2_nonneg m ltac:(lia)) as Hd0.
  assert (m = 2 ^ 53 \/ m < 2 ^ 53) as [->|Hlt] by lia.
  { destruct (shr_fexp_spec (2 ^ 53) e loc_Exact) as (r & Hr & Hv & _); [lia|rewrite fexp_eq; change (Zdigits2 (2 ^ 53)) with 54; lia|].
    change (Zdigits2 (2 ^ 53)) with 54 in *. rewrite fexp_eq in *.
    replace (Z.max (54 + e - 53) (-1074)) with (e + 1) in * by lia.
    replace (e + 1 - e) with 1 in Hv by lia. change (2 ^ 53 / 2 ^ 1) with (2 ^ 52) in Hv.
    exists r, (e + 1). rewrite Hv. split_and!; [done| |lia| |lia|lia].
    - replace (e + 1 + 1074) with (Z.succ (e + 1074)) by lia. rewrite Z.pow_succ_r by lia. lia.
    - intros _. change (Zdigits2 (2 ^ 52)) with 53. lia. }
  assert (Zdigits2 m <= 53) as Hd53.
  { destruct (decide (m = 0)) as [->|]; [cbn; lia|]. pose proof (Zdigits2_bounds m ltac:(lia)).
    assert (Zdigits2 m - 1 < 53) by (apply (Z.pow_lt_mono_r_iff 2); lia). lia. }
  assert (-1074 < e -> Zdigits2 m = 53) as Hd.
  { intros Hgt. rewrite (Zdigits2_unique m 52); [lia|lia|].
    change (2 ^ (52 + 1)) with (2 ^ 53). specialize (Hn Hgt). lia. }
  assert (fexp 53 1024 (Zdigits2 m + e) = e) as Hf by (rewrite fexp_eq; lia).
  destruct (shr_fexp_spec m e loc_Exact) as (r & Hr & Hv & _); [lia|lia|].
  rewrite Hf, Z.sub_diag in *. change (2 ^ 0) with 1 in Hv. rewrite Z.div_1_r in Hv.
  exists r, e. rewrite Hv. split_and!; [done|done|lia| |lia|lia]. intros _. rewrite fexp_eq in Hf. lia.
Qed.

Lemma round_nearest_even_range m l :
  m <= round_nearest_even m l <= m + 1 /\ (l = loc_Exact -> round_nearest_even m l = m).
Proof. destruct l as [|[]]; cbn; [lia|destruct (Z.even m)|..]; (split; [lia|done]). Qed.

Lemma round_aux_spec m e l : 0 <= m -> e <= fexp 53 1024 (Zdigits2 m + e) ->
  let e' := fexp 53 1024 (Zdigits2 m + e) in
  let r := binary_round_aux 53 1024 false m e l in
  let v := m / 2 ^ (e' - e) * 2 ^ (e' + 1074) in
  nonneg r /\ Z.min inf_units v <= fval r /\
  fval r <= (m / 2 ^ (e' - e) + 1) * 2 ^ (e' + 1074) /\
  (m mod 2 ^ (e' - e) = 0 -> l = loc_Exact -> fval r = Z.min inf_units v).
Proof.
  intros Hm He e' r v.
  destruct (shifted_range m e Hm He) as (Hr1 & He1 & Hn1). fold e' in Hr1, He1, Hn1.
  destruct (shr_fexp_spec m e l Hm He) as (r1 & Hs1 & Hv1 & Hx1). fold e' in Hs1, Hv1, Hx1.
  pose proof (round_nearest_even_range (shr_m r1) (loc_of_shr_record r1)) as [Hne Hne0].
  set (m2 := round_nearest_even (shr_m r1) (loc_of_shr_record r1)) in *.
  destruct (final_shift m2 e') as (r2 & e2 & Hs2 & Hv2 & He2 & Hc2 & Hp2 & Hn2); [lia|lia|lia|].
  assert (r = match shr_m r2 with
              | Z0 => S754_zero false
              | Zpos p => if e2 <=? 1024 - 53 then S754_finite false p e2 else S754_infinity false
              | _ => S754_nan
              end) as Hr.
  { unfold r, binary_round_aux. rewrite Hs1. fold m2. by rewrite Hs2. }
  assert (nonneg r /\ fval r = Z.min inf_units (m2 * 2 ^ (e' + 1074))) as [Hnn Hval].
  { rewrite Hr, <- Hv2. destruct (shr_m r2) as [|p|p]; [split; done| |lia].
    change (1024 - 53) with 971. destruct (Z.leb_spec e2 971) as [Hle|Hgt].
    - split; [split; [done|]; apply bounded_spec; split; [apply Hc2; lia|done]|].
      cbn [fval]. rewrite Z.min_r; [done|]. specialize (Hc2 ltac:(lia)).
      pose proof (digits2_pos_bounds p) as [_ Hb]. change (Zdigits2 (Zpos p)) with (Zpos (digits2_pos p)) in Hc2.
      assert (Zpos p < 2 ^ 53) by (eapply Z.lt_le_trans; [exact Hb|]; apply Z.pow_le_mono_r; lia).
      assert (2 ^ (e2 + 1074) <= 2 ^ 2045) by (apply Z.pow_le_mono_r; lia).
      rewrite (inf_units_eq 53) by lia. apply Z.mul_le_mono_nonneg; [lia|lia| |done].
      apply Z.pow_nonneg. lia.
    - split; [done|]. cbn [fval]. rewrite Z.min_l; [done|].
      assert (2 ^ 2046 <= 2 ^ (e2 + 1074)) by (apply Z.pow_le_mono_r; lia).
      rewrite (inf_units_eq 52) by lia. specialize (Hn2 ltac:(lia)).
      apply Z.mul_le_mono_nonneg; [lia|lia|apply Z.pow_nonneg; lia|done]. }
  assert (0 < 2 ^ (e' + 1074)) by (apply Z.pow_pos_nonneg; lia).
  split; [done|]. rewrite Hval. unfold v. rewrite <- Hv1.
  split; [apply Z.min_le_compat_l, Z.mul_le_mono_nonneg_r; lia|].
  split; [etrans; [apply Z.le_min_r|]; apply Z.mul_le_mono_nonneg_r; lia|].
  intros Hd ->. rewrite Hne0 by auto. done.
Qed.

(** ** Order *)

Lemma nonneg_finite x : nonneg x -> fval x < inf_units ->
  (exists s, x = S754_zero s) \/
  (exists m e, x = S754_finite false m e /\ bounded 53 1024 m e = true).
Proof.
  destruct x as [s|s| |s m e]; intros Hx Hv; [left; eauto| |done|right; naive_solver].
  cbn in Hx. subst s. cbn in Hv. lia.
Qed.

Lemma bounded_range m e : bounded 53 1024 m e = true ->
  -1074 <= e <= 971 /\ Zpos m < 2 ^ 53 /\ (-1074 < e -> 2 ^ 52 <= Zpos m).
Proof.
  rewrite bounded_spec. intros [He Hle]. pose proof (digits2_pos_bounds m) as [H1 H2].
  split_and!; [lia|done| |].
  - eapply Z.lt_le_trans; [exact H2|]. apply Z.pow_le_mono_r; lia.
  - intros. etrans; [|exact H1]. apply Z.pow_le_mono_r; lia.
Qed.

Lemma finite_fval m e : bounded 53 1024 m e = true -> 0 < Zpos m * 2 ^ (e + 1074) < inf_units.
Proof.
  intros (He & Hm & _)%bounded_range. assert (0 < 2 ^ (e + 1074)) by (apply Z.pow_pos_nonneg; lia).
  split; [lia|]. rewrite (inf_units_eq 53) by lia.
  assert (2 ^ (e + 1074) <= 2 ^ (2098 - 53)) by (apply Z.pow_le_mono_r; lia).
  eapply Z.lt_le_trans; [apply Z.mul_lt_mono_pos_r; [lia|exact Hm]|].
  apply Z.mul_le_mono_nonneg_l; [apply Z.pow_nonneg; lia|done].
Qed.

Lemma fval_range x : nonneg x -> 0 <= fval x <= inf_units.
Proof.
  assert (0 < inf_units) by (apply Z.pow_pos_nonneg; lia).
  destruct x as [s|s| |s m e]; cbn; [lia|intros ->; lia|done|].
  intros [-> Hb%finite_fval]. lia.
Qed.

(** Among canonical floats a larger exponent is a larger value. *)
Lemma exponent_order m1 e1 m2 e2 :
  bounded 53 1024 m1 e1 = true -> bounded 53 1024 m2 e2 = true -> e1 < e2 ->
  Zpos m1 * 2 ^ (e1 + 1074) < Zpos m2 * 2 ^ (e2 + 1074).
Proof.
  intros (H1 & Hm1 & _)%bounded_range (H2 & _ & Hm2)%bounded_range Hlt. specialize (Hm2 ltac:(lia)).
  assert (0 < 2 ^ (e1 + 1074)) by (apply Z.pow_pos_nonneg; lia).
  replace (e2 + 1074) with (e1 + 1074 + 1 + (e2 - e1 - 1)) by lia.
  rewrite (Z.pow_add_r 2 (e1 + 1074 + 1)), (Z.pow_add_r 2 (e1 + 1074) 1) by lia. change (2 ^ 1) with 2.
  assert (0 < 2 ^ (e2 - e1 - 1)) by (apply Z.pow_pos_nonneg; lia).
  change (2 ^ 53) with (2 ^ 52 * 2) in Hm1. set (a := 2 ^ (e1 + 1074)) in *.
  set (b := 2 ^ (e2 - e1 - 1)) in *. set (c := 2 ^ 52) in *.
  assert (c * 2 <= Zpos m2 * 2 * b) by nia.
  replace (Zpos m2 * (a * 2 * b)) with (Zpos m2 * 2 * b * a) by ring.
  apply Z.mul_lt_mono_pos_r; lia.
Qed.

Lemma finite_compare m1 e1 m2 e2 :
  bounded 53 1024 m1 e1 = true -> bounded 53 1024 m2 e2 = true ->
  SFcompare (S754_finite false m1 e1) (S754_finite false m2 e2) =
  Some (Zpos m1 * 2 ^ (e1 + 1074) ?= Zpos m2 * 2 ^ (e2 + 1074)).
Proof.
  intros H1 H2. cbn [SFcompare]. f_equal.
  destruct (Z.compare_spec e1 e2) as [->|Hlt|Hgt].
  - assert (0 < 2 ^ (e2 + 1074)) by (apply bounded_range in H2; apply Z.pow_pos_nonneg; lia).
    change (Pos.compare_cont Eq m1 m2) with (Zpos m1 ?= Zpos m2).
    by rewrite !(Z.mul_comm _ (2 ^ _)), <- Zmult_compare_compat_l by lia.
  - symmetry. by apply Z.compare_lt_iff, exponent_order.
  - symmetry. by apply Z.compare_gt_iff, exponent_order.
Qed.

(** Comparison is the order of the values, and a positive value has one float. *)
Lemma SFcompare_spec a b : nonneg a -> nonneg b -> SFcompare a b = Some (fval a ?= fval b).
Proof.
  intros Ha Hb. assert (0 < inf_units) by (apply Z.pow_pos_nonneg; lia).
  destruct a as [s1|s1| |s1 m1 e1], b as [s2|s2| |s2 m2 e2]; cbn in Ha, Hb; try done.
  all: repeat match goal with H : _ = false |- _ => subst end.
  all: repeat match goal with H : _ /\ _ |- _ => destruct H as [-> ?] end.
  all: try (by apply finite_compare).
  all: cbn [SFcompare fval]; f_equal; symmetry.
  all: rewrite ?Z.compare_eq_iff, ?Z.compare_lt_iff, ?Z.compare_gt_iff; try done.
  all: match goal with H : bounded _ _ _ _ = true |- _ => apply finite_fval in H; lia end.
Qed.

Lemma ltb_spec a b : nonneg a -> nonneg b -> f64_ltb a b = (fval a <? fval b).
Proof. intros. unfold f64_ltb, SFltb, Z.ltb. by rewrite SFcompare_spec. Qed.

Lemma fval_inj a b : nonneg a -> nonneg b -> 0 < fval a -> fval a = fval b -> a = b.
Proof.
  intros Ha Hb Hp He.
  destruct a as [s1|s1| |s1 m1 e1], b as [s2|s2| |s2 m2 e2]; cbn in Ha, Hb, He, Hp; try done.
  all: repeat match goal with H : _ = false |- _ => subst end.
  all: repeat match goal with H : _ /\ _ |- _ => destruct H as [-> ?] end; try lia.
  - done.
  - match goal with H : bounded _ _ _ _ = true |- _ => apply finite_fval in H; lia end.
  - match goal with H : bounded _ _ _ _ = true |- _ => apply finite_fval in H; lia end.
  - destruct (Z.lt_trichotomy e1 e2) as [Hl|[->|Hl]].
    + apply (exponent_order m1 e1 m2 e2) in Hl; [lia|done..].
    + assert (0 < 2 ^ (e2 + 1074)) by (apply Z.pow_pos_nonneg; [done|];
        match goal with H : bounded _ _ m2 _ = true |- _ => apply bounded_range in H; lia end).
      apply Z.mul_reg_r in He; [|lia]. by injection He as ->.
    + apply (exponent_order m2 e2 m1 e1) in Hl; [lia|done..].
Qed.

(** ** Operations *)

(** [r] is the exact result [v * 2^-1074] rounded: between any two floats the
    exact result lies between. *)
Definition rounds (v : Z) (r : float64) : Prop :=
  nonneg r /\ (forall c, nonneg c -> fval c < inf_units -> fval c <= v -> fval c <= fval r) /\
  (forall c, nonneg c -> v <= fval c -> fval r <= fval c).

Lemma rounds_eq v r : nonneg r -> fval r = v -> rounds v r.
Proof. intros Hr <-. by split_and!. Qed.

Lemma rounds_exact v r c : rounds v r -> nonneg c -> fval c < inf_units -> fval c = v -> fval r = v.
Proof. intros (_ & H1 & H2) Hc Hf <-. apply Z.le_antisymm; auto with lia. Qed.

(** A float is a multiple of the unit [2^e'] of a rounded mantissa [m'], or below
    all such mantissas. *)
Lemma float_in_units c m' e' : nonneg c -> fval c < inf_units -> -1074 <= e' ->
  (-1074 < e' -> 2 ^ 52 <= m') ->
  (exists q, 0 <= q /\ fval c = q * 2 ^ (e' + 1074)) \/ fval c < m' * 2 ^ (e' + 1074).
Proof.
  intros Hc Hfin He Hn. assert (0 < 2 ^ (e' + 1074)) by (apply Z.pow_pos_nonneg; lia).
  destruct (nonneg_finite c Hc Hfin) as [[s ->]|(mc & ec & -> & Hb)]; [left; by exists 0|].
  apply bounded_range in Hb as (Hec & Hmc & _). cbn [fval].
  destruct (decide (e' <= ec)) as [Hee|Hee].
  - left. exists (Zpos mc * 2 ^ (ec - e')). split; [apply Z.mul_nonneg_nonneg; [lia|apply Z.pow_nonneg; lia]|].
    rewrite <- Z.mul_assoc, <- Z.pow_add_r by lia. f_equal. f_equal. lia.
  - right. specialize (Hn ltac:(lia)). assert (0 < 2 ^ (ec + 1074)) by (apply Z.pow_pos_nonneg; lia).
    eapply Z.lt_le_trans; [apply Z.mul_lt_mono_pos_r; [lia|exact Hmc]|].
    rewrite <- Z.pow_add_r by lia. etrans; [|apply Z.mul_le_mono_nonneg_r; [lia|exact Hn]].
    rewrite <- Z.pow_add_r by lia. apply Z.pow_le_mono_r; lia.
Qed.

(** Rounding a mantissa whose exponent may be below those of floats: the bounds
    are compared after multiplying by [2^k]. *)
Lemma round_aux_bound m e l k c :
  0 <= m -> e <= fexp 53 1024 (Zdigits2 m + e) -> 0 <= k -> 0 <= e + 1074 + k ->
  nonneg c -> fval c < inf_units ->
  let r := binary_round_aux 53 1024 false m e l in
  (fval c * 2 ^ k <= m * 2 ^ (e + 1074 + k) -> fval c <= fval r) /\
  (m * 2 ^ (e + 1074 + k) <= fval c * 2 ^ k -> l = loc_Exact -> fval r <= fval c).
Proof.
  intros Hm He Hk Hek Hc Hfin r.
  destruct (round_aux_spec m e l Hm He) as (_ & Hlo & Hhi & Hex). fold r in Hlo, Hhi, Hex.
  destruct (shifted_range m e Hm He) as (Hr1 & He1 & Hn1).
  set (e' := fexp 53 1024 (Zdigits2 m + e)) in *. set (m' := m / 2 ^ (e' - e)) in *.
  assert (0 < 2 ^ (e' - e)) by (apply Z.pow_pos_nonneg; lia).
  assert (0 < 2 ^ (e' + 1074)) by (apply Z.pow_pos_nonneg; lia).
  assert (0 < 2 ^ (e + 1074 + k)) by (apply Z.pow_pos_nonneg; lia).
  assert (0 < 2 ^ k) by (apply Z.pow_pos_nonneg; lia).
  assert (2 ^ (e' + 1074) * 2 ^ k = 2 ^ (e' - e) * 2 ^ (e + 1074 + k)) as Hpow
    by (rewrite <- !Z.pow_add_r by lia; f_equal; lia).
  pose proof (Z_div_mod_eq_full m (2 ^ (e' - e))) as Hdm. fold m' in Hdm.
  pose proof (Z.mod_pos_bound m (2 ^ (e' - e)) ltac:(lia)) as Hmod.
  destruct (float_in_units c m' e') as [(q & Hq0 & Hq)|Hlt]; try done.
  - assert (fval c * 2 ^ k = q * 2 ^ (e' - e) * 2 ^ (e + 1074 + k)) as ->
      by (rewrite Hq, <- Z.mul_assoc, Hpow; ring).
    rewrite <- !Z.mul_le_mono_pos_r by lia. split.
    + intros Hle. assert (q <= m') as Hqm by (apply Z.div_le_lower_bound; lia).
      etrans; [|exact Hlo]. apply Z.min_glb; [lia|]. rewrite Hq. apply Z.mul_le_mono_nonneg_r; lia.
    + intros Hle Hl. rewrite Hq. destruct (decide (q <= m')) as [Hqm|Hqm].
      * assert (q * 2 ^ (e' - e) <= m' * 2 ^ (e' - e)) by (apply Z.mul_le_mono_nonneg_r; lia).
        assert (m mod 2 ^ (e' - e) = 0 /\ q * 2 ^ (e' - e) = m' * 2 ^ (e' - e)) as [Hm0 Heq] by lia.
        apply Z.mul_reg_r in Heq; [|lia]. rewrite Hex by done. rewrite Heq. lia.
      * etrans; [exact Hhi|]. apply Z.mul_le_mono_nonneg_r; lia.
  - split.
    + intros _. etrans; [|exact Hlo]. apply Z.min_glb; lia.
    + intros Hle _. exfalso. apply (Z.mul_lt_mono_pos_r (2 ^ k)) in Hlt; [|lia].
      rewrite <- Z.mul_assoc, Hpow, Z.mul_assoc in Hlt.
      assert (m' * 2 ^ (e' - e) * 2 ^ (e + 1074 + k) <= m * 2 ^ (e + 1074 + k))
        by (apply Z.mul_le_mono_nonneg_r; lia). lia.
Qed.

Lemma normalize_rounds m e : 0 <= m -> -1074 <= e ->
  rounds (m * 2 ^ (e + 1074)) (binary_normalize 53 1024 m e false).
Proof.
  intros Hm He. destruct m as [|p|p]; [|clear Hm|lia].
  { rewrite Z.mul_0_l. by apply rounds_eq. }
  cbn [binary_normalize]. unfold binary_round.
  set (f := fexp 53 1024 (Zpos (digits2_pos p) + e)).
  pose proof (shl_align_spec p e f) as Hs. destruct (shl_align p e f) as [mz ez]. destruct Hs as [-> Hmz].
  set (ez := Z.min e f) in *. pose proof (fexp_eq (Zpos (digits2_pos p) + e)) as Hf. fold f in Hf.
  assert (Zdigits2 (Zpos mz) + ez = Zpos (digits2_pos p) + e) as Hd.
  { rewrite Hmz, Zdigits2_pow by lia. change (Zdigits2 (Zpos p)) with (Zpos (digits2_pos p)). lia. }
  assert (ez <= fexp 53 1024 (Zdigits2 (Zpos mz) + ez)) as Hle by (rewrite Hd; fold f; lia).
  assert (Zpos p * 2 ^ (e + 1074) = Zpos mz * 2 ^ (ez + 1074)) as ->.
  { rewrite Hmz, <- Z.mul_assoc, <- Z.pow_add_r by lia. f_equal. f_equal. lia. }
  split; [apply round_aux_spec; [lia|done]|].
  assert (forall c, nonneg c -> fval c < inf_units ->
    (fval c <= Zpos mz * 2 ^ (ez + 1074) -> fval c <= fval (binary_round_aux 53 1024 false (Zpos mz) ez loc_Exact)) /\
    (Zpos mz * 2 ^ (ez + 1074) <= fval c -> fval (binary_round_aux 53 1024 false (Zpos mz) ez loc_Exact) <= fval c)) as Hb.
  { intros c Hc Hfin. destruct (round_aux_bound (Zpos mz) ez loc_Exact 0 c) as [H1 H2]; try done; try lia.
    rewrite Z.add_0_r, Z.pow_0_r, Z.mul_1_r in *. auto. }
  split; intros c Hc; [intros Hfin; by apply Hb|]. intros Hv.
  pose proof (fval_range c Hc). destruct (decide (fval c < inf_units)) as [Hfin|Hfin]; [by apply Hb|].
  assert (fval c = inf_units) as -> by lia. apply fval_range, round_aux_spec; [lia|done].
Qed.

Lemma of_Z_rounds n : 0 <= n -> rounds (n * 2 ^ 1074) (f64_of_Z n).
Proof. intros Hn. by apply (normalize_rounds n 0). Qed.

Lemma aligned m e ez : ez <= e ->
  Zpos (shl_align m e ez).1 * 2 ^ (ez + 1074) = Zpos m * 2 ^ (e + 1074) \/ ez + 1074 < 0.
Proof.
  intros Hle. destruct (decide (0 <= ez + 1074)); [left|lia].
  pose proof (shl_align_spec m e ez) as Hs. destruct (shl_align m e ez) as [mz r].
  destruct Hs as [_ Hmz]. cbn [fst]. rewrite Hmz. replace (Z.min e ez) with ez by lia.
  rewrite <- Z.mul_assoc, <- Z.pow_add_r by lia. f_equal. f_equal. lia.
Qed.

(** An infinite result is not below any finite float. *)
Lemma rounds_infinite v : inf_units <= v -> rounds v (S754_infinity false).
Proof.
  intros Hv. split; [done|]. split; [intros c Hc Hfin _; cbn; lia|].
  intros c Hc Hle. cbn. lia.
Qed.

Lemma add_rounds a b : nonneg a -> nonneg b -> rounds (fval a + fval b) (f64_add a b).
Proof.
  intros Ha Hb. pose proof (fval_range a Ha). pose proof (fval_range b Hb). unfold f64_add.
  destruct a as [s1|s1| |s1 m1 e1], b as [s2|s2| |s2 m2 e2]; cbn in Ha, Hb; try done.
  all: repeat match goal with H : _ = false |- _ => subst end.
  all: repeat match goal with H : _ /\ bounded _ _ _ _ = true |- _ => destruct H as [-> ?] end.
  all: cbn [SFadd]; try (apply rounds_infinite; cbn in *; lia).
  - destruct s1, s2; by apply rounds_eq.
  - apply rounds_eq; [by split|cbn; lia].
  - assert (-1074 <= Z.min e1 e2) as Hez.
    { repeat match goal with H : bounded _ _ _ _ = true |- _ => apply bounded_range in H end. lia. }
    cbn [fval cond_Zopp].
    destruct (aligned m1 e1 (Z.min e1 e2)) as [<-|?]; [lia| |lia].
    destruct (aligned m2 e2 (Z.min e1 e2)) as [<-|?]; [lia| |lia].
    rewrite <- Z.mul_add_distr_r. apply normalize_rounds; lia.
Qed.

Lemma sub_rounds a b : nonneg a -> nonneg b -> fval a < inf_units -> fval b <= fval a ->
  rounds (fval a - fval b) (f64_sub a b).
Proof.
  intros Ha Hb Hfin Hle. unfold f64_sub.
  destruct (nonneg_finite a Ha Hfin) as [[s1 ->]|(m1 & e1 & -> & Hb1)];
    destruct (nonneg_finite b Hb ltac:(lia)) as [[s2 ->]|(m2 & e2 & -> & Hb2)]; cbn [SFsub].
  - destruct s1, s2; by apply rounds_eq.
  - apply finite_fval in Hb2. cbn in Hle. lia.
  - apply rounds_eq; [by split|cbn; lia].
  - cbn [fval] in *.
    assert (-1074 <= Z.min e1 e2) as Hez by (apply bounded_range in Hb1, Hb2; lia).
    assert (0 < 2 ^ (Z.min e1 e2 + 1074)) by (apply Z.pow_pos_nonneg; lia). cbn [cond_Zopp].
    destruct (aligned m1 e1 (Z.min e1 e2)) as [E1|?]; [lia| |lia].
    destruct (aligned m2 e2 (Z.min e1 e2)) as [E2|?]; [lia| |lia].
    rewrite <- E1, <- E2 in *. apply Z.mul_le_mono_pos_r in Hle; [|lia].
    rewrite <- Z.mul_sub_distr_r. apply normalize_rounds; lia.
Qed.

(** A product, its bounds multiplied by 2^1074; an infinity is not multiplied by
    zero. *)
Lemma mul_nonneg a b : nonneg a -> nonneg b -> fval a < inf_units \/ 0 < fval b -> fval b < inf_units ->
  nonneg (f64_mul a b) /\
  forall c, nonneg c -> fval c < inf_units -> fval c * 2 ^ 1074 <= fval a * fval b ->
    fval c <= fval (f64_mul a b).
Proof.
  intros Ha Hb Hfa Hfb. unfold f64_mul.
  destruct (decide (fval a < inf_units)) as [Hfa'|Hfa'].
  2:{ destruct Hfa as [?|Hp]; [lia|]. destruct a as [s1|s1| |s1 m1 e1]; cbn in Ha; [| |done|].
      - cbn in Hfa'. exfalso. apply Hfa'. by apply Z.pow_pos_nonneg.
      - subst s1. destruct (nonneg_finite b Hb Hfb) as [[s2 ->]|(m2 & e2 & -> & Hb2)]; [cbn in Hp; lia|].
        split; [done|]. intros c Hc Hfin _. cbn. lia.
      - destruct Ha as [-> Ha%finite_fval]. cbn in Hfa'. lia. }
  destruct (nonneg_finite a Ha Hfa') as [[s1 ->]|(m1 & e1 & -> & Hb1)];
    destruct (nonneg_finite b Hb Hfb) as [[s2 ->]|(m2 & e2 & -> & Hb2)]; cbn [SFmul fval].
  1-3: split; [done|]; intros c Hc _ Hle; rewrite ?Z.mul_0_l, ?Z.mul_0_r in Hle;
    apply Z.le_mul_0 in Hle; assert (0 < 2 ^ 1074) by (by apply Z.pow_pos_nonneg); lia.
  assert (e1 + e2 <= fexp 53 1024 (Zdigits2 (Zpos (m1 * m2)) + (e1 + e2))) as He.
  { rewrite fexp_eq. pose proof (proj1 (bounded_spec m1 e1) Hb1) as [E1 _].
    pose proof (proj1 (bounded_spec m2 e2) Hb2) as [E2 _].
    pose proof (digits2_pos_bounds m1) as [L1 _]. pose proof (digits2_pos_bounds m2) as [L2 _].
    pose proof (Zdigits2_bounds (Zpos (m1 * m2)) ltac:(lia)) as [_ U].
    assert (0 < Zpos (digits2_pos m1) /\ 0 < Zpos (digits2_pos m2)) as [P1 P2] by lia.
    set (d1 := Zpos (digits2_pos m1)) in *. set (d2 := Zpos (digits2_pos m2)) in *.
    set (d := Zdigits2 (Zpos (m1 * m2))) in *.
    assert (0 <= d) by (by apply Zdigits2_nonneg).
    assert (2 ^ (d1 - 1 + (d2 - 1)) < 2 ^ d) as Hlt.
    { rewrite Z.pow_add_r by lia. eapply Z.le_lt_trans; [|exact U]. rewrite Pos2Z.inj_mul.
      apply Z.mul_le_mono_nonneg; try lia; apply Z.pow_nonneg; lia. }
    apply Z.pow_lt_mono_r_iff in Hlt; lia. }
  split; [apply round_aux_spec; [lia|done]|]. intros c Hc Hfin Hle. cbn [xorb].
  apply (round_aux_bound _ _ loc_Exact 1074 c); try done.
  - apply bounded_range in Hb1, Hb2. lia.
  - etrans; [exact Hle|]. apply bounded_range in Hb1, Hb2.
    replace (e1 + e2 + 1074 + 1074) with ((e1 + 1074) + (e2 + 1074)) by lia.
    rewrite (Z.pow_add_r 2 (e1 + 1074) (e2 + 1074)) by lia. rewrite Pos2Z.inj_mul. apply Z.eq_le_incl. ring.
Qed.

Lemma div_nonneg a b : nonneg a -> nonneg b -> fval a < inf_units -> 0 < fval b < inf_units ->
  nonneg (f64_div a b).
Proof.
  intros Ha Hb Hfa Hfb. unfold f64_div.
  destruct (nonneg_finite a Ha Hfa) as [[s1 ->]|(m1 & e1 & -> & Hb1)];
    destruct (nonneg_finite b Hb ltac:(lia)) as [[s2 ->]|(m2 & e2 & -> & Hb2)]; cbn [SFdiv]; try done;
    try (cbn in Hfb; lia).
  unfold SFdiv_core_binary. cbn [Zdigits2 xorb].
  set (d1 := Zpos (digits2_pos m1)). set (d2 := Zpos (digits2_pos m2)).
  set (e' := Z.min (fexp 53 1024 (d1 + e1 - (d2 + e2))) (e1 - e2)).
  assert (match e1 - e2 - e' with
          | Z0 => Zpos m1 | Zpos _ => Z.shiftl (Zpos m1) (e1 - e2 - e') | Zneg _ => 0
          end = Zpos m1 * 2 ^ (e1 - e2 - e')) as ->.
  { destruct (e1 - e2 - e') as [|p|p] eqn:E; [by rewrite Z.pow_0_r, Z.mul_1_r| |lia].
    by rewrite Z.shiftl_mul_pow2. }
  pose proof (Z_div_mod (Zpos m1 * 2 ^ (e1 - e2 - e')) (Zpos m2) ltac:(lia)) as Hqr.
  destruct (Z.div_eucl _ _) as [q r]. destruct Hqr as [Hqr Hr].
  set (s := e1 - e2 - e') in *. assert (0 <= s) by lia.
  assert (0 < 2 ^ s) by (apply Z.pow_pos_nonneg; lia). assert (0 <= q) as Hq.
  { assert (0 < Zpos m1 * 2 ^ s) by (apply Z.mul_pos_pos; lia).
    destruct (Z.lt_ge_cases q 0); [|done].
    assert (Zpos m2 * q <= Zpos m2 * -1) by (apply Z.mul_le_mono_nonneg_l; lia). lia. }
  apply round_aux_spec; [done|].
  assert (e' <= fexp 53 1024 (d1 + e1 - (d2 + e2))) as He' by lia. rewrite fexp_eq in He'.
  enough (d1 + s - d2 <= Zdigits2 q) by (rewrite fexp_eq; lia).
  pose proof (Zdigits2_nonneg q Hq). pose proof (digits2_pos_bounds m1) as [L1 _].
  pose proof (digits2_pos_bounds m2) as [_ U2]. fold d1 in L1. fold d2 in U2.
  assert (0 < d1 /\ 0 < d2) as [P1 P2] by (unfold d1, d2; lia).
  assert (q < 2 ^ Zdigits2 q) as Uq.
  { destruct (decide (q = 0)) as [->|]; [done|]. apply Zdigits2_bounds. lia. }
  enough (d1 - 1 + s < d2 + Zdigits2 q) by lia. apply (Z.pow_lt_mono_r_iff 2); [lia|lia|].
  rewrite !Z.pow_add_r by lia.
  apply Z.le_lt_trans with (Zpos m1 * 2 ^ s); [apply Z.mul_le_mono_nonneg_r; lia|].
  rewrite Hqr. assert (Zpos m2 * (q + 1) <= 2 ^ d2 * 2 ^ Zdigits2 q) by (apply Z.mul_le_mono_nonneg; lia).
  lia.
Qed.

Lemma f64_of_Z_exact n : 0 <= n <= 2 ^ 53 -> nonneg (f64_of_Z n) /\ fval (f64_of_Z n) = n * 2 ^ 1074.
Proof.
  intros Hn. pose proof (of_Z_rounds n ltac:(lia)) as Hrd. split; [apply Hrd|].
  pose proof (fun c => rounds_exact _ _ c Hrd) as Hex.
  assert (0 < 2 ^ 1074) by (by apply Z.pow_pos_nonneg).
  destruct (decide (n = 0)) as [->|Hn0]; [done|].
  (* the float with the digits of [n] moved to the top *)
  destruct (Zdigits2_bounds n ltac:(lia)) as [Hlo Hhi]. set (d := Zdigits2 n) in *.
  assert (n = 2 ^ 53 \/ d <= 53) as [->|Hd].
  { destruct (decide (n = 2 ^ 53)); [by left|right].
    assert (d - 1 < 53) by (apply (Z.pow_lt_mono_r_iff 2); lia). lia. }
  { apply (Hex (S754_finite false 4503599627370496 1)); [split; done|apply finite_fval; done|].
    cbn [fval]. change (Zpos 4503599627370496) with (2 ^ 52).
    rewrite <- !Z.pow_add_r by lia. done. }
  assert (0 < d) by (destruct n as [|p|p]; [lia|unfold d; cbn; lia|lia]).
  assert (0 < n * 2 ^ (53 - d)) as Hp by (apply Z.mul_pos_pos; [lia|apply Z.pow_pos_nonneg; lia]).
  assert (bounded 53 1024 (Z.to_pos (n * 2 ^ (53 - d))) (d - 53) = true) as Hb.
  { apply bounded_spec. split; [|lia].
    assert (Zpos (digits2_pos (Z.to_pos (n * 2 ^ (53 - d)))) = 53) as ->; [|lia].
    change (Zdigits2 (Zpos (Z.to_pos (n * 2 ^ (53 - d)))) = 53).
    rewrite Z2Pos.id by done. rewrite Zdigits2_pow by lia. fold d. lia. }
  apply (Hex (S754_finite false (Z.to_pos (n * 2 ^ (53 - d))) (d - 53))); [by split|by apply finite_fval|].
  cbn [fval]. rewrite Z2Pos.id by done. rewrite <- Z.mul_assoc, <- Z.pow_add_r by lia.
  f_equal. f_equal. lia.
Qed.

Lemma of_Z_finite n : 0 <= n <= 2 ^ 53 -> fval (f64_of_Z n) < inf_units.
Proof.
  intros Hn. destruct (f64_of_Z_exact n Hn) as [_ ->].
  apply Z.le_lt_trans with (2 ^ 53 * 2 ^ 1074); [apply Z.mul_le_mono_nonneg_r; [by apply Z.pow_nonneg|lia]|].
  rewrite <- Z.pow_add_r by lia. apply Z.pow_lt_mono_r; lia.
Qed.

(** Whole seconds of a duration are not rounded down. *)
Lemma Duration_Seconds_ge d k : 0 <= k <= 2 ^ 53 -> k * 1000000000 <= d <= 2 ^ 63 ->
  nonneg (Duration_Seconds d) /\ fval (f64_of_Z k) <= fval (Duration_Seconds d).
Proof.
  intros Hk Hd. unfold Duration_Seconds.
  pose proof (Z.quot_rem' d 1000000000) as Hqr. pose proof (Z.rem_bound_pos d 1000000000 ltac:(lia) ltac:(lia)).
  set (q := Z.quot d 1000000000) in *. set (r := Z.rem d 1000000000) in *.
  assert (k <= q) by lia. change (2 ^ 63) with 9223372036854775808 in Hd.
  change (2 ^ 53) with 9007199254740992 in Hk.
  destruct (f64_of_Z_exact k) as [Hk1 Hk2]; [lia|].
  destruct (f64_of_Z_exact q) as [Hq1 Hq2]; [lia|].
  destruct (f64_of_Z_exact r) as [Hr1 Hr2]; [lia|].
  destruct (f64_of_Z_exact 1000000000) as [Hg1 Hg2]; [lia|].
  assert (nonneg (f64_div (f64_of_Z r) (f64_of_Z 1000000000))) as Hdiv.
  { apply div_nonneg; [done|done|apply of_Z_finite; lia|split; [|apply of_Z_finite; lia]].
    rewrite Hg2. apply Z.mul_pos_pos; [lia|by apply Z.pow_pos_nonneg]. }
  destruct (add_rounds _ _ Hq1 Hdiv) as (Hnn & Hge & _). split; [done|].
  apply Hge; [done|apply of_Z_finite; lia|]. pose proof (fval_range _ Hdiv).
  rewrite Hk2, Hq2. assert (k * 2 ^ 1074 <= q * 2 ^ 1074); [|lia].
  apply Z.mul_le_mono_nonneg_r; [by apply Z.pow_nonneg|done].
Qed.
