(* ===== verification/RateFacts.v ===== *)
(** The token bucket in isolation: what a limiter does for one client when the
    map of buckets is left aside, and the arithmetic of its tokens. *)

From S2P Require Import Prelude GoStrings Netip Float64 RateLimit FloatFacts.
From Stdlib Require Import Ascii String.
From stdpp Require Import strings gmap.
#[local] Open Scope stdpp_scope.
#[local] Open Scope Z_scope.

(** ** One client's bucket *)

Definition fresh_bucket (burst : float64) (now : Z) : bucket := {| bk_tokens := burst; bk_last := now |}.

Definition bucket_allow (rate burst : float64) (ob : option bucket) (now : Z) : bool * bucket :=
  spend (match ob with
         | None => fresh_bucket burst now
         | Some b => refill rate burst b now
         end).

Definition bucket_sweep (ttl : Z) (ob : option bucket) (now : Z) : option bucket :=
  match ob with
  | Some b => if idle ttl now b then None else Some b
  | None => None
  end.

(** What a client's bucket sees of the calls on the limiter. *)
Inductive ClientCall :=
  | Arrives (now : Z)
  | Swept (now : Z).

Fixpoint bucket_run (rate burst : float64) (ttl : Z) (ob : option bucket) (cs : list ClientCall)
    : list bool * option bucket :=
  match cs with
  | [] => ([], ob)
  | Arrives now :: rest =>
      let '(allowed, b) := bucket_allow rate burst ob now in
      let '(answers, ob') := bucket_run rate burst ttl (Some b) rest in
      (allowed :: answers, ob')
  | Swept now :: rest => bucket_run rate burst ttl (bucket_sweep ttl ob now) rest
  end.

Fixpoint client_calls (k : string) (calls : list Call) : list ClientCall :=
  match calls with
  | [] => []
  | CallAllow ip now :: rest =>
      if bool_decide (Key ip = k) then Arrives now :: client_calls k rest else client_calls k rest
  | CallSweep now :: rest => Swept now :: client_calls k rest
  end.

Definition answers_for (k : string) (answers : list (string * bool)) : list bool :=
  snd <$> filter (fun a => a.1 = k) answers.

Fixpoint keys_of (calls : list Call) : gset string :=
  match calls with
  | [] => ∅
  | CallAllow ip _ :: rest => {[ Key ip ]} ∪ keys_of rest
  | CallSweep _ :: rest => keys_of rest
  end.

(** The map has room for a set of further keys. *)
Definition has_room (l : Limiter) (ks : gset string) : Prop :=
  0 < lm_maxBuckets l -> Z.of_nat (size (dom (lm_buckets l) ∪ ks)) <= lm_maxBuckets l.

Definition call_time (c : Call) : Z :=
  match c with
  | CallAllow _ now => now
  | CallSweep now => now
  end.

(** The calls read a clock that does not go back. *)
Fixpoint in_order (t : Z) (calls : list Call) : Prop :=
  match calls with
  | [] => True
  | c :: rest => t <= call_time c /\ in_order (call_time c) rest
  end.

Definition client_time (c : ClientCall) : Z :=
  match c with
  | Arrives now => now
  | Swept now => now
  end.
Fixpoint client_order (t : Z) (cs : list ClientCall) : Prop :=
  match cs with
  | [] => True
  | c :: rest => t <= client_time c /\ client_order (client_time c) rest
  end.

Lemma client_order_weaken t t' cs : t <= t' -> client_order t' cs -> client_order t cs.
Proof. destruct cs; [done|]. cbn. intros ? [? ?]. split; [lia|done]. Qed.

Lemma client_calls_order k t calls : in_order t calls -> client_order t (client_calls k calls).
Proof.
  revert t. induction calls as [|[ip now|now] rest IH]; intros t; [done|..]; cbn; intros [Ht Hr].
  - case_bool_decide; cbn; [auto|]. apply (client_order_weaken _ now); auto.
  - auto.
Qed.

(** ** Tokens *)

(** A bucket in a sound state at time [now]: at most [burst] tokens, none owed. *)
Definition bucket_ok (burst : float64) (now : Z) (b : bucket) : Prop :=
  nonneg (bk_tokens b) /\ fval (bk_tokens b) <= fval burst /\ bk_last b <= now.

(** A usable rate or burst. *)
Definition positive_float (x : float64) : Prop := nonneg x /\ 0 < fval x < inf_units.

Lemma f64_one_val : nonneg f64_one /\ fval f64_one = 2 ^ 1074.
Proof. apply (f64_of_Z_exact 1). done. Qed.

Lemma bucket_ok_later burst t t' b : bucket_ok burst t b -> t <= t' -> bucket_ok burst t' b.
Proof. intros (? & ? & ?) ?. split_and!; [done|done|lia]. Qed.

Section arithmetic.
Variables (rate burst : float64).
Hypotheses (Hrate : positive_float rate) (Hburst : positive_float burst).

Lemma fresh_ok now : bucket_ok burst now (fresh_bucket burst now).
Proof. split_and!; [apply Hburst|done|done]. Qed.

(** The tokens before the cap is applied. *)
Lemma refilled_tokens b now k : bucket_ok burst now b -> 0 <= k <= 2 ^ 53 ->
  k * 1000000000 <= sat64 (now - bk_last b) ->
  let tokens := f64_add (bk_tokens b) (f64_mul (Duration_Seconds (sat64 (now - bk_last b))) rate) in
  nonneg tokens /\
  (fval burst <= k * fval rate -> fval burst <= fval tokens).
Proof.
  intros (Hb & _ & _) Hk Hd tokens. destruct Hrate as (Hr & Hr0). destruct Hburst as (Hbu & Hbu0).
  destruct (Duration_Seconds_ge (sat64 (now - bk_last b)) k) as [Hs Hks]; [done| |].
  { split; [done|]. pose proof (sat64_range (now - bk_last b)). unfold int64_max in *. lia. }
  destruct (f64_of_Z_exact k Hk) as [_ Hkv]. rewrite Hkv in Hks.
  set (secs := Duration_Seconds _) in *.
  destruct (mul_nonneg secs rate Hs Hr) as [Hp Hpge]; [right; lia|lia|].
  pose proof (add_rounds (bk_tokens b) (f64_mul secs rate) Hb Hp) as (Hnn & Hge & _).
  split; [done|]. intros Hcov. apply Hge; [done|lia|]. pose proof (fval_range _ Hb).
  enough (fval burst <= fval (f64_mul secs rate)) by lia. apply Hpge; [done|lia|].
  rewrite (Z.mul_comm (fval burst)). etrans; [apply Z.mul_le_mono_nonneg_l; [by apply Z.pow_nonneg|exact Hcov]|].
  rewrite Z.mul_assoc, (Z.mul_comm (2 ^ 1074)). apply Z.mul_le_mono_nonneg_r; [lia|done].
Qed.

Lemma refill_ok b now : bucket_ok burst now b -> bucket_ok burst now (refill rate burst b now).
Proof.
  intros Hb. destruct (refilled_tokens b now 0 Hb) as [Hn _]; [done|destruct Hb as (_ & _ & ?)|].
  { unfold sat64, int64_max, int64_min. lia. }
  unfold refill. split_and!; cbn [bk_tokens bk_last]; [| |done].
  - destruct (f64_ltb _ _); [apply Hburst|done].
  - destruct (f64_ltb _ _) eqn:E; [done|]. rewrite ltb_spec in E by (done || apply Hburst). lia.
Qed.

(** A bucket left alone for the time a full refill takes is as good as new. *)
Lemma refill_full b now k : bucket_ok burst now b -> 0 <= k <= 2 ^ 53 ->
  fval burst <= k * fval rate -> k * 1000000000 <= sat64 (now - bk_last b) ->
  refill rate burst b now = fresh_bucket burst now.
Proof.
  intros Hb Hk Hcov Hd. destruct (refilled_tokens b now k Hb Hk Hd) as [Hn Hge].
  specialize (Hge Hcov). unfold refill, fresh_bucket. f_equal.
  destruct (f64_ltb _ _) eqn:E; [done|]. rewrite ltb_spec in E by (done || apply Hburst).
  symmetry. apply fval_inj; [apply Hburst|done|apply Hburst|]. lia.
Qed.

Lemma spend_ok now b : bucket_ok burst now b -> bucket_ok burst now (spend b).2.
Proof.
  intros (Hn & Hle & Ht). unfold spend. destruct f64_one_val as [H1 H1v].
  rewrite ltb_spec by done. destruct (Z.ltb_spec (fval (bk_tokens b)) (fval f64_one)); [by split_and!|].
  destruct Hburst as (Hbu & Hbu0).
  destruct (sub_rounds (bk_tokens b) f64_one) as (Hn' & _ & Hup); [done|done|lia|done|].
  split_and!; cbn; [done| |done]. apply Hup; [done|]. rewrite H1v.
  assert (0 < 2 ^ 1074) by (by apply Z.pow_pos_nonneg). lia.
Qed.

Lemma bucket_allow_ok ob now : (forall b, ob = Some b -> bucket_ok burst now b) ->
  bucket_ok burst now (bucket_allow rate burst ob now).2.
Proof.
  intros Hob. apply spend_ok. destruct ob as [b|]; [apply refill_ok; auto|apply fresh_ok].
Qed.
End arithmetic.
