(* ===== verification/RateProps.v ===== *)
(** Properties of the rate limiter: it is one independent token bucket per
    client, evicting idle buckets changes no answer, at one instant a client gets
    its burst and no more, and clients are told apart by their network. *)

From S2P Require Import Prelude GoStrings Netip Float64 RateLimit FloatFacts RateFacts.
From Stdlib Require Import Ascii String.
From stdpp Require Import strings gmap.
#[local] Open Scope stdpp_scope.
#[local] Open Scope Z_scope.

(** ** From the limiter to its buckets *)

Lemma Allow_bucket l ip now : has_room l {[ Key ip ]} ->
  Allow (Some l) ip now =
  ((bucket_allow (lm_rate l) (lm_burst l) (lm_buckets l !! Key ip) now).1,
   Some (set_buckets (<[Key ip := (bucket_allow (lm_rate l) (lm_burst l) (lm_buckets l !! Key ip) now).2]>
     (lm_buckets l)) l)).
Proof.
  intros Hroom. unfold Allow, bucket_allow. destruct (lm_buckets l !! Key ip) as [b|] eqn:E.
  { by destruct (spend _). }
  assert ((0 <? lm_maxBuckets l) && (lm_maxBuckets l <=? Z.of_nat (size (lm_buckets l))) = false) as ->.
  { destruct (Z.ltb_spec 0 (lm_maxBuckets l)) as [Hm|]; [|done]. specialize (Hroom Hm).
    apply not_elem_of_dom in E. rewrite size_union, size_singleton, size_dom in Hroom by set_solver.
    apply Z.leb_gt. lia. }
  unfold fresh_bucket. by destruct (spend _).
Qed.

Lemma has_room_mono l ks ks' : has_room l ks -> ks' ⊆ ks -> has_room l ks'.
Proof.
  intros Hr Hs Hm. specialize (Hr Hm). etrans; [|exact Hr]. apply inj_le, subseteq_size. set_solver.
Qed.

Lemma has_room_set l m ks ks' : has_room l ks -> dom m ∪ ks' ⊆ dom (lm_buckets l) ∪ ks ->
  has_room (set_buckets m l) ks'.
Proof. intros Hr Hs Hm. specialize (Hr Hm). etrans; [|exact Hr]. by apply inj_le, subseteq_size. Qed.

Lemma Sweep_bucket l now k :
  filter (fun kb => idle (lm_ttl l) now kb.2 = false) (lm_buckets l) !! k =
  bucket_sweep (lm_ttl l) (lm_buckets l !! k) now.
Proof.
  rewrite map_lookup_filter. destruct (lm_buckets l !! k) as [b|]; [|done].
  cbn [bucket_sweep mbind option_bind]. destruct (idle (lm_ttl l) now b) eqn:E; case_guard; cbn in *; congruence.
Qed.

Lemma Limiter_buckets l calls answers l' k :
  has_room l (keys_of calls) -> run_calls (Some l) calls = (answers, Some l') ->
  (answers_for k answers, lm_buckets l' !! k) =
  bucket_run (lm_rate l) (lm_burst l) (lm_ttl l) (lm_buckets l !! k) (client_calls k calls).
Proof.
  revert l answers. induction calls as [|[ip now|now] rest IH]; intros l answers Hroom Hrun.
  - cbn in Hrun. by injection Hrun as <- <-.
  - cbn [run_calls keys_of client_calls] in *. rewrite Allow_bucket in Hrun by (eapply has_room_mono; [done|set_solver]).
    set (ab := bucket_allow _ _ _ _) in *. set (l1 := set_buckets _ l) in *.
    destruct (run_calls (Some l1) rest) as [as1 l2] eqn:Erest. injection Hrun as <- ->.
    assert (has_room l1 (keys_of rest)) as Hroom1.
    { eapply has_room_set; [exact Hroom|]. rewrite dom_insert_L. set_solver. }
    specialize (IH l1 as1 Hroom1 Erest). unfold answers_for in *. rewrite filter_cons. cbn [fst].
    case_bool_decide as Hk.
    + rewrite decide_True by done. cbn [bucket_run]. subst k. fold ab.
      destruct ab as [a b]. cbn [snd fst] in *. unfold l1 in IH. cbn [lm_buckets set_buckets lm_rate lm_burst lm_ttl] in IH.
      rewrite lookup_insert_eq in IH. rewrite <- IH. done.
    + rewrite decide_False by done. rewrite IH. unfold l1. cbn [lm_buckets set_buckets lm_rate lm_burst lm_ttl].
      by rewrite lookup_insert_ne.
  - cbn [run_calls keys_of client_calls bucket_run Sweep] in *. rewrite <- Sweep_bucket.
    refine (IH (set_buckets _ l) answers _ Hrun). eapply has_room_set; [exact Hroom|].
    pose proof (dom_filter_subseteq (fun kb => idle (lm_ttl l) now kb.2 = false) (lm_buckets l)). set_solver.
Qed.

(** C8: the limiter is one token bucket per client and nothing else: as long as
    the map has room, the answers a client gets and the bucket it is left with are
    those of running its own calls (and the sweeps) on a bucket of its own,
    whatever other clients do in between. *)
Theorem Limiter_refines_buckets l calls answers l' :
  has_room l (keys_of calls) -> run_calls (Some l) calls = (answers, Some l') ->
  forall k,
    answers_for k answers =
      (bucket_run (lm_rate l) (lm_burst l) (lm_ttl l) (lm_buckets l !! k) (client_calls k calls)).1 /\
    lm_buckets l' !! k =
      (bucket_run (lm_rate l) (lm_burst l) (lm_ttl l) (lm_buckets l !! k) (client_calls k calls)).2.
Proof. intros Hroom Hrun k. by rewrite <- (Limiter_buckets l calls answers l' k). Qed.

(** The limiter stays one. *)
Lemma run_calls_some l calls : exists answers l', run_calls (Some l) calls = (answers, Some l') /\
  lm_rate l' = lm_rate l /\ lm_burst l' = lm_burst l /\ lm_ttl l' = lm_ttl l /\ lm_maxBuckets l' = lm_maxBuckets l.
Proof.
  revert l. induction calls as [|[ip now|now] rest IH]; intros l; cbn [run_calls].
  - by exists [], l.
  - assert (exists a m, Allow (Some l) ip now = (a, Some (set_buckets m l))) as (a & m & ->).
    { unfold Allow. destruct (lm_buckets l !! Key ip); [|destruct (_ && _)].
      - destruct (spend _). by do 2 eexists.
      - exists true, (lm_buckets l). by destruct l.
      - destruct (spend _). by do 2 eexists. }
    destruct (IH (set_buckets m l)) as (as1 & l' & -> & ?). by do 2 eexists.
  - apply (IH (set_buckets _ l)).
Qed.

Definition last_time (t : Z) (calls : list Call) : Z := fold_left (fun _ c => call_time c) calls t.

Definition limiter_ok (now : Z) (l : Limiter) : Prop :=
  (0 < lm_maxBuckets l -> Z.of_nat (size (lm_buckets l)) <= lm_maxBuckets l) /\
  forall k b, lm_buckets l !! k = Some b -> bucket_ok (lm_burst l) now b.

Lemma limiter_ok_later t t' l : t <= t' -> limiter_ok t l -> limiter_ok t' l.
Proof. intros Ht [Hs Hb]. split; [done|]. intros k b Hk. eapply bucket_ok_later; eauto. Qed.

Lemma Allow_ok l ip now : positive_float (lm_rate l) -> positive_float (lm_burst l) ->
  limiter_ok now l -> exists a m, Allow (Some l) ip now = (a, Some (set_buckets m l)) /\
  limiter_ok now (set_buckets m l).
Proof.
  intros Hr Hb [Hs Hok].
  pose proof (bucket_allow_ok (lm_rate l) (lm_burst l) Hr Hb (lm_buckets l !! Key ip) now (Hok (Key ip))) as Hnew.
  unfold Allow, bucket_allow, fresh_bucket in *.
  assert (forall a b, bucket_ok (lm_burst l) now b ->
    (0 < lm_maxBuckets l -> Z.of_nat (size (<[Key ip := b]> (lm_buckets l))) <= lm_maxBuckets l) ->
    exists a' m, (a, Some (set_buckets (<[Key ip := b]> (lm_buckets l)) l)) = (a' : bool, Some (set_buckets m l)) /\
      limiter_ok now (set_buckets m l)) as Hins.
  { intros a b Hbok Hsz. do 2 eexists. split; [done|]. split; [done|]. intros k b' Hk. cbn in *.
    apply lookup_insert_Some in Hk as [[_ <-]|[_ Hk]]; [done|eauto]. }
  destruct (lm_buckets l !! Key ip) as [b|] eqn:E.
  - destruct (spend _) as [a b'] eqn:Es. apply Hins; [done|]. rewrite map_size_insert, E. done.
  - destruct (_ && _) eqn:Efull.
    + exists true, (lm_buckets l). split; [by destruct l|]. by destruct l.
    + destruct (spend _) as [a b'] eqn:Es. apply Hins; [done|]. intros Hm. rewrite map_size_insert, E.
      apply andb_false_iff in Efull as [?%Z.ltb_ge|?%Z.leb_gt]; lia.
Qed.

Lemma run_calls_ok l calls t answers l' : positive_float (lm_rate l) -> positive_float (lm_burst l) ->
  limiter_ok t l -> in_order t calls -> run_calls (Some l) calls = (answers, Some l') ->
  limiter_ok (last_time t calls) l'.
Proof.
  intros Hr Hb. revert l t answers Hr Hb.
  induction calls as [|c rest IH]; intros l t answers Hr Hb Hok Hord Hrun; cbn [run_calls last_time fold_left] in *.
  { by injection Hrun as <- <-. }
  destruct Hord as [Ht Hord]. apply (limiter_ok_later _ (call_time c)) in Hok; [|done].
  destruct c as [ip now|now]; cbn [run_calls call_time] in *.
  - destruct (Allow_ok l ip now) as (a & m & Ha & Hok'); [done..|]. rewrite Ha in Hrun.
    destruct (run_calls (Some (set_buckets m l)) rest) as [as1 l2] eqn:Erest.
    injection Hrun as <- ->. by eapply IH in Erest.
  - eapply (IH (set_buckets _ l)) in Hrun; [exact Hrun|done|done| |done].
    destruct Hok as [Hs Hok]. split.
    + intros Hm. cbn in *. specialize (Hs Hm). etrans; [|exact Hs]. apply inj_le.
      rewrite <- !(size_dom (D := gset string)). apply subseteq_size, dom_filter_subseteq.
    + intros k b Hk. cbn in Hk. apply map_lookup_filter_Some in Hk as [Hk _]. eauto.
Qed.

(** C14: the limiter's memory and its tokens are bounded: with positive and finite
    rate and burst, over any calls on a clock that does not go back, at most
    DefaultMaxBuckets clients are tracked (further ones are let through untracked),
    and no bucket ever owes tokens, holds more than its capacity or is not a
    number. *)
Theorem Limiter_invariant rate burst ttl calls answers l' t :
  positive_float rate -> positive_float burst -> in_order t calls ->
  run_calls (Some (ratelimit_New rate burst ttl)) calls = (answers, Some l') ->
  Z.of_nat (size (lm_buckets l')) <= DefaultMaxBuckets /\
  (forall k b, lm_buckets l' !! k = Some b ->
     nonneg (bk_tokens b) /\ fval (bk_tokens b) <= fval burst /\ bk_last b <= last_time t calls) /\
  (Z.of_nat (size (lm_buckets l')) = DefaultMaxBuckets ->
   forall ip now, lm_buckets l' !! Key ip = None -> Allow (Some l') ip now = (true, Some l')).
Proof.
  intros Hr Hb Hord Hrun. pose proof Hrun as Hrun'.
  apply (run_calls_ok _ _ t) in Hrun as [Hs Hok]; [|done|done|split; [done|]|done].
  2:{ intros k b Hk. cbn [ratelimit_New lm_buckets] in Hk. by rewrite lookup_empty in Hk. }
  destruct (run_calls_some (ratelimit_New rate burst ttl) calls) as (? & ? & E & Er & Eb & Et & Em).
  rewrite Hrun' in E. injection E as <- <-. rewrite Em, Eb in *. cbn [ratelimit_New lm_maxBuckets lm_burst] in *.
  assert (0 < DefaultMaxBuckets) as Hpos by done.
  split_and!; [by apply Hs|by apply Hok|]. intros Hfull ip now Hnone. unfold Allow. rewrite Hnone, Em, Hfull.
  by rewrite Z.leb_refl, (proj2 (Z.ltb_lt _ _) Hpos).
Qed.

(** ** Sweeping *)

Definition without_sweeps (calls : list Call) : list Call :=
  List.filter (fun c => match c with CallAllow _ _ => true | CallSweep _ => false end) calls.

Definition arrivals (cs : list ClientCall) : list ClientCall :=
  List.filter (fun c => match c with Arrives _ => true | Swept _ => false end) cs.

Lemma client_calls_without_sweeps k calls :
  client_calls k (without_sweeps calls) = arrivals (client_calls k calls).
Proof.
  induction calls as [|[ip now|now] rest IH]; [done|..]; cbn; [|done].
  case_bool_decide; cbn; [f_equal|]; done.
Qed.

Lemma keys_without_sweeps calls : keys_of (without_sweeps calls) = keys_of calls.
Proof. induction calls as [|[ip now|now] rest IH]; cbn; [done|by f_equal|done]. Qed.

Lemma answers_keys l calls : (run_calls l calls).1.*1 = (run_calls l (without_sweeps calls)).1.*1.
Proof.
  assert (forall cs l, (run_calls l cs).1.*1 =
    omap (fun c => match c with CallAllow ip _ => Some (Key ip) | CallSweep _ => None end) cs) as Hk.
  { clear. intros cs. induction cs as [|[ip now|now] rest IH]; intros l; cbn; [done| |apply IH].
    destruct (Allow l ip now) as [a l1]. specialize (IH l1). destruct (run_calls l1 rest). cbn in *. by f_equal. }
  rewrite !Hk. induction calls as [|[ip now|now] rest IH]; cbn; [done|by f_equal|done].
Qed.

(** Answers with the same keys that agree for every key are equal. *)
Lemma answers_for_all (a1 a2 : list (string * bool)) :
  a1.*1 = a2.*1 -> (forall k, answers_for k a1 = answers_for k a2) -> a1 = a2.
Proof.
  revert a2. induction a1 as [|[k v] a1 IH]; intros [|[k2 v2] a2] Hf Hk; try done.
  cbn in Hf. injection Hf as <- Hf. unfold answers_for in Hk.
  pose proof (Hk k) as Hkk. rewrite !filter_cons, !decide_True in Hkk by done. cbn in Hkk.
  injection Hkk as <- Hkk. f_equal. apply IH; [done|]. intros k'. unfold answers_for.
  specialize (Hk k'). rewrite !filter_cons in Hk. cbn [fst] in Hk. destruct (decide (k = k')); [|done].
  cbn in Hk. by injection Hk.
Qed.

Section sweeping.
Variables (rate burst : float64) (ttl secs : Z).
Hypotheses (Hrate : positive_float rate) (Hburst : positive_float burst).
Hypotheses (Hsecs : 0 <= secs <= 2 ^ 53) (Httl : secs * 1000000000 <= ttl <= int64_max).
Hypothesis (Hcover : fval burst <= secs * fval rate).

(** The bucket with sweeps and the one without: the same, or evicted long ago. *)
Definition swept_alike (t : Z) (ob1 ob2 : option bucket) : Prop :=
  (forall b, ob2 = Some b -> bucket_ok burst t b) /\
  (ob1 = ob2 \/ ob1 = None /\ exists b, ob2 = Some b /\ bk_last b + ttl < t).

Lemma idle_spec now b : idle ttl now b = bool_decide (bk_last b + ttl < now).
Proof.
  unfold idle. rewrite wrap64_id by (unfold int64_min, int64_max in *; lia).
  case_bool_decide; [apply Z.ltb_lt|apply Z.ltb_ge]; lia.
Qed.

Lemma bucket_run_sweeps cs t ob1 ob2 : client_order t cs -> swept_alike t ob1 ob2 ->
  (bucket_run rate burst ttl ob1 cs).1 = (bucket_run rate burst ttl ob2 (arrivals cs)).1.
Proof.
  revert t ob1 ob2. induction cs as [|c rest IH]; intros t ob1 ob2 Hord [Hok Hsim]; [done|].
  destruct Hord as [Ht Hord].
  assert (forall b, ob2 = Some b -> bucket_ok burst (client_time c) b) as Hok'
    by (intros b Hb; eapply bucket_ok_later; eauto).
  destruct c as [now|now]; cbn [arrivals List.filter bucket_run client_time] in *.
  - assert (bucket_allow rate burst ob1 now = bucket_allow rate burst ob2 now) as ->.
    { destruct Hsim as [->|[-> (b & -> & Hb)]]; [done|]. unfold bucket_allow. f_equal.
      symmetry. apply (refill_full rate burst Hrate Hburst b now secs); auto.
      unfold sat64, int64_max, int64_min in *. lia. }
    pose proof (bucket_allow_ok rate burst Hrate Hburst ob2 now Hok') as Hnew.
    destruct (bucket_allow rate burst ob2 now) as [a b].
    specialize (IH now (Some b) (Some b) Hord). fold (arrivals rest).
    destruct (bucket_run _ _ _ (Some b) rest), (bucket_run _ _ _ (Some b) (arrivals rest)).
    cbn in *. f_equal. apply IH. split; [|by left]. by intros ? [= <-].
  - apply (IH now); [done|]. split; [done|].
    destruct Hsim as [->|[-> (b & -> & Hb)]].
    + destruct ob2 as [b|]; [|by left]. cbn. rewrite idle_spec. case_bool_decide; [right|by left].
      split; [done|]. by exists b.
    + right. split; [done|]. exists b. split; [done|lia].
Qed.
End sweeping.

(** C9: eviction is not observable while the map has room for all the clients
    that call: with positive and finite rate and burst, a clock that does not go
    back, and an idle time that covers a full refill ([secs] whole seconds refill a
    bucket, and the time to live is at least that), a run with sweeps anywhere
    gives every call the answer it gets without them.  So sweeping frees memory and
    never gives a throttled client a fresh bucket.  (Once the map is full the code
    lets untracked clients through, and a sweep that frees a slot can end that.) *)
Theorem Sweep_is_unobservable l calls secs t a1 l1 a2 l2 :
  positive_float (lm_rate l) -> positive_float (lm_burst l) ->
  0 <= secs <= 2 ^ 53 -> fval (lm_burst l) <= secs * fval (lm_rate l) ->
  secs * 1000000000 <= lm_ttl l <= int64_max ->
  has_room l (keys_of calls) -> (forall k b, lm_buckets l !! k = Some b -> bucket_ok (lm_burst l) t b) ->
  in_order t calls ->
  run_calls (Some l) calls = (a1, Some l1) -> run_calls (Some l) (without_sweeps calls) = (a2, Some l2) ->
  a1 = a2.
Proof.
  intros Hr Hb Hs Hcov Httl Hroom Hok Hord H1 H2. apply answers_for_all.
  { pose proof (answers_keys (Some l) calls) as E. by rewrite H1, H2 in E. }
  intros k. pose proof (Limiter_buckets l calls a1 l1 k Hroom H1) as E1.
  rewrite <- (keys_without_sweeps calls) in Hroom.
  pose proof (Limiter_buckets l _ a2 l2 k Hroom H2) as E2.
  apply (f_equal fst) in E1, E2. cbn [fst] in E1, E2. rewrite E1, E2, client_calls_without_sweeps.
  eapply (bucket_run_sweeps _ _ _ secs); [done..|by apply client_calls_order|].
  split; [apply Hok|by left].
Qed.

(** ** The burst *)

Lemma refill_at_once rate burst b : positive_float rate -> nonneg (bk_tokens b) -> fval (bk_tokens b) < inf_units ->
  nonneg burst -> fval (bk_tokens b) <= fval burst ->
  nonneg (bk_tokens (refill rate burst b (bk_last b))) /\
  fval (bk_tokens (refill rate burst b (bk_last b))) = fval (bk_tokens b).
Proof.
  intros [Hr Hr0] Hb Hfin Hbu Hle. unfold refill. cbn [bk_tokens].
  rewrite Z.sub_diag. change (Duration_Seconds (sat64 0)) with (S754_zero false).
  assert (exists s, f64_mul (S754_zero false) rate = S754_zero s) as [s ->].
  { destruct (nonneg_finite rate Hr) as [[s ->]|(m & e & -> & _)]; [lia|by eexists..]. }
  destruct (add_rounds (bk_tokens b) (S754_zero s)) as (Hn & Hlo & Hhi); [done|done|].
  assert (fval (f64_add (bk_tokens b) (S754_zero s)) = fval (bk_tokens b)) as Hv.
  { cbn [fval] in *. apply Z.le_antisymm; [apply Hhi; [done|lia]|apply Hlo; [done|done|lia]]. }
  rewrite ltb_spec by done. destruct (Z.ltb_spec (fval burst) (fval (f64_add (bk_tokens b) (S754_zero s)))); [lia|done].
Qed.

(** At one instant a bucket of [m] whole tokens serves [m] arrivals. *)
Lemma bucket_run_at_once rate burst ttl t : positive_float rate -> positive_float burst -> 0 <= ttl <= int64_max ->
  forall cs m b, Forall (fun c => client_time c = t) cs -> bk_last b = t ->
  nonneg (bk_tokens b) -> fval (bk_tokens b) = Z.of_nat m * 2 ^ 1074 -> Z.of_nat m <= 2 ^ 53 ->
  fval (bk_tokens b) <= fval burst ->
  (bucket_run rate burst ttl (Some b) cs).1 =
  repeat true (Nat.min m (length (arrivals cs))) ++ repeat false (length (arrivals cs) - m).
Proof.
  intros Hr Hbu Httl. induction cs as [|c rest IH]; intros m b Hall Hlast Hn Hv Hm Hle; [by rewrite Nat.min_0_r|].
  apply Forall_cons in Hall as [Ht Hall]. destruct c as [now|now]; cbn [client_time] in Ht; subst now t.
  - cbn [bucket_run arrivals List.filter]. fold (arrivals rest). cbn [length].
    destruct (refill_at_once rate burst b) as [Hn' Hv']; [done..| |apply Hbu|done|].
    { destruct Hbu. lia. }
    unfold bucket_allow, spend. destruct f64_one_val as [H1 H1v]. rewrite ltb_spec by done.
    rewrite Hv', H1v, Hv. assert (0 < 2 ^ 1074) as Hp by (by apply Z.pow_pos_nonneg).
    destruct m as [|m].
    + destruct (Z.ltb_spec (Z.of_nat 0 * 2 ^ 1074) (2 ^ 1074)) as [_|?]; [|lia].
      specialize (IH 0%nat (refill rate burst b (bk_last b)) Hall eq_refl Hn').
      destruct (bucket_run _ _ _ _ rest) as [as1 ?]. cbn [fst] in *. rewrite IH by lia.
      cbn. by rewrite Nat.sub_0_r.
    + destruct (Z.ltb_spec (Z.of_nat (S m) * 2 ^ 1074) (2 ^ 1074)) as [?|_]; [nia|].
      destruct (f64_of_Z_exact (Z.of_nat m)) as [Hc Hcv]; [lia|].
      pose proof (sub_rounds (bk_tokens (refill rate burst b (bk_last b))) f64_one Hn' H1) as Hrd.
      rewrite Hv', H1v, Hv in Hrd. specialize (Hrd ltac:(destruct Hbu; lia) ltac:(nia)).
      set (b2 := {| bk_tokens := f64_sub (bk_tokens (refill rate burst b (bk_last b))) f64_one; bk_last := _ |}).
      assert (fval (bk_tokens b2) = Z.of_nat m * 2 ^ 1074) as Hv2.
      { cbn [b2 bk_tokens]. erewrite rounds_exact; [|exact Hrd|exact Hc|by apply of_Z_finite; lia|]; [lia|].
        rewrite Hcv. lia. }
      specialize (IH m b2 Hall eq_refl (proj1 Hrd) Hv2 ltac:(lia) ltac:(rewrite Hv2; nia)).
      destruct (bucket_run _ _ _ _ rest) as [as1 ?]. cbn [fst] in *. by rewrite IH.
  - cbn [bucket_run arrivals List.filter bucket_sweep]. fold (arrivals rest).
    rewrite (idle_spec ttl 0) by lia. rewrite bool_decide_false by lia. by apply IH.
Qed.

Lemma refill_fresh rate burst t : positive_float rate -> positive_float burst ->
  refill rate burst (fresh_bucket burst t) t = fresh_bucket burst t.
Proof.
  intros Hr Hb. destruct (refill_at_once rate burst (fresh_bucket burst t)) as [Hn Hv];
    [done|apply Hb|apply Hb|apply Hb|done|].
  cbn [fresh_bucket bk_last] in *. unfold fresh_bucket, refill in *. cbn [bk_tokens bk_last] in *.
  f_equal. apply fval_inj; [done|apply Hb|rewrite Hv; apply Hb|done].
Qed.

Lemma spend_last b a b' : spend b = (a, b') -> bk_last b' = bk_last b.
Proof. unfold spend. destruct (f64_ltb _ _); by intros [= _ <-]. Qed.

Lemma at_once_calls k t calls : Forall (fun c => call_time c = t) calls ->
  Forall (fun c => client_time c = t) (Arrives t :: client_calls k calls).
Proof.
  intros Hall. constructor; [done|].
  induction Hall as [|[ip now|now] rest Ht Hrest IH]; cbn; [done|case_bool_decide; auto|auto].
Qed.

(** What a client's call does not change for another one. *)
Lemma Allow_other l ip now a l1 k : Allow (Some l) ip now = (a, Some l1) -> Key ip <> k ->
  lm_buckets l1 !! k = lm_buckets l !! k.
Proof.
  intros Ha Hk. unfold Allow in Ha. destruct (lm_buckets l !! Key ip); [|destruct (_ && _)].
  - destruct (spend _). injection Ha as _ <-. by apply lookup_insert_ne.
  - by injection Ha as _ <-.
  - destruct (spend _). injection Ha as _ <-. by apply lookup_insert_ne.
Qed.

Lemma Allow_same_limits l ip now : exists a l1, Allow (Some l) ip now = (a, Some l1) /\
  lm_rate l1 = lm_rate l /\ lm_burst l1 = lm_burst l /\ lm_ttl l1 = lm_ttl l.
Proof.
  unfold Allow. destruct (lm_buckets l !! Key ip); [|destruct (_ && _)];
    try (destruct (spend _)); do 2 eexists; (split; [reflexivity|done]).
Qed.

(** Once a client has its bucket, and as long as no time passes, its answers are
    its bucket's, even when the map is full. *)
Lemma tracked_at_once l calls answers l' k t b : 0 <= lm_ttl l <= int64_max ->
  lm_buckets l !! k = Some b -> bk_last b = t -> Forall (fun c => call_time c = t) calls ->
  run_calls (Some l) calls = (answers, Some l') ->
  answers_for k answers = (bucket_run (lm_rate l) (lm_burst l) (lm_ttl l) (Some b) (client_calls k calls)).1.
Proof.
  intros Httl Hb Hlast Hall. revert l answers b Httl Hb Hlast.
  induction Hall as [|c rest Hc Hall IH]; intros l answers b Httl Hb Hlast Hrun.
  { cbn in Hrun. by injection Hrun as <- <-. }
  destruct c as [ip now|now]; cbn [call_time] in Hc; subst now; cbn [run_calls client_calls] in *.
  - destruct (Allow_same_limits l ip t) as (a & l1 & Ha & Er & Eb & Et). rewrite Ha in Hrun.
    destruct (run_calls (Some l1) rest) as [as1 l2] eqn:Erest. injection Hrun as <- ->.
    unfold answers_for in *. rewrite filter_cons. cbn [fst]. case_bool_decide as Hk.
    + rewrite decide_True by done. cbn [bucket_run]. unfold bucket_allow.
      unfold Allow in Ha. rewrite Hk, Hb in Ha. destruct (spend _) as [a' b'] eqn:Es. injection Ha as <- Hl1.
      specialize (IH l1 as1 b'). rewrite Er, Eb, Et in IH.
      destruct (bucket_run _ _ _ (Some b') _) as [as2 ?]. cbn in *. f_equal. apply IH; [done| |by rewrite (spend_last _ _ _ Es)|done].
      rewrite <- Hl1. apply lookup_insert_eq.
    + rewrite decide_False by done. rewrite <- Er, <- Eb, <- Et. apply IH; [by rewrite Et| |done|done].
      by rewrite (Allow_other l ip t a l1).
  - cbn [bucket_run]. assert (idle (lm_ttl l) t b = false) as Hidle.
    { rewrite (idle_spec (lm_ttl l) 0) by lia. apply bool_decide_false. lia. }
    assert (bucket_sweep (lm_ttl l) (Some b) t = Some b) as -> by (cbn; by rewrite Hidle).
    refine (IH (set_buckets _ l) answers b Httl _ Hlast Hrun). cbn [set_buckets lm_buckets].
    by apply map_lookup_filter_Some.
Qed.

(** C13: the burst: when a client that is not tracked calls and there is room for
    it, exactly the first [n] of its calls at that instant are let through, where
    the capacity is the whole number [n]; whatever other clients do, even if they
    fill the map, and wherever idle buckets are swept. *)
Theorem burst_is_exact l ip calls answers l' n t :
  positive_float (lm_rate l) -> lm_burst l = f64_of_Z (Z.of_nat n) -> 1 <= Z.of_nat n <= 2 ^ 53 ->
  0 <= lm_ttl l <= int64_max -> lm_buckets l !! Key ip = None ->
  (0 < lm_maxBuckets l -> Z.of_nat (size (lm_buckets l)) < lm_maxBuckets l) ->
  Forall (fun c => call_time c = t) calls ->
  run_calls (Some l) (CallAllow ip t :: calls) = (answers, Some l') ->
  let own := answers_for (Key ip) answers in
  own = repeat true (Nat.min n (length own)) ++ repeat false (length own - n).
Proof.
  intros Hr Hb Hn Httl Hnone Hroom Hall Hrun. cbv zeta. set (k := Key ip) in *.
  destruct (f64_of_Z_exact (Z.of_nat n)) as [Hbn Hbv]; [lia|]. rewrite <- Hb in Hbn, Hbv.
  assert (positive_float (lm_burst l)) as Hpos.
  { split; [done|]. rewrite Hb at 2. split; [rewrite Hbv; assert (0 < 2 ^ 1074) by (by apply Z.pow_pos_nonneg); nia|].
    apply of_Z_finite. lia. }
  enough (answers_for k answers = repeat true (Nat.min n (length (arrivals (Arrives t :: client_calls k calls)))) ++
    repeat false (length (arrivals (Arrives t :: client_calls k calls)) - n)) as Heq.
  { assert (length (answers_for k answers) = length (arrivals (Arrives t :: client_calls k calls))) as ->; [|done].
    rewrite Heq, length_app, !repeat_length. lia. }
  rewrite <- (bucket_run_at_once (lm_rate l) (lm_burst l) (lm_ttl l) t Hr Hpos Httl
    (Arrives t :: client_calls k calls) n (fresh_bucket (lm_burst l) t)); try done; [|by apply at_once_calls|lia].
  cbn [run_calls bucket_run] in *. unfold bucket_allow. rewrite (refill_fresh _ _ t Hr Hpos).
  unfold Allow in Hrun. fold k in Hrun. rewrite Hnone in Hrun.
  assert ((0 <? lm_maxBuckets l) && (lm_maxBuckets l <=? Z.of_nat (size (lm_buckets l))) = false) as Hfull.
  { destruct (Z.ltb_spec 0 (lm_maxBuckets l)) as [Hm|]; [|done]. specialize (Hroom Hm). apply Z.leb_gt. lia. }
  rewrite Hfull in Hrun. fold (fresh_bucket (lm_burst l) t) in Hrun. destruct (spend _) as [a b] eqn:Es.
  set (l1 := set_buckets _ l) in Hrun. destruct (run_calls (Some l1) calls) as [as1 l2] eqn:Erest.
  injection Hrun as <- ->.
  pose proof (tracked_at_once l1 calls as1 l' k t b Httl (lookup_insert_eq _ _ _) (spend_last _ _ _ Es) Hall Erest) as E.
  unfold answers_for in *. rewrite filter_cons, decide_True by done. cbn [fst snd fmap list_fmap].
  change (lm_rate l1) with (lm_rate l) in E. change (lm_burst l1) with (lm_burst l) in E.
  change (lm_ttl l1) with (lm_ttl l) in E.
  destruct (bucket_run _ _ _ (Some b) _) as [as2 ?]. cbn in *. by f_equal.
Qed.

(** ** Keys *)

Lemma mapped_is_4in6 a : 0 <= a < 2 ^ 32 -> is_4in6 (Z.shiftl 65535 32 + a) = true.
Proof.
  intros Ha. unfold is_4in6. apply Z.eqb_eq. rewrite Z.shiftl_mul_pow2, Z.shiftr_div_pow2 by lia.
  rewrite Z.div_add_l by lia. by rewrite Z.div_small.
Qed.

(** A text net.ParseIP reads as an IPv6 address that is not IPv4-mapped. *)
Lemma Key_ipv6 s v : ParseAddr s = Some (Addr6 v "") -> is_4in6 v = false ->
  0 <= v < 2 ^ 128 /\ Key s = text6 (mask_top 128 64 v) "".
Proof.
  intros Hs H4. assert (0 <= v < 2 ^ 128) as Hv by apply (proj1 (ParseAddr_ok _ _ Hs)). split; [done|].
  unfold Key, ParseIP. rewrite Hs, decide_True, H4 by done.
  unfold Addr_String. by rewrite mask_top_4in6, decide_True by done.
Qed.

(** C39: how clients are told apart.  Two texts that net.ParseIP reads as IPv6
    addresses, however they are written, share a bucket exactly when they are in
    the same /64 network; every other text (an IPv4 address, an IPv4-mapped one,
    an address with a zone, anything that is no address) is its own key and shares
    with no IPv6 client. *)
Theorem Key_by_network :
  (forall s1 s2 v w, ParseAddr s1 = Some (Addr6 v "") -> ParseAddr s2 = Some (Addr6 w "") ->
     is_4in6 v = false -> is_4in6 w = false -> (Key s1 = Key s2 <-> v / 2 ^ 64 = w / 2 ^ 64)) /\
  (forall s, (forall v, ParseAddr s = Some (Addr6 v "") -> is_4in6 v = true) ->
     Key s = s /\ forall s2 w, ParseAddr s2 = Some (Addr6 w "") -> is_4in6 w = false -> Key s <> Key s2).
Proof.
  split.
  - intros s1 s2 v w H1 H2 H4v H4w.
    destruct (Key_ipv6 s1 v H1 H4v) as [Hv ->]. destruct (Key_ipv6 s2 w H2 H4w) as [Hw ->]. split.
    + intros E. apply (f_equal ParseAddr) in E.
      pose proof (mask_top_range 128 64 v ltac:(lia) Hv). pose proof (mask_top_range 128 64 w ltac:(lia) Hw).
      rewrite !ParseAddr_text6 in E by lia. injection E as E. rewrite !mask_top_div in E by done.
      change (128 - 64) with 64 in E. lia.
    + intros E. rewrite !mask_top_div by done. change (128 - 64) with 64. by rewrite E.
  - intros s Hs. assert (Key s = s) as Hk.
    { unfold Key, ParseIP. destruct (ParseAddr s) as [[|a|v zone]|] eqn:E; [done| | |done].
      - apply ParseAddr_ok in E as [Ha _]. by rewrite mapped_is_4in6.
      - case_decide as Hz; [subst zone|done]. by rewrite Hs. }
    split; [done|]. intros s2 w H2 H4. rewrite Hk. destruct (Key_ipv6 s2 w H2 H4) as [Hw ->]. intros ->.
    pose proof (mask_top_range 128 64 w ltac:(lia) Hw) as Hm.
    specialize (Hs _ (ParseAddr_text6 (mask_top 128 64 w) ltac:(lia))). by rewrite mask_top_4in6 in Hs.
Qed.

(** ** A concrete limiter: half a token a second, two at once. *)

Definition demo_limiter : Limiter :=
  ratelimit_New (f64_div f64_one (f64_of_Z 2)) (f64_of_Z 2) 4000000000.

Definition demo_calls : list Call :=
  [CallAllow "192.0.2.1" 0; CallAllow "192.0.2.1" 0; CallAllow "2001:db8::7" 0;
   CallAllow "192.0.2.1" 0; CallSweep 5000000000; CallAllow "192.0.2.1" 5000000001].

Lemma half_positive : positive_float (f64_div f64_one (f64_of_Z 2)).
Proof. repeat split. Qed.
Lemma two_positive : positive_float (f64_of_Z 2).
Proof. repeat split. Qed.
#[export] Hint Resolve half_positive two_positive : gate.

Lemma demo_room calls : bool_decide (Z.of_nat (size (keys_of calls)) <= DefaultMaxBuckets) = true ->
  has_room demo_limiter (keys_of calls).
Proof.
  intros H%bool_decide_eq_true _. cbn [demo_limiter ratelimit_New lm_buckets lm_maxBuckets].
  by rewrite dom_empty_L, union_empty_l_L.
Qed.

Lemma run_demo l calls : exists l', run_calls (Some l) calls = ((run_calls (Some l) calls).1, Some l').
Proof. destruct (run_calls_some l calls) as (a & l' & -> & _). by exists l'. Qed.

Lemma Limiter_refines_buckets_witness :
  exists l', answers_for "192.0.2.1" (run_calls (Some demo_limiter) demo_calls).1 = [true; true; false; true] /\
    lm_buckets l' !! "192.0.2.1" =
      (bucket_run (lm_rate demo_limiter) (lm_burst demo_limiter) (lm_ttl demo_limiter) None
         (client_calls "192.0.2.1" demo_calls)).2.
Proof.
  destruct (run_demo demo_limiter demo_calls) as [l' E]. exists l'.
  destruct (Limiter_refines_buckets demo_limiter demo_calls _ l' (demo_room demo_calls ltac:(vm_compute; reflexivity)) E "192.0.2.1") as [H1 H2].
  split; [rewrite H1; vm_compute; reflexivity|exact H2].
Defined.

Lemma Limiter_invariant_witness :
  exists l', run_calls (Some demo_limiter) demo_calls = ((run_calls (Some demo_limiter) demo_calls).1, Some l') /\
    Z.of_nat (size (lm_buckets l')) <= DefaultMaxBuckets.
Proof.
  destruct (run_demo demo_limiter demo_calls) as [l' E]. exists l'. split; [exact E|].
  refine (proj1 (Limiter_invariant _ _ _ demo_calls _ l' 0 half_positive two_positive _ E)).
  cbn. lia.
Defined.

Lemma Sweep_is_unobservable_witness :
  (run_calls (Some demo_limiter) demo_calls).1 = (run_calls (Some demo_limiter) (without_sweeps demo_calls)).1.
Proof.
  destruct (run_demo demo_limiter demo_calls) as [l1 E1].
  destruct (run_demo demo_limiter (without_sweeps demo_calls)) as [l2 E2].
  refine (Sweep_is_unobservable demo_limiter demo_calls 4 0 _ l1 _ l2 half_positive two_positive
    _ _ _ (demo_room demo_calls ltac:(vm_compute; reflexivity)) _ _ E1 E2).
  - split; vm_compute; discriminate.
  - vm_compute. discriminate.
  - split; vm_compute; discriminate.
  - intros k b Hk. cbn [demo_limiter ratelimit_New lm_buckets] in Hk. by rewrite lookup_empty in Hk.
  - cbn. lia.
Defined.

Lemma burst_is_exact_witness :
  answers_for "192.0.2.1" (run_calls (Some demo_limiter) (take 4 demo_calls)).1 = [true; true; false].
Proof.
  destruct (run_demo demo_limiter (take 4 demo_calls)) as [l' E].
  pose proof (burst_is_exact demo_limiter "192.0.2.1" (drop 1 (take 4 demo_calls)) _ l' 2 0 half_positive
    eq_refl ltac:(split; vm_compute; discriminate) ltac:(split; vm_compute; discriminate) eq_refl
    (fun _ => eq_refl) ltac:(repeat constructor) E) as H.
  change (Key "192.0.2.1") with "192.0.2.1" in H. cbv zeta in H. rewrite H. vm_compute. reflexivity.
Defined.

(** When the map is full the limiter lets others through untracked; a sweep that
    frees a slot has the next of them tracked, and stopped. *)
Example sweep_shows_when_full :
  let l := Some {| lm_buckets := ∅; lm_rate := f64_one; lm_burst := f64_one; lm_ttl := 1000000000; lm_maxBuckets := 1 |} in
  let calls sweep := CallAllow "192.0.2.1" 0 :: sweep ++
    [CallAllow "192.0.2.2" 2000000000; CallAllow "192.0.2.2" 2000000000] in
  map snd (run_calls l (calls [])).1 = [true; true; true] /\
  map snd (run_calls l (calls [CallSweep 1500000000])).1 = [true; true; false].
Proof. split; vm_compute; reflexivity. Qed.

(** One network however it is written, another network, and a zone. *)
Lemma Key_by_network_witness :
  Key "2001:db8::1" = Key "2001:0DB8:0:0:ffff::2" /\ Key "2001:db8::1" <> Key "2001:db8:0:1::1" /\
  Key "fe80::1%eth0" = "fe80::1%eth0".
Proof.
  destruct Key_by_network as [H6 Ho]. split; [|split].
  - apply (H6 _ _ (Z.shiftl 0x20010db8 96 + 1) (Z.shiftl 0x20010db80000 80 + Z.shiftl 0xffff 48 + 2));
      vm_compute; reflexivity.
  - intros E. apply (H6 _ _ (Z.shiftl 0x20010db8 96 + 1) (Z.shiftl 0x20010db800000001 64 + 1)) in E;
      vm_compute in E |- *; first [discriminate E|reflexivity].
  - refine (proj1 (Ho "fe80::1%eth0" _)). intros v E. vm_compute in E. discriminate E.
Defined.
