(* ===== verification/Semaphore.v ===== *)
(** Package semaphore (semaphore/semaphore.go): the buffered channel of slots as
    its capacity and the number of elements it holds.  A [*Semaphore] is
    [option Semaphore]; nil is unbounded. *)

From S2P Require Import Prelude.
#[local] Open Scope Z_scope.

Record Semaphore := { sm_cap : Z; sm_used : Z }.

(** semaphore.New; [make(chan struct{}, n)] panics for a negative size. *)
Definition semaphore_New (n : Z) : result Semaphore :=
  if n <? 0 then Err (ErrPanic "makechan: size out of range")
  else Ok {| sm_cap := n; sm_used := 0 |}.

(** Semaphore.Acquire: the send of a select with a default. *)
Definition Acquire (s : option Semaphore) : bool * option Semaphore :=
  match s with
  | None => (true, None)
  | Some s =>
      if sm_used s <? sm_cap s
      then (true, Some {| sm_cap := sm_cap s; sm_used := sm_used s + 1 |})
      else (false, Some s)
  end.

(** Semaphore.Release: the receive of a select with a default. *)
Definition Release (s : option Semaphore) : option Semaphore :=
  match s with
  | None => None
  | Some s =>
      if 0 <? sm_used s
      then Some {| sm_cap := sm_cap s; sm_used := sm_used s - 1 |}
      else Some s
  end.

(** A nil semaphore, or one whose channel holds [n] of at most [cap] slots. *)
Definition sem_counts (s : option Semaphore) (n : Z) : Prop :=
  match s with
  | None => True
  | Some s => sm_used s = n /\ 0 <= n <= sm_cap s
  end.

Definition sem_cap (s : option Semaphore) : option Z := sm_cap <$> s.

Lemma Acquire_counts s n a s' : sem_counts s n -> 0 <= n -> Acquire s = (a, s') ->
  sem_counts s' (if a then n + 1 else n) /\ sem_cap s' = sem_cap s /\
  (a = false -> sem_cap s = Some n).
Proof.
  destruct s as [s|]; cbn; [|intros _ _ [= <- <-]; by split_and!].
  intros [Hu Hr] _. destruct (Z.ltb_spec (sm_used s) (sm_cap s)); intros [= <- <-]; cbn; split_and!; try lia; try done.
  intros _. f_equal. lia.
Qed.

Lemma Release_counts s n : sem_counts s n -> 0 < n ->
  sem_counts (Release s) (n - 1) /\ sem_cap (Release s) = sem_cap s.
Proof.
  destruct s as [s|]; cbn; [|done]. intros [Hu Hr] Hn. destruct (Z.ltb_spec 0 (sm_used s)); cbn; [|lia].
  split; [lia|done].
Qed.
