(* ===== verification/Proxy.v ===== *)
(** Package proxy (proxy/proxy.go): routes, and the connection server.  Serve's
    accept loops, the handler goroutines and Drain run concurrently; the model is a
    state with one phase per goroutine and a step per operation that other
    goroutines can observe, so that a run is any interleaving of such steps. *)

From S2P Require Import Prelude GoStrings Semaphore.
From Stdlib Require Import Ascii String.
From stdpp Require Import strings list.
#[local] Open Scope stdpp_scope.
#[local] Open Scope Z_scope.

(** ** Routes *)

Record Route := { rt_Listen : string; rt_Backend : string; rt_Port : Z }.

Definition err_route (value : string) : GoError := ErrText "route must be LISTEN=BACKEND, got %q" [value].

Definition ParseRoute (value : string) : result Route :=
  match cut_byte "="%char value with
  | None => Err (err_route value)
  | Some (listen, backend) =>
      if bool_decide (TrimSpace listen = "") || bool_decide (TrimSpace backend = "")
      then Err (err_route value)
      else
        let port := match SplitHostPort listen with
                    | Ok (_, portText) => (Atoi portText).1
                    | Err _ => 0
                    end in
        Ok {| rt_Listen := listen; rt_Backend := backend; rt_Port := port |}
  end.

Definition route_text (r : Route) : string := rt_Listen r +:+ "=" +:+ rt_Backend r.

(** Routes.String and Routes.Set *)
Definition Routes_String (rs : list Route) : string := str_join "," (map route_text rs).
Definition Routes_Set (rs : list Route) (value : string) : result (list Route) :=
  route ← ParseRoute value; Ok (rs ++ [route]).

(** RemoteIP; the address is what [addr.String()] gives, [None] a nil address. *)
Definition RemoteIP (addr : option string) : string :=
  match addr with
  | None => ""
  | Some text =>
      match SplitHostPort text with
      | Ok (host, _) => host
      | Err _ => text
      end
  end.

(** ** The server's goroutines *)

(** An accepted connection: its number in the order of acceptance, and the
    client's address as the log shows it. *)
Record Conn := { cn_id : nat; cn_ip : string }.

(** Where an accept loop is: in [ln.Accept]; with a new connection; closing it
    for want of a slot; with a slot taken; with the handler counted in connWG;
    returning; returned. *)
Inductive LoopPhase :=
  | Accepting
  | Got (c : Conn)
  | Overloaded (c : Conn)
  | HasSlot (c : Conn)
  | Counted (c : Conn)
  | Leaving
  | Ended.

Record Loop := { lp_route : Route; lp_phase : LoopPhase }.

(** Where a connection's goroutine is: in the handler; after it; after the
    deferred Close; after the deferred Release; after the deferred Done. *)
Inductive HandlerPhase :=
  | Handling
  | Returned
  | Closed
  | Released
  | Finished.

Record Handler := { hd_conn : Conn; hd_route : Route; hd_phase : HandlerPhase }.

(** Drain: its goroutine waits for the accept loops, then for the handlers, then
    closes [done]; the caller waits for that or for its timeout. *)
Inductive Waiter := NotDraining | WaitAccepts | WaitConns | DoneClosed.

Record Server := {
  sv_sem : option Semaphore;
  sv_logf : bool;
  sv_acceptWG : Z;
  sv_connWG : Z;
  sv_loops : list Loop;
  sv_handlers : list Handler;
  sv_accepted : nat;
  sv_dropped : list Conn;
  sv_waiter : Waiter;
  sv_timeout : Z;
  sv_drained : option bool;
  sv_log : list (string * list string)
}.

(** proxy.NewServer *)
Definition NewServer (maxConcurrent : Z) (logf : bool) : result Server :=
  sem ← (if 0 <? maxConcurrent then sem ← semaphore_New maxConcurrent; Ok (Some sem) else Ok None);
  Ok {| sv_sem := sem; sv_logf := logf; sv_acceptWG := 0; sv_connWG := 0; sv_loops := [];
        sv_handlers := []; sv_accepted := 0; sv_dropped := []; sv_waiter := NotDraining;
        sv_timeout := 0; sv_drained := None; sv_log := [] |}.

(** Server.log *)
Definition log_line (format : string) (args : list string) (s : Server) : Server :=
  {| sv_sem := sv_sem s; sv_logf := sv_logf s; sv_acceptWG := sv_acceptWG s; sv_connWG := sv_connWG s;
     sv_loops := sv_loops s; sv_handlers := sv_handlers s; sv_accepted := sv_accepted s;
     sv_dropped := sv_dropped s; sv_waiter := sv_waiter s; sv_timeout := sv_timeout s;
     sv_drained := sv_drained s;
     sv_log := if sv_logf s then sv_log s ++ [(format, args)] else sv_log s |}.

Definition set_loop (i : nat) (p : LoopPhase) (s : Server) : Server :=
  {| sv_sem := sv_sem s; sv_logf := sv_logf s; sv_acceptWG := sv_acceptWG s; sv_connWG := sv_connWG s;
     sv_loops := alter (fun l => {| lp_route := lp_route l; lp_phase := p |}) i (sv_loops s);
     sv_handlers := sv_handlers s; sv_accepted := sv_accepted s;
     sv_dropped := sv_dropped s; sv_waiter := sv_waiter s; sv_timeout := sv_timeout s;
     sv_drained := sv_drained s; sv_log := sv_log s |}.

Definition set_handler (i : nat) (p : HandlerPhase) (s : Server) : Server :=
  {| sv_sem := sv_sem s; sv_logf := sv_logf s; sv_acceptWG := sv_acceptWG s; sv_connWG := sv_connWG s;
     sv_loops := sv_loops s;
     sv_handlers := alter (fun h => {| hd_conn := hd_conn h; hd_route := hd_route h; hd_phase := p |}) i (sv_handlers s);
     sv_accepted := sv_accepted s;
     sv_dropped := sv_dropped s; sv_waiter := sv_waiter s; sv_timeout := sv_timeout s;
     sv_drained := sv_drained s; sv_log := sv_log s |}.

Definition add_loop (r : Route) (s : Server) : Server :=
  {| sv_sem := sv_sem s; sv_logf := sv_logf s; sv_acceptWG := sv_acceptWG s + 1; sv_connWG := sv_connWG s;
     sv_loops := sv_loops s ++ [{| lp_route := r; lp_phase := Accepting |}];
     sv_handlers := sv_handlers s; sv_accepted := sv_accepted s;
     sv_dropped := sv_dropped s; sv_waiter := sv_waiter s; sv_timeout := sv_timeout s;
     sv_drained := sv_drained s; sv_log := sv_log s |}.

Definition add_handler (c : Conn) (r : Route) (s : Server) : Server :=
  {| sv_sem := sv_sem s; sv_logf := sv_logf s; sv_acceptWG := sv_acceptWG s; sv_connWG := sv_connWG s;
     sv_loops := sv_loops s;
     sv_handlers := sv_handlers s ++ [{| hd_conn := c; hd_route := r; hd_phase := Handling |}];
     sv_accepted := sv_accepted s;
     sv_dropped := sv_dropped s; sv_waiter := sv_waiter s; sv_timeout := sv_timeout s;
     sv_drained := sv_drained s; sv_log := sv_log s |}.

Definition set_sem (sem : option Semaphore) (s : Server) : Server :=
  {| sv_sem := sem; sv_logf := sv_logf s; sv_acceptWG := sv_acceptWG s; sv_connWG := sv_connWG s;
     sv_loops := sv_loops s; sv_handlers := sv_handlers s; sv_accepted := sv_accepted s;
     sv_dropped := sv_dropped s; sv_waiter := sv_waiter s; sv_timeout := sv_timeout s;
     sv_drained := sv_drained s; sv_log := sv_log s |}.

(** [acceptWG.Add], [connWG.Add] *)
Definition add_wg (accepts conns : Z) (s : Server) : Server :=
  {| sv_sem := sv_sem s; sv_logf := sv_logf s; sv_acceptWG := sv_acceptWG s + accepts;
     sv_connWG := sv_connWG s + conns;
     sv_loops := sv_loops s; sv_handlers := sv_handlers s; sv_accepted := sv_accepted s;
     sv_dropped := sv_dropped s; sv_waiter := sv_waiter s; sv_timeout := sv_timeout s;
     sv_drained := sv_drained s; sv_log := sv_log s |}.

Definition count_accept (s : Server) : Server :=
  {| sv_sem := sv_sem s; sv_logf := sv_logf s; sv_acceptWG := sv_acceptWG s; sv_connWG := sv_connWG s;
     sv_loops := sv_loops s; sv_handlers := sv_handlers s; sv_accepted := S (sv_accepted s);
     sv_dropped := sv_dropped s; sv_waiter := sv_waiter s; sv_timeout := sv_timeout s;
     sv_drained := sv_drained s; sv_log := sv_log s |}.

Definition drop_conn (c : Conn) (s : Server) : Server :=
  {| sv_sem := sv_sem s; sv_logf := sv_logf s; sv_acceptWG := sv_acceptWG s; sv_connWG := sv_connWG s;
     sv_loops := sv_loops s; sv_handlers := sv_handlers s; sv_accepted := sv_accepted s;
     sv_dropped := sv_dropped s ++ [c]; sv_waiter := sv_waiter s; sv_timeout := sv_timeout s;
     sv_drained := sv_drained s; sv_log := sv_log s |}.

Definition set_drain (w : Waiter) (timeout : Z) (drained : option bool) (s : Server) : Server :=
  {| sv_sem := sv_sem s; sv_logf := sv_logf s; sv_acceptWG := sv_acceptWG s; sv_connWG := sv_connWG s;
     sv_loops := sv_loops s; sv_handlers := sv_handlers s; sv_accepted := sv_accepted s;
     sv_dropped := sv_dropped s; sv_waiter := w; sv_timeout := timeout;
     sv_drained := drained; sv_log := sv_log s |}.

(** ** Steps *)

(** What happens next: a call from outside, an answer from the listener, or a
    goroutine going on by one operation. *)
Inductive Event :=
  | ServeCalled (r : Route)
  | AcceptReturned (i : nat) (addr : option string)
  | AcceptFailed (i : nat) (msg : string)
  | ListenerClosed (i : nat)
  | LoopStep (i : nat)
  | HandlerReturned (i : nat)
  | ConnClosed (i : nat) (err : option string)
  | HandlerStep (i : nat)
  | DrainCalled (timeout : Z)
  | WaiterStep
  | DrainReturned
  | DrainTimedOut.

(** The loop of [serve]: what a loop does in each phase. *)
Definition loop_step (i : nat) (l : Loop) (s : Server) : option Server :=
  match lp_phase l with
  | Accepting => None
  | Got c =>
      let '(ok, sem) := Acquire (sv_sem s) in
      if ok then Some (set_loop i (HasSlot c) (set_sem sem s))
      else Some (set_loop i (Overloaded c)
             (log_line "[%s] OVERLOAD dropping connection on %s" [cn_ip c; rt_Listen (lp_route l)] (set_sem sem s)))
  | Overloaded c => Some (set_loop i Accepting (drop_conn c s))
  | HasSlot c => Some (set_loop i (Counted c) (add_wg 0 1 s))
  | Counted c => Some (set_loop i Accepting (add_handler c (lp_route l) s))
  | Leaving => Some (set_loop i Ended (add_wg (-1) 0 s))
  | Ended => None
  end.

Definition server_step (s : Server) (e : Event) : option Server :=
  match e with
  | ServeCalled r => Some (add_loop r s)
  | AcceptReturned i addr =>
      l ← sv_loops s !! i;
      match lp_phase l with
      | Accepting => Some (set_loop i (Got {| cn_id := sv_accepted s; cn_ip := RemoteIP addr |}) (count_accept s))
      | _ => None
      end
  | AcceptFailed i msg =>
      l ← sv_loops s !! i;
      match lp_phase l with
      | Accepting => Some (log_line "ACCEPT %s: %v" [rt_Listen (lp_route l); msg] s)
      | _ => None
      end
  | ListenerClosed i =>
      l ← sv_loops s !! i;
      match lp_phase l with
      | Accepting => Some (set_loop i Leaving s)
      | _ => None
      end
  | LoopStep i => l ← sv_loops s !! i; loop_step i l s
  | HandlerReturned i =>
      h ← sv_handlers s !! i;
      match hd_phase h with
      | Handling => Some (set_handler i Returned s)
      | _ => None
      end
  | ConnClosed i err =>
      h ← sv_handlers s !! i;
      match hd_phase h with
      | Returned =>
          let s := match err with
                   | Some msg => log_line "[%s] CLOSE %s: %v" [cn_ip (hd_conn h); rt_Listen (hd_route h); msg] s
                   | None => s
                   end in
          Some (set_handler i Closed s)
      | _ => None
      end
  | HandlerStep i =>
      h ← sv_handlers s !! i;
      match hd_phase h with
      | Closed => Some (set_handler i Released (set_sem (Release (sv_sem s)) s))
      | Released => Some (set_handler i Finished (add_wg 0 (-1) s))
      | _ => None
      end
  | DrainCalled timeout =>
      match sv_waiter s with
      | NotDraining => Some (set_drain WaitAccepts timeout None s)
      | _ => None
      end
  | WaiterStep =>
      match sv_waiter s with
      | WaitAccepts => if sv_acceptWG s =? 0 then Some (set_drain WaitConns (sv_timeout s) (sv_drained s) s) else None
      | WaitConns => if sv_connWG s =? 0 then Some (set_drain DoneClosed (sv_timeout s) (sv_drained s) s) else None
      | _ => None
      end
  | DrainReturned =>
      match sv_waiter s, sv_drained s with
      | DoneClosed, None => Some (set_drain DoneClosed (sv_timeout s) (Some true) s)
      | _, _ => None
      end
  | DrainTimedOut =>
      match sv_waiter s, sv_drained s with
      | NotDraining, _ | _, Some _ => None
      | w, None => if 0 <? sv_timeout s then Some (set_drain w (sv_timeout s) (Some false) s) else None
      end
  end.

Fixpoint server_run (s : Server) (es : list Event) : option Server :=
  match es with
  | [] => Some s
  | e :: rest => s' ← server_step s e; server_run s' rest
  end.

(** The states a server can be in. *)
Inductive reachable (maxConcurrent : Z) (logf : bool) : Server -> Prop :=
  | reachable_new s : NewServer maxConcurrent logf = Ok s -> reachable maxConcurrent logf s
  | reachable_step s e s' :
      reachable maxConcurrent logf s -> server_step s e = Some s' -> reachable maxConcurrent logf s'.
