(* ===== verification/ProxyProps.v ===== *)
(** Properties of routes and of the connection server: the concurrency bound, the
    accounting of connections, what a successful Drain means, and that a drain
    comes to its end. *)

From S2P Require Import Prelude GoStrings Semaphore Proxy.
From Stdlib Require Import Ascii String.
From stdpp Require Import strings list.
#[local] Open Scope stdpp_scope.
#[local] Open Scope Z_scope.

(** ** Sums over goroutines *)

Section totals.
Context {A : Type}.
Implicit Types (f : A -> Z) (l : list A).

Definition total f l : Z := foldr (fun x n => f x + n) 0 l.

Lemma total_app f l1 l2 : total f (l1 ++ l2) = total f l1 + total f l2.
Proof. induction l1 as [|x l1 IH]; cbn; [done|]. unfold total in *. lia. Qed.

Lemma total_one f x : total f [x] = f x.
Proof. cbn. lia. Qed.

Lemma total_alter f g i l x : l !! i = Some x -> total f (alter g i l) = total f l - f x + f (g x).
Proof.
  revert i. induction l as [|y l IH]; intros [|i] Hi; try done; cbn in *.
  - injection Hi as ->. lia.
  - specialize (IH i Hi). unfold total in *. lia.
Qed.

Lemma total_nonneg f l : (forall x, 0 <= f x) -> 0 <= total f l.
Proof. intros Hf. induction l as [|x l IH]; cbn; [done|]. specialize (Hf x). unfold total in *. lia. Qed.

Lemma total_ge f l i x : (forall x, 0 <= f x) -> l !! i = Some x -> f x <= total f l.
Proof.
  intros Hf. revert i. induction l as [|y l IH]; intros [|i] Hi; try done; cbn in *.
  - injection Hi as ->. pose proof (total_nonneg f l Hf). unfold total in *. lia.
  - specialize (IH i Hi). specialize (Hf y). unfold total in *. lia.
Qed.

Lemma total_zero f l : (forall x, 0 <= f x) -> total f l = 0 -> Forall (fun x => f x = 0) l.
Proof.
  intros Hf H. apply Forall_lookup. intros i x Hi. pose proof (total_ge f l i x Hf Hi). specialize (Hf x). lia.
Qed.

Lemma total_le f g l : (forall x, f x <= g x) -> total f l <= total g l.
Proof. intros Hfg. induction l as [|x l IH]; cbn; [done|]. specialize (Hfg x). unfold total in *. lia. Qed.

(** Replacing an element replaces its share of the collected items. *)
Lemma flat_map_alter {B} (f : A -> list B) g i l x : l !! i = Some x ->
  f x ++ flat_map f (alter g i l) ≡ₚ f (g x) ++ flat_map f l.
Proof.
  revert i. induction l as [|y l IH]; intros [|i] Hi; try done; cbn in *.
  - injection Hi as ->. apply Permutation_app_swap_app.
  - rewrite !(Permutation_app_swap_app _ (f y)). f_equiv. by apply IH.
Qed.
End totals.
#[global] Arguments total {A} f l : simpl never.

(** ** The invariant *)

(** A slot of the semaphore is held by a loop about to start a handler, and by a
    handler until the deferred Release. *)
Definition loop_slot (l : Loop) : Z :=
  match lp_phase l with HasSlot _ | Counted _ => 1 | _ => 0 end.
Definition handler_slot (h : Handler) : Z :=
  match hd_phase h with Handling | Returned | Closed => 1 | _ => 0 end.
Definition slots_held (s : Server) : Z := total loop_slot (sv_loops s) + total handler_slot (sv_handlers s).

(** The goroutines connWG and acceptWG count. *)
Definition loop_counted (l : Loop) : Z := match lp_phase l with Counted _ => 1 | _ => 0 end.
Definition handler_counted (h : Handler) : Z := match hd_phase h with Finished => 0 | _ => 1 end.
Definition handlers_live (s : Server) : Z := total loop_counted (sv_loops s) + total handler_counted (sv_handlers s).
Definition loop_open (l : Loop) : Z := match lp_phase l with Ended => 0 | _ => 1 end.
Definition loops_open (s : Server) : Z := total loop_open (sv_loops s).

(** The handlers that are running the gate's code. *)
Definition is_handling (h : Handler) : Z := match hd_phase h with Handling => 1 | _ => 0 end.
Definition handling (s : Server) : Z := total is_handling (sv_handlers s).

(** Where each accepted connection is. *)
Definition loop_conn (l : Loop) : list Conn :=
  match lp_phase l with
  | Got c | Overloaded c | HasSlot c | Counted c => [c]
  | _ => []
  end.
Definition all_conns (s : Server) : list Conn :=
  flat_map loop_conn (sv_loops s) ++ map hd_conn (sv_handlers s) ++ sv_dropped s.

Definition bound_of (maxConcurrent : Z) : option Z :=
  if 0 <? maxConcurrent then Some maxConcurrent else None.

Record server_ok (maxConcurrent : Z) (s : Server) : Prop := {
  ok_sem : sem_counts (sv_sem s) (slots_held s);
  ok_cap : sem_cap (sv_sem s) = bound_of maxConcurrent;
  ok_conn_wg : sv_connWG s = handlers_live s;
  ok_accept_wg : sv_acceptWG s = loops_open s;
  ok_conns : map cn_id (all_conns s) ≡ₚ seq 0 (sv_accepted s)
}.

Lemma NewServer_ok maxConcurrent logf s : NewServer maxConcurrent logf = Ok s -> server_ok maxConcurrent s.
Proof.
  unfold NewServer, semaphore_New. destruct (0 <? maxConcurrent) eqn:Hm.
  - apply Z.ltb_lt in Hm as Hp. destruct (Z.ltb_spec maxConcurrent 0); [lia|]. intros [= <-].
    split; cbn; [split; [done|change (0 <= 0 <= maxConcurrent); lia]|by unfold bound_of; rewrite Hm|done..].
  - intros [= <-]. split; cbn; try done. by unfold bound_of; rewrite Hm.
Qed.

Lemma map_alter_same {A B} (f : A -> B) g i (l : list A) :
  (forall x, f (g x) = f x) -> map f (alter g i l) = map f l.
Proof.
  intros Hf. revert i. induction l as [|y l IH]; intros [|i]; cbn; try done; [by rewrite Hf|by rewrite IH].
Qed.

(** A handler that goes on by one phase. *)
Lemma set_handler_ok maxConcurrent s i h p sem conns :
  sv_handlers s !! i = Some h -> server_ok maxConcurrent s ->
  let s' := set_handler i p (set_sem sem (add_wg 0 conns s)) in
  let h' := {| hd_conn := hd_conn h; hd_route := hd_route h; hd_phase := p |} in
  sem_counts sem (slots_held s - handler_slot h + handler_slot h') -> sem_cap sem = sem_cap (sv_sem s) ->
  conns = handler_counted h' - handler_counted h -> server_ok maxConcurrent s'.
Proof.
  intros Hi [H1 H2 H3 H4 H5] s' h' Hsem Hcap Hconns.
  assert (forall f, total f (sv_handlers s') = total f (sv_handlers s) - f h + f h') as Htot
    by (intros f; by apply total_alter).
  split.
  - change (sem_counts sem (slots_held s')). eapply eq_ind; [exact Hsem|].
    unfold slots_held. rewrite Htot. change (sv_loops s') with (sv_loops s). lia.
  - by rewrite <- H2, <- Hcap.
  - unfold handlers_live in *. rewrite Htot. change (sv_connWG s') with (sv_connWG s + conns).
    change (sv_loops s') with (sv_loops s). lia.
  - change (sv_acceptWG s') with (sv_acceptWG s + 0). rewrite H4. change (loops_open s') with (loops_open s). lia.
  - unfold all_conns, s'. cbn. by rewrite map_alter_same.
Qed.

(** An accept loop that goes on by one phase; [news] is the connection it has
    just accepted, [dropped] the one it has just closed. *)
Lemma set_loop_ok maxConcurrent s i l p s' sem accepts conns :
  sv_loops s !! i = Some l -> server_ok maxConcurrent s ->
  let l' := {| lp_route := lp_route l; lp_phase := p |} in
  sv_loops s' = alter (fun l => {| lp_route := lp_route l; lp_phase := p |}) i (sv_loops s) ->
  sv_sem s' = sem -> sem_cap sem = sem_cap (sv_sem s) ->
  sv_connWG s' = sv_connWG s + conns -> sv_acceptWG s' = sv_acceptWG s + accepts ->
  (exists started news dropped, sv_handlers s' = sv_handlers s ++ started /\
     Forall (fun h => hd_phase h = Handling) started /\
     sv_dropped s' = sv_dropped s ++ dropped /\
     map cn_id (loop_conn l' ++ map hd_conn started ++ dropped) ≡ₚ map cn_id (loop_conn l) ++ news /\
     seq 0 (sv_accepted s') ≡ₚ news ++ seq 0 (sv_accepted s) /\
     sem_counts sem (slots_held s - loop_slot l + loop_slot l' + Z.of_nat (length started)) /\
     conns = loop_counted l' - loop_counted l + Z.of_nat (length started)) ->
  accepts = loop_open l' - loop_open l -> server_ok maxConcurrent s'.
Proof.
  intros Hi [H1 H2 H3 H4 H5] l' Hl Hsem Hcap Hcw Haw (started & news & dropped & Hh & Hall & Hd & Hcn & Hacc & Hcnt & Hconns) Hac.
  assert (forall f, total f (sv_loops s') = total f (sv_loops s) - f l + f l') as Htot
    by (intros f; rewrite Hl; by apply total_alter).
  assert (forall f, (forall h, hd_phase h = Handling -> f h = 1) ->
    total f (sv_handlers s') = total f (sv_handlers s) + Z.of_nat (length started)) as Hst.
  { intros f Hf. rewrite Hh, total_app. f_equal. clear -Hall Hf.
    induction Hall as [|h rest Hp _ IH]; [done|]. change (f h + total f rest = Z.of_nat (S (length rest))).
    rewrite Hf by done. lia. }
  split.
  - rewrite Hsem. eapply eq_ind; [exact Hcnt|]. unfold slots_held. rewrite Htot, Hst; [lia|].
    intros h E. unfold handler_slot. by rewrite E.
  - by rewrite Hsem, Hcap.
  - unfold handlers_live in *. rewrite Htot, Hst; [lia|]. intros h E. unfold handler_counted. by rewrite E.
  - unfold loops_open in *. rewrite Htot. lia.
  - rewrite Hacc, <- H5. unfold all_conns. rewrite Hl, Hh, Hd, !map_app.
    pose proof (flat_map_alter loop_conn (fun l => {| lp_route := lp_route l; lp_phase := p |}) i (sv_loops s) l Hi) as Hfm.
    apply (Permutation_map cn_id) in Hfm. rewrite !map_app in Hfm. fold l' in Hfm.
    apply (Permutation_app_inv_l (map cn_id (loop_conn l))).
    rewrite !map_app in Hcn. rewrite (app_assoc (map cn_id (loop_conn l))), Hfm.
    rewrite (app_assoc (map cn_id (loop_conn l)) news), <- Hcn. clear. solve_Permutation.
Qed.

Lemma server_ok_other maxConcurrent s s' : server_ok maxConcurrent s ->
  sv_sem s' = sv_sem s -> sv_connWG s' = sv_connWG s -> sv_acceptWG s' = sv_acceptWG s ->
  sv_loops s' = sv_loops s -> sv_handlers s' = sv_handlers s -> sv_accepted s' = sv_accepted s ->
  sv_dropped s' = sv_dropped s -> server_ok maxConcurrent s'.
Proof.
  intros [H1 H2 H3 H4 H5] E1 E2 E3 E4 E5 E6 E7.
  split; unfold slots_held, handlers_live, loops_open, all_conns in *; rewrite ?E1, ?E2, ?E3, ?E4, ?E5, ?E6, ?E7; done.
Qed.

Lemma slots_nonneg s : 0 <= slots_held s.
Proof.
  unfold slots_held. assert (0 <= total loop_slot (sv_loops s) /\ 0 <= total handler_slot (sv_handlers s)); [|lia].
  split; apply total_nonneg; [intros [? []]|intros [? ? []]]; cbn; lia.
Qed.

(** A loop advances: the handlers it starts, the connections it takes and closes. *)
Ltac loop_advances Hi Hok Ep sem accepts conns started news dropped Hcount :=
  eapply (set_loop_ok _ _ _ _ _ _ sem accepts conns);
  [exact Hi|exact Hok|reflexivity|reflexivity|try done|cbn; lia|cbn; lia| |unfold loop_open; by rewrite Ep];
  exists started, news, dropped; rewrite ?app_nil_r; unfold loop_slot, loop_counted, loop_conn;
  cbn [lp_phase sv_accepted set_loop count_accept]; rewrite Ep; split_and!;
  try (reflexivity || (by repeat constructor) || (by rewrite app_nil_r) || (eapply eq_ind; [exact Hcount|cbn; lia])).

(** A handler's goroutine advances. *)
Ltac handler_advances s i Hi Hok Ep p sem conns Hcount :=
  apply (server_ok_other _ (set_handler i p (set_sem sem (add_wg 0 conns s)))); [|reflexivity|cbn; lia|cbn; lia|reflexivity..];
  eapply set_handler_ok; [exact Hi|exact Hok| |try done|];
  unfold handler_slot, handler_counted; rewrite Ep; cbn; [|lia];
  eapply eq_ind; [exact Hcount|lia].

Lemma loop_step_ok maxConcurrent s i l s' :
  sv_loops s !! i = Some l -> server_ok maxConcurrent s -> loop_step i l s = Some s' -> server_ok maxConcurrent s'.
Proof.
  intros Hi Hok Hs. pose proof Hok as [H1 _ _ _ _]. pose proof (slots_nonneg s) as Hsn.
  unfold loop_step in Hs. destruct (lp_phase l) as [|c|c|c|c| |] eqn:Ep; try done.
  - destruct (Acquire (sv_sem s)) as [ok sem] eqn:Ea.
    destruct (Acquire_counts _ _ _ _ H1 Hsn Ea) as (Hc & Hcap & _).
    destruct ok; injection Hs as <-.
    + loop_advances Hi Hok Ep sem 0 0 (@nil Handler) (@nil nat) (@nil Conn) Hc.
    + loop_advances Hi Hok Ep sem 0 0 (@nil Handler) (@nil nat) (@nil Conn) Hc.
  - injection Hs as <-. loop_advances Hi Hok Ep (sv_sem s) 0 0 (@nil Handler) (@nil nat) [c] H1.
  - injection Hs as <-. loop_advances Hi Hok Ep (sv_sem s) 0 1 (@nil Handler) (@nil nat) (@nil Conn) H1.
  - injection Hs as <-.
    loop_advances Hi Hok Ep (sv_sem s) 0 0 [{| hd_conn := c; hd_route := lp_route l; hd_phase := Handling |}]
      (@nil nat) (@nil Conn) H1.
  - injection Hs as <-. loop_advances Hi Hok Ep (sv_sem s) (-1) 0 (@nil Handler) (@nil nat) (@nil Conn) H1.
Qed.

Lemma handler_slots_ge s i h : sv_handlers s !! i = Some h -> handler_slot h <= slots_held s.
Proof.
  intros Hi. unfold slots_held.
  assert (handler_slot h <= total handler_slot (sv_handlers s))
    by (eapply total_ge; [intros [? ? []]; cbn; lia|exact Hi]).
  assert (0 <= total loop_slot (sv_loops s)) by (apply total_nonneg; intros [? []]; cbn; lia). lia.
Qed.

Lemma add_loop_ok maxConcurrent s r : server_ok maxConcurrent s -> server_ok maxConcurrent (add_loop r s).
Proof.
  intros [H1 H2 H3 H4 H5].
  assert (forall f, total f (sv_loops (add_loop r s)) =
    total f (sv_loops s) + (f {| lp_route := r; lp_phase := Accepting |} + 0)) as Htot by (intros f; apply total_app).
  split; [|done|..]; unfold slots_held, handlers_live, loops_open, all_conns in *; rewrite ?Htot.
  - eapply eq_ind; [exact H1|cbn; lia].
  - cbn in *. lia.
  - cbn in *. lia.
  - cbn in *. by rewrite flat_map_app, app_nil_r.
Qed.

Lemma server_step_ok maxConcurrent s e s' :
  server_ok maxConcurrent s -> server_step s e = Some s' -> server_ok maxConcurrent s'.
Proof.
  intros Hok Hs. pose proof Hok as [H1 H2 H3 H4 H5].
  destruct e as [r|i addr|i msg|i|i|i|i err|i|timeout| | |]; cbn [server_step] in Hs.
  - injection Hs as <-. by apply add_loop_ok.
  - apply bind_Some in Hs as (l & Hi & Hs). destruct (lp_phase l) eqn:Ep; try done. injection Hs as <-.
    loop_advances Hi Hok Ep (sv_sem s) 0 0 (@nil Handler) [sv_accepted s] (@nil Conn) H1.
    rewrite seq_S. apply Permutation_app_comm.
  - apply bind_Some in Hs as (l & Hi & Hs). destruct (lp_phase l) eqn:Ep; try done. injection Hs as <-.
    by apply (server_ok_other _ s).
  - apply bind_Some in Hs as (l & Hi & Hs). destruct (lp_phase l) eqn:Ep; try done. injection Hs as <-.
    loop_advances Hi Hok Ep (sv_sem s) 0 0 (@nil Handler) (@nil nat) (@nil Conn) H1.
  - apply bind_Some in Hs as (l & Hi & Hs). by eapply loop_step_ok.
  - apply bind_Some in Hs as (h & Hi & Hs). destruct (hd_phase h) eqn:Ep; try done. injection Hs as <-.
    handler_advances s i Hi Hok Ep Returned (sv_sem s) 0 H1.
  - apply bind_Some in Hs as (h & Hi & Hs). destruct (hd_phase h) eqn:Ep; try done. injection Hs as <-.
    destruct err; handler_advances s i Hi Hok Ep Closed (sv_sem s) 0 H1.
  - apply bind_Some in Hs as (h & Hi & Hs). destruct (hd_phase h) eqn:Ep; try done; injection Hs as <-.
    + pose proof (handler_slots_ge s i h Hi) as Hge. unfold handler_slot in Hge at 1. rewrite Ep in Hge.
      destruct (Release_counts _ _ H1 ltac:(lia)) as [Hc Hcap].
      handler_advances s i Hi Hok Ep Released (Release (sv_sem s)) 0 Hc.
    + handler_advances s i Hi Hok Ep Finished (sv_sem s) (-1) H1.
  - destruct (sv_waiter s); try done. injection Hs as <-. by apply (server_ok_other _ s).
  - destruct (sv_waiter s); try done; destruct (_ =? 0); try done; injection Hs as <-; by apply (server_ok_other _ s).
  - destruct (sv_waiter s), (sv_drained s); try done; injection Hs as <-; by apply (server_ok_other _ s).
  - destruct (sv_waiter s), (sv_drained s); try done; destruct (0 <? _); try done; injection Hs as <-; by apply (server_ok_other _ s).
Qed.

Lemma reachable_ok maxConcurrent logf s : reachable maxConcurrent logf s -> server_ok maxConcurrent s.
Proof. induction 1 as [s Hs|s e s' _ IH Hs]; [by eapply NewServer_ok|by eapply server_step_ok]. Qed.

(** C7: the concurrency bound.  In every state the server can be in, whatever
    its goroutines interleave like: no more handlers run, and no more slots are
    held, than maxConcurrent; both wait groups count exactly the goroutines they
    stand for; every accepted connection is in exactly one place, with a loop, with
    a handler or dropped; and a new connection is turned away only when all slots
    are taken, and taken on otherwise. *)
Theorem Server_is_bounded maxConcurrent logf s : reachable maxConcurrent logf s ->
  (0 < maxConcurrent -> 0 <= handling s <= slots_held s /\ slots_held s <= maxConcurrent) /\
  sv_connWG s = handlers_live s /\ sv_acceptWG s = loops_open s /\
  map cn_id (all_conns s) ≡ₚ seq 0 (sv_accepted s) /\
  (forall i l c, sv_loops s !! i = Some l -> lp_phase l = Got c ->
     exists s' p, server_step s (LoopStep i) = Some s' /\ lp_phase <$> sv_loops s' !! i = Some p /\
       (p = Overloaded c /\ 0 < maxConcurrent /\ slots_held s = maxConcurrent \/
        p = HasSlot c /\ (0 < maxConcurrent -> slots_held s < maxConcurrent))).
Proof.
  intros Hr. destruct (reachable_ok _ _ _ Hr) as [H1 H2 H3 H4 H5].
  assert (0 < maxConcurrent -> slots_held s <= maxConcurrent) as Hmax.
  { intros Hm. unfold bound_of in H2. rewrite (proj2 (Z.ltb_lt _ _) Hm) in H2.
    destruct (sv_sem s) as [sem|]; cbn in *; [|done]. injection H2 as H2. lia. }
  split_and!; try done.
  - intros Hm. split_and!; [apply total_nonneg; intros [? ? []]; cbn; lia| |auto].
    unfold handling, slots_held.
    assert (total is_handling (sv_handlers s) <= total handler_slot (sv_handlers s))
      by (apply total_le; intros [? ? []]; cbn; lia).
    assert (0 <= total loop_slot (sv_loops s)) by (apply total_nonneg; intros [? []]; cbn; lia). lia.
  - intros i l c Hi Hp. cbn [server_step]. rewrite Hi. cbn [mbind option_bind]. unfold loop_step. rewrite Hp.
    destruct (Acquire (sv_sem s)) as [ok sem] eqn:Ea.
    destruct (Acquire_counts _ _ _ _ H1 (slots_nonneg s) Ea) as (Hc & Hcap & Hfull).
    destruct ok; do 2 eexists; split; [done| |done|];
      (split; [cbn; by rewrite list_lookup_alter_eq, Hi|]).
    + right. split; [done|]. intros Hm. rewrite H2 in Hcap. unfold bound_of in Hcap.
      rewrite (proj2 (Z.ltb_lt _ _) Hm) in Hcap. destruct sem as [sem|]; [|done]. cbn in *.
      injection Hcap as Hcap. lia.
    + left. split; [done|]. specialize (Hfull eq_refl). rewrite H2 in Hfull. unfold bound_of in Hfull.
      destruct (Z.ltb_spec 0 maxConcurrent); [|done]. by injection Hfull as ->.
Qed.

(** ** Draining *)

(** What the phases of a drain mean, as long as Serve is not called any more. *)
Record drain_ok (s : Server) : Prop := {
  dr_accepts : sv_waiter s = WaitConns \/ sv_waiter s = DoneClosed -> loops_open s = 0;
  dr_conns : sv_waiter s = DoneClosed -> handlers_live s = 0;
  dr_result : sv_drained s = Some true -> sv_waiter s = DoneClosed
}.

Definition not_serve (e : Event) : bool := match e with ServeCalled _ => false | _ => true end.

Lemma loops_open_zero s i l : loops_open s = 0 -> sv_loops s !! i = Some l -> lp_phase l = Ended.
Proof.
  intros H Hi. assert (loop_open l <= loops_open s) as Hle
    by (eapply total_ge; [intros [? []]; cbn; lia|exact Hi]).
  unfold loop_open in Hle at 1. destruct (lp_phase l); lia || done.
Qed.

Lemma handlers_live_zero s i h : handlers_live s = 0 -> sv_handlers s !! i = Some h -> hd_phase h = Finished.
Proof.
  intros H Hi. assert (handler_counted h <= handlers_live s) as Hle.
  { unfold handlers_live.
    assert (handler_counted h <= total handler_counted (sv_handlers s))
      by (eapply total_ge; [intros [? ? []]; cbn; lia|exact Hi]).
    assert (0 <= total loop_counted (sv_loops s)) by (apply total_nonneg; intros [? []]; cbn; lia). lia. }
  unfold handler_counted in Hle at 1. destruct (hd_phase h); lia || done.
Qed.

(** The steps of a server whose loops have all ended are those of its handlers and
    of the drain. *)
Lemma drain_step maxConcurrent s e s' : server_ok maxConcurrent s -> drain_ok s -> sv_waiter s <> NotDraining ->
  not_serve e = true -> server_step s e = Some s' -> drain_ok s' /\ sv_waiter s' <> NotDraining.
Proof.
  intros Hok [D1 D2 D3] Hw Hns Hs. pose proof Hok as [H1 H2 H3 H4 H5].
  assert (forall i l, sv_loops s !! i = Some l -> lp_phase l <> Ended -> sv_waiter s = WaitAccepts) as Hloop.
  { intros i l Hi Hne. destruct (sv_waiter s); try done; exfalso; apply Hne; eapply loops_open_zero; eauto. }
  assert (forall i h, sv_handlers s !! i = Some h -> hd_phase h <> Finished -> sv_waiter s <> DoneClosed) as Hhand.
  { intros i h Hi Hne Hd. apply Hne. eapply handlers_live_zero; eauto. }
  assert (forall s1, sv_waiter s1 = WaitAccepts -> sv_drained s1 = sv_drained s -> sv_waiter s = WaitAccepts ->
    drain_ok s1 /\ sv_waiter s1 <> NotDraining) as Hearly.
  { intros s1 E1 E2 E3. split; [|by rewrite E1]. split; rewrite ?E1; [by intros []|done|].
    rewrite E2. intros Hd. apply D3 in Hd. by rewrite E3 in Hd. }
  assert (forall s1, sv_waiter s1 = sv_waiter s -> sv_drained s1 = sv_drained s -> sv_loops s1 = sv_loops s ->
    sv_waiter s <> DoneClosed -> drain_ok s1 /\ sv_waiter s1 <> NotDraining) as Hmid.
  { intros s1 E1 E2 E3 Hne. split; [|by rewrite E1]. split; rewrite ?E1; [|done|].
    - intros [Ha|Ha]; [|done]. unfold loops_open. rewrite E3. auto.
    - rewrite E2. auto. }
  destruct e as [r|i addr|i msg|i|i|i|i err|i|timeout| | |]; cbn [server_step] in Hs; try done.
  1-3: apply bind_Some in Hs as (l & Hi & Hs); destruct (lp_phase l) eqn:Ep; try done; injection Hs as <-;
    assert (sv_waiter s = WaitAccepts) as Hwa by (eapply Hloop; [exact Hi|by rewrite Ep]); by apply Hearly.
  - apply bind_Some in Hs as (l & Hi & Hs). unfold loop_step in Hs.
    assert (sv_waiter s = WaitAccepts) as Hwa by (eapply Hloop; [exact Hi|by intros E; rewrite E in Hs]).
    destruct (lp_phase l); try done; [destruct (Acquire _) as [[] ?]|..]; injection Hs as <-; by apply Hearly.
  - apply bind_Some in Hs as (h & Hi & Hs). destruct (hd_phase h) eqn:Ep; try done. injection Hs as <-.
    apply Hmid; try done. eapply Hhand; [exact Hi|by rewrite Ep].
  - apply bind_Some in Hs as (h & Hi & Hs). destruct (hd_phase h) eqn:Ep; try done. injection Hs as <-.
    apply Hmid; try (by destruct err). eapply Hhand; [exact Hi|by rewrite Ep].
  - apply bind_Some in Hs as (h & Hi & Hs). destruct (hd_phase h) eqn:Ep; try done; injection Hs as <-;
      (apply Hmid; try done; eapply Hhand; [exact Hi|by rewrite Ep]).
  - destruct (sv_waiter s); done.
  - destruct (sv_waiter s) eqn:Ew; try done; destruct (_ =? 0) eqn:Hz; try done; apply Z.eqb_eq in Hz; injection Hs as <-;
      (split; [split; cbn; try done|done]).
    + intros _. change (loops_open s = 0). congruence.
    + intros Hd. by apply D3 in Hd.
    + intros _. apply D1. by left.
    + intros _. change (handlers_live s = 0). congruence.
  - destruct (sv_waiter s) eqn:Ew, (sv_drained s) eqn:Ed; try done; injection Hs as <-. split; [|done].
    split; cbn; [intros _; apply D1; by right|intros _; by apply D2|done].
  - destruct (sv_waiter s) eqn:Ew, (sv_drained s) eqn:Ed; try done; destruct (0 <? _); try done; injection Hs as <-;
      (split; [|by cbn]); split; cbn; try done; auto.
Qed.

Lemma server_run_app s es1 es2 s' :
  server_run s (es1 ++ es2) = Some s' <-> exists s1, server_run s es1 = Some s1 /\ server_run s1 es2 = Some s'.
Proof.
  revert s. induction es1 as [|e es1 IH]; intros s; cbn; [naive_solver|].
  destruct (server_step s e) as [s2|]; cbn; [apply IH|naive_solver].
Qed.

Lemma reachable_run maxConcurrent logf s es s' :
  reachable maxConcurrent logf s -> server_run s es = Some s' -> reachable maxConcurrent logf s'.
Proof.
  revert s. induction es as [|e es IH]; intros s Hr Hs; cbn in Hs; [by injection Hs as <-|].
  apply bind_Some in Hs as (s1 & Hs1 & Hs). eapply IH; [|exact Hs]. by eapply reachable_step.
Qed.

Lemma drain_run maxConcurrent logf s es s' : reachable maxConcurrent logf s -> drain_ok s ->
  sv_waiter s <> NotDraining -> Forall (fun e => not_serve e = true) es -> server_run s es = Some s' ->
  drain_ok s' /\ sv_waiter s' <> NotDraining.
Proof.
  intros Hr Hd Hw Hall. revert s Hr Hd Hw. induction Hall as [|e es He _ IH]; intros s Hr Hd Hw Hs; cbn in Hs.
  { by injection Hs as <-. }
  apply bind_Some in Hs as (s1 & Hs1 & Hs).
  destruct (drain_step maxConcurrent s e s1) as [Hd1 Hw1]; [by eapply reachable_ok|done..|].
  eapply IH; [by eapply reachable_step|done..].
Qed.

(** C6: when Drain answers true, it is over.  In any interleaving in which Serve
    is not called after Drain, Drain returns true only when every accept loop has
    returned, every handler's goroutine has closed its connection, given back its
    slot and finished, and each connection ever accepted has been handled or
    dropped. *)
Theorem Drain_true_means_done maxConcurrent logf s es1 timeout es2 s' :
  reachable maxConcurrent logf s -> server_run s (es1 ++ DrainCalled timeout :: es2) = Some s' ->
  Forall (fun e => not_serve e = true) es2 -> sv_drained s' = Some true ->
  Forall (fun l => lp_phase l = Ended) (sv_loops s') /\
  Forall (fun h => hd_phase h = Finished) (sv_handlers s') /\
  slots_held s' = 0 /\ sv_acceptWG s' = 0 /\ sv_connWG s' = 0 /\
  map cn_id (map hd_conn (sv_handlers s') ++ sv_dropped s') ≡ₚ seq 0 (sv_accepted s').
Proof.
  intros Hr Hrun Hall Hd. apply server_run_app in Hrun as (s1 & H1 & Hrun).
  pose proof (reachable_run _ _ _ _ _ Hr H1) as Hr1. cbn in Hrun.
  apply bind_Some in Hrun as (s2 & H2 & Hrun). pose proof (reachable_step _ _ s1 (DrainCalled timeout) s2 Hr1 H2) as Hr2.
  assert (drain_ok s2 /\ sv_waiter s2 <> NotDraining) as [Hd2 Hw2].
  { cbn in H2. destruct (sv_waiter s1); try done. injection H2 as <-. split; [|done]. split; cbn; try done. by intros []. }
  destruct (drain_run _ _ _ _ _ Hr2 Hd2 Hw2 Hall Hrun) as [[D1 D2 D3] _].
  pose proof (reachable_run _ _ _ _ _ Hr2 Hrun) as Hr'. destruct (reachable_ok _ _ _ Hr') as [K1 K2 K3 K4 K5].
  specialize (D3 Hd). specialize (D1 (or_intror D3)). specialize (D2 D3).
  assert (Forall (fun l => lp_phase l = Ended) (sv_loops s')) as HL
    by (apply Forall_lookup; intros i l Hi; by eapply loops_open_zero).
  assert (Forall (fun h => hd_phase h = Finished) (sv_handlers s')) as HH
    by (apply Forall_lookup; intros i h Hi; by eapply handlers_live_zero).
  split_and!; [done|done| |congruence|congruence|].
  - pose proof (slots_nonneg s'). enough (slots_held s' <= 0) by lia. unfold slots_held.
    assert (total loop_slot (sv_loops s') = 0) as ->.
    { clear -HL. induction HL as [|l ls Hl _ IH]; [done|]. change (loop_slot l + total loop_slot ls = 0).
      unfold loop_slot at 1. rewrite Hl. lia. }
    assert (total handler_slot (sv_handlers s') = 0) as ->; [|lia].
    clear -HH. induction HH as [|h hs Hh _ IH]; [done|]. change (handler_slot h + total handler_slot hs = 0).
    unfold handler_slot at 1. rewrite Hh. lia.
  - rewrite <- K5. unfold all_conns. assert (flat_map loop_conn (sv_loops s') = []) as ->; [|done].
    clear -HL. induction HL as [|l ls Hl _ IH]; [done|]. cbn. rewrite IH. unfold loop_conn. by rewrite Hl.
Qed.

(** ** A drain comes to its end *)

(** The steps that remain once the listeners are closed and nothing new is
    started: no accepted connection, no accept error to retry, no further call. *)
Definition winding_down (e : Event) : bool :=
  match e with
  | ServeCalled _ | AcceptReturned _ _ | AcceptFailed _ _ | DrainCalled _ => false
  | _ => true
  end.

(** The steps each goroutine still has to take. *)
Definition loop_steps (l : Loop) : Z :=
  match lp_phase l with
  | Got _ => 9 | HasSlot _ => 8 | Counted _ => 7 | Overloaded _ => 3 | Accepting => 2 | Leaving => 1 | Ended => 0
  end.
Definition handler_steps (h : Handler) : Z :=
  match hd_phase h with Handling => 4 | Returned => 3 | Closed => 2 | Released => 1 | Finished => 0 end.
Definition drain_steps (s : Server) : Z :=
  match sv_waiter s with WaitAccepts => 2 | WaitConns => 1 | _ => 0 end +
  match sv_drained s with None => 1 | Some _ => 0 end.
Definition steps_left (s : Server) : Z :=
  total loop_steps (sv_loops s) + total handler_steps (sv_handlers s) + drain_steps s.

Lemma steps_left_nonneg s : 0 <= steps_left s.
Proof.
  unfold steps_left, drain_steps.
  assert (0 <= total loop_steps (sv_loops s)) by (apply total_nonneg; intros [? []]; cbn; lia).
  assert (0 <= total handler_steps (sv_handlers s)) by (apply total_nonneg; intros [? ? []]; cbn; lia).
  destruct (sv_waiter s), (sv_drained s); lia.
Qed.

Lemma total_alter_loops f i l p s : sv_loops s !! i = Some l ->
  total f (alter (fun l => {| lp_route := lp_route l; lp_phase := p |}) i (sv_loops s)) =
  total f (sv_loops s) - f l + f {| lp_route := lp_route l; lp_phase := p |}.
Proof. exact (total_alter f (fun l => {| lp_route := lp_route l; lp_phase := p |}) i (sv_loops s) l). Qed.

Lemma total_alter_handlers f i h p s : sv_handlers s !! i = Some h ->
  total f (alter (fun h => {| hd_conn := hd_conn h; hd_route := hd_route h; hd_phase := p |}) i (sv_handlers s)) =
  total f (sv_handlers s) - f h + f {| hd_conn := hd_conn h; hd_route := hd_route h; hd_phase := p |}.
Proof.
  exact (total_alter f (fun h => {| hd_conn := hd_conn h; hd_route := hd_route h; hd_phase := p |}) i (sv_handlers s) h).
Qed.

Ltac fewer_steps Hi Ep :=
  unfold steps_left, drain_steps; cbn [sv_loops sv_handlers sv_waiter sv_drained set_loop set_handler add_handler
    add_wg set_sem drop_conn log_line set_drain];
  rewrite ?(total_alter_loops _ _ _ _ _ Hi), ?(total_alter_handlers _ _ _ _ _ Hi), ?total_app, ?total_one;
  cbn [loop_steps handler_steps lp_phase hd_phase];
  lazymatch type of Ep with
  | lp_phase ?l = _ =>
      let E := fresh in pose proof (eq_refl (loop_steps l)) as E; unfold loop_steps in E at 2; rewrite Ep in E; lia
  | hd_phase ?h = _ =>
      let E := fresh in pose proof (eq_refl (handler_steps h)) as E; unfold handler_steps in E at 2; rewrite Ep in E; lia
  end.

Lemma winding_step s e s' : winding_down e = true -> server_step s e = Some s' ->
  steps_left s' < steps_left s /\ sv_timeout s' = sv_timeout s /\
  (sv_waiter s <> NotDraining -> sv_waiter s' <> NotDraining) /\
  (sv_drained s' <> sv_drained s -> sv_drained s = None /\
     (sv_timeout s <= 0 -> sv_drained s' = Some true)).
Proof.
  intros He Hs.
  destruct e as [r|i addr|i msg|i|i|i|i err|i|timeout| | |]; try done; cbn [server_step] in Hs.
  - apply bind_Some in Hs as (l & Hi & Hs). destruct (lp_phase l) eqn:Ep; try done. injection Hs as <-.
    split_and!; try done. fewer_steps Hi Ep.
  - apply bind_Some in Hs as (l & Hi & Hs). unfold loop_step in Hs.
    destruct (lp_phase l) as [|c|c|c|c| |] eqn:Ep; try done;
      [destruct (Acquire _) as [[] ?]|..]; injection Hs as <-; split_and!; try done; fewer_steps Hi Ep.
  - apply bind_Some in Hs as (h & Hi & Hs). destruct (hd_phase h) eqn:Ep; try done. injection Hs as <-.
    split_and!; try done. fewer_steps Hi Ep.
  - apply bind_Some in Hs as (h & Hi & Hs). destruct (hd_phase h) eqn:Ep; try done. injection Hs as <-.
    destruct err; split_and!; try done; fewer_steps Hi Ep.
  - apply bind_Some in Hs as (h & Hi & Hs). destruct (hd_phase h) eqn:Ep; try done; injection Hs as <-;
      split_and!; try done; fewer_steps Hi Ep.
  - destruct (sv_waiter s) eqn:Ew; try done; destruct (_ =? 0); try done; injection Hs as <-;
      split_and!; try done; unfold steps_left, drain_steps; cbn; rewrite Ew; lia.
  - destruct (sv_waiter s) eqn:Ew, (sv_drained s) eqn:Ed; try done; injection Hs as <-;
      split_and!; try done; unfold steps_left, drain_steps; cbn; rewrite Ew, Ed; lia.
  - destruct (sv_waiter s) eqn:Ew, (sv_drained s) eqn:Ed; try done; destruct (Z.ltb_spec 0 (sv_timeout s)); try done;
      injection Hs as <-; split_and!; try done; try (intros _; split; [done|lia]);
      unfold steps_left, drain_steps; cbn; rewrite Ew, Ed; lia.
Qed.

(** Some goroutine can go on until the drain is over. *)
Lemma winding_progress maxConcurrent s : server_ok maxConcurrent s -> sv_waiter s <> NotDraining ->
  (forall e, winding_down e = true -> server_step s e = None) ->
  sv_waiter s = DoneClosed /\ is_Some (sv_drained s).
Proof.
  intros [H1 H2 H3 H4 H5] Hw Hstuck.
  assert (loops_open s = 0) as Hl0.
  { unfold loops_open. assert (Forall (fun l => lp_phase l = Ended) (sv_loops s)) as HL.
    { apply Forall_lookup. intros i l Hi.
      pose proof (Hstuck (ListenerClosed i) eq_refl) as Ha. pose proof (Hstuck (LoopStep i) eq_refl) as Hb.
      cbn in Ha, Hb. rewrite Hi in Ha, Hb. cbn in Ha, Hb. unfold loop_step in Hb.
      destruct (lp_phase l); try done. by destruct (Acquire _) as [[] ?]. }
    clear -HL. induction HL as [|l ls Hl _ IH]; [done|]. change (loop_open l + total loop_open ls = 0).
    unfold loop_open at 1. rewrite Hl. lia. }
  assert (handlers_live s = 0) as Hh0.
  { unfold handlers_live.
    assert (total loop_counted (sv_loops s) <= total loop_open (sv_loops s))
      by (apply total_le; intros [? []]; cbn; lia).
    assert (0 <= total loop_counted (sv_loops s)) by (apply total_nonneg; intros [? []]; cbn; lia).
    assert (Forall (fun h => hd_phase h = Finished) (sv_handlers s)) as HH.
    { apply Forall_lookup. intros i h Hi.
      pose proof (Hstuck (HandlerReturned i) eq_refl) as Ha. pose proof (Hstuck (ConnClosed i None) eq_refl) as Hb.
      pose proof (Hstuck (HandlerStep i) eq_refl) as Hc.
      cbn in Ha, Hb, Hc. rewrite Hi in Ha, Hb, Hc. cbn in Ha, Hb, Hc. by destruct (hd_phase h). }
    assert (total handler_counted (sv_handlers s) = 0); [|unfold loops_open in Hl0; lia].
    clear -HH. induction HH as [|h hs Hh _ IH]; [done|]. change (handler_counted h + total handler_counted hs = 0).
    unfold handler_counted at 1. rewrite Hh. lia. }
  pose proof (Hstuck WaiterStep eq_refl) as Ha. pose proof (Hstuck DrainReturned eq_refl) as Hb. cbn in Ha, Hb.
  rewrite H3, H4, Hl0, Hh0 in Ha. destruct (sv_waiter s), (sv_drained s); try done.
Qed.

(** Without a timeout Drain can only answer true. *)
Lemma untimed_run s es s' : Forall (fun e => winding_down e = true) es -> server_run s es = Some s' ->
  sv_timeout s <= 0 -> sv_drained s <> Some false -> sv_drained s' <> Some false.
Proof.
  intros Hall. revert s. induction Hall as [|e es He _ IH]; intros s Hs Ht Hd; cbn in Hs; [by injection Hs as <-|].
  apply bind_Some in Hs as (s1 & Hs1 & Hs). destruct (winding_step s e s1 He Hs1) as (_ & Ht1 & _ & Hdr).
  apply (IH s1 Hs); [by rewrite Ht1|]. destruct (decide (sv_drained s1 = sv_drained s)) as [->|Ne]; [done|].
  destruct (Hdr Ne) as [_ H1]. by rewrite H1.
Qed.

(** C12: a drain comes to its end.  Once Drain has been called and the listeners
    only report that they are closed, every interleaving of the goroutines has at
    most [steps_left] steps, so it cannot go on for ever; and when no goroutine can
    go on, [done] is closed and Drain has returned, with true unless its timeout
    could expire. *)
Theorem Drain_terminates maxConcurrent logf s es s' :
  reachable maxConcurrent logf s -> sv_waiter s <> NotDraining ->
  Forall (fun e => winding_down e = true) es -> server_run s es = Some s' ->
  Z.of_nat (length es) <= steps_left s /\
  ((forall e, winding_down e = true -> server_step s' e = None) ->
   sv_waiter s' = DoneClosed /\
   exists b, sv_drained s' = Some b /\ (sv_drained s = None -> sv_timeout s <= 0 -> b = true)).
Proof.
  intros Hr Hw Hall Hs. split.
  - clear Hr. revert s Hw Hs. induction Hall as [|e es He _ IH]; intros s Hw Hs; cbn in Hs; [apply steps_left_nonneg|].
    apply bind_Some in Hs as (s1 & Hs1 & Hs). destruct (winding_step s e s1 He Hs1) as (Hlt & _ & Hw1 & _).
    specialize (IH s1 (Hw1 Hw) Hs). cbn [length]. lia.
  - intros Hstuck. assert (sv_waiter s' <> NotDraining) as Hw'.
    { clear Hr Hstuck. revert s Hw Hs. induction Hall as [|e es He _ IH]; intros s Hw Hs; cbn in Hs; [by injection Hs as <-|].
      apply bind_Some in Hs as (s1 & Hs1 & Hs). destruct (winding_step s e s1 He Hs1) as (_ & _ & Hw1 & _). eauto. }
    destruct (winding_progress maxConcurrent s') as [Hd [b Hb]];
      [eapply reachable_ok; by eapply reachable_run|done|done|].
    split; [done|]. exists b. split; [done|]. intros Hn Ht.
    pose proof (untimed_run s es s' Hall Hs Ht ltac:(by rewrite Hn)) as Hf. rewrite Hb in Hf. by destruct b.
Qed.

(** ** Routes *)

Lemma ParseRoute_text value r : ParseRoute value = Ok r -> route_text r = value.
Proof.
  unfold ParseRoute. destruct (cut_byte _ value) as [[listen backend]|] eqn:E; [|done].
  destruct (_ || _); [done|]. intros [= <-]. apply cut_byte_Some in E as [-> _]. done.
Qed.

Fixpoint set_all (rs : list Route) (values : list string) : result (list Route) :=
  match values with
  | [] => Ok rs
  | v :: rest => rs' ← Routes_Set rs v; set_all rs' rest
  end.

Lemma set_all_text rs values rs' : set_all rs values = Ok rs' -> map route_text rs' = map route_text rs ++ values.
Proof.
  revert rs. induction values as [|v rest IH]; intros rs; cbn; [intros [= <-]; by rewrite app_nil_r|].
  unfold Routes_Set. destruct (ParseRoute v) as [r|e] eqn:E; [|done]. cbn. intros H. rewrite (IH _ H), map_app. cbn.
  by rewrite (ParseRoute_text _ _ E), <- app_assoc.
Qed.

(** C40: route flags are read and shown without loss: a value is accepted exactly
    when it is LISTEN=BACKEND with neither side blank, split at its first equals
    sign; the text of the route is the value again; and after any accepted flags
    Routes.String is their values joined by commas, in order. *)
Theorem Routes_round_trip :
  (forall value r, ParseRoute value = Ok r <->
     has_byte "="%char (rt_Listen r) = false /\ value = route_text r /\
     TrimSpace (rt_Listen r) <> "" /\ TrimSpace (rt_Backend r) <> "" /\
     rt_Port r = match SplitHostPort (rt_Listen r) with Ok (_, p) => (Atoi p).1 | Err _ => 0 end) /\
  (forall values rs, set_all [] values = Ok rs -> Routes_String rs = str_join "," values) /\
  (forall values e, set_all [] values = Err e -> exists v, v ∈ values /\ ParseRoute v = Err e).
Proof.
  split_and!.
  - intros value r. unfold ParseRoute. split.
    + destruct (cut_byte _ value) as [[listen backend]|] eqn:E; [|done].
      destruct (bool_decide_reflect (TrimSpace listen = "")); [done|].
      destruct (bool_decide_reflect (TrimSpace backend = "")); [done|]. intros [= <-].
      apply cut_byte_Some in E as [-> Hn]. by split_and!.
    + intros (Hn & -> & Hl & Hb & Hp). unfold route_text.
      assert (cut_byte "="%char (rt_Listen r +:+ "=" +:+ rt_Backend r) = Some (rt_Listen r, rt_Backend r)) as ->
        by (by apply cut_byte_Some).
      rewrite !bool_decide_false by done. cbn [orb]. rewrite <- Hp. by destruct r.
  - intros values rs H. unfold Routes_String. by rewrite (set_all_text _ _ _ H).
  - intros values. generalize (@nil Route). induction values as [|v rest IH]; intros rs e; cbn; [done|].
    unfold Routes_Set. destruct (ParseRoute v) as [r|e'] eqn:E; cbn.
    + intros H. destruct (IH _ _ H) as (v' & Hv & Hp). exists v'. split; [by right|done].
    + intros [= ->]. exists v. split; [by left|done].
Qed.

(** A port outside 0..65535 is kept: only the syntax of host:port is checked, and
    Atoi's clamped value is used on a range error. *)
Example Port_is_not_checked :
  rt_Port <$> (match ParseRoute ":-5=b:1" with Ok r => Some r | Err _ => None end) = Some (-5) /\
  rt_Port <$> (match ParseRoute ":99999999999999999999=b:1" with Ok r => Some r | Err _ => None end) = Some int64_max.
Proof. split; vm_compute; reflexivity. Qed.

(** ** Concrete runs *)

Definition demo_route : Route := {| rt_Listen := ":22"; rt_Backend := "127.0.0.1:2222"; rt_Port := 22 |}.

Definition demo_server : Server :=
  match NewServer 1 true with Ok s => s | Err _ => {| sv_sem := None; sv_logf := false; sv_acceptWG := 0;
    sv_connWG := 0; sv_loops := []; sv_handlers := []; sv_accepted := 0; sv_dropped := [];
    sv_waiter := NotDraining; sv_timeout := 0; sv_drained := None; sv_log := [] |} end.

(** One handler at a time: the second client is turned away while the first is
    being served. *)
Definition demo_serving : list Event :=
  [ServeCalled demo_route; AcceptReturned 0 (Some "192.0.2.1:4000"); LoopStep 0; LoopStep 0; LoopStep 0;
   AcceptReturned 0 (Some "[2001:db8::1]:4001"); LoopStep 0; LoopStep 0].

(** The drain, the handler finishing in the middle of it. *)
Definition demo_draining : list Event :=
  [ListenerClosed 0; LoopStep 0; WaiterStep; HandlerReturned 0; ConnClosed 0 None; HandlerStep 0; HandlerStep 0;
   WaiterStep; DrainReturned].

Definition after (es : list Event) : Server := default demo_server (server_run demo_server es).

Lemma demo_reachable es : is_Some (server_run demo_server es) -> reachable 1 true (after es).
Proof.
  intros [s Hs]. unfold after. rewrite Hs. eapply reachable_run; [apply reachable_new; reflexivity|exact Hs].
Qed.

Lemma after_run es : bool_decide (is_Some (server_run demo_server es)) = true ->
  server_run demo_server es = Some (after es).
Proof. intros [s Hs]%bool_decide_eq_true. unfold after. by rewrite Hs. Qed.

Lemma Server_is_bounded_witness :
  sv_log (after demo_serving) = [("[%s] OVERLOAD dropping connection on %s", ["2001:db8::1"; ":22"])] /\
  slots_held (after demo_serving) <= 1.
Proof.
  split; [vm_compute; reflexivity|].
  apply (Server_is_bounded 1 true (after demo_serving) (demo_reachable demo_serving ltac:(vm_compute; by eexists))).
  done.
Defined.

Lemma Drain_true_means_done_witness :
  sv_drained (after (demo_serving ++ DrainCalled 0 :: demo_draining)) = Some true /\
  slots_held (after (demo_serving ++ DrainCalled 0 :: demo_draining)) = 0.
Proof.
  split; [vm_compute; reflexivity|].
  refine (proj1 (proj2 (proj2 (Drain_true_means_done 1 true demo_server demo_serving 0 demo_draining _
    (reachable_new 1 true demo_server eq_refl) (after_run _ _) _ _)))).
  - vm_compute. reflexivity.
  - repeat constructor.
  - vm_compute. reflexivity.
Defined.

Lemma Drain_terminates_witness :
  steps_left (after (demo_serving ++ [DrainCalled 0])) = 9 /\ length demo_draining = 9%nat /\
  Z.of_nat (length demo_draining) <= steps_left (after (demo_serving ++ [DrainCalled 0])).
Proof.
  split; [vm_compute; reflexivity|]. split; [reflexivity|].
  refine (proj1 (Drain_terminates 1 true (after (demo_serving ++ [DrainCalled 0])) demo_draining
    (after (demo_serving ++ DrainCalled 0 :: demo_draining)) (demo_reachable _ _) _ _ _)).
  - vm_compute. by eexists.
  - vm_compute. discriminate.
  - repeat constructor.
  - vm_compute. reflexivity.
Defined.
