(* ===== verification/Lifecycle.v ===== *)
(** Package lifecycle (lifecycle/lifecycle.go): the manager of one gate process.
    The signal loop, arriving signals and Close run concurrently; the model is a
    state and a step per operation.  tableflip's upgrader is a parameter: what its
    calls return is part of an event, and the calls made on it are recorded. *)

From S2P Require Import Prelude GoStrings.
From Stdlib Require Import Ascii String.
From stdpp Require Import strings list.
#[local] Open Scope stdpp_scope.
#[local] Open Scope Z_scope.

(** The signals New asks for. *)
Inductive Signal := SIGHUP | SIGTERM | SIGINT.
#[export] Instance Signal_eq_dec : EqDecision Signal.
Proof. solve_decision. Defined.

Definition signal_text (s : Signal) : string :=
  match s with SIGHUP => "hangup" | SIGTERM => "terminated" | SIGINT => "interrupt" end.

(** The calls on upgradeController. *)
Inductive ControllerCall := CallUpgrade | CallStop.
#[export] Instance ControllerCall_eq_dec : EqDecision ControllerCall.
Proof. solve_decision. Defined.

(** Where watchSignals is: in its select; in Upgrade; between setting terminating
    and Stop; returned. *)
Inductive WatchPhase := Watching | Upgrading | Stopping | WatchEnded.
#[export] Instance WatchPhase_eq_dec : EqDecision WatchPhase.
Proof. solve_decision. Defined.

Record Manager := {
  mg_signals : list Signal;
  mg_notify : bool;
  mg_done : bool;
  mg_closed : bool;
  mg_terminating : bool;
  mg_phase : WatchPhase;
  mg_calls : list ControllerCall;
  mg_logf : bool;
  mg_log : list (string * list string)
}.

(** lifecycle.New, given what tableflip.New returns. *)
Definition lifecycle_New (upgrader : result unit) (logf : bool) : result Manager :=
  _ ← upgrader;
  Ok {| mg_signals := []; mg_notify := true; mg_done := false; mg_closed := false;
        mg_terminating := false; mg_phase := Watching; mg_calls := []; mg_logf := logf; mg_log := [] |}.

(** Manager.Terminating *)
Definition Terminating (m : Manager) : bool := mg_terminating m.

Definition with_log (format : string) (args : list string) (m : Manager) : Manager :=
  {| mg_signals := mg_signals m; mg_notify := mg_notify m; mg_done := mg_done m; mg_closed := mg_closed m;
     mg_terminating := mg_terminating m; mg_phase := mg_phase m; mg_calls := mg_calls m;
     mg_logf := mg_logf m;
     mg_log := if mg_logf m then mg_log m ++ [(format, args)] else mg_log m |}.

Definition with_signals (s : list Signal) (m : Manager) : Manager :=
  {| mg_signals := s; mg_notify := mg_notify m; mg_done := mg_done m; mg_closed := mg_closed m;
     mg_terminating := mg_terminating m; mg_phase := mg_phase m; mg_calls := mg_calls m;
     mg_logf := mg_logf m; mg_log := mg_log m |}.

Definition with_phase (p : WatchPhase) (m : Manager) : Manager :=
  {| mg_signals := mg_signals m; mg_notify := mg_notify m; mg_done := mg_done m; mg_closed := mg_closed m;
     mg_terminating := mg_terminating m; mg_phase := p; mg_calls := mg_calls m;
     mg_logf := mg_logf m; mg_log := mg_log m |}.

Definition with_call (c : ControllerCall) (m : Manager) : Manager :=
  {| mg_signals := mg_signals m; mg_notify := mg_notify m; mg_done := mg_done m; mg_closed := mg_closed m;
     mg_terminating := mg_terminating m; mg_phase := mg_phase m; mg_calls := mg_calls m ++ [c];
     mg_logf := mg_logf m; mg_log := mg_log m |}.

Definition set_terminating (m : Manager) : Manager :=
  {| mg_signals := mg_signals m; mg_notify := mg_notify m; mg_done := mg_done m; mg_closed := mg_closed m;
     mg_terminating := true; mg_phase := mg_phase m; mg_calls := mg_calls m;
     mg_logf := mg_logf m; mg_log := mg_log m |}.

(** Manager.Close: the function inside closeOnce.Do, once. *)
Definition Manager_Close (m : Manager) : Manager :=
  if mg_closed m then m
  else
    {| mg_signals := mg_signals m; mg_notify := false; mg_done := true; mg_closed := true;
       mg_terminating := mg_terminating m; mg_phase := mg_phase m; mg_calls := mg_calls m ++ [CallStop];
       mg_logf := mg_logf m; mg_log := mg_log m |}.

Inductive LifecycleEvent :=
  | SignalArrives (sig : Signal)
  | WatchTakes (sig : Signal)
  | WatchSeesDone
  | UpgradeReturned (err : option string)
  | WatchStops
  | CloseCalled.
#[export] Instance LifecycleEvent_eq_dec : EqDecision LifecycleEvent.
Proof. solve_decision. Defined.

(** signal.Notify sends without blocking into a channel of one element, as long as
    it is on; a signal arriving after Close has its default effect, which is
    outside this process.  The rest is the select of watchSignals and its branches;
    an upgrade is recorded when it is started. *)
Definition manager_step (m : Manager) (e : LifecycleEvent) : option Manager :=
  match e with
  | SignalArrives sig =>
      if negb (mg_notify m) then None
      else match mg_signals m with
           | [] => Some (with_signals [sig] m)
           | _ => Some m
           end
  | WatchTakes sig =>
      match mg_phase m, mg_signals m with
      | Watching, s :: rest =>
          if negb (bool_decide (s = sig)) then None
          else
            let m := with_signals rest m in
            if bool_decide (sig = SIGHUP)
            then Some (with_phase Upgrading (with_call CallUpgrade (with_log "SIGHUP: starting upgrade" [] m)))
            else Some (with_phase Stopping (set_terminating (with_log "%s: shutting down" [signal_text sig] m)))
      | _, _ => None
      end
  | WatchSeesDone =>
      match mg_phase m with
      | Watching => if mg_done m then Some (with_phase WatchEnded m) else None
      | _ => None
      end
  | UpgradeReturned err =>
      match mg_phase m with
      | Upgrading =>
          Some (with_phase Watching (match err with
                                     | Some msg => with_log "upgrade failed: %v" [msg] m
                                     | None => m
                                     end))
      | _ => None
      end
  | WatchStops =>
      match mg_phase m with
      | Stopping => Some (with_phase WatchEnded (with_call CallStop m))
      | _ => None
      end
  | CloseCalled => Some (Manager_Close m)
  end.

Fixpoint manager_run (m : Manager) (es : list LifecycleEvent) : option Manager :=
  match es with
  | [] => Some m
  | e :: rest => m' ← manager_step m e; manager_run m' rest
  end.

(** The signals the loop has taken from the channel. *)
Definition taken (es : list LifecycleEvent) : list Signal :=
  omap (fun e => match e with WatchTakes sig => Some sig | _ => None end) es.

Definition count_calls (c : ControllerCall) (m : Manager) : nat := length (filter (fun x => x = c) (mg_calls m)).
Definition b2n (b : bool) : nat := if b then 1%nat else 0%nat.

(** What holds after any events. *)
Record manager_ok (es : list LifecycleEvent) (m : Manager) : Prop := {
  mo_buffer : (length (mg_signals m) <= 1)%nat;
  mo_terminating : mg_terminating m = existsb (fun s => negb (bool_decide (s = SIGHUP))) (taken es);
  mo_upgrades : count_calls CallUpgrade m = length (filter (fun s => s = SIGHUP) (taken es));
  mo_phase : (mg_terminating m = true <-> mg_phase m = Stopping \/ mg_phase m = WatchEnded /\ mg_terminating m = true);
  mo_stops : count_calls CallStop m =
    (b2n (mg_closed m) + b2n (mg_terminating m && bool_decide (mg_phase m = WatchEnded)))%nat;
  mo_done : mg_done m = mg_closed m /\ mg_notify m = negb (mg_closed m)
}.

Lemma count_calls_snoc c m m' x : mg_calls m' = mg_calls m ++ [x] ->
  count_calls c m' = if decide (x = c) then S (count_calls c m) else count_calls c m.
Proof.
  intros E. unfold count_calls. rewrite E, filter_app, length_app, filter_cons, filter_nil.
  destruct (decide (x = c)); cbn; lia.
Qed.

Lemma still_watching es m : manager_ok es m -> mg_phase m = Watching \/ mg_phase m = Upgrading ->
  mg_terminating m = false.
Proof.
  intros [_ _ _ H4 _ _] Hp. destruct (mg_terminating m); [|done].
  destruct (proj1 H4 eq_refl) as [?|[? _]], Hp; congruence.
Qed.

(** A step that neither takes a signal nor calls the upgrader nor ends the loop. *)
Lemma manager_ok_quiet es e m m' : manager_ok es m -> taken [e] = [] ->
  (length (mg_signals m') <= 1)%nat -> mg_terminating m' = mg_terminating m -> mg_calls m' = mg_calls m ->
  mg_closed m' = mg_closed m -> mg_done m' = mg_done m -> mg_notify m' = mg_notify m ->
  mg_phase m' = mg_phase m \/ mg_terminating m = false /\ mg_phase m' <> Stopping ->
  manager_ok (es ++ [e]) m'.
Proof.
  intros [H1 H2 H3 H4 H5 H6] Hte E1 E2 E3 E4 E5 E6 E7.
  assert (taken (es ++ [e]) = taken es) as Ht by (unfold taken in *; by rewrite omap_app, Hte, app_nil_r).
  split; unfold count_calls in *; rewrite ?Ht, ?E2, ?E3, ?E4, ?E5, ?E6; try done.
  - destruct E7 as [->|[Hn Hp]]; [done|]. rewrite Hn. split; [done|]. by intros [?|[? ?]].
  - destruct E7 as [->|[Hn Hp]]; [done|]. rewrite Hn in *. done.
Qed.

Lemma watch_takes_ok es m sig m' : manager_ok es m -> manager_step m (WatchTakes sig) = Some m' ->
  manager_ok (es ++ [WatchTakes sig]) m'.
Proof.
  intros Hok Hs. pose proof Hok as [H1 H2 H3 H4 H5 H6]. cbn [manager_step] in Hs.
  destruct (mg_phase m) eqn:Ep; try done. destruct (mg_signals m) as [|s rest] eqn:Es; [done|].
  destruct (bool_decide_reflect (s = sig)) as [->|]; [|done]. cbn [negb] in Hs.
  assert (mg_terminating m = false) as Hnt by (apply (still_watching es); auto).
  assert (taken (es ++ [WatchTakes sig]) = taken es ++ [sig]) as Ht by (unfold taken; by rewrite omap_app).
  rewrite Hnt in *. cbn [length] in H1.
  assert (existsb (fun s => negb (bool_decide (s = SIGHUP))) (taken es ++ [sig]) =
    negb (bool_decide (sig = SIGHUP))) as Hex by (rewrite existsb_app, <- H2; cbn; by rewrite orb_false_r).
  assert (length (filter (fun y => y = SIGHUP) (taken es ++ [sig])) =
    (length (filter (fun y => y = SIGHUP) (taken es)) + b2n (bool_decide (sig = SIGHUP)))%nat) as Hcount.
  { rewrite filter_app, length_app, filter_cons, filter_nil.
    destruct (decide (sig = SIGHUP)); [by rewrite bool_decide_true|by rewrite bool_decide_false]. }
  destruct (bool_decide_reflect (sig = SIGHUP)) as [->|Hne]; injection Hs as <-;
    (split; rewrite ?Ht, ?Hex, ?Hcount, <- ?H3; cbn -[count_calls] in *; rewrite ?Hnt; [lia|done|..]).
  - erewrite (count_calls_snoc _ m) by reflexivity. rewrite decide_True by done. lia.
  - split; [done|]. by intros [?|[? ?]].
  - erewrite (count_calls_snoc _ m) by reflexivity. rewrite decide_False by done. exact H5.
  - done.
  - change (count_calls CallUpgrade m = (count_calls CallUpgrade m + 0)%nat). lia.
  - split; [by left|done].
  - exact H5.
  - done.
Qed.

Lemma manager_step_ok es m e m' : manager_ok es m -> manager_step m e = Some m' -> manager_ok (es ++ [e]) m'.
Proof.
  intros Hok Hs. pose proof Hok as [H1 H2 H3 H4 H5 H6].
  destruct e as [sig|sig| |err| |]; [|by apply watch_takes_ok with m|..]; cbn [manager_step] in Hs.
  - destruct (mg_notify m); [|done]. cbn [negb] in Hs.
    destruct (mg_signals m) eqn:Es; injection Hs as <-; (eapply manager_ok_quiet; [exact Hok|try done..]);
      rewrite ?Es; cbn in *; try lia; by left.
  - destruct (mg_phase m) eqn:Ep; try done. destruct (mg_done m) eqn:Ed; [|done].
    injection Hs as <-. eapply manager_ok_quiet; [exact Hok|done..|].
    right. split; [apply (still_watching es); auto|done].
  - destruct (mg_phase m) eqn:Ep; try done. injection Hs as <-.
    destruct err; (eapply manager_ok_quiet; [exact Hok|done..|]);
      (right; split; [apply (still_watching es); auto|done]).
  - destruct (mg_phase m) eqn:Ep; try done. injection Hs as <-.
    assert (mg_terminating m = true) as Htm by (apply H4; by left).
    assert (taken (es ++ [WatchStops]) = taken es) as Ht by (unfold taken; by rewrite omap_app, app_nil_r).
    rewrite Htm in *. split; rewrite ?Ht; cbn -[count_calls] in *; rewrite ?Htm; try done.
    + erewrite (count_calls_snoc _ m) by reflexivity. by rewrite decide_False.
    + split; [by right|done].
    + erewrite (count_calls_snoc _ m) by reflexivity. rewrite decide_True by done.
      rewrite bool_decide_false in H5 by done. rewrite bool_decide_true by done. cbn in *. lia.
  - injection Hs as <-. unfold Manager_Close. destruct (mg_closed m) eqn:Ec.
    + eapply manager_ok_quiet; [exact Hok|done..|by left].
    + assert (taken (es ++ [CloseCalled]) = taken es) as Ht by (unfold taken; by rewrite omap_app, app_nil_r).
      split; rewrite ?Ht; cbn -[count_calls] in *; try done.
      * erewrite (count_calls_snoc _ m) by reflexivity. by rewrite decide_False.
      * erewrite (count_calls_snoc _ m) by reflexivity. rewrite decide_True by done. lia.
Qed.

Lemma manager_run_ok m es0 es m' : manager_ok es0 m -> manager_run m es = Some m' -> manager_ok (es0 ++ es) m'.
Proof.
  revert m es0. induction es as [|e es IH]; intros m es0 Hok Hr; cbn in Hr.
  { injection Hr as <-. by rewrite app_nil_r. }
  apply bind_Some in Hr as (m1 & Hs & Hr). rewrite (cons_middle e es0 es), app_assoc.
  eapply IH; [|exact Hr]. by eapply manager_step_ok.
Qed.

(** C15: what signals do, in any interleaving with Close: the process counts as
    terminating exactly when a terminating signal was taken (a SIGHUP, even with a
    failing upgrade, never does that); each SIGHUP taken starts one upgrade; the
    upgrader is stopped once for the terminating signal and once for Close, however
    often Close is called; a failed upgrade leaves the loop watching; and the
    channel never holds more than one signal. *)
Theorem Manager_signals logf m es m' :
  lifecycle_New (Ok tt) logf = Ok m -> manager_run m es = Some m' ->
  Terminating m' = existsb (fun s => negb (bool_decide (s = SIGHUP))) (taken es) /\
  count_calls CallUpgrade m' = length (filter (fun s => s = SIGHUP) (taken es)) /\
  count_calls CallStop m' =
    (b2n (bool_decide (CloseCalled ∈ es)) + b2n (Terminating m' && bool_decide (mg_phase m' = WatchEnded)))%nat /\
  Manager_Close (Manager_Close m') = Manager_Close m' /\
  (forall msg m2, manager_step m' (UpgradeReturned (Some msg)) = Some m2 ->
     mg_phase m2 = Watching /\ Terminating m2 = false /\ mg_calls m2 = mg_calls m') /\
  (length (mg_signals m') <= 1)%nat.
Proof.
  intros Hn Hr. cbn in Hn. injection Hn as <-.
  set (m0 := {| mg_signals := []; mg_logf := logf |}) in *.
  assert (manager_ok [] m0) as H0 by (split; cbn; try done; try lia; split; [done|by intros [?|[? ?]]]).
  pose proof (manager_run_ok m0 [] es m' H0 Hr) as Hok. cbn [app] in Hok.
  assert (mg_closed m' = bool_decide (CloseCalled ∈ es)) as Hc.
  { assert (forall es m m', manager_run m es = Some m' ->
      mg_closed m' = mg_closed m || bool_decide (CloseCalled ∈ es)) as Hgen; [|by rewrite (Hgen es m0 m' Hr)].
    clear. induction es as [|e es IH]; intros m m' Hr; cbn in Hr.
    { injection Hr as <-. rewrite bool_decide_false by (by intros ?%elem_of_nil). by rewrite orb_false_r. }
    apply bind_Some in Hr as (m1 & Hs & Hr). rewrite (IH m1 m' Hr).
    assert (mg_closed m1 = mg_closed m || bool_decide (e = CloseCalled)) as ->.
    { unfold Manager_Close, manager_step in Hs. repeat case_match; simplify_eq; cbn; rewrite ?orb_false_r, ?orb_true_r; try done.
      unfold Manager_Close. by destruct (mg_closed m) eqn:E. }
    rewrite <- orb_assoc. f_equal. destruct (decide (e = CloseCalled)) as [->|Hne].
    - rewrite bool_decide_true by done. symmetry. apply bool_decide_true. by left.
    - rewrite (bool_decide_false (e = CloseCalled)) by done. apply bool_decide_ext.
      rewrite elem_of_cons. split; [by right|]. intros [E|?]; [by destruct Hne|done]. }
  destruct Hok as [H1 H2 H3 H4 H5 H6]. unfold Terminating in *. rewrite Hc in H5.
  split_and!; try done.
  - unfold Manager_Close. by destruct (mg_closed m') eqn:E; cbn; rewrite ?E.
  - intros msg m2. cbn [manager_step]. destruct (mg_phase m') eqn:Ep; try done. intros [= <-]. cbn. split_and!; try done.
    destruct (mg_terminating m'); [|done]. destruct (proj1 H4 eq_refl) as [?|[? _]]; congruence.
Qed.

(** ** What is forwarded to tableflip *)

(** The upgrader's other methods; whether its exit channel is closed depends on the
    calls made on it so far (and on the process it started, which is part of the
    parameter). *)
Class Upgrader := {
  Listener : Type;
  up_Listen : string -> string -> result Listener;
  up_Ready : result unit;
  up_Exited : list ControllerCall -> bool
}.

Section forwarding.
Context `{Upgrader}.

Definition Manager_Listen (network address : string) : result Listener := up_Listen network address.
Definition Manager_Ready : result unit := up_Ready.
(** Wait returns once the exit channel is closed; [None] while it blocks. *)
Definition Manager_Wait (m : Manager) : option unit := if up_Exited (mg_calls m) then Some tt else None.

(** With the documented behaviour of Stop, a terminating signal or Close unblocks
    Wait. *)
Lemma Wait_unblocks logf m es m' :
  (forall calls, CallStop ∈ calls -> up_Exited calls = true) ->
  lifecycle_New (Ok tt) logf = Ok m -> manager_run m es = Some m' ->
  mg_closed m' = true \/ Terminating m' = true /\ mg_phase m' = WatchEnded ->
  Manager_Wait m' = Some tt.
Proof.
  intros Hstop Hn Hr Hend. unfold Manager_Wait. rewrite Hstop; [done|].
  injection Hn as <-. apply (manager_run_ok _ []) in Hr as [_ _ _ _ H5 _];
    [|split; cbn; try done; try lia; split; [done|by intros [?|[? ?]]]].
  assert (0 < count_calls CallStop m')%nat as Hc.
  { rewrite H5. unfold Terminating in Hend. destruct Hend as [->|[-> Hp]]; [cbn; lia|].
    rewrite bool_decide_true by done. cbn. lia. }
  unfold count_calls in Hc. destruct (filter _ (mg_calls m')) as [|c l] eqn:E; [cbn in Hc; lia|].
  assert (c ∈ filter (fun x => x = CallStop) (mg_calls m')) as Hin by (rewrite E; by left).
  by apply list_elem_of_filter in Hin as [-> ?].
Qed.
End forwarding.

Definition demo_manager : Manager :=
  {| mg_signals := []; mg_notify := true; mg_done := false; mg_closed := false;
     mg_terminating := false; mg_phase := Watching; mg_calls := []; mg_logf := true; mg_log := [] |}.

(** A reload that fails, a second signal lost in the full channel, then the end. *)
Definition demo_signals : list LifecycleEvent :=
  [SignalArrives SIGHUP; WatchTakes SIGHUP; SignalArrives SIGTERM; SignalArrives SIGHUP;
   UpgradeReturned (Some "parent not ready"); WatchTakes SIGTERM; CloseCalled; WatchStops; CloseCalled].

Definition demo_managed : Manager := default demo_manager (manager_run demo_manager demo_signals).

Lemma Manager_signals_witness :
  mg_calls demo_managed = [CallUpgrade; CallStop; CallStop] /\
  Terminating demo_managed = true /\ (length (mg_signals demo_managed) <= 1)%nat.
Proof.
  assert (manager_run demo_manager demo_signals = Some demo_managed) as E by (vm_compute; reflexivity).
  destruct (Manager_signals true demo_manager demo_signals demo_managed eq_refl E) as (H1 & _ & _ & _ & _ & H2).
  split; [vm_compute; reflexivity|]. split; [rewrite H1; vm_compute; reflexivity|exact H2].
Defined.

(** A terminating signal that arrives while a SIGHUP waits in the channel of one
    is lost: the process goes on as if it had not been sent. *)
Lemma terminate_can_be_lost :
  (fun m => (Terminating m, mg_phase m, mg_signals m)) <$>
    manager_run demo_manager
      [SignalArrives SIGHUP; WatchTakes SIGHUP; SignalArrives SIGHUP; SignalArrives SIGTERM;
       UpgradeReturned (Some "parent not ready"); WatchTakes SIGHUP; UpgradeReturned (Some "parent not ready")] =
  Some (false, Watching, []).
Proof. vm_compute. reflexivity. Qed.
