(* ===== verification/SdNotify.v ===== *)
(** Package sdnotify (sdnotify/sdnotify.go and cleanup.go): the notification sent
    to systemd.  The environment variable and what dialling, writing and closing
    the socket give are arguments. *)

From S2P Require Import Prelude GoStrings Database.
From Stdlib Require Import Ascii String.
From stdpp Require Import strings.
#[local] Open Scope stdpp_scope.
#[local] Open Scope Z_scope.

(** What the system calls on the socket of a given name return. *)
Record SocketCalls := {
  sk_dial : string -> result unit;
  sk_write : string -> result unit;
  sk_close : result unit
}.

Definition nul_byte : ascii := ascii_of_N 0.

(** A leading [@] names a socket of the abstract name space. *)
Definition socket_name (socket : string) : string :=
  match socket with
  | String c rest => if bool_decide (c = "@"%char) then String nul_byte rest else socket
  | EmptyString => socket
  end.

(** closeWithError (sdnotify/cleanup.go), on the result of the rest. *)
Definition sd_closeWithError (context : string) (closed : result unit) (r : result unit) : result unit :=
  join_result r (closeError context closed).

(** Notify, with the datagrams it writes as (socket, state) pairs. *)
Definition Notify (env : string) (os : SocketCalls) (state : string) : result unit * list (string * string) :=
  if bool_decide (env = "") then (Ok tt, [])
  else
    let socket := socket_name env in
    match sk_dial os socket with
    | Err e => (Err (ErrWrap "dial notification socket" e), [])
    | Ok _ =>
        match sk_write os state with
        | Err e => (sd_closeWithError "close notification socket" (sk_close os) (Err (ErrWrap "write notification" e)), [])
        | Ok _ => (sd_closeWithError "close notification socket" (sk_close os) (Ok tt), [(socket, state)])
        end
    end.

(** Ready *)
Definition newline : string := String (ascii_of_N 10) "".
Definition Ready (env : string) (os : SocketCalls) (pid : Z) : result unit * list (string * string) :=
  Notify env os ("READY=1" +:+ newline +:+ "MAINPID=" +:+ Itoa pid).

(** Success is exactly: no socket is configured and nothing is sent, or every call
    succeeded and the state was sent once, to the socket named. *)
Lemma Notify_ok env os state sent :
  Notify env os state = (Ok tt, sent) <->
  (env = "" /\ sent = []) \/
  (env <> "" /\ sent = [(socket_name env, state)] /\ is_ok (sk_dial os (socket_name env)) = true /\
   is_ok (sk_write os state) = true /\ is_ok (sk_close os) = true).
Proof.
  unfold Notify, sd_closeWithError, closeError. destruct (bool_decide_reflect (env = "")) as [He|He]; [naive_solver|].
  destruct (sk_dial os _) as [[]|]; [|cbn; naive_solver].
  destruct (sk_write os state) as [[]|]; destruct (sk_close os) as [[]|]; cbn; naive_solver.
Qed.

Example ready_abstract :
  Ready "@systemd" {| sk_dial _ := Ok tt; sk_write _ := Ok tt; sk_close := Ok tt |} 42 =
  (Ok tt, [(String nul_byte "systemd", "READY=1" +:+ newline +:+ "MAINPID=42")]).
Proof. reflexivity. Qed.
